(* ===== verification/_CoqProject ===== *)
-Q . S2P
Prelude.v
Float.v
Msgpack.v
Crypto.v
Buffer.v
Hdlc.v
Packet.v
Resource.v
ReqTracker.v
Iface.v
Identity.v
Destination.v
Link.v
Transport.v
Stamp.v
Message.v
Rns.v
Delivery.v
Node.v
Requests.v
PnDirectory.v
PropStore.v
Peer.v
PeerCodec.v
StorageCodec.v
StorageTables.v
MessageStore.v
PropDisk.v
Display.v
Links.v
Tickets.v
Outbound.v
Runtime.v
Messaging.v
Router.v
Propagation.v
Cleaning.v
PeerSync.v
Peering.v
DaemonFiles.v
Daemon.v
Remote.v
Status.v
Main.v
Kaonic.v
Interfaces.v
Network.v
Wire.v
Connect.v
Tables.v
Typing.v
Api.v
