(* ===== verification/Prelude.v ===== *)
(** * A verification of the LXMF stack in Rust

    LXMF is a store-and-forward messaging protocol on top of the Reticulum
    network.  The repository holds three crates: [reticulum-patched] (the
    network: packets, framing, identities, destinations, links), [lxmf-rs]
    (messages, stamps, and under [rns/] the routers, stores, peers and the
    propagation-node directory) and [lxmd-rs] (the daemon).  This library
    translates their core into Rocq functions, file by file, and proves what
    makes each part correct and how the parts compose.  The first file, this
    one, holds what the others share.

    ** How code becomes definitions

    - A [Result] is [result E A]; [?] is the bind.  A function that panics on
      some input returns [result (fault E) A], and [Err Panics] is the panic.
      A method through [&mut self] takes the record and returns the new one;
      where an early return keeps the writes made before it, the monad is
      [stres].
    - Integers are [Z] with their width written out: casts, saturating and
      wrapping operations are definitions of this file, and the predicates
      [is_u8], [is_u32], [is_u64] say what fits.  Additions that Rust checks
      only in debug builds wrap.
    - Bytes are [Byte.byte]; an array [[u8; n]] is [arr n], a byte list of
      length [n].  Strings are Rocq strings of bytes.
    - [f64] is the Standard Library's executable IEEE-754 ([Float]).
    - A [HashMap] is a [gmap].  Where the source iterates over one, the order
      is a parameter ([HashIter]) of which only a permutation of the entries is
      assumed.
    - Clocks, random draws and the choices of a scheduler are arguments.
    - Crates outside the repository are type classes with their laws apart:
      [Crypto] and [CryptoLaws] (SHA-256, HKDF, Ed25519, base64),
      [IdentityCrypto] and [IdentityLaws] (AES-CBC, HMAC, X25519, key
      encodings), [Msgpack] and [MsgpackLaws] (the [rmpv] codec), [TomlParse]
      (the configuration file).  The text of a double is [F64Display] and
      [F64Parse] with [F64TextLaws], and [F64Fixed] to a number of decimals; the
      debug form of a value is [ValueDebug].  Each has a small executable
      instance, on which the witnesses compute.
    - A callback, a log line or a channel that the modelled state does not
      depend on is dropped, or its messages are returned.

    ** The files, bottom up

    [reticulum-patched/src]:
    - [Buffer] ([buffer.rs]): the fixed-capacity buffer and the two cursors; a
      [StaticBuffer] refines a bounded list.
    - [Hdlc] ([iface/hdlc.rs]): framing; decoding a frame gives the bytes back.
    - [Packet] ([hash.rs], [packet.rs], [serde.rs]): addresses, headers, the
      wire format and its round trip, the packet hash.
    - [Iface] ([iface/tcp_client.rs], [iface/udp.rs]): the interface tasks as
      functions of what the socket reads; the packets sent are received
      however the stream is cut.
    - [Identity] ([crypt/fernet.rs], [identity.rs]): tokens, key derivation,
      identities.
    - [Destination] ([destination.rs]): names, addresses and announces.
    - [Link] ([destination/link.rs]): the handshake, data packets, and the
      authenticity of an active link as an invariant of a step relation.
    - [Resource] ([resource.rs], [utils/cache_set.rs]): payloads longer than a
      packet: the wire formats, the tracker that puts parts together, the state
      of an outgoing resource.
    - [ReqTracker] ([request.rs]): the receipts of pending requests, shared with
      their callers.
    - [Transport] ([transport.rs], [transport/packet_cache.rs], the sending half
      of [iface.rs]): the tables of links and destinations, every kind of
      received packet, the periodic checks, and what is sent on which interface.
    - [Kaonic] ([iface/kaonic.rs], [iface/kaonic/kaonic_grpc.rs]): the radio
      interface: packets packed in the words of a radio frame, the session with
      the radio server, its configuration and its reconnections.
    - [Interfaces] ([iface.rs], [iface/tcp_client.rs], [iface/tcp_server.rs],
      [iface/udp.rs]): the life of the tasks around [Iface] (connections, their
      two halves, reconnecting, cancellation) and the manager that holds them,
      as steps on what the sockets may do.
    - [Network] ([transport.rs], [manage_transport]): the tasks of a transport
      over its interfaces, with the sends that wait for room in a channel.
    - [Wire]: two of those networks joined by a TCP connection, and the
      specification they refine, two handlers with a queue of packets in each
      direction.  [Connect]: what the two do when one opens a link to the other.
      No code of their own.
    - [Tables] ([transport/path_table.rs], [destination/link_map.rs]): routing
      along a path; nothing calls these yet.

    [lxmf-rs/src]:
    - [Stamp] ([constants.rs] and the stamp functions of [message.rs]): work
      blocks, stamp values, the search for a stamp, node stamps, peering keys.
    - [Message] ([message.rs]): [LXMessage] with packing, signing, stamping,
      decoding, verifying, and the container, paper and propagation forms.
    - [Rns] ([rns/mod.rs]): delivery modes, errors, readers of values.
    - [Delivery] ([rns/transport.rs], the packet builders and parsers):
      [RnsOutbound], received packets, requests and responses.
    - [Requests] ([rns/router.rs]): the duplicate filter and the requests
      waiting for a response.
    - [PnDirectory] ([pn.rs], [rns/pn.rs]): propagation-node announces, the
      directory, its service and its protocol.
    - [PropStore] ([rns/storage.rs]): the messages a propagation node holds.
    - [Peer], [PeerCodec] ([rns/peer.rs]): peers, their table, the
      synchronisation session, and their byte formats.
    - [StorageCodec], [StorageTables], [MessageStore] ([rns/storage.rs]): what
      is written to disk and read back, the [MessageStore] trait as a class
      with its laws, and its two implementations.
    - [PropDisk] ([rns/storage.rs]): the directory of propagated messages, and
      when it mirrors a store.
    - [Display] ([packet.rs], [hash.rs], [buffer.rs]; their [fmt] functions): the
      text of what is logged, and what it tells apart.
    - [Tickets] ([rns/router.rs]): tickets that replace stamps.
    - [Outbound] ([rns/router.rs], [RnsRouter]): the queue over any
      [MessageStore], with attempts, retries, failures and restarts.
    - [Runtime] ([rns/router.rs], [LxmfRuntime]): the periodic tick.
    - [Messaging], [Links], [Router] ([rns/router.rs], [LxmfRouter]): the
      router's fields in three records.  [Messaging]: messages in and out,
      tickets, stamp costs, and the thread that releases deferred messages.
      [Links]: the links in use and the download of messages from a
      propagation node.  [Router] holds the other two and is the propagation
      node: acceptance and cleaning of propagated messages, peers and their
      synchronisation, announces, control requests, the inbound queue, the
      tick, and the start from a disk.
    - [Propagation], [Cleaning], [PeerSync], [Peering]: the theorems about the
      propagation node; no code of its own.
    - [Node] ([rns/transport.rs], [RnsNodeRouter]): the node that joins the two
      layers: events of links, resources and requests in and out, polling.
    - [Typing]: the ranges of the state's integers; no code of its own.
    - [Api] ([rns/transport.rs], [rns/router.rs]): what a program that embeds the
      crate calls besides: requests and directory packets by identity,
      constructors and setters.

    [lxmd-rs/src]:
    - [DaemonFiles] ([main.rs], [config.rs]): the disk, paths, the configuration
      and its file, the files of hashes, the identity.
    - [Daemon] ([main.rs]): the router built from a configuration, and the loop.
    - [Remote] ([main.rs]): a request to a daemon elsewhere.
    - [Status] ([main.rs]): the text of the status report.
    - [Main] ([main.rs]): every use of the program, from its arguments.

    ** What the theorems show

    - The path of a message: [message_roundtrip] (bytes), [packet_roundtrip],
      [hdlc_roundtrip], [tcp_stream_delivers] (wire) and their composition
      [message_over_the_wire]; [propagated_delivery] for the propagated mode;
      [stamped_message_accepted], [validate_stamp_exact], [stamp_rule],
      [generate_stamp_exact] and [validate_pn_stamp_exact] for the proof of
      work; [ticket_exchange] for the tickets that replace it.
    - The sending side: [outbound_queue_durable] (the store and the queue
      agree through every history, restarts included),
      [tick_accounts_for_messages] (the tick ends and loses nothing),
      [messages_settle] (every message is delivered or reported failed), and
      [deferred_messages_sent_once] over every interleaving with the stamp
      thread, with [contended_message_lost] for the case it excludes.
    - The network: [private_identities_communicate], [announce_validates],
      [link_handshake_agrees], [link_active_authentic] and
      [link_data_roundtrip]; over whole transports [transport_safe] (no
      received packet or check panics, and the links in the tables are
      authentic, in every reachable state) and [transports_connect] (request,
      proof, data between two transports).
    - Large payloads: [resource_transfer] (parts in any order and repeated give
      the data once), [resource_times_out] (a transfer without news ends),
      [node_receives_message] (the same through the events of a node, proof
      included), [receipts_conclude_once].
    - The propagation node: [propagation_node_sound] (in every history, restarts
      included, each message held has a good stamp, is filed under its hash and
      has its file, and a restart finds exactly those not out of date),
      [store_cleaned] (what cleaning removes, and that the limit holds after
      it), [peers_synchronise] (offer, request, payload and acknowledgement
      between two nodes, as bytes), [distribution_exact], [rotation_safe],
      [announce_understood], and [download_concludes] for the client's side.
    - The daemon: [start_up_stable] (a second start finds what the first made),
      [router_configured] (what the configuration file does, for any numbers),
      [daemon_sound] (from the command line through any turns of the loop, the
      messages held are good and the next turn ends), [inbound_messages_saved],
      [remote_request_concludes], [status_report_exact] (the report is the one
      written from the node's own fields), [hash_file_exact].
    - Interfaces: [tcp_connection_delivers] (two ends of a connection, however
      they are scheduled), [interfaces_managed] (addresses, channels and the end
      of every task), [path_routing]; and over them [network_safe] (a transport
      with its tasks, timers, interfaces and application: no turn panics, every
      packet is handled, and what can make a send wait).
    - Radio: [radio_frame_bytes] (the words of a frame are the packet's bytes,
      padding and order included), [radio_link_delivers] (packets sent by one
      radio are received by the other), [radio_session_life] (the session's
      state, when it configures the radio, and how it ends).
    - The layers together: [nodes_refine_transports] (two nodes with their
      tasks, channels, sockets and framing, however scheduled, do what two
      packet handlers joined by two queues do) and [nodes_connect] (between them
      schedule brings a link from its request to active at both ends).
    - Types: [state_typed_on_any_disk] (whatever the files hold, every integer
      of the queue, the failures, the deliveries in flight, the received
      messages, the peers and the statistics is in the range of its type).
    - State kept for others: [peer_machine_invariant],
      [peer_backoff_closed_form], [process_queues_exact],
      [propagation_store_invariant], [remove_older_than_exact],
      [pn_directory_invariant], [pn_directory_replicates] and, over packets,
      [directory_exchanged],
      [delivered_cache_window], [request_lifecycle], [message_store_outbound].
    - Error behaviour, where the code does not do what it means to:
      [deserialize_oversized_panics], [pending_link_accepts_zero_key],
      [identity_encrypt_unusable], [resource_send_panics],
      [new_outbound_panics], [hash_update_misplaced], [packets_unheard] (data packets are not heard),
      [daemon_forgets], [read_error_hangs], [unreachable_host_blocks], and parts
      of the theorems above.

    ** Fuel and bounds

    Loops over data are structural.  [Hdlc] and the codecs recurse on their
    input.  [generate_stamp] is bounded by the source's own [u32::MAX] rounds.
    [LxmfRuntime.deliver_loop] takes a number of turns; [deliver_ready] passes
    [delivery_turns], the sum of the attempts left, and
    [tick_accounts_for_messages] proves that this is enough whatever fails.
    [Resource.chunks] recurses on the length of the data.  [Wire] takes nodes of
    one TCP interface each, and [nodes_connect] a TCP buffer of at least
    256 bytes, which the packets of a handshake fit; the source's is larger.

    ** Not modelled

    - The sockets, the scheduler and signals: what they may do is the events of
      the step relations and the arguments of the loop's turns.
    - The client of the radio server, generated at build time from a protocol
      file: [Kaonic] takes its answers as events and its messages as records.
    - In [lxmd-rs]: parsing the command line, the TOML parser (a parameter),
      logging, the exit code.  What is printed and which commands are run is
      recorded, not performed.  Paths are compared as they are written: [..] and
      links between directories are not followed.
    - The accessors that only read or replace a field, the callbacks of the
      routers, conversions between error types, and the drawing of a QR code
      (a crate of its own).
    - Input and output errors of the file store of messages.
*)

From Stdlib Require Import ZArith Lia Permutation Sorted.
From Stdlib Require Import Strings.Byte.
From stdpp Require Import base gmap list strings numbers countable.

(** * Results

    Rust's [Result<A, E>], error type first so that [result E] is a monad and
    stdpp's [x ← c; k] is the [?] operator. *)
Inductive result (E A : Type) : Type :=
| Ok (a : A)
| Err (e : E).
Arguments Ok {E A} a.
Arguments Err {E A} e.

#[export] Instance result_bind {E} : MBind (result E) :=
  fun A B f r => match r with Ok a => f a | Err e => Err e end.
#[export] Instance result_ret {E} : MRet (result E) := fun A a => Ok a.
#[export] Instance result_fmap {E} : FMap (result E) :=
  fun A B f r => match r with Ok a => Ok (f a) | Err e => Err e end.
#[export] Instance result_eq_dec {E A} `{EqDecision E, EqDecision A} :
  EqDecision (result E A).
Proof. solve_decision. Defined.

(** [o.ok_or(e)] *)
Definition ok_or {E A} (o : option A) (e : E) : result E A :=
  match o with Some a => Ok a | None => Err e end.

(** [r.ok()] *)
Definition res_ok {E A} (r : result E A) : option A :=
  match r with Ok a => Some a | Err _ => None end.

(** [r.map_err(f)] *)
Definition map_err {E F A} (f : E -> F) (r : result E A) : result F A :=
  match r with Ok a => Ok a | Err e => Err (f e) end.

(** Code that mutates a state [S] through [&mut] and can return early with
    [?]: the writes made before the error stay. *)
Definition stres (S E A : Type) : Type := S -> S * result E A.

#[export] Instance stres_ret {S E} : MRet (stres S E) := fun A a s => (s, Ok a).
#[export] Instance stres_bind {S E} : MBind (stres S E) :=
  fun A B f m s => match m s with
                   | (s', Ok a) => f a s'
                   | (s', Err e) => (s', Err e)
                   end.

(** An answer computed from the state, which it leaves alone. *)
Definition st_get {S E A} (f : S -> result E A) : stres S E A := fun s => (s, f s).

Lemma stres_bind_Ok {S E A B} (m : stres S E A) (f : A -> stres S E B) s s' a :
  m s = (s', Ok a) -> (m ≫= f) s = f a s'.
Proof. intros H. unfold mbind, stres_bind. by rewrite H. Qed.

Lemma stres_bind_Err {S E A B} (m : stres S E A) (f : A -> stres S E B) s s' e :
  m s = (s', Err e) -> (m ≫= f) s = (s', Err e).
Proof. intros H. unfold mbind, stres_bind. by rewrite H. Qed.

(** A write to the state, and a fallible computation that does not touch it. *)
Definition st_modify {S E} (f : S -> S) : stres S E unit := fun s => (f s, Ok tt).
Definition st_lift {S E A} (r : result E A) : stres S E A := fun s => (s, r).

(** The [for x in l { out.push(f(x)?) }] loop. *)
Fixpoint res_mapM {E A B} (f : A -> result E B) (l : list A) : result E (list B) :=
  match l with
  | [] => Ok []
  | x :: l' => match f x with
               | Err e => Err e
               | Ok y => match res_mapM f l' with Err e => Err e | Ok ys => Ok (y :: ys) end
               end
  end.

Lemma res_mapM_map {E A B C} (f : B -> result E C) (g : A -> B) (h : A -> C) l :
  (forall a, f (g a) = Ok (h a)) -> res_mapM f (map g l) = Ok (map h l).
Proof. intros Hf. induction l as [|a l IH]; simpl; [done|]. by rewrite Hf, IH. Qed.

Lemma res_mapM_map_Forall {E A B C} (f : B -> result E C) (g : A -> B) (h : A -> C) l :
  Forall (fun a => f (g a) = Ok (h a)) l -> res_mapM f (map g l) = Ok (map h l).
Proof. induction 1 as [|a l Hf _ IH]; simpl; [done|]. by rewrite Hf, IH. Qed.

(** * Bytes *)

#[export] Instance byte_eq_dec : EqDecision byte := Byte.byte_eq_dec.
#[export] Program Instance byte_countable : Countable byte :=
  {| encode b := encode (Byte.to_N b); decode p := n ← decode p; Byte.of_N n |}.
Next Obligation. intros b. simpl. rewrite decode_encode. simpl. apply Byte.of_to_N. Qed.

Local Open Scope Z_scope.

(** The value of a [u8] as an integer, and [as u8] from an integer. *)
Definition u8 (b : byte) : Z := Z.of_N (Byte.to_N b).
Definition byte_of_Z (z : Z) : byte :=
  match Byte.of_N (Z.to_N (z mod 256)) with Some b => b | None => x00 end.

Lemma u8_range b : 0 <= u8 b < 256.
Proof. unfold u8. pose proof (Byte.to_N_bounded b). lia. Qed.

Lemma u8_of_Z z : u8 (byte_of_Z z) = z mod 256.
Proof.
  unfold u8, byte_of_Z. pose proof (Z.mod_pos_bound z 256 ltac:(lia)) as H.
  destruct (Byte.of_N _) as [b|] eqn:E.
  - apply Byte.to_of_N in E. rewrite E. lia.
  - apply Byte.of_N_None_iff in E. lia.
Qed.

Lemma byte_of_u8 b : byte_of_Z (u8 b) = b.
Proof.
  unfold byte_of_Z, u8. rewrite Z.mod_small by (pose proof (u8_range b); unfold u8 in *; lia).
  by rewrite N2Z.id, Byte.of_to_N.
Qed.

Lemma u8_inj b c : u8 b = u8 c -> b = c.
Proof. intros H. by rewrite <- (byte_of_u8 b), H, byte_of_u8. Qed.

(** * Big-endian numbers *)

Fixpoint be_val (l : list byte) : Z :=
  match l with
  | [] => 0
  | b :: l' => u8 b * 256 ^ Z.of_nat (length l') + be_val l'
  end.

Lemma be_val_range l : 0 <= be_val l < 256 ^ Z.of_nat (length l).
Proof.
  induction l as [|b l IH]; simpl be_val; [simpl; lia|].
  pose proof (u8_range b). rewrite length_cons, Nat2Z.inj_succ, Z.pow_succ_r by lia. nia.
Qed.

Lemma be_val_app l m : be_val (l ++ m) = be_val l * 256 ^ Z.of_nat (length m) + be_val m.
Proof.
  induction l as [|b l IH]; [done|].
  rewrite <- app_comm_cons. cbn [be_val].
  rewrite IH, length_app, Nat2Z.inj_add, Z.pow_add_r by lia. lia.
Qed.

Lemma be_val_zeros n : be_val (replicate n x00) = 0.
Proof. induction n as [|n IH]; simpl; [done|]. rewrite IH. change (u8 x00) with 0. lia. Qed.

(** [to_be_bytes] of an [n]-byte integer *)
Fixpoint be_bytes (n : nat) (z : Z) : list byte :=
  match n with
  | O => []
  | S n => byte_of_Z (z / 256 ^ Z.of_nat n) :: be_bytes n z
  end.

Lemma length_be_bytes n z : length (be_bytes n z) = n.
Proof. induction n as [|n IH]; simpl; congruence. Qed.

Lemma be_val_bytes n z : be_val (be_bytes n z) = z mod 256 ^ Z.of_nat n.
Proof.
  induction n as [|n IH]; cbn [be_bytes be_val]; [by rewrite Z.mod_1_r|].
  rewrite u8_of_Z, IH, length_be_bytes, Nat2Z.inj_succ, Z.pow_succ_r, (Z.mul_comm 256) by lia.
  rewrite Z.rem_mul_r by lia. lia.
Qed.

(** * Machine integers

    Values of [u8], [u32], [u64], [usize] and [i64] are integers of type [Z];
    the operations below write the wrap-around or saturation out. *)

Definition u8_max : Z := 2 ^ 8 - 1.
Definition u32_max : Z := 2 ^ 32 - 1.
Definition u64_max : Z := 2 ^ 64 - 1.

Definition is_u8 (z : Z) : bool := (0 <=? z) && (z <=? u8_max).
Definition is_u32 (z : Z) : bool := (0 <=? z) && (z <=? u32_max).
Definition is_u64 (z : Z) : bool := (0 <=? z) && (z <=? u64_max).
Definition is_i64 (z : Z) : bool := (- 2 ^ 63 <=? z) && (z <? 2 ^ 63).

(** [z as u8], [z as u32], [z as u64] and [z as i64] between integer types. *)
Definition as_u8 (z : Z) : Z := z mod 2 ^ 8.
Definition as_u32 (z : Z) : Z := z mod 2 ^ 32.
Definition as_u64 (z : Z) : Z := z mod 2 ^ 64.
Definition as_i64 (z : Z) : Z :=
  let w := z mod 2 ^ 64 in if w <? 2 ^ 63 then w else w - 2 ^ 64.

Definition sat_add32 (a b : Z) : Z := Z.min (a + b) u32_max.
Definition sat_add64 (a b : Z) : Z := Z.min (a + b) u64_max.
Definition sat_mul64 (a b : Z) : Z := Z.min (a * b) u64_max.
Definition sat_sub (a b : Z) : Z := Z.max (a - b) 0.

(** [u8::try_from], [u32::try_from] and [u64::try_from]. *)
Definition try_u8 (z : Z) : option Z := if is_u8 z then Some z else None.
Definition try_u32 (z : Z) : option Z := if is_u32 z then Some z else None.
Definition try_u64 (z : Z) : option Z := if is_u64 z then Some z else None.

Ltac unfold_ints :=
  unfold is_u8, is_u32, is_u64, is_i64, try_u8, try_u32, try_u64, as_u8, as_u32, as_u64,
    as_i64, sat_add32, sat_add64, sat_mul64, sat_sub, u8_max, u32_max, u64_max in *.

Lemma as_i64_small z : 0 <= z < 2 ^ 63 -> as_i64 z = z.
Proof.
  intros H. unfold as_i64. rewrite Z.mod_small by lia.
  destruct (Z.ltb_spec z (2 ^ 63)); lia.
Qed.

Lemma as_i64_range z : is_i64 (as_i64 z) = true.
Proof.
  unfold as_i64, is_i64. pose proof (Z.mod_pos_bound z (2 ^ 64) ltac:(lia)).
  destruct (Z.ltb_spec (z mod 2 ^ 64) (2 ^ 63)); lia.
Qed.

Lemma as_u64_i64 z : is_u64 z = true -> as_u64 (as_i64 z) = z.
Proof.
  unfold is_u64, as_u64, as_i64, u64_max. intros H. rewrite (Z.mod_small z) by lia.
  destruct (Z.ltb_spec z (2 ^ 63)); [apply Z.mod_small; lia|].
  replace (z - 2 ^ 64) with (z + (-1) * 2 ^ 64) by lia.
  rewrite Z.mod_add by lia. apply Z.mod_small; lia.
Qed.

(** * Fixed-size arrays

    [arr n] is [[u8; N]]: a byte list with the right length.  The length proof
    is an equation between booleans, so two arrays with the same bytes are
    equal. *)
Record arr (n : nat) : Type := Arr {
  arr_list :> list byte;
  arr_ok : Nat.eqb (length arr_list) n = true
}.
Arguments Arr {n} _ _.
Arguments arr_list {n} _.
Arguments arr_ok {n} _.

Lemma arr_eq {n} (a b : arr n) : arr_list a = arr_list b -> a = b.
Proof.
  destruct a as [l p], b as [m q]; simpl; intros <-. f_equal. apply (proof_irrel p q).
Qed.

Lemma arr_length {n} (a : arr n) : length a = n.
Proof. apply Nat.eqb_eq, arr_ok. Qed.

(** [slice.try_into()]: succeeds exactly on slices of length [n]. *)
Definition mk_arr {n} (l : list byte) : option (arr n) :=
  match Bool.bool_dec (Nat.eqb (length l) n) true with
  | left e => Some (Arr l e)
  | right _ => None
  end.

Lemma mk_arr_list {n} (a : arr n) : mk_arr (arr_list a) = Some a.
Proof.
  unfold mk_arr. destruct (Bool.bool_dec _ _) as [e|ne].
  - f_equal. by apply arr_eq.
  - destruct ne. apply arr_ok.
Qed.

Lemma mk_arr_Some {n} l (a : arr n) : mk_arr l = Some a <-> arr_list a = l.
Proof.
  split; [|intros <-; apply mk_arr_list].
  unfold mk_arr. destruct (Bool.bool_dec _ _); intros H; [|done]. by injection H as <-.
Qed.

Lemma mk_arr_None {n} l : @mk_arr n l = None <-> length l <> n.
Proof.
  unfold mk_arr. destruct (Bool.bool_dec _ _) as [e|ne].
  - split; [done|]. intros Hn. destruct Hn. by apply Nat.eqb_eq.
  - split; [|done]. intros _ He. apply ne. by apply Nat.eqb_eq.
Qed.

#[export] Instance arr_eq_dec n : EqDecision (arr n).
Proof.
  refine (fun a b => match decide (arr_list a = arr_list b) with
                     | left e => left (arr_eq a b e)
                     | right ne => right (fun e => ne (f_equal arr_list e))
                     end).
Defined.

#[export] Program Instance arr_countable n : Countable (arr n) :=
  {| encode a := encode (arr_list a); decode p := l ← decode p; mk_arr l |}.
Next Obligation. intros n a. simpl. rewrite decode_encode. simpl. apply mk_arr_list. Qed.

(** [[0u8; N]] *)
Fixpoint replicate_eqb (n : nat) : Nat.eqb (length (replicate n x00)) n = true :=
  match n with O => eq_refl | S m => replicate_eqb m end.
Definition arr_zero (n : nat) : arr n := Arr (replicate n x00) (replicate_eqb n).

(** [let mut out = [0u8; N]; out.copy_from_slice(l)] for a slice of length [N];
    the padding and truncation only make the function total. *)
Definition arr_of (n : nat) (l : list byte) : arr n :=
  default (arr_zero n) (mk_arr (take n (l ++ replicate n x00))).

Lemma arr_of_list {n} l : length l = n -> arr_list (arr_of n l) = l.
Proof.
  intros Hl. unfold arr_of.
  assert (take n (l ++ replicate n x00) = l) as Ht by (subst n; apply take_app_length).
  rewrite Ht. destruct (mk_arr l) as [a|] eqn:E; simpl.
  - by apply mk_arr_Some in E.
  - by apply mk_arr_None in E.
Qed.

Lemma arr_of_arr {n} (a : arr n) : arr_of n (arr_list a) = a.
Proof. apply arr_eq, arr_of_list, arr_length. Qed.

Lemma arr_zero_list n : arr_list (arr_zero n) = replicate n x00.
Proof. done. Qed.

(** * Bounded loops

    [loop_for p f s] runs [f] at most [p] times, threading the state through
    [inl] and leaving as soon as [f] answers [inr].  The bound is binary, so a
    bound of [u32::MAX] costs nothing when the loop leaves early. *)
Fixpoint loop_for {S R : Type} (p : positive) (f : S -> S + R) (s : S) : S + R :=
  match p with
  | xH => f s
  | xO q => match loop_for q f s with inl s' => loop_for q f s' | inr r => inr r end
  | xI q => match f s with
            | inl s1 => match loop_for q f s1 with
                        | inl s2 => loop_for q f s2
                        | inr r => inr r
                        end
            | inr r => inr r
            end
  end.

Fixpoint loop_nat {S R : Type} (n : nat) (f : S -> S + R) (s : S) : S + R :=
  match n with
  | O => inl s
  | Datatypes.S m => match f s with inl s' => loop_nat m f s' | inr r => inr r end
  end.

Lemma loop_nat_add {S R} (f : S -> S + R) m n s :
  loop_nat (m + n) f s =
  match loop_nat m f s with inl s' => loop_nat n f s' | inr r => inr r end.
Proof. revert s. induction m as [|m IH]; intros s; simpl; [done|]. by destruct (f s). Qed.

Lemma loop_for_nat {S R} (f : S -> S + R) p s : loop_for p f s = loop_nat (Pos.to_nat p) f s.
Proof.
  revert s. induction p as [p IH|p IH|]; intros s.
  - replace (Pos.to_nat p~1) with (1 + (Pos.to_nat p + Pos.to_nat p))%nat by lia.
    cbn [loop_for loop_nat Nat.add]. destruct (f s) as [s1|]; [|done].
    rewrite loop_nat_add, IH. destruct (loop_nat _ f s1); [apply IH|done].
  - replace (Pos.to_nat p~0) with (Pos.to_nat p + Pos.to_nat p)%nat by lia.
    cbn [loop_for]. rewrite loop_nat_add, IH.
    destruct (loop_nat _ f s); [apply IH|done].
  - simpl. by destruct (f s).
Qed.

(** * Stable sorting

    [sort_by leb] is the stable sort of [Vec::sort_by_key] and [Vec::sort_by]
    for the total preorder [leb]. *)
Section Sorting.
Context {A : Type} (leb : A -> A -> bool).

Fixpoint insert_by (x : A) (l : list A) : list A :=
  match l with
  | [] => [x]
  | y :: l' => if leb x y then x :: l else y :: insert_by x l'
  end.

Definition sort_by (l : list A) : list A := foldr insert_by [] l.

Lemma insert_by_perm x l : insert_by x l ≡ₚ x :: l.
Proof.
  induction l as [|y l IH]; simpl; [done|]. destruct (leb x y); [done|].
  rewrite IH. apply Permutation_swap.
Qed.

Lemma sort_by_perm l : sort_by l ≡ₚ l.
Proof. induction l as [|x l IH]; simpl; [done|]. by rewrite insert_by_perm, IH. Qed.

Context (leb_total : forall x y, leb x y = false -> leb y x = true).
Context (leb_trans : forall x y z, leb x y = true -> leb y z = true -> leb x z = true).

Lemma insert_by_sorted x l :
  StronglySorted (fun a b => leb a b = true) l ->
  StronglySorted (fun a b => leb a b = true) (insert_by x l).
Proof.
  induction 1 as [|y l Hl IH Hy]; simpl; [by repeat constructor|].
  destruct (leb x y) eqn:E.
  - constructor; [by constructor|]. constructor; [done|].
    eapply List.Forall_impl; [|exact Hy]. intros z Hz. by eapply leb_trans.
  - constructor; [done|]. rewrite insert_by_perm. constructor; [by apply leb_total|done].
Qed.

Lemma sort_by_sorted l : StronglySorted (fun a b => leb a b = true) (sort_by l).
Proof. induction l as [|x l IH]; simpl; [constructor|]. by apply insert_by_sorted. Qed.

End Sorting.

(** * Hash-map iteration

    [HashMap] and [HashSet] are stdpp's [gmap] and [gset].  The order in which
    [iter], [values] and [keys] visit a map is unspecified, so it is an
    argument of the model: any function that lists the bindings once each. *)
Class HashIter : Type := {
  hash_iter : forall {K : Type} `{Countable K} {V : Type}, gmap K V -> list (K * V);
  hash_iter_perm : forall {K : Type} `{Countable K} {V : Type} (m : gmap K V),
    hash_iter m ≡ₚ map_to_list m
}.

(** One such order. *)
Definition key_order : HashIter :=
  {| hash_iter := fun K _ _ V m => map_to_list m;
     hash_iter_perm := fun K _ _ V m => reflexivity _ |}.

Section HashIterLemmas.
Context `{HI : HashIter} {K : Type} `{Countable K} {V : Type}.
Implicit Types m : gmap K V.

Definition hash_keys (m : gmap K V) : list K := (hash_iter m).*1.
Definition hash_values (m : gmap K V) : list V := (hash_iter m).*2.

Lemma elem_of_hash_iter m k v : (k, v) ∈ hash_iter m <-> m !! k = Some v.
Proof. rewrite hash_iter_perm. apply elem_of_map_to_list. Qed.

Lemma elem_of_hash_keys m k : k ∈ hash_keys m <-> is_Some (m !! k).
Proof.
  unfold hash_keys. rewrite list_elem_of_fmap. split.
  - intros [[k' v] [-> Hin]]. exists v. by apply elem_of_hash_iter.
  - intros [v Hv]. exists (k, v). split; [done|]. by apply elem_of_hash_iter.
Qed.

Lemma elem_of_hash_values m v : v ∈ hash_values m <-> exists k, m !! k = Some v.
Proof.
  unfold hash_values. rewrite list_elem_of_fmap. split.
  - intros [[k v'] [-> Hin]]. exists k. by apply elem_of_hash_iter.
  - intros [k Hv]. exists (k, v). split; [done|]. by apply elem_of_hash_iter.
Qed.

Lemma NoDup_hash_keys m : NoDup (hash_keys m).
Proof. unfold hash_keys. rewrite hash_iter_perm. apply NoDup_fst_map_to_list. Qed.

Lemma foldl_insert_list_to_map (l : list (K * V)) m :
  foldl (fun m kv => <[kv.1 := kv.2]> m) m l = list_to_map (reverse l) ∪ m.
Proof.
  revert m. induction l as [|[k v] l IH]; intros m; simpl; [by rewrite map_empty_union|].
  rewrite IH, reverse_cons, list_to_map_app. simpl.
  rewrite <- map_union_assoc. f_equal. by rewrite insert_empty, insert_union_singleton_l.
Qed.

(** Inserting the bindings a map iterates over rebuilds the map. *)
Lemma foldl_insert_hash_iter m :
  foldl (fun m kv => <[kv.1 := kv.2]> m) ∅ (hash_iter m) = m.
Proof.
  rewrite foldl_insert_list_to_map, map_union_empty.
  rewrite <- (list_to_map_to_list m) at 2. apply list_to_map_proper.
  - rewrite reverse_Permutation. apply NoDup_hash_keys.
  - rewrite reverse_Permutation. apply hash_iter_perm.
Qed.

Lemma length_hash_iter m : length (hash_iter m) = size m.
Proof. rewrite hash_iter_perm. apply length_map_to_list. Qed.

Lemma hash_iter_empty : hash_iter (∅ : gmap K V) = [].
Proof. apply nil_length_inv. by rewrite length_hash_iter. Qed.

End HashIterLemmas.

(** * Times *)

(** The first time is at or after [from], each later one at least [delay] after
    the one before. *)
Fixpoint spaced (delay from : Z) (times : list Z) : Prop :=
  match times with
  | [] => True
  | now :: times => from <= now /\ spaced delay (now + delay) times
  end.

(** * Tactics and hints *)

Create HintDb lxmf.
#[export] Hint Resolve u8_range arr_length as_i64_range mk_arr_list arr_of_arr : lxmf.
#[export] Hint Rewrite @mk_arr_list @arr_of_arr @arr_length byte_of_u8 : lxmf.

Lemma bool_decide_is (P : Prop) `{Decision P} (b : bool) :
  (P <-> b = true) -> bool_decide P = b.
Proof. intros HP. destruct b; [by apply bool_decide_true, HP|]. apply bool_decide_false. rewrite HP. done. Qed.

(** Case analysis on the scrutinee of a [match] or [if] of a hypothesis or the
    goal, keeping the equation. *)
Ltac split_match :=
  match goal with
  | |- context [match ?x with _ => _ end] => destruct x eqn:?
  | H : context [match ?x with _ => _ end] |- _ => destruct x eqn:?
  end.

(** Invert equations between results, options and pairs. *)
Ltac inv_ok :=
  repeat match goal with
  | H : Ok _ = Ok _ |- _ => injection H as H; try subst
  | H : Err _ = Err _ |- _ => injection H as H; try subst
  | H : Some _ = Some _ |- _ => injection H as H; try subst
  | H : Ok _ = Err _ |- _ => discriminate H
  | H : Err _ = Ok _ |- _ => discriminate H
  | H : Some _ = None |- _ => discriminate H
  | H : None = Some _ |- _ => discriminate H
  end.
