(* ===== verification/Float.v ===== *)
(** IEEE-754 [f64] and [f32] values as the code uses them: the standard
    library's executable specification floats at binary64 and binary32
    precision, the conversions of [as], comparisons, and [f64::max].  A NaN's
    payload is not modelled. *)

From Stdlib Require Import ZArith Lia.
From Stdlib Require Import Floats.SpecFloat.
From stdpp Require Import base countable numbers.
From S2P Require Import Prelude.

Local Open Scope Z_scope.

Abbreviation f64 := spec_float.
Abbreviation f32 := spec_float.

#[export] Instance spec_float_eq_dec : EqDecision spec_float.
Proof. solve_decision. Defined.

Definition spec_float_to_sum (x : spec_float) : (bool + bool) + (unit + bool * positive * Z) :=
  match x with
  | S754_zero s => inl (inl s)
  | S754_infinity s => inl (inr s)
  | S754_nan => inr (inl tt)
  | S754_finite s m e => inr (inr (s, m, e))
  end.
Definition spec_float_of_sum (x : (bool + bool) + (unit + bool * positive * Z)) : spec_float :=
  match x with
  | inl (inl s) => S754_zero s
  | inl (inr s) => S754_infinity s
  | inr (inl _) => S754_nan
  | inr (inr (s, m, e)) => S754_finite s m e
  end.
#[export] Instance spec_float_countable : Countable spec_float :=
  inj_countable' spec_float_to_sum spec_float_of_sum ltac:(by intros []).

(** Values a double can hold. *)
Definition f64_valid (x : f64) : bool := valid_binary 53 1024 x.
Definition f32_valid (x : f32) : bool := valid_binary 24 128 x.

Definition f64_add : f64 -> f64 -> f64 := SFadd 53 1024.
Definition f64_sub : f64 -> f64 -> f64 := SFsub 53 1024.
Definition f64_mul : f64 -> f64 -> f64 := SFmul 53 1024.
Definition f64_div : f64 -> f64 -> f64 := SFdiv 53 1024.

(** [x < y], [x <= y], [x == y]; every comparison with a NaN is false. *)
Definition f64_ltb : f64 -> f64 -> bool := SFltb.
Definition f64_leb : f64 -> f64 -> bool := SFleb.
Definition f64_eqb : f64 -> f64 -> bool := SFeqb.

Definition f64_zero : f64 := S754_zero false.

Definition f64_is_finite (x : f64) : bool :=
  match x with S754_zero _ | S754_finite _ _ _ => true | _ => false end.

(** [z as f64]: round to nearest, ties to even. *)
Definition f64_of_Z (z : Z) : f64 := binary_normalize 53 1024 z 0 false.

(** [z as f32], and division at that precision *)
Definition f32_of_Z (z : Z) : f32 := binary_normalize 24 128 z 0 false.
Definition f32_div : f32 -> f32 -> f32 := SFdiv 24 128.

(** [f64::from(f32)], which is exact. *)
Definition f64_of_f32 (x : f32) : f64 :=
  match x with
  | S754_finite s m e => binary_normalize 53 1024 (cond_Zopp s (Zpos m)) e s
  | _ => x
  end.

(** The integer part of a finite value, towards zero. *)
Definition f64_trunc (x : f64) : Z :=
  match x with
  | S754_finite s m e =>
      let t := if 0 <=? e then Zpos m * 2 ^ e else Zpos m / 2 ^ (- e) in
      if s then - t else t
  | _ => 0
  end.

(** [x as u64] (and [as usize] on a 64-bit target): truncating and
    saturating, a NaN becoming 0. *)
Definition f64_to_u64 (x : f64) : Z :=
  match x with
  | S754_infinity false => u64_max
  | S754_finite false _ _ => Z.min (f64_trunc x) u64_max
  | _ => 0
  end.

(** [x.max(y)]: the other operand when one is a NaN. *)
Definition f64_max (x y : f64) : f64 :=
  match x, y with
  | S754_nan, _ => y
  | _, S754_nan => x
  | _, _ => if f64_ltb x y then y else x
  end.

Lemma f64_to_u64_range x : is_u64 (f64_to_u64 x) = true.
Proof.
  unfold is_u64, f64_to_u64, f64_trunc, u64_max.
  destruct x as [s|[]| |[] m e]; try done.
  assert (0 <= if 0 <=? e then Zpos m * 2 ^ e else Zpos m / 2 ^ (- e)); [|lia].
  destruct (Z.leb_spec 0 e) as [He|He].
  - pose proof (Z.pow_nonneg 2 e ltac:(lia)). nia.
  - pose proof (Z.pow_pos_nonneg 2 (- e) ltac:(lia) ltac:(lia)). apply Z.div_pos; lia.
Qed.
