(* ===== verification/Msgpack.v ===== *)
(** MessagePack values.

    The crates only call [rmpv]: its [Value] type is the data they build and
    match on, with the documented accessors; its codec [write_value] and
    [read_value] is an interface ([Msgpack]) whose law is that reading a written
    value gives the value back and leaves what follows it unread.  [bit_codec]
    is one codec that satisfies the law. *)

From Stdlib Require Import ZArith Lia.
From Stdlib Require Import Strings.Byte.
From stdpp Require Import base list strings countable numbers.
From S2P Require Import Prelude Float.

Local Open Scope Z_scope.

(** * UTF-8

    [String] values are byte strings; [utf8_valid] is the test
    [String::from_utf8] makes. *)

Definition in_range (lo hi : Z) (b : byte) : bool := (lo <=? u8 b) && (u8 b <=? hi).
Definition utf8_cont (b : byte) : bool := in_range 0x80 0xBF b.

Fixpoint utf8_valid (l : list byte) : bool :=
  match l with
  | [] => true
  | b0 :: r0 =>
    if u8 b0 <? 0x80 then utf8_valid r0 else
    match r0 with
    | [] => false
    | b1 :: r1 =>
      if in_range 0xC2 0xDF b0 then utf8_cont b1 && utf8_valid r1 else
      match r1 with
      | [] => false
      | b2 :: r2 =>
        if in_range 0xE0 0xEF b0 then
          (if u8 b0 =? 0xE0 then in_range 0xA0 0xBF b1
           else if u8 b0 =? 0xED then in_range 0x80 0x9F b1 else utf8_cont b1)
          && utf8_cont b2 && utf8_valid r2
        else
        match r2 with
        | [] => false
        | b3 :: r3 =>
          in_range 0xF0 0xF4 b0
          && (if u8 b0 =? 0xF0 then in_range 0x90 0xBF b1
              else if u8 b0 =? 0xF4 then in_range 0x80 0x8F b1 else utf8_cont b1)
          && utf8_cont b2 && utf8_cont b3 && utf8_valid r3
        end
      end
    end
  end.

Definition bytes_of_string (s : string) : list byte := String.list_byte_of_string s.
Definition string_of_bytes (l : list byte) : string := String.string_of_list_byte l.
Definition utf8_string (s : string) : bool := utf8_valid (bytes_of_string s).

Lemma string_of_bytes_of_string s : string_of_bytes (bytes_of_string s) = s.
Proof. apply String.string_of_list_byte_of_string. Qed.

Lemma bytes_of_string_of_bytes l : bytes_of_string (string_of_bytes l) = l.
Proof. apply String.list_byte_of_string_of_list_byte. Qed.

(** [String::from_utf8(v).ok()] *)
Definition string_from_utf8 (l : list byte) : option string :=
  if utf8_valid l then Some (string_of_bytes l) else None.

(** * Values ([rmpv::Value]) *)

Inductive Value : Type :=
| Nil
| Boolean (b : bool)
| Integer (i : Z)
| F32 (f : f32)
| F64 (f : f64)
| VString (s : string)
| Binary (l : list byte)
| VArray (l : list Value)
| VMap (l : list (Value * Value))
| VExt (ty : Z) (l : list byte).

(** [rmpv::Integer] holds an [i64] or a [u64]; its accessors answer [None]
    outside their type's range. *)
Definition integer_as_i64 (i : Z) : option Z := if is_i64 i then Some i else None.
Definition integer_as_u64 (i : Z) : option Z := if is_u64 i then Some i else None.

(** [Value::as_i64] *)
Definition value_as_i64 (v : Value) : option Z :=
  match v with Integer i => integer_as_i64 i | _ => None end.

(** [Utf8String::as_str] *)
Definition utf8_as_str (s : string) : option string :=
  if utf8_string s then Some s else None.

(** [Value::as_str] *)
Definition value_as_str (v : Value) : option string :=
  match v with VString s => utf8_as_str s | _ => None end.

(** * What the format can represent *)

Fixpoint value_depth (v : Value) : nat :=
  match v with
  | VArray l => S (list_max (map value_depth l))
  | VMap l => S (list_max (map (fun kv => Nat.max (value_depth kv.1) (value_depth kv.2)) l))
  | _ => 1%nat
  end.

Definition fits_u32 {A} (l : list A) : bool := Z.of_nat (length l) <=? u32_max.

Fixpoint value_ok (v : Value) : bool :=
  match v with
  | Nil | Boolean _ => true
  | Integer i => (- 2 ^ 63 <=? i) && (i <=? u64_max)
  | F32 f => f32_valid f
  | F64 f => f64_valid f
  | VString s => utf8_string s && fits_u32 (bytes_of_string s)
  | Binary l => fits_u32 l
  | VArray l => fits_u32 l && forallb value_ok l
  | VMap l => fits_u32 l && forallb (fun kv => value_ok kv.1 && value_ok kv.2) l
  | VExt ty l => (-128 <=? ty) && (ty <=? 127) && fits_u32 l
  end.

(** The reader's nesting limit. *)
Definition MAX_DEPTH : nat := 1024.

Definition representable (v : Value) : bool :=
  value_ok v && Nat.leb (value_depth v) MAX_DEPTH.

(** * Showing that a value is representable

    [rep d v]: the leaves of [v] are in range and it nests at most [d] deep. *)

Definition rep (d : nat) (v : Value) : Prop := value_ok v = true /\ (value_depth v <= d)%nat.

Lemma rep_representable d v : rep d v -> (d <= MAX_DEPTH)%nat -> representable v = true.
Proof.
  intros [Hok Hd] Hm. unfold representable. rewrite Hok. apply Nat.leb_le. lia.
Qed.

Lemma representable_rep v : representable v = true -> rep MAX_DEPTH v.
Proof. unfold representable. intros [Hok Hd]%andb_prop. split; [done|]. by apply Nat.leb_le. Qed.

Lemma rep_mono d d' v : rep d v -> (d <= d')%nat -> rep d' v.
Proof. intros [Hok Hd] Hle. split; [done|]. lia. Qed.

Lemma rep_array d l : fits_u32 l = true -> Forall (rep d) l -> rep (S d) (VArray l).
Proof.
  intros Hf Hl. split; simpl.
  - rewrite Hf. simpl. induction Hl as [|v l [Hv _] _ IH]; simpl; [done|].
    rewrite Hv. simpl. apply IH. unfold fits_u32 in *. rewrite length_cons in Hf. apply Z.leb_le in Hf. apply Z.leb_le. lia.
  - apply le_n_S, List.list_max_le, List.Forall_map.
    eapply List.Forall_impl; [|exact Hl]. by intros v [_ Hd].
Qed.

Lemma rep_map d l :
  fits_u32 l = true -> Forall (fun kv => rep d kv.1 /\ rep d kv.2) l -> rep (S d) (VMap l).
Proof.
  intros Hf Hl. split; simpl.
  - rewrite Hf. simpl. induction Hl as [|[k v] l [[Hk _] [Hv _]] _ IH]; simpl in *; [done|].
    rewrite Hk, Hv. simpl. apply IH. unfold fits_u32 in *. rewrite length_cons in Hf. apply Z.leb_le in Hf. apply Z.leb_le. lia.
  - apply le_n_S, List.list_max_le, List.Forall_map.
    eapply List.Forall_impl; [|exact Hl]. intros [k v] [[_ Hk] [_ Hv]]. simpl in *. lia.
Qed.

Lemma rep_nil d : rep (S d) Nil.
Proof. split; simpl; [done|lia]. Qed.
Lemma rep_bool d b : rep (S d) (Boolean b).
Proof. split; simpl; [done|lia]. Qed.
Lemma rep_int d i : - 2 ^ 63 <= i <= u64_max -> rep (S d) (Integer i).
Proof. intros H. split; simpl; [apply andb_true_iff; lia|lia]. Qed.
Lemma rep_i64 d z : rep (S d) (Integer (as_i64 z)).
Proof.
  apply rep_int. pose proof (as_i64_range z) as H. unfold is_i64 in H. unfold u64_max. lia.
Qed.
Lemma rep_u8 d z : is_u8 z = true -> rep (S d) (Integer z).
Proof. unfold is_u8, u8_max. intros Hz. apply rep_int. unfold u64_max. lia. Qed.
Lemma rep_u32 d z : is_u32 z = true -> rep (S d) (Integer z).
Proof. unfold is_u32, u32_max. intros Hz. apply rep_int. unfold u64_max. lia. Qed.
Lemma rep_f64 d f : f64_valid f = true -> rep (S d) (F64 f).
Proof. intros H. split; simpl; [done|lia]. Qed.
Lemma rep_string d s :
  utf8_string s = true -> fits_u32 (bytes_of_string s) = true -> rep (S d) (VString s).
Proof. intros Hu Hf. split; simpl; [by rewrite Hu|lia]. Qed.
Lemma rep_binary d l : fits_u32 l = true -> rep (S d) (Binary l).
Proof. intros H. split; simpl; [done|lia]. Qed.
Lemma fits_u32_length {A} (l : list A) : Z.of_nat (length l) <= u32_max -> fits_u32 l = true.
Proof. unfold fits_u32. lia. Qed.
Lemma rep_arr {n} d (a : arr n) : Z.of_nat n <= u32_max -> rep (S d) (Binary a).
Proof. intros H. apply rep_binary, fits_u32_length. by rewrite arr_length. Qed.
Lemma fits_u32_map {A B} (f : A -> B) l : fits_u32 (map f l) = fits_u32 l.
Proof. unfold fits_u32. by rewrite length_map. Qed.

(** Walk down a value built from constructors. *)
Ltac solve_rep :=
  repeat match goal with
  | H : ?P |- ?P => exact H
  | |- Forall _ [] => constructor
  | |- Forall _ (_ :: _) => constructor
  | |- Forall _ (map _ _) => apply List.Forall_map; eapply List.Forall_impl; [|eassumption]; intros; cbn beta in *
  | |- _ /\ _ => split
  | |- rep _ (fst (_, _)) => cbn [fst]
  | |- rep _ (snd (_, _)) => cbn [snd]
  | |- rep _ (VArray _) => apply rep_array
  | |- rep _ (VMap _) => apply rep_map
  | |- rep _ Nil => apply rep_nil
  | |- rep _ (Boolean _) => apply rep_bool
  | |- rep _ (Integer (as_i64 _)) => apply rep_i64
  | |- rep _ (Integer _) => apply rep_int; unfold_ints; lia
  | |- rep _ (F64 _) => apply rep_f64
  | |- rep _ (VString _) => apply rep_string
  | |- rep _ (Binary (arr_list _)) => apply rep_arr; unfold u32_max; lia
  | |- rep _ (Binary _) => apply rep_binary
  | |- fits_u32 (map _ _) = true => rewrite fits_u32_map
  | |- fits_u32 _ = true => reflexivity
  | |- utf8_string _ = true => reflexivity
  end.

(** * The codec interface *)

Class Msgpack : Type := {
  write_value : Value -> result string (list byte);
  read_value : list byte -> result string Value
}.

Class MsgpackLaws `{M : Msgpack} : Prop := {
  read_write : forall v, representable v = true ->
    exists bs, write_value v = Ok bs /\ bs <> [] /\
               forall rest, read_value (bs ++ rest) = Ok v
}.

Section Codec.
Context `{ML : MsgpackLaws}.

Lemma read_write_app v bs rest :
  representable v = true -> write_value v = Ok bs -> read_value (bs ++ rest) = Ok v.
Proof.
  intros Hv Hw. destruct (read_write v Hv) as (bs' & Hw' & _ & Hr).
  rewrite Hw in Hw'. inv_ok. apply Hr.
Qed.

Lemma read_write_eq v bs :
  representable v = true -> write_value v = Ok bs -> read_value bs = Ok v.
Proof. intros Hv Hw. rewrite <- (app_nil_r bs). by apply read_write_app. Qed.

Lemma write_value_ok v : representable v = true -> exists bs, write_value v = Ok bs.
Proof. intros Hv. destruct (read_write v Hv) as (bs & Hw & _). eauto. Qed.

Lemma write_value_nonempty v bs :
  representable v = true -> write_value v = Ok bs -> (1 <= length bs)%nat.
Proof.
  intros Hv Hw. destruct (read_write v Hv) as (bs' & Hw' & Hne & _).
  rewrite Hw in Hw'. inv_ok. destruct bs'; simpl; [done|lia].
Qed.

End Codec.

(** * Induction on values *)

Section ValueInd.
Context (P : Value -> Prop)
  (HNil : P Nil) (HBool : forall b, P (Boolean b)) (HInt : forall i, P (Integer i))
  (HF32 : forall f, P (F32 f)) (HF64 : forall f, P (F64 f)) (HStr : forall s, P (VString s))
  (HBin : forall l, P (Binary l)) (HArr : forall l, Forall P l -> P (VArray l))
  (HMap : forall l, Forall (fun kv => P kv.1 /\ P kv.2) l -> P (VMap l))
  (HExt : forall ty l, P (VExt ty l)).

Fixpoint Value_nested_ind (v : Value) : P v :=
  match v with
  | Nil => HNil
  | Boolean b => HBool b
  | Integer i => HInt i
  | F32 f => HF32 f
  | F64 f => HF64 f
  | VString s => HStr s
  | Binary l => HBin l
  | VArray l => HArr l ((fix go (l : list Value) : Forall P l :=
      match l with
      | [] => Forall_nil _ 
      | x :: l' => Forall_cons _ _ _ (Value_nested_ind x) (go l')
      end) l)
  | VMap l => HMap l ((fix go (l : list (Value * Value)) : Forall (fun kv => P kv.1 /\ P kv.2) l :=
      match l with
      | [] => Forall_nil _
      | (k, x) :: l' => List.Forall_cons (fun kv => P kv.1 /\ P kv.2) (k, x) l'
                          (conj (Value_nested_ind k) (Value_nested_ind x)) (go l')
      end) l)
  | VExt ty l => HExt ty l
  end.
End ValueInd.

(** * A codec with the law

    Values are countable through stdpp's generic trees; a positive number is
    written one bit per byte, low bit first, closed by [x02]. *)

Definition value_leaf : Type :=
  (unit + bool) + (Z + (f64 * bool)) + (string + (list byte + Z * list byte)).

Fixpoint value_to_tree (v : Value) : gen_tree value_leaf :=
  match v with
  | Nil => GenLeaf (inl (inl (inl tt)))
  | Boolean b => GenLeaf (inl (inl (inr b)))
  | Integer i => GenLeaf (inl (inr (inl i)))
  | F32 f => GenLeaf (inl (inr (inr (f, false))))
  | F64 f => GenLeaf (inl (inr (inr (f, true))))
  | VString s => GenLeaf (inr (inl s))
  | Binary l => GenLeaf (inr (inr (inl l)))
  | VExt ty l => GenLeaf (inr (inr (inr (ty, l))))
  | VArray l => GenNode 0 (map value_to_tree l)
  | VMap l => GenNode 1 (map (fun kv => GenNode 2 [value_to_tree kv.1; value_to_tree kv.2]) l)
  end.

Fixpoint tree_to_value (t : gen_tree value_leaf) : Value :=
  match t with
  | GenLeaf (inl (inl (inl _))) => Nil
  | GenLeaf (inl (inl (inr b))) => Boolean b
  | GenLeaf (inl (inr (inl i))) => Integer i
  | GenLeaf (inl (inr (inr (f, false)))) => F32 f
  | GenLeaf (inl (inr (inr (f, true)))) => F64 f
  | GenLeaf (inr (inl s)) => VString s
  | GenLeaf (inr (inr (inl l))) => Binary l
  | GenLeaf (inr (inr (inr (ty, l)))) => VExt ty l
  | GenNode 1 l => VMap (map (fun t => match t with
                                      | GenNode _ [k; v] => (tree_to_value k, tree_to_value v)
                                      | _ => (Nil, Nil)
                                      end) l)
  | GenNode _ l => VArray (map tree_to_value l)
  end.

Lemma tree_to_value_to_tree v : tree_to_value (value_to_tree v) = v.
Proof.
  induction v as [| | | | | | |l IH|l IH|] using Value_nested_ind; try done; simpl; f_equal.
  - rewrite map_map. induction IH as [|x l Hx _ IHl]; simpl; [done|]. by rewrite Hx, IHl.
  - rewrite map_map. induction IH as [|[k x] l [Hk Hx] _ IHl]; simpl in *; [done|].
    by rewrite Hk, Hx, IHl.
Qed.

#[export] Instance value_eq_dec : EqDecision Value.
Proof.
  refine (fun a b => match decide (value_to_tree a = value_to_tree b) with
                     | left e => left _
                     | right ne => right (fun e => ne (f_equal value_to_tree e))
                     end).
  abstract (by rewrite <- (tree_to_value_to_tree a), e, tree_to_value_to_tree).
Defined.

#[export] Instance value_countable : Countable Value :=
  inj_countable' value_to_tree tree_to_value tree_to_value_to_tree.

Fixpoint bits_to_bytes (p : positive) : list byte :=
  match p with
  | xH => [x02]
  | xO q => x00 :: bits_to_bytes q
  | xI q => x01 :: bits_to_bytes q
  end.

Fixpoint bits_of_bytes (l : list byte) : option positive :=
  match l with
  | x00 :: l' => xO <$> bits_of_bytes l'
  | x01 :: l' => xI <$> bits_of_bytes l'
  | x02 :: _ => Some xH
  | _ => None
  end.

Lemma bits_of_bytes_app p rest : bits_of_bytes (bits_to_bytes p ++ rest) = Some p.
Proof. induction p as [p IH|p IH|]; simpl; by rewrite ?IH. Qed.

Definition bit_codec : Msgpack :=
  {| write_value v := Ok (bits_to_bytes (encode v));
     read_value l := ok_or (p ← bits_of_bytes l; decode p) "invalid marker" |}.

Lemma bit_codec_laws : @MsgpackLaws bit_codec.
Proof.
  constructor. intros v _. exists (bits_to_bytes (encode v)). split; [done|]. split.
  - by destruct (encode v).
  - intros rest. simpl. rewrite bits_of_bytes_app. simpl. by rewrite decode_encode.
Qed.
