(* ===== verification/Crypto.v ===== *)
(** The cryptographic and encoding crates the code calls ([sha2], [hkdf],
    [ed25519_dalek], [base64], [rand_core]) as an interface, with what the code
    relies on as its laws, and one small instance of it. *)

From Stdlib Require Import ZArith Lia.
From Stdlib Require Import Strings.Byte.
From stdpp Require Import base list strings numbers.
From S2P Require Import Prelude.

Class Crypto : Type := {
  (** [Sha256::digest] *)
  sha256 : list byte -> arr 32;
  (** [Hkdf::<Sha256>::new(Some(salt), ikm).expand(&[], out)] with [out] of the
      given length *)
  hkdf_expand : list byte -> list byte -> nat -> option (list byte);
  SigningKey : Type;
  VerifyingKey : Type;
  verifying_key : SigningKey -> VerifyingKey;
  (** [signing_key.sign(message).to_bytes()] *)
  ed25519_sign : SigningKey -> list byte -> arr 64;
  (** [verifying_key.verify(message, signature).is_ok()] *)
  ed25519_verify : VerifyingKey -> list byte -> arr 64 -> bool;
  (** [URL_SAFE_NO_PAD.encode] *)
  base64url : list byte -> string
}.

Class CryptoLaws `{C : Crypto} : Prop := {
  (** HKDF can expand to at most 255 hash lengths. *)
  hkdf_expand_ok : forall salt ikm n, n <= 255 * 32 ->
    exists out, hkdf_expand salt ikm n = Some out /\ length out = n;
  (** A signature verifies under the key it was made with. *)
  verify_sign : forall k msg,
    ed25519_verify (verifying_key k) msg (ed25519_sign k msg) = true
}.

(** A toy instance: the "hash" holds the byte sum and the length, the
    "signature" repeats the key and the length. *)
Definition byte_sum (l : list byte) : Z := foldr (fun b z => (u8 b + z)%Z) 0%Z l.

Definition toy_crypto : Crypto := {|
  sha256 l := arr_of 32 (replicate 30 x00 ++ [byte_of_Z (Z.of_nat (length l)); byte_of_Z (byte_sum l)]);
  hkdf_expand salt ikm n := Some (replicate n (byte_of_Z (byte_sum salt + byte_sum ikm)));
  SigningKey := byte;
  VerifyingKey := byte;
  verifying_key k := k;
  ed25519_sign k msg := arr_of 64 (k :: byte_of_Z (Z.of_nat (length msg)) :: replicate 62 x00);
  ed25519_verify k msg sig :=
    bool_decide (sig = arr_of 64 (k :: byte_of_Z (Z.of_nat (length msg)) :: replicate 62 x00));
  base64url l := "AA"
|}.

Lemma toy_crypto_laws : @CryptoLaws toy_crypto.
Proof.
  constructor.
  - intros salt ikm n _. eexists. split; [done|]. apply length_replicate.
  - intros k msg. simpl. by apply bool_decide_true.
Qed.
