(* ===== verification/Buffer.v ===== *)
(** [reticulum-patched/src/buffer.rs]: the fixed-capacity [StaticBuffer], the
    [OutputBuffer] cursor over a borrowed slice, and the [InputBuffer] reader.

    An operation through [&mut self] that returns a [Result] is a state-passing
    function; a slice index out of range, which panics, is the [Panics] fault. *)

From Stdlib Require Import ZArith Lia.
From Stdlib Require Import Strings.Byte.
From stdpp Require Import base list numbers.
From S2P Require Import Prelude.

(** [reticulum-patched/src/error.rs] *)
Inductive RetError : Type :=
| OutOfMemory
| InvalidArgument
| IncorrectSignature
| IncorrectHash
| CryptoError
| PacketError
| ConnectionError.

#[export] Instance RetError_eq_dec : EqDecision RetError.
Proof. solve_decision. Defined.

(** An error value, or a panic that unwinds the thread. *)
Inductive fault (E : Type) : Type :=
| Fails (e : E)
| Panics.
Arguments Fails {E} e.
Arguments Panics {E}.

(** [buffer[at..at + data.len()].copy_from_slice(data)] *)
Definition splice (l : list byte) (at_ : nat) (data : list byte) : list byte :=
  take at_ l ++ data ++ drop (at_ + length data) l.

Lemma length_splice l i d : i + length d <= length l -> length (splice l i d) = length l.
Proof. intros H. unfold splice. rewrite !length_app, length_take, length_drop. lia. Qed.

Lemma take_splice l i d :
  i + length d <= length l -> take (i + length d) (splice l i d) = take i l ++ d.
Proof.
  intros H. unfold splice. rewrite app_assoc, take_app_le by (rewrite length_app, length_take; lia).
  apply take_ge. rewrite length_app, length_take. lia.
Qed.

Module StaticBuffer.

Record t (N : nat) : Type := mk { buffer : list byte; len : nat }.
Arguments mk {N} _ _.
Arguments buffer {N} _.
Arguments len {N} _.

(** The array has [N] bytes and [len] of them are in use. *)
Definition wf {N} (b : t N) : Prop := length (buffer b) = N /\ len b <= N.

Definition new (N : nat) : t N := mk (replicate N x00) 0.

Definition as_slice {N} (b : t N) : list byte := take (len b) (buffer b).

Definition reset {N} (b : t N) : t N := mk (buffer b) 0.

Definition resize {N} (b : t N) (n : nat) : t N :=
  mk (buffer b) (Nat.min n (length (buffer b))).

Definition write {N} (data : list byte) : stres (t N) RetError nat := fun b =>
  let data_size := length data in
  if Nat.eqb data_size 0 then (b, Ok 0)
  else if Nat.ltb N (len b + data_size) then (b, Err OutOfMemory)
  else (mk (splice (buffer b) (len b) data) (len b + data_size), Ok data_size).

Definition safe_write {N} (data : list byte) (b : t N) : t N * nat :=
  let max_size := Nat.min (length data) (N - len b) in
  match write (take max_size data) b with
  | (b', Ok n) => (b', n)
  | (b', Err _) => (b', 0)
  end.

Definition new_from_slice (N : nat) (data : list byte) : t N := fst (safe_write data (new N)).

Definition chain_write {N} (data : list byte) (b : t N) : t N * result RetError unit :=
  match write data b with
  | (b', Ok _) => (b', Ok tt)
  | (b', Err e) => (b', Err e)
  end.

Definition chain_safe_write {N} (data : list byte) (b : t N) : t N := fst (safe_write data b).

Definition rotate_left {N} (mid : nat) : stres (t N) RetError nat := fun b =>
  if Nat.ltb (len b) mid then (b, Err InvalidArgument)
  else (mk (drop mid (buffer b) ++ take mid (buffer b)) (len b - mid), Ok (len b - mid)).

(** [accuire_buf(n)] hands out [&mut buffer[..n]], which panics past the end;
    the caller fills it with [fill]. *)
Definition accuire_buf {N} (n : nat) (b : t N) : result (fault RetError) (t N) :=
  if Nat.ltb (length (buffer b)) n then Err Panics else Ok (mk (buffer b) n).

Definition fill {N} (data : list byte) (b : t N) : t N := mk (splice (buffer b) 0 data) (len b).

End StaticBuffer.

Module OutputBuffer.

Record t : Type := mk { buffer : list byte; offset : nat }.

Definition wf (b : t) : Prop := offset b <= length (buffer b).

Definition new (buf : list byte) : t := mk buf 0.

Definition as_slice (b : t) : list byte := take (offset b) (buffer b).

(** Bytes that can still be written. *)
Definition room (b : t) : nat := length (buffer b) - offset b.

Definition write (data : list byte) : stres t RetError nat := fun b =>
  let data_size := length data in
  if Nat.eqb data_size 0 then (b, Ok 0)
  else if Nat.ltb (length (buffer b)) (offset b + data_size) then (b, Err OutOfMemory)
  else (mk (splice (buffer b) (offset b) data) (offset b + data_size), Ok data_size).

Definition write_byte (byte_ : byte) : stres t RetError nat := write [byte_].

Definition reset (b : t) : t := mk (buffer b) 0.

Definition is_full (b : t) : bool := Nat.eqb (offset b) (length (buffer b)).

End OutputBuffer.

Module InputBuffer.

Record t : Type := mk { buffer : list byte; offset : nat }.

Definition wf (b : t) : Prop := offset b <= length (buffer b).

Definition new (buf : list byte) : t := mk buf 0.

(** The unread bytes. *)
Definition remaining (b : t) : list byte := drop (offset b) (buffer b).

(** [read(buf)] for a [buf] of length [size]: the new contents of [buf]. *)
Definition read (size : nat) : stres t RetError (list byte) := fun b =>
  if Nat.ltb (length (buffer b)) (offset b + size) then (b, Err OutOfMemory)
  else (mk (buffer b) (offset b + size), Ok (take size (drop (offset b) (buffer b)))).

(** [read_size(buf, size)] fills the first [size] bytes of [buf]. *)
Definition read_size (buf : list byte) (size : nat) : stres t RetError (list byte) := fun b =>
  if Nat.ltb (length (buffer b)) (offset b + size) then (b, Err OutOfMemory)
  else if Nat.ltb (length buf) size then (b, Err OutOfMemory)
  else (mk (buffer b) (offset b + size),
        Ok (splice buf 0 (take size (drop (offset b) (buffer b))))).

Definition read_byte : stres t RetError byte :=
  bs ← read 1; mret (default x00 (head bs)).

Definition read_slice (size : nat) : stres t RetError (list byte) := fun b =>
  if Nat.ltb (length (buffer b)) (offset b + size) then (b, Err OutOfMemory)
  else (mk (buffer b) (offset b + size), Ok (take size (drop (offset b) (buffer b)))).

Definition bytes_left (b : t) : nat := length (buffer b) - offset b.

End InputBuffer.

(** * Specification: a vector with a capacity

    What every buffer promises: the bytes written so far, to which a write
    appends all of its data or nothing. *)

Definition bounded_append (cap : nat) (v data : list byte) : list byte * result RetError nat :=
  if Nat.leb (length v + length data) cap then (v ++ data, Ok (length data))
  else (v, Err OutOfMemory).

Lemma length_as_slice {N} (b : StaticBuffer.t N) :
  StaticBuffer.wf b -> length (StaticBuffer.as_slice b) = StaticBuffer.len b.
Proof. intros [Hb Hl]. unfold StaticBuffer.as_slice. rewrite length_take. lia. Qed.

Lemma static_write_spec {N} data (b : StaticBuffer.t N) :
  StaticBuffer.wf b ->
  let '(b', r) := StaticBuffer.write data b in
  StaticBuffer.wf b' /\
  (StaticBuffer.as_slice b', r) = bounded_append N (StaticBuffer.as_slice b) data.
Proof.
  intros Hwf. pose proof (length_as_slice b Hwf) as Hlen. destruct Hwf as [Hb Hl].
  unfold bounded_append, StaticBuffer.write. rewrite Hlen.
  destruct (Nat.eqb_spec (length data) 0) as [H0|H0].
  - rewrite H0. apply nil_length_inv in H0 as ->.
    rewrite (proj2 (Nat.leb_le _ _)) by lia. by rewrite app_nil_r.
  - destruct (Nat.ltb_spec N (StaticBuffer.len b + length data)) as [Hov|Hfit].
    + by rewrite (proj2 (Nat.leb_gt _ _)) by lia.
    + rewrite (proj2 (Nat.leb_le _ _)) by lia.
      unfold StaticBuffer.wf, StaticBuffer.as_slice; simpl.
      rewrite length_splice by lia. rewrite take_splice by lia. done.
Qed.

Lemma static_new_wf N : StaticBuffer.wf (StaticBuffer.new N).
Proof. split; simpl; [apply length_replicate|lia]. Qed.

Lemma static_safe_write_spec {N} data (b : StaticBuffer.t N) :
  StaticBuffer.wf b ->
  let '(b', n) := StaticBuffer.safe_write data b in
  StaticBuffer.wf b' /\
  StaticBuffer.as_slice b' =
    StaticBuffer.as_slice b ++ take (N - length (StaticBuffer.as_slice b)) data /\
  n = Nat.min (length data) (N - length (StaticBuffer.as_slice b)).
Proof.
  intros Hwf. pose proof (length_as_slice b Hwf) as Hlen. unfold StaticBuffer.safe_write.
  pose proof (static_write_spec (take (Nat.min (length data) (N - StaticBuffer.len b)) data) b Hwf)
    as Hw.
  destruct (StaticBuffer.write _ b) as [b' r]. destruct Hw as [Hwf' Heq].
  unfold bounded_append in Heq. rewrite Hlen, length_take in *.
  destruct Hwf as [_ Hl].
  rewrite (proj2 (Nat.leb_le _ _)) in Heq by lia. injection Heq as Hs Hr. subst r.
  split; [done|]. split; [|lia]. rewrite Hs. f_equal.
  destruct (Nat.min_spec (length data) (N - StaticBuffer.len b)) as [[H ->]|[H ->]]; [|done].
  rewrite !take_ge by lia. done.
Qed.

Lemma static_rotate_spec {N} mid (b : StaticBuffer.t N) :
  StaticBuffer.wf b ->
  let '(b', r) := StaticBuffer.rotate_left mid b in
  StaticBuffer.wf b' /\
  if Nat.leb mid (length (StaticBuffer.as_slice b))
  then StaticBuffer.as_slice b' = drop mid (StaticBuffer.as_slice b) /\
       r = Ok (length (StaticBuffer.as_slice b) - mid)
  else b' = b /\ r = Err InvalidArgument.
Proof.
  intros Hwf. pose proof (length_as_slice b Hwf) as Hlen. destruct Hwf as [Hb Hl].
  unfold StaticBuffer.rotate_left. rewrite Hlen.
  destruct (Nat.ltb_spec (StaticBuffer.len b) mid) as [Hm|Hm].
  - rewrite (proj2 (Nat.leb_gt _ _)) by lia. done.
  - rewrite (proj2 (Nat.leb_le _ _)) by lia. unfold StaticBuffer.wf, StaticBuffer.as_slice; simpl.
    rewrite length_app, length_drop, length_take. split; [lia|]. split; [|done].
    rewrite take_app_le by (rewrite length_drop; lia).
    rewrite skipn_firstn_comm. done.
Qed.

(** A [StaticBuffer] refines the bounded vector: on every well-formed
    buffer, [write] appends all of its data or fails with [OutOfMemory] and
    changes nothing, [safe_write] appends as much as fits and reports how much,
    [rotate_left] drops the front or rejects, and all of them keep the buffer
    well formed. *)
Theorem static_buffer_refines (N : nat) (b : StaticBuffer.t N) (data : list byte) (mid : nat)
  (Hwf : StaticBuffer.wf b) :
  let v := StaticBuffer.as_slice b in
  (let '(b', r) := StaticBuffer.write data b in
   StaticBuffer.wf b' /\ (StaticBuffer.as_slice b', r) = bounded_append N v data) /\
  (let '(b', n) := StaticBuffer.safe_write data b in
   StaticBuffer.wf b' /\ StaticBuffer.as_slice b' = v ++ take (N - length v) data /\
   n = Nat.min (length data) (N - length v)) /\
  (let '(b', r) := StaticBuffer.rotate_left mid b in
   StaticBuffer.wf b' /\
   if Nat.leb mid (length v)
   then StaticBuffer.as_slice b' = drop mid v /\ r = Ok (length v - mid)
   else b' = b /\ r = Err InvalidArgument).
Proof.
  split; [|split].
  - by apply static_write_spec.
  - by apply static_safe_write_spec.
  - by apply static_rotate_spec.
Qed.

Lemma static_buffer_refines_witness :
  StaticBuffer.as_slice (fst (StaticBuffer.write (N := 3) [x01; x02] (StaticBuffer.new 3))) =
  [x01; x02].
Proof.
  pose proof (static_buffer_refines 3 (StaticBuffer.new 3) [x01; x02] 1
                (static_new_wf 3)) as [[_ H] _].
  exact (f_equal fst H).
Defined.

(** * Output buffers *)

Lemma length_ob_slice b :
  OutputBuffer.wf b -> length (OutputBuffer.as_slice b) = OutputBuffer.offset b.
Proof. unfold OutputBuffer.wf, OutputBuffer.as_slice. intros H. rewrite length_take. lia. Qed.

(** A write that fits: the view grows by the data, the room shrinks by it, and
    the offset, which [encode] and [decode] return, moves by it. *)
Lemma ob_write_fits data b :
  OutputBuffer.wf b -> length data <= OutputBuffer.room b ->
  exists b', OutputBuffer.write data b = (b', Ok (length data)) /\ OutputBuffer.wf b' /\
    OutputBuffer.as_slice b' = OutputBuffer.as_slice b ++ data /\
    OutputBuffer.room b' = OutputBuffer.room b - length data /\
    OutputBuffer.offset b' = OutputBuffer.offset b + length data.
Proof.
  unfold OutputBuffer.wf, OutputBuffer.room, OutputBuffer.write, OutputBuffer.as_slice.
  intros Hwf Hfit. destruct (Nat.eqb_spec (length data) 0) as [H0|H0].
  - rewrite H0. apply nil_length_inv in H0 as ->. exists b. simpl.
    rewrite app_nil_r. repeat split; try lia; done.
  - rewrite (proj2 (Nat.ltb_ge _ _)) by lia. eexists. split; [done|]. simpl.
    rewrite length_splice by lia. rewrite take_splice by lia. repeat split; lia || done.
Qed.

Lemma ob_write_overflow data b :
  OutputBuffer.wf b -> OutputBuffer.room b < length data ->
  OutputBuffer.write data b = (b, Err OutOfMemory).
Proof.
  unfold OutputBuffer.wf, OutputBuffer.room, OutputBuffer.write. intros Hwf Hov.
  rewrite (proj2 (Nat.eqb_neq _ _)) by lia. by rewrite (proj2 (Nat.ltb_lt _ _)) by lia.
Qed.

Lemma ob_new_wf buf : OutputBuffer.wf (OutputBuffer.new buf).
Proof. unfold OutputBuffer.wf; simpl; lia. Qed.

Lemma ob_room_new buf : OutputBuffer.room (OutputBuffer.new buf) = length buf.
Proof. unfold OutputBuffer.room; simpl; lia. Qed.

#[export] Hint Resolve ob_new_wf static_new_wf : lxmf.

(** * Input buffers *)

Lemma ib_read_app b data rest :
  InputBuffer.wf b -> InputBuffer.remaining b = data ++ rest ->
  exists b', InputBuffer.read (length data) b = (b', Ok data) /\ InputBuffer.wf b' /\
    InputBuffer.remaining b' = rest.
Proof.
  unfold InputBuffer.wf, InputBuffer.remaining, InputBuffer.read. intros Hwf Hrem.
  assert (length (InputBuffer.buffer b) - InputBuffer.offset b = length data + length rest) as Hl
    by (rewrite <- length_drop, Hrem, length_app; done).
  rewrite (proj2 (Nat.ltb_ge _ _)) by lia.
  eexists. rewrite Hrem, take_app_length. split; [done|]. simpl. split; [lia|].
  rewrite <- drop_drop, Hrem. apply drop_app_length.
Qed.

Lemma ib_read_short b size :
  InputBuffer.wf b -> length (InputBuffer.remaining b) < size ->
  InputBuffer.read size b = (b, Err OutOfMemory).
Proof.
  unfold InputBuffer.wf, InputBuffer.remaining, InputBuffer.read. rewrite length_drop.
  intros Hwf Hs. by rewrite (proj2 (Nat.ltb_lt _ _)) by lia.
Qed.

Lemma ib_read_byte_cons b x rest :
  InputBuffer.wf b -> InputBuffer.remaining b = x :: rest ->
  exists b', InputBuffer.read_byte b = (b', Ok x) /\ InputBuffer.wf b' /\
    InputBuffer.remaining b' = rest.
Proof.
  intros Hwf Hrem. destruct (ib_read_app b [x] rest Hwf Hrem) as (b' & Hr & Hwf' & Hrem').
  exists b'. split; [|done]. unfold InputBuffer.read_byte. by rewrite (stres_bind_Ok _ _ _ _ _ Hr).
Qed.

Lemma ib_bytes_left b : InputBuffer.bytes_left b = length (InputBuffer.remaining b).
Proof. unfold InputBuffer.bytes_left, InputBuffer.remaining. by rewrite length_drop. Qed.

Lemma ib_new_wf buf : InputBuffer.wf (InputBuffer.new buf).
Proof. unfold InputBuffer.wf; simpl; lia. Qed.

Lemma ib_new_remaining buf : InputBuffer.remaining (InputBuffer.new buf) = buf.
Proof. done. Qed.
#[export] Hint Resolve ib_new_wf : lxmf.
