(* ===== verification/Hdlc.v ===== *)
(** [reticulum-patched/src/iface/hdlc.rs]: HDLC framing with byte stuffing over
    the buffers of [Buffer]. *)

From Stdlib Require Import ZArith Lia.
From Stdlib Require Import Strings.Byte.
From stdpp Require Import base list numbers.
From S2P Require Import Prelude Buffer.

Module Hdlc.

Definition HDLC_FRAME_FLAG : byte := x7e.
Definition HDLC_ESCAPE_BYTE : byte := x7d.
Definition HDLC_ESCAPE_MASK : Z := 0x20.

(** [byte ^ HDLC_ESCAPE_MASK] *)
Definition mask (b : byte) : byte := byte_of_Z (Z.lxor (u8 b) HDLC_ESCAPE_MASK).

(** One round of the encoder's loop. *)
Definition encode_byte (b : byte) : stres OutputBuffer.t RetError nat :=
  if bool_decide (b = HDLC_FRAME_FLAG) || bool_decide (b = HDLC_ESCAPE_BYTE)
  then OutputBuffer.write [HDLC_ESCAPE_BYTE; mask b]
  else OutputBuffer.write_byte b.

Fixpoint encode_loop (data : list byte) : stres OutputBuffer.t RetError unit :=
  match data with
  | [] => mret tt
  | b :: data' => _ ← encode_byte b; encode_loop data'
  end.

Definition encode (data : list byte) : stres OutputBuffer.t RetError nat :=
  _ ← OutputBuffer.write_byte HDLC_FRAME_FLAG;
  _ ← encode_loop data;
  _ ← OutputBuffer.write_byte HDLC_FRAME_FLAG;
  st_get (fun buffer : OutputBuffer.t => Ok (OutputBuffer.offset buffer)).

(** [find]: the loop over the indices, with the [start] flag and index; the
    second flag met ends it. *)
Fixpoint find_loop (data : list byte) (i : nat) (start : option nat) : option (nat * nat) :=
  match data with
  | [] => None
  | b :: data' =>
      if bool_decide (b = HDLC_FRAME_FLAG)
      then match start with
           | None => find_loop data' (S i) (Some i)
           | Some start_index => Some (start_index, i)
           end
      else find_loop data' (S i) start
  end.

Definition find (data : list byte) : option (nat * nat) := find_loop data 0 None.

(** The decoder's loop; the answer is the [finished] flag. *)
Fixpoint decode_loop (data : list byte) (started escape : bool) :
    stres OutputBuffer.t RetError bool :=
  match data with
  | [] => mret false
  | b :: data' =>
      if escape
      then _ ← OutputBuffer.write_byte (mask b); decode_loop data' started false
      else if bool_decide (b = HDLC_FRAME_FLAG)
      then if started then mret true else decode_loop data' true false
      else if bool_decide (b = HDLC_ESCAPE_BYTE)
      then decode_loop data' started true
      else _ ← OutputBuffer.write_byte b; decode_loop data' started false
  end.

Definition decode (data : list byte) : stres OutputBuffer.t RetError nat :=
  finished ← decode_loop data false false;
  st_get (fun output : OutputBuffer.t =>
    if finished : bool then Ok (OutputBuffer.offset output) else Err OutOfMemory).

End Hdlc.

Import Hdlc.

(** * The frame a payload is encoded to *)

Definition stuff (b : byte) : list byte :=
  if bool_decide (b = HDLC_FRAME_FLAG) || bool_decide (b = HDLC_ESCAPE_BYTE)
  then [HDLC_ESCAPE_BYTE; mask b] else [b].

Definition stuffed (data : list byte) : list byte := concat (map stuff data).

Definition frame (data : list byte) : list byte :=
  [HDLC_FRAME_FLAG] ++ stuffed data ++ [HDLC_FRAME_FLAG].

Lemma mask_mask b : mask (mask b) = b.
Proof. by destruct b. Qed.

Lemma encode_byte_stuff b : encode_byte b = OutputBuffer.write (stuff b).
Proof. unfold encode_byte, stuff. by destruct (_ || _). Qed.

(** Writing one flag or one stuffed byte either fits or stops the encoder. *)
Lemma ob_write_cases data b :
  OutputBuffer.wf b ->
  (exists b', OutputBuffer.write data b = (b', Ok (length data)) /\ OutputBuffer.wf b' /\
    OutputBuffer.as_slice b' = OutputBuffer.as_slice b ++ data /\
    OutputBuffer.room b' = OutputBuffer.room b - length data /\
    OutputBuffer.offset b' = OutputBuffer.offset b + length data /\
    length data <= OutputBuffer.room b) \/
  (OutputBuffer.write data b = (b, Err OutOfMemory) /\ OutputBuffer.room b < length data).
Proof.
  intros Hwf. destruct (le_lt_dec (length data) (OutputBuffer.room b)) as [Hfit|Hov].
  - left. destruct (ob_write_fits data b Hwf Hfit) as (b' & H). exists b'. intuition.
  - right. split; [by apply ob_write_overflow|done].
Qed.

Lemma encode_loop_fits data b :
  OutputBuffer.wf b -> length (stuffed data) <= OutputBuffer.room b ->
  exists b', encode_loop data b = (b', Ok tt) /\ OutputBuffer.wf b' /\
    OutputBuffer.as_slice b' = OutputBuffer.as_slice b ++ stuffed data /\
    OutputBuffer.room b' = OutputBuffer.room b - length (stuffed data) /\
    OutputBuffer.offset b' = OutputBuffer.offset b + length (stuffed data).
Proof.
  revert b. induction data as [|x data IH]; intros b Hwf Hfit; unfold stuffed in *; simpl in *.
  - exists b. rewrite app_nil_r. repeat split; try done; lia.
  - rewrite length_app in Hfit.
    destruct (ob_write_fits (stuff x) b Hwf ltac:(lia)) as (b1 & Hw & Hwf1 & Hs1 & Hr1 & Ho1).
    destruct (IH b1 Hwf1 ltac:(lia)) as (b2 & He & Hwf2 & Hs2 & Hr2 & Ho2).
    exists b2. rewrite encode_byte_stuff, (stres_bind_Ok _ _ _ _ _ Hw), He.
    rewrite Hs2, Hs1, <- app_assoc, length_app. repeat split; try done; lia.
Qed.

Lemma encode_loop_overflow data b :
  OutputBuffer.wf b -> OutputBuffer.room b < length (stuffed data) ->
  exists b', encode_loop data b = (b', Err OutOfMemory).
Proof.
  revert b. induction data as [|x data IH]; intros b Hwf Hov; unfold stuffed in *; simpl in *;
    [lia|]. rewrite length_app in Hov. rewrite encode_byte_stuff.
  destruct (ob_write_cases (stuff x) b Hwf) as [(b1 & Hw & Hwf1 & _ & Hr1 & _ & Hle)|[Hw _]].
  - rewrite (stres_bind_Ok _ _ _ _ _ Hw). apply IH; [done|lia].
  - exists b. by rewrite (stres_bind_Err _ _ _ _ _ Hw).
Qed.

Lemma encode_fits data b :
  OutputBuffer.wf b -> length (frame data) <= OutputBuffer.room b ->
  exists b', encode data b = (b', Ok (OutputBuffer.offset b + length (frame data))) /\
    OutputBuffer.wf b' /\ OutputBuffer.as_slice b' = OutputBuffer.as_slice b ++ frame data.
Proof.
  unfold frame. rewrite !length_app. simpl. intros Hwf Hfit.
  destruct (ob_write_fits [HDLC_FRAME_FLAG] b Hwf ltac:(simpl; lia))
    as (b1 & Hw1 & Hwf1 & Hs1 & Hr1 & Ho1). simpl in *.
  destruct (encode_loop_fits data b1 Hwf1 ltac:(lia)) as (b2 & Hw2 & Hwf2 & Hs2 & Hr2 & Ho2).
  destruct (ob_write_fits [HDLC_FRAME_FLAG] b2 Hwf2 ltac:(simpl; lia))
    as (b3 & Hw3 & Hwf3 & Hs3 & Hr3 & Ho3). simpl in *.
  exists b3. unfold encode, OutputBuffer.write_byte.
  rewrite (stres_bind_Ok _ _ _ _ _ Hw1), (stres_bind_Ok _ _ _ _ _ Hw2),
    (stres_bind_Ok _ _ _ _ _ Hw3).
  split; [unfold st_get; do 2 f_equal; lia|]. split; [done|].
  rewrite Hs3, Hs2, Hs1, <- !app_assoc. done.
Qed.

Lemma encode_overflow data b :
  OutputBuffer.wf b -> OutputBuffer.room b < length (frame data) ->
  exists b', encode data b = (b', Err OutOfMemory).
Proof.
  unfold frame. rewrite !length_app. simpl. intros Hwf Hov. unfold encode, OutputBuffer.write_byte.
  destruct (ob_write_cases [HDLC_FRAME_FLAG] b Hwf) as [(b1 & Hw & Hwf1 & _ & Hr1 & _ & Hle)|[Hw _]];
    [|eexists; by rewrite (stres_bind_Err _ _ _ _ _ Hw)].
  simpl in *. rewrite (stres_bind_Ok _ _ _ _ _ Hw).
  destruct (le_lt_dec (length (stuffed data)) (OutputBuffer.room b1)) as [Hfit|Hov2].
  - destruct (encode_loop_fits data b1 Hwf1 Hfit) as (b2 & Hw2 & Hwf2 & _ & Hr2 & _).
    rewrite (stres_bind_Ok _ _ _ _ _ Hw2). eexists.
    rewrite (stres_bind_Err _ _ _ _ _ (ob_write_overflow [HDLC_FRAME_FLAG] b2 Hwf2 ltac:(simpl; lia))). done.
  - destruct (encode_loop_overflow data b1 Hwf1 Hov2) as (b2 & Hw2).
    eexists. by rewrite (stres_bind_Err _ _ _ _ _ Hw2).
Qed.

(** [encode] writes exactly the flag, the stuffed payload and the flag,
    and returns the new offset, when the frame fits in the room left; otherwise
    it fails with [OutOfMemory]. *)
Theorem hdlc_encode_spec (data : list byte) (b : OutputBuffer.t) (Hwf : OutputBuffer.wf b) :
  let '(b', r) := encode data b in
  if Nat.leb (length (frame data)) (OutputBuffer.room b)
  then OutputBuffer.as_slice b' = OutputBuffer.as_slice b ++ frame data /\
       r = Ok (length (OutputBuffer.as_slice b'))
  else r = Err OutOfMemory.
Proof.
  destruct (Nat.leb_spec (length (frame data)) (OutputBuffer.room b)) as [Hfit|Hov].
  - destruct (encode_fits data b Hwf Hfit) as (b' & -> & Hwf' & Hs). split; [done|].
    by rewrite Hs, length_app, length_ob_slice.
  - destruct (encode_overflow data b Hwf Hov) as (b' & ->). done.
Qed.

Lemma hdlc_encode_spec_witness :
  OutputBuffer.as_slice (fst (encode [x7e; x01] (OutputBuffer.new (replicate 8 x00)))) =
  [x7e; x7d; x5e; x01; x7e].
Proof.
  pose proof (hdlc_encode_spec [x7e; x01] (OutputBuffer.new (replicate 8 x00))
                (ob_new_wf _)) as H.
  vm_compute in H. destruct H as [H _]. exact H.
Defined.

(** * Decoding *)

Lemma stuffed_no_flag data : HDLC_FRAME_FLAG ∉ stuffed data.
Proof.
  unfold stuffed. induction data as [|x data IH]; simpl; [apply not_elem_of_nil|].
  rewrite elem_of_app. intros [H|H]; [|done].
  destruct x; vm_compute in H; repeat (apply elem_of_cons in H as [H|H]; [done|]);
    by apply not_elem_of_nil in H.
Qed.

(** Decoding the stuffing of [data] writes [data] and goes on behind it. *)
Lemma decode_loop_stuffed data rest b :
  OutputBuffer.wf b -> length data <= OutputBuffer.room b ->
  exists b', decode_loop (stuffed data ++ rest) true false b = decode_loop rest true false b' /\
    OutputBuffer.wf b' /\ OutputBuffer.as_slice b' = OutputBuffer.as_slice b ++ data /\
    OutputBuffer.offset b' = OutputBuffer.offset b + length data.
Proof.
  revert b. induction data as [|x data IH]; intros b Hwf Hfit; simpl in *.
  - exists b. rewrite app_nil_r. repeat split; try done; lia.
  - destruct (ob_write_fits [x] b Hwf ltac:(simpl; lia)) as (b1 & Hw & Hwf1 & Hs1 & Hr1 & Ho1).
    simpl in *. destruct (IH b1 Hwf1 ltac:(lia)) as (b2 & Hd & Hwf2 & Hs2 & Ho2).
    exists b2. split; [|rewrite Hs2, Hs1, <- app_assoc; repeat split; try done; lia].
    unfold stuffed in *; simpl. rewrite <- app_assoc. unfold stuff.
    destruct (bool_decide (x = HDLC_FRAME_FLAG)) eqn:E1; simpl.
    { unfold OutputBuffer.write_byte. rewrite mask_mask, (stres_bind_Ok _ _ _ _ _ Hw). exact Hd. }
    destruct (bool_decide (x = HDLC_ESCAPE_BYTE)) eqn:E2; simpl.
    { unfold OutputBuffer.write_byte. rewrite mask_mask, (stres_bind_Ok _ _ _ _ _ Hw). exact Hd. }
    rewrite E1, E2. unfold OutputBuffer.write_byte. rewrite (stres_bind_Ok _ _ _ _ _ Hw). exact Hd.
Qed.

Lemma find_loop_skip pre rest i start :
  HDLC_FRAME_FLAG ∉ pre ->
  find_loop (pre ++ rest) i start = find_loop rest (i + length pre) start.
Proof.
  revert i. induction pre as [|x pre IH]; intros i Hn; simpl; [by rewrite Nat.add_0_r|].
  rewrite bool_decide_false by (intros ->; apply Hn; left).
  rewrite IH by (intros H; apply Hn; by right). f_equal. lia.
Qed.

Lemma find_frame pre data post : HDLC_FRAME_FLAG ∉ pre ->
  find (pre ++ frame data ++ post) = Some (length pre, length pre + length (frame data) - 1).
Proof.
  intros Hpre. unfold find, frame. rewrite find_loop_skip by done. simpl.
  rewrite <- app_assoc, find_loop_skip by apply stuffed_no_flag. simpl.
  rewrite length_app. simpl. repeat f_equal. lia.
Qed.

(** No frame ends before its second flag. *)
Lemma find_open pre body : HDLC_FRAME_FLAG ∉ pre -> HDLC_FRAME_FLAG ∉ body ->
  find (pre ++ HDLC_FRAME_FLAG :: body) = None.
Proof.
  intros Hpre Hbody. unfold find. rewrite find_loop_skip by done. simpl.
  rewrite <- (app_nil_r body). by rewrite find_loop_skip.
Qed.

Lemma decode_frame data rxb : OutputBuffer.wf rxb -> length data <= OutputBuffer.room rxb ->
  exists rxb' m, decode (frame data) rxb = (rxb', Ok m) /\
    OutputBuffer.as_slice rxb' = OutputBuffer.as_slice rxb ++ data.
Proof.
  intros Hrx Hcap.
  destruct (decode_loop_stuffed data [HDLC_FRAME_FLAG] rxb Hrx Hcap) as (rxb' & Hd & _ & Hv & _).
  assert (decode_loop (frame data) false false rxb = (rxb', Ok true)) as Hf
    by (unfold frame; simpl; by rewrite Hd).
  exists rxb', (OutputBuffer.offset rxb'). split; [|done].
  unfold decode. by rewrite (stres_bind_Ok _ _ _ _ _ Hf).
Qed.

(** The HDLC layer is transparent: a frame encoded from [data] is found at
    its own bounds in the stream, behind bytes that are not flags and before
    anything, and decoding it into a buffer with room for [data] returns
    [data], whatever bytes it holds. *)
Theorem hdlc_roundtrip (data pre post : list byte) (txb rxb : OutputBuffer.t)
  (Htx : OutputBuffer.wf txb) (Hroom : length (frame data) <= OutputBuffer.room txb)
  (Hrx : OutputBuffer.wf rxb) (Hcap : length data <= OutputBuffer.room rxb)
  (Hpre : HDLC_FRAME_FLAG ∉ pre) :
  exists txb' rxb' n m,
    encode data txb = (txb', Ok n) /\
    let wire := drop (OutputBuffer.offset txb) (OutputBuffer.as_slice txb') in
    find (pre ++ wire ++ post) = Some (length pre, length pre + length wire - 1) /\
    decode wire rxb = (rxb', Ok m) /\
    OutputBuffer.as_slice rxb' = OutputBuffer.as_slice rxb ++ data.
Proof.
  destruct (encode_fits data txb Htx Hroom) as (txb' & He & Hwf' & Hs).
  assert (drop (OutputBuffer.offset txb) (OutputBuffer.as_slice txb') = frame data) as Hwire.
  { rewrite Hs, <- (length_ob_slice txb Htx). apply drop_app_length. }
  destruct (decode_frame data rxb Hrx Hcap) as (rxb' & m & Hd & Hv).
  exists txb', rxb', (OutputBuffer.offset txb + length (frame data)), m.
  split; [done|]. cbn zeta. rewrite Hwire. auto using find_frame.
Qed.

Lemma hdlc_roundtrip_witness :
  exists txb' rxb' n m,
    encode [x7e; x41; x7d] (OutputBuffer.new (replicate 16 x00)) = (txb', Ok n) /\
    find ([x41] ++ drop 0 (OutputBuffer.as_slice txb') ++ [x7e]) = Some (1, 7) /\
    decode (drop 0 (OutputBuffer.as_slice txb')) (OutputBuffer.new (replicate 4 x00)) = (rxb', Ok m) /\
    OutputBuffer.as_slice rxb' = [x7e; x41; x7d].
Proof.
  destruct (hdlc_roundtrip [x7e; x41; x7d] [x41] [x7e] (OutputBuffer.new (replicate 16 x00))
              (OutputBuffer.new (replicate 4 x00)) (ob_new_wf _) ltac:(vm_compute; lia)
              (ob_new_wf _) ltac:(vm_compute; lia)
              ltac:(by apply not_elem_of_cons; split; [|apply not_elem_of_nil]))
    as (txb' & rxb' & n & m & He & Hf & Hd & Hv).
  exists txb', rxb', n, m. split; [exact He|]. split; [|split; [exact Hd|exact Hv]].
  etransitivity; [exact Hf|]. vm_compute in He. injection He as <- _. reflexivity.
Defined.
