(* ===== verification/Packet.v ===== *)
(** Reticulum packets: [reticulum-patched/src/hash.rs] (address hashes and
    their hexadecimal form), [packet.rs] (header bits, contexts, packets and
    their hash) and [serde.rs] (the wire format). *)

From Stdlib Require Import ZArith Lia.
From Stdlib Require Import Strings.Byte.
From stdpp Require Import base list numbers.
From S2P Require Import Prelude Crypto Buffer.

Local Open Scope Z_scope.

(** * Hashes *)

Abbreviation Hash := (arr 32).
Abbreviation AddressHash := (arr 16).

Definition HASH_SIZE : nat := 32.
Definition ADDRESS_HASH_SIZE : nat := 16.

Module AddressHash.

(** [{:02x}] of a byte: two lower-case digits. *)
Definition hex_digit (n : Z) : byte := byte_of_Z (if n <? 10 then 48 + n else 87 + n).
Definition hex_byte (b : byte) : list byte := [hex_digit (u8 b / 16); hex_digit (u8 b mod 16)].

Definition to_hex_string (a : AddressHash) : list byte := concat (map hex_byte a).

(** The digit values [u8::from_str_radix(_, 16)] accepts, and its reading of a
    two-byte slice (a leading [+] is allowed). *)
Definition hex_value (c : byte) : option Z :=
  let v := u8 c in
  if (48 <=? v) && (v <=? 57) then Some (v - 48)
  else if (97 <=? v) && (v <=? 102) then Some (v - 87)
  else if (65 <=? v) && (v <=? 70) then Some (v - 55)
  else None.
Definition from_str_radix16 (hi lo : byte) : option byte :=
  if bool_decide (hi = x2b) then byte_of_Z <$> hex_value lo
  else h ← hex_value hi; l ← hex_value lo; Some (byte_of_Z (16 * h + l)).

(** The loop over the byte pairs; an unreadable pair makes [unwrap] panic. *)
Fixpoint hex_pairs (n : nat) (s : list byte) : result (fault RetError) (list byte) :=
  match n with
  | O => Ok []
  | S m => match s with
           | hi :: lo :: s' =>
               match from_str_radix16 hi lo with
               | Some b => match hex_pairs m s' with Ok bs => Ok (b :: bs) | Err e => Err e end
               | None => Err Panics
               end
           | _ => Err Panics
           end
  end.

Definition new_from_hex_string (s : list byte) : result (fault RetError) AddressHash :=
  if Nat.ltb (length s) (ADDRESS_HASH_SIZE * 2) then Err (Fails IncorrectHash)
  else bs ← hex_pairs ADDRESS_HASH_SIZE s; Ok (arr_of 16 bs).

Definition new_empty : AddressHash := arr_zero 16.

Section WithCrypto.
Context `{C : Crypto}.
Definition new_from_hash (h : Hash) : AddressHash := arr_of 16 (take 16 h).
(** [create_hash] truncated to an address. *)
Definition new_from_slice (data : list byte) : AddressHash := arr_of 16 (take 16 (sha256 data)).
End WithCrypto.

End AddressHash.

Lemma hex_byte_parse b :
  AddressHash.from_str_radix16
    (AddressHash.hex_digit (u8 b / 16)) (AddressHash.hex_digit (u8 b mod 16)) = Some b.
Proof. by destruct b. Qed.

Lemma hex_pairs_prefix l n rest : length l = n ->
  AddressHash.hex_pairs n (concat (map AddressHash.hex_byte l) ++ rest) = Ok l.
Proof.
  intros <-. induction l as [|b l IH]; [done|].
  cbn [length map concat AddressHash.hex_byte app AddressHash.hex_pairs].
  by rewrite hex_byte_parse, IH.
Qed.

Lemma hex_pairs_print l n :
  length l = n -> AddressHash.hex_pairs n (concat (map AddressHash.hex_byte l)) = Ok l.
Proof. intros Hl. rewrite <- (app_nil_r (concat _)). by apply hex_pairs_prefix. Qed.

Lemma length_hex l : length (concat (map AddressHash.hex_byte l)) = (length l * 2)%nat.
Proof. induction l as [|b l IH]; simpl; [done|]. by rewrite IH. Qed.

Lemma hex_pairs_fault n s e : AddressHash.hex_pairs n s = Err e -> e = Panics.
Proof.
  revert s. induction n as [|n IH]; intros s; simpl; [done|].
  destruct s as [|hi [|lo s']]; try congruence.
  destruct (AddressHash.from_str_radix16 hi lo); [|congruence].
  destruct (AddressHash.hex_pairs n s') eqn:E; [done|]. intros H. inv_ok. by eapply IH.
Qed.

(** Printing an address hash in hexadecimal and parsing the text gives the
    hash back, and a text is rejected with [IncorrectHash] exactly when it is
    shorter than 32 bytes. *)
Theorem address_hex_roundtrip (a : AddressHash) (s : list byte) :
  AddressHash.new_from_hex_string (AddressHash.to_hex_string a) = Ok a /\
  (AddressHash.new_from_hex_string s = Err (Fails IncorrectHash) <-> (length s < 32)%nat).
Proof.
  unfold AddressHash.new_from_hex_string, AddressHash.to_hex_string, ADDRESS_HASH_SIZE. split.
  - rewrite length_hex, arr_length. simpl Nat.ltb. cbn iota.
    rewrite (hex_pairs_print _ _ (arr_length a)). simpl. by rewrite arr_of_arr.
  - destruct (Nat.ltb_spec (length s) (16 * 2)) as [H|H]; [split; [lia|done]|].
    split; [|lia]. destruct (AddressHash.hex_pairs 16 s) eqn:E; simpl; [done|].
    intros ?. inv_ok. by apply hex_pairs_fault in E.
Qed.

(** * Header bits *)

Definition PACKET_MDU : nat := 2048.
Definition PACKET_IFAC_MAX_LENGTH : nat := 64.

Inductive IfacFlag : Type := Open | Authenticated.
Inductive HeaderType : Type := Type1 | Type2.
Inductive PropagationType : Type := Broadcast | Transport | Reserved1 | Reserved2.
Inductive DestinationType : Type := Single | Group | Plain | Link.
Inductive PacketType : Type := Data | Announce | LinkRequest | Proof_.

#[export] Instance HeaderType_eq_dec : EqDecision HeaderType.
Proof. solve_decision. Defined.
#[export] Instance DestinationType_eq_dec : EqDecision DestinationType.
Proof. solve_decision. Defined.
#[export] Instance PacketType_eq_dec : EqDecision PacketType.
Proof. solve_decision. Defined.

(** The discriminants ([as u8]) and [From<u8>]. *)
Definition IfacFlag_u8 (x : IfacFlag) : Z := match x with Open => 0 | Authenticated => 1 end.
Definition IfacFlag_from (v : Z) : IfacFlag := if v =? 1 then Authenticated else Open.

Definition HeaderType_u8 (x : HeaderType) : Z := match x with Type1 => 0 | Type2 => 1 end.
Definition HeaderType_from (v : Z) : HeaderType := if Z.land v 1 =? 1 then Type2 else Type1.

Definition PropagationType_u8 (x : PropagationType) : Z :=
  match x with Broadcast => 0 | Transport => 1 | Reserved1 => 2 | Reserved2 => 3 end.
Definition PropagationType_from (v : Z) : PropagationType :=
  match Z.land v 3 with 1 => Transport | 2 => Reserved1 | 3 => Reserved2 | _ => Broadcast end.

Definition DestinationType_u8 (x : DestinationType) : Z :=
  match x with Single => 0 | Group => 1 | Plain => 2 | Link => 3 end.
Definition DestinationType_from (v : Z) : DestinationType :=
  match Z.land v 3 with 1 => Group | 2 => Plain | 3 => Link | _ => Single end.

Definition PacketType_u8 (x : PacketType) : Z :=
  match x with Data => 0 | Announce => 1 | LinkRequest => 2 | Proof_ => 3 end.
Definition PacketType_from (v : Z) : PacketType :=
  match Z.land v 3 with 1 => Announce | 2 => LinkRequest | 3 => Proof_ | _ => Data end.

Inductive PacketContext : Type :=
| CtxNone | CtxResource | ResourceAdvrtisement | CtxResourceRequest | CtxResourceHashUpdate
| CtxResourceProof | ResourceInitiatorCancel | ResourceReceiverCancel | CacheRequest | Request
| Response | PathResponse | Command | CommandStatus | Channel | KeepAlive | LinkIdentify
| LinkClose | LinkProof | LinkRTT | LinkRequestProof.

#[export] Instance PacketContext_eq_dec : EqDecision PacketContext.
Proof. solve_decision. Defined.

Definition PacketContext_u8 (c : PacketContext) : Z :=
  match c with
  | CtxNone => 0x00 | CtxResource => 0x01 | ResourceAdvrtisement => 0x02
  | CtxResourceRequest => 0x03 | CtxResourceHashUpdate => 0x04 | CtxResourceProof => 0x05
  | ResourceInitiatorCancel => 0x06 | ResourceReceiverCancel => 0x07 | CacheRequest => 0x08
  | Request => 0x09 | Response => 0x0A | PathResponse => 0x0B | Command => 0x0C
  | CommandStatus => 0x0D | Channel => 0x0E | KeepAlive => 0xFA | LinkIdentify => 0xFB
  | LinkClose => 0xFC | LinkProof => 0xFD | LinkRTT => 0xFE | LinkRequestProof => 0xFF
  end.

Definition PacketContext_from (v : Z) : PacketContext :=
  match v with
  | 0x01 => CtxResource | 0x02 => ResourceAdvrtisement | 0x03 => CtxResourceRequest
  | 0x04 => CtxResourceHashUpdate | 0x05 => CtxResourceProof | 0x06 => ResourceInitiatorCancel
  | 0x07 => ResourceReceiverCancel | 0x08 => CacheRequest | 0x09 => Request
  | 0x0A => Response | 0x0B => PathResponse | 0x0C => Command | 0x0D => CommandStatus
  | 0x0E => Channel | 0xFA => KeepAlive | 0xFB => LinkIdentify | 0xFC => LinkClose
  | 0xFD => LinkProof | 0xFE => LinkRTT | 0xFF => LinkRequestProof | _ => CtxNone
  end.

Record Header : Type := mkHeader {
  ifac_flag : IfacFlag;
  header_type : HeaderType;
  propagation_type : PropagationType;
  destination_type : DestinationType;
  packet_type : PacketType;
  hops : byte
}.

Definition Header_default : Header := mkHeader Open Type1 Broadcast Single Data x00.

Definition to_meta (h : Header) : Z :=
  Z.lor (Z.shiftl (IfacFlag_u8 (ifac_flag h)) 7)
    (Z.lor (Z.shiftl (HeaderType_u8 (header_type h)) 6)
      (Z.lor (Z.shiftl (PropagationType_u8 (propagation_type h)) 4)
        (Z.lor (Z.shiftl (DestinationType_u8 (destination_type h)) 2)
          (PacketType_u8 (packet_type h))))).

Definition from_meta (meta : Z) : Header :=
  mkHeader (IfacFlag_from (Z.shiftr meta 7)) (HeaderType_from (Z.shiftr meta 6))
    (PropagationType_from (Z.shiftr meta 4)) (DestinationType_from (Z.shiftr meta 2))
    (PacketType_from meta) x00.

(** * Packets *)

Record PacketIfac : Type := mkIfac { access_code : arr 64; ifac_length : nat }.

(** [access_code[..slice.len()]] panics on a slice over 64 bytes. *)
Definition PacketIfac_new_from_slice (slice : list byte) : result (fault RetError) PacketIfac :=
  if Nat.ltb PACKET_IFAC_MAX_LENGTH (length slice) then Err Panics
  else Ok (mkIfac (arr_of 64 (splice (replicate 64 x00) 0 slice)) (length slice)).

Definition PacketIfac_as_slice (i : PacketIfac) : list byte :=
  take (ifac_length i) (access_code i).

Record Packet : Type := mkPacket {
  header : Header;
  ifac : option PacketIfac;
  destination : AddressHash;
  transport : option AddressHash;
  context : PacketContext;
  data : StaticBuffer.t PACKET_MDU
}.

Section PacketHash.
Context `{C : Crypto}.
Definition packet_hash (p : Packet) : Hash :=
  sha256 ([byte_of_Z (Z.land (to_meta (header p)) 0x0F)] ++ arr_list (destination p)
          ++ [byte_of_Z (PacketContext_u8 (context p))] ++ StaticBuffer.as_slice (data p)).
End PacketHash.

(** * Wire format ([serde.rs]) *)

Definition AddressHash_serialize (a : AddressHash) : stres OutputBuffer.t RetError nat :=
  OutputBuffer.write a.
Definition Header_serialize (h : Header) : stres OutputBuffer.t RetError nat :=
  OutputBuffer.write [byte_of_Z (to_meta h); hops h].
Definition PacketContext_serialize (c : PacketContext) : stres OutputBuffer.t RetError nat :=
  OutputBuffer.write [byte_of_Z (PacketContext_u8 c)].

Definition serialize_transport (p : Packet) : stres OutputBuffer.t RetError nat :=
  if bool_decide (header_type (header p) = Type2)
  then match transport p with Some t => AddressHash_serialize t | None => mret 0%nat end
  else mret 0%nat.

Definition serialize (p : Packet) : stres OutputBuffer.t RetError nat :=
  _ ← Header_serialize (header p);
  _ ← serialize_transport p;
  _ ← AddressHash_serialize (destination p);
  _ ← PacketContext_serialize (context p);
  OutputBuffer.write (StaticBuffer.as_slice (data p)).

(** A reader that can only fail, inside code that can also panic. *)
Definition reading {A} (m : stres InputBuffer.t RetError A) :
    stres InputBuffer.t (fault RetError) A :=
  fun b => let '(b', r) := m b in (b', map_err Fails r).

Definition Header_deserialize : stres InputBuffer.t RetError Header :=
  meta ← InputBuffer.read_byte;
  h ← InputBuffer.read_byte;
  let f := from_meta (u8 meta) in
  mret (mkHeader (ifac_flag f) (header_type f) (propagation_type f) (destination_type f)
          (packet_type f) h).

Definition AddressHash_deserialize : stres InputBuffer.t RetError AddressHash :=
  bs ← InputBuffer.read 16; mret (arr_of 16 bs).

Definition PacketContext_deserialize : stres InputBuffer.t RetError PacketContext :=
  b ← InputBuffer.read_byte; mret (PacketContext_from (u8 b)).

Definition deserialize_transport (h : Header) : stres InputBuffer.t RetError (option AddressHash) :=
  if bool_decide (header_type h = Type2)
  then a ← AddressHash_deserialize; mret (Some a)
  else mret None.

(** The remaining bytes go into [data.accuire_buf(bytes_left)]. *)
Definition deserialize_data : stres InputBuffer.t (fault RetError) (StaticBuffer.t PACKET_MDU) :=
  buf ← st_get (fun b => StaticBuffer.accuire_buf (InputBuffer.bytes_left b)
                           (StaticBuffer.new PACKET_MDU));
  bs ← reading (InputBuffer.read (StaticBuffer.len buf));
  mret (StaticBuffer.fill bs buf).

Definition deserialize : stres InputBuffer.t (fault RetError) Packet :=
  h ← reading Header_deserialize;
  t ← reading (deserialize_transport h);
  d ← reading AddressHash_deserialize;
  c ← reading PacketContext_deserialize;
  buf ← deserialize_data;
  mret (mkPacket h None d t c buf).

(** * Header and context bytes *)

Lemma to_meta_range h : 0 <= to_meta h < 256.
Proof. by destruct h as [[] [] [] [] [] hp]. Qed.

(** The header a meta byte and a hop count stand for. *)
Definition with_hops (h : Header) (n : byte) : Header :=
  mkHeader (ifac_flag h) (header_type h) (propagation_type h) (destination_type h)
    (packet_type h) n.

Lemma from_to_meta h : with_hops (from_meta (to_meta h)) (hops h) = h.
Proof. by destruct h as [[] [] [] [] [] hp]. Qed.

Lemma to_from_meta b : to_meta (from_meta (u8 b)) = u8 b.
Proof. by destruct b. Qed.

Lemma context_u8_from c : PacketContext_from (PacketContext_u8 c) = c.
Proof. by destruct c. Qed.

Lemma context_u8_range c : 0 <= PacketContext_u8 c < 256.
Proof. destruct c; simpl; lia. Qed.

Lemma u8_byte_of z : 0 <= z < 256 -> u8 (byte_of_Z z) = z.
Proof. intros H. rewrite u8_of_Z. by apply Z.mod_small. Qed.

(** The header byte is a bijection: every header is recovered from its meta
    byte and hop count, every byte is the meta byte of the header it decodes
    to, so no two flag combinations share an encoding; and every packet
    context is recovered from its byte. *)
Theorem header_meta_bijection (h : Header) (b : byte) (c : PacketContext) :
  with_hops (from_meta (to_meta h)) (hops h) = h /\
  to_meta (from_meta (u8 b)) = u8 b /\
  PacketContext_from (u8 (byte_of_Z (PacketContext_u8 c))) = c.
Proof.
  split; [apply from_to_meta|]. split; [apply to_from_meta|].
  rewrite u8_byte_of by apply context_u8_range. apply context_u8_from.
Qed.

(** * Packets up to unused buffer space

    Two packets are equivalent when they agree on everything but the bytes of
    the data buffer past its length. *)
#[export] Instance packet_equiv : Equiv Packet := fun p q =>
  header p = header q /\ ifac p = ifac q /\ destination p = destination q /\
  transport p = transport q /\ context p = context q /\
  StaticBuffer.as_slice (data p) = StaticBuffer.as_slice (data q).

#[export] Instance packet_equivalence : Equivalence (≡@{Packet}).
Proof.
  split.
  - intros p. by repeat split.
  - intros p q (?&?&?&?&?&?). by repeat split.
  - intros p q r (?&?&?&?&?&?) (?&?&?&?&?&?). repeat split; congruence.
Qed.

#[export] Instance packet_hash_proper `{Crypto} : Proper ((≡) ==> (=)) packet_hash.
Proof. intros p q (Hh & _ & Hd & _ & Hc & Hs). unfold packet_hash. by rewrite Hh, Hd, Hc, Hs. Qed.

#[export] Instance serialize_proper : Proper ((≡) ==> (=)) serialize.
Proof.
  intros p q (Hh & _ & Hd & Ht & Hc & Hs). unfold serialize, serialize_transport.
  by rewrite Hh, Hd, Ht, Hc, Hs.
Qed.

(** The bytes of a packet on the wire. *)
Definition wire_transport (p : Packet) : list byte :=
  match header_type (header p), transport p with
  | Type2, Some t => arr_list t
  | _, _ => []
  end.
Definition wire (p : Packet) : list byte :=
  [byte_of_Z (to_meta (header p)); hops (header p)] ++ wire_transport p
  ++ arr_list (destination p) ++ [byte_of_Z (PacketContext_u8 (context p))]
  ++ StaticBuffer.as_slice (data p).

(** A packet the wire format can carry: no interface access code, and a
    transport address exactly when the header is of type 2. *)
Definition wire_ok (p : Packet) : Prop :=
  ifac p = None /\ (header_type (header p) = Type2 <-> is_Some (transport p)) /\
  StaticBuffer.wf (data p).

Lemma ob_write_bind {A} d (k : nat -> stres OutputBuffer.t RetError A) b :
  OutputBuffer.wf b -> (length d <= OutputBuffer.room b)%nat ->
  exists b', (OutputBuffer.write d ≫= k) b = k (length d) b' /\ OutputBuffer.wf b' /\
    OutputBuffer.as_slice b' = OutputBuffer.as_slice b ++ d /\
    OutputBuffer.room b' = (OutputBuffer.room b - length d)%nat.
Proof.
  intros Hwf Hfit. destruct (ob_write_fits d b Hwf Hfit) as (b' & Hw & Hwf' & Hs & Hr & _).
  exists b'. by rewrite (stres_bind_Ok _ _ _ _ _ Hw).
Qed.

(** Run one write that fits. *)
Ltac ob_step b' W S' R :=
  match goal with
  | |- context [(OutputBuffer.write ?d ≫= ?k) ?b] =>
      destruct (ob_write_bind d k b) as (b' & -> & W & S' & R);
      [assumption|simpl in *; lia|]
  end.

Lemma serialize_transport_eq p :
  serialize_transport p = OutputBuffer.write (wire_transport p).
Proof. unfold serialize_transport, wire_transport. by destruct (header_type _), (transport p). Qed.

(** [serialize] appends the wire form whenever it fits. *)
Lemma serialize_fits p b :
  OutputBuffer.wf b -> (length (wire p) <= OutputBuffer.room b)%nat ->
  exists b', serialize p b = (b', Ok (length (StaticBuffer.as_slice (data p)))) /\
    OutputBuffer.wf b' /\ OutputBuffer.as_slice b' = OutputBuffer.as_slice b ++ wire p.
Proof.
  intros Hwf Hfit. unfold wire in Hfit. rewrite !length_app in Hfit. simpl length in Hfit.
  unfold serialize, Header_serialize, AddressHash_serialize, PacketContext_serialize.
  rewrite serialize_transport_eq.
  ob_step b1 W1 S1 R1. ob_step b2 W2 S2 R2. ob_step b3 W3 S3 R3. ob_step b4 W4 S4 R4.
  destruct (ob_write_fits (StaticBuffer.as_slice (data p)) b4) as (b5 & -> & W5 & S5 & _);
    [done|simpl in *; lia|].
  exists b5. split; [done|]. split; [done|].
  unfold wire. by rewrite S5, S4, S3, S2, S1, <- !app_assoc.
Qed.

(** * Reading a packet *)

(** [m] reads exactly the bytes [d] and answers [v]. *)
Definition reads {E A} (m : stres InputBuffer.t E A) (d : list byte) (v : A) : Prop :=
  forall b rest, InputBuffer.wf b -> InputBuffer.remaining b = d ++ rest ->
  exists b', m b = (b', Ok v) /\ InputBuffer.wf b' /\ InputBuffer.remaining b' = rest.

Lemma reads_ret {E A} (v : A) : reads (mret v : stres InputBuffer.t E A) [] v.
Proof. intros b rest Hwf Hr. by exists b. Qed.

Lemma reads_bind {E A B} (m : stres InputBuffer.t E A) (k : A -> stres InputBuffer.t E B) d1 d2 v w :
  reads m d1 v -> reads (k v) d2 w -> reads (m ≫= k) (d1 ++ d2) w.
Proof.
  intros Hm Hk b rest Hwf Hr. rewrite <- app_assoc in Hr.
  destruct (Hm b _ Hwf Hr) as (b1 & H1 & W1 & R1).
  rewrite (stres_bind_Ok _ _ _ _ _ H1). by apply Hk.
Qed.

Lemma reads_bind_ret {E A B} (m : stres InputBuffer.t E A) (f : A -> B) d v :
  reads m d v -> reads (a ← m; mret (f a)) d (f v).
Proof. intros Hm. rewrite <- (app_nil_r d). eapply reads_bind; [exact Hm|apply reads_ret]. Qed.

Lemma reads_reading {A} (m : stres InputBuffer.t RetError A) d v :
  reads m d v -> reads (reading m) d v.
Proof.
  intros Hm b rest Hwf Hr. destruct (Hm b rest Hwf Hr) as (b' & H & ?).
  exists b'. split; [|done]. unfold reading. by rewrite H.
Qed.

Lemma reads_byte x : reads InputBuffer.read_byte [x] x.
Proof. intros b rest Hwf Hr. by apply ib_read_byte_cons. Qed.

Lemma reads_address a : reads AddressHash_deserialize (arr_list a) a.
Proof.
  unfold AddressHash_deserialize.
  rewrite <- (arr_of_arr a) at 2. apply (reads_bind_ret _ (arr_of 16)).
  intros b rest Hwf Hr. destruct (ib_read_app b a rest Hwf Hr) as (b' & H & ?).
  rewrite arr_length in H. by exists b'.
Qed.

Lemma reads_header h :
  reads Header_deserialize [byte_of_Z (to_meta h); hops h] h.
Proof.
  unfold Header_deserialize.
  apply (reads_bind _ _ [byte_of_Z (to_meta h)] [hops h] _ _ (reads_byte _)).
  rewrite <- (from_to_meta h) at 2. rewrite u8_byte_of by apply to_meta_range.
  apply (reads_bind_ret _ (with_hops (from_meta (to_meta h)))), reads_byte.
Qed.

Lemma reads_context c :
  reads PacketContext_deserialize [byte_of_Z (PacketContext_u8 c)] c.
Proof.
  unfold PacketContext_deserialize. rewrite <- (context_u8_from c) at 2.
  rewrite <- (u8_byte_of (PacketContext_u8 c)) at 2 by apply context_u8_range.
  apply (reads_bind_ret _ (fun b => PacketContext_from (u8 b))), reads_byte.
Qed.

Lemma reads_transport p :
  wire_ok p -> reads (deserialize_transport (header p)) (wire_transport p) (transport p).
Proof.
  intros (_ & Ht & _). unfold deserialize_transport, wire_transport.
  destruct (header_type (header p)), (transport p) as [t|]; simpl.
  - exfalso. assert (Type1 = Type2) by (apply Ht; by eexists). done.
  - apply reads_ret.
  - apply (reads_bind_ret _ Some), reads_address.
  - by destruct (proj1 Ht eq_refl).
Qed.

(** The payload is whatever is left, and must fit the packet's buffer. *)
Lemma deserialize_data_fits b :
  InputBuffer.wf b -> (length (InputBuffer.remaining b) <= PACKET_MDU)%nat ->
  exists b' buf, deserialize_data b = (b', Ok buf) /\ InputBuffer.remaining b' = [] /\
    StaticBuffer.wf buf /\ StaticBuffer.as_slice buf = InputBuffer.remaining b.
Proof.
  intros Hwf Hfit. unfold deserialize_data, st_get, StaticBuffer.accuire_buf.
  unfold mbind at 1, stres_bind at 1. rewrite ib_bytes_left. cbn [StaticBuffer.buffer StaticBuffer.new].
  rewrite length_replicate, (proj2 (Nat.ltb_ge _ _)) by lia. cbn [StaticBuffer.len].
  destruct (ib_read_app b (InputBuffer.remaining b) []) as (b' & Hr & Hwf' & Hrem);
    [done|by rewrite app_nil_r|].
  exists b'. eexists. split.
  - unfold mbind, stres_bind, reading. rewrite Hr. cbn [map_err]. reflexivity.
  - split; [done|]. unfold StaticBuffer.fill, StaticBuffer.wf, StaticBuffer.as_slice.
    cbn [StaticBuffer.buffer StaticBuffer.len StaticBuffer.new].
    rewrite length_splice by (rewrite length_replicate; lia). rewrite length_replicate.
    split; [lia|].
    rewrite <- (Nat.add_0_l (length (InputBuffer.remaining b))) at 1.
    rewrite take_splice by (rewrite length_replicate; lia). done.
Qed.

(** Once the header fields are read, what [deserialize] does depends on the
    payload alone. *)
Lemma deserialize_fields p payload :
  wire_ok p ->
  exists b', InputBuffer.wf b' /\ InputBuffer.remaining b' = payload /\
  deserialize (InputBuffer.new
    ([byte_of_Z (to_meta (header p)); hops (header p)] ++ wire_transport p
     ++ arr_list (destination p) ++ [byte_of_Z (PacketContext_u8 (context p))] ++ payload)) =
  (buf ← deserialize_data;
   mret (mkPacket (header p) None (destination p) (transport p) (context p) buf)) b'.
Proof.
  intros Hp. unfold deserialize.
  edestruct (reads_reading _ _ _ (reads_header (header p))) as (b1 & H1 & W1 & R1);
    [apply ib_new_wf|done|].
  rewrite (stres_bind_Ok _ _ _ _ _ H1).
  edestruct (reads_reading _ _ _ (reads_transport p Hp)) as (b2 & H2 & W2 & R2); [done..|].
  rewrite (stres_bind_Ok _ _ _ _ _ H2).
  edestruct (reads_reading _ _ _ (reads_address (destination p))) as (b3 & H3 & W3 & R3); [done..|].
  rewrite (stres_bind_Ok _ _ _ _ _ H3).
  edestruct (reads_reading _ _ _ (reads_context (context p))) as (b4 & H4 & W4 & R4); [done..|].
  rewrite (stres_bind_Ok _ _ _ _ _ H4). by exists b4.
Qed.

Lemma deserialize_wire p : wire_ok p ->
  exists inp q, deserialize (InputBuffer.new (wire p)) = (inp, Ok q) /\
    InputBuffer.remaining inp = [] /\ q ≡ p.
Proof.
  intros Hp. pose proof Hp as (Hi & Ht & Hwf).
  destruct (deserialize_fields p (StaticBuffer.as_slice (data p)) Hp) as (b' & W & R & Hd).
  destruct (deserialize_data_fits b' W) as (inp & buf & Hdd & Hrem & _ & Hb).
  { rewrite R, length_as_slice by done. apply Hwf. }
  exists inp, (mkPacket (header p) None (destination p) (transport p) (context p) buf).
  unfold wire. rewrite Hd, (stres_bind_Ok _ _ _ _ _ Hdd). split_and!; [done..|].
  unfold equiv, packet_equiv; simpl. rewrite Hb, R, Hi. by split_and!.
Qed.

(** C35. A packet the wire format can carry, serialized into a buffer with room
    for it, deserializes to an equivalent packet, which has the same packet
    hash; the whole input is consumed. *)
Theorem packet_roundtrip `{Crypto} (p : Packet) (space : list byte)
  (Hp : wire_ok p) (Hroom : (length (wire p) <= length space)%nat) :
  exists out inp q,
    serialize p (OutputBuffer.new space) = (out, Ok (length (StaticBuffer.as_slice (data p)))) /\
    deserialize (InputBuffer.new (OutputBuffer.as_slice out)) = (inp, Ok q) /\
    InputBuffer.remaining inp = [] /\ q ≡ p /\ packet_hash q = packet_hash p.
Proof.
  destruct (serialize_fits p (OutputBuffer.new space)) as (out & Hs & _ & Ho);
    [apply ob_new_wf|by rewrite ob_room_new|].
  destruct (deserialize_wire p Hp) as (inp & q & Hd & Hrem & Heq).
  exists out, inp, q. rewrite Ho. split_and!; [done..|exact Heq|by rewrite Heq].
Qed.

Definition sample_packet : Packet :=
  mkPacket (mkHeader Open Type2 Transport Single Announce x03) None (arr_zero 16)
    (Some (arr_of 16 [x01])) PathResponse
    (fst (StaticBuffer.safe_write [x0a; x0b] (StaticBuffer.new PACKET_MDU))).

Lemma sample_packet_ok : wire_ok sample_packet.
Proof.
  split; [done|]. split; [by split; [eexists|]|].
  pose proof (static_safe_write_spec (N := PACKET_MDU) [x0a; x0b] (StaticBuffer.new PACKET_MDU)
                (static_new_wf _)) as Hs.
  unfold sample_packet, data.
  destruct (StaticBuffer.safe_write [x0a; x0b] (StaticBuffer.new PACKET_MDU)). apply Hs.
Qed.

Lemma packet_roundtrip_witness :
  exists out inp q,
    serialize sample_packet (OutputBuffer.new (replicate 64 x00)) =
      (out, Ok (length (StaticBuffer.as_slice (data sample_packet)))) /\
    deserialize (InputBuffer.new (OutputBuffer.as_slice out)) = (inp, Ok q) /\
    InputBuffer.remaining inp = [] /\ q ≡ sample_packet /\
    packet_hash (C := toy_crypto) q = packet_hash (C := toy_crypto) sample_packet.
Proof.
  apply (@packet_roundtrip toy_crypto sample_packet (replicate 64 x00));
    [exact sample_packet_ok|].
  vm_compute. lia.
Defined.

(** A frame whose payload is longer than the packet's data buffer makes
    [deserialize] panic: [accuire_buf] slices past the end of the array.  A
    receiver that takes frames over 2048 payload bytes off the network must
    check the length first. *)
Theorem deserialize_oversized_panics (p : Packet) (payload : list byte)
  (Hp : wire_ok p) (Hlong : (PACKET_MDU < length payload)%nat) :
  exists b', deserialize (InputBuffer.new
    ([byte_of_Z (to_meta (header p)); hops (header p)] ++ wire_transport p
     ++ arr_list (destination p) ++ [byte_of_Z (PacketContext_u8 (context p))] ++ payload)) =
  (b', Err Panics).
Proof.
  destruct (deserialize_fields p payload Hp) as (b' & W & R & ->).
  exists b'. apply stres_bind_Err. unfold deserialize_data. apply stres_bind_Err.
  unfold st_get, StaticBuffer.accuire_buf. rewrite ib_bytes_left, R.
  cbn [StaticBuffer.buffer StaticBuffer.new].
  by rewrite length_replicate, (proj2 (Nat.ltb_lt _ _)) by lia.
Qed.

Lemma deserialize_oversized_panics_witness :
  exists b', deserialize (InputBuffer.new
    ([byte_of_Z (to_meta (header sample_packet)); hops (header sample_packet)]
     ++ wire_transport sample_packet ++ arr_list (destination sample_packet)
     ++ [byte_of_Z (PacketContext_u8 (context sample_packet))] ++ replicate 2049 x00)) =
  (b', Err Panics).
Proof.
  apply (deserialize_oversized_panics sample_packet (replicate 2049 x00) sample_packet_ok).
  rewrite length_replicate. unfold PACKET_MDU. lia.
Defined.
