(* ===== verification/Resource.v ===== *)
(** [reticulum-patched/src/resource.rs] and [utils/cache_set.rs]: data too long
    for a packet, sent over a link in numbered parts.

    [ResourceSender.split] cuts the data and describes it in an advertisement;
    [ResourceTracker] puts the parts together at the receiver, in whatever order
    they come, and asks again for those that are missing; [ResourceSendState]
    waits for the proof that everything arrived.  Instants and durations are
    milliseconds.  The receipt of a [ResourceSendState] is behind a shared
    handle in the source, but nothing else keeps a copy of the handle: here it is
    a field. *)

From Stdlib Require Import ZArith Lia Permutation.
From Stdlib Require Import Strings.Byte.
From stdpp Require Import base gmap numbers list.
From coqutil Require Import Datatypes.RecordSetters.
From S2P Require Import Prelude Float Crypto Buffer Packet.
Import DoubleBraceUpdate.

Local Open Scope Z_scope.

(** * A set that forgets its oldest elements *)

Module CacheSet.
Section CacheSet.
Context {T : Type} `{Countable T}.

Record t : Type := mk { capacity : nat; set : gset T; queue : list T }.

Definition new (capacity : nat) : t := mk capacity ∅ [].

Definition contains (value : T) (c : t) : bool := bool_decide (value ∈ set c).

Definition insert (value : T) (c : t) : t * bool :=
  if bool_decide (value ∈ set c) then (c, false)
  else
    let '(set', queue') :=
      if Nat.eqb (size (set c)) (capacity c) then
        match queue c with
        | oldest :: rest => (set c ∖ {[oldest]}, rest)
        | [] => (set c, [])
        end
      else (set c, queue c) in
    (mk (capacity c) ({[value]} ∪ set') (queue' ++ [value]), true).

End CacheSet.
Arguments t T {_ _}.
End CacheSet.

(** * The format of the control packets *)

Definition RESOURCE_ID_LEN : nat := 16.
Definition RESOURCE_VERSION : byte := x01.
Definition FLAG_HAS_REQUEST_ID : Z := 0x01.
Definition FLAG_IS_RESPONSE : Z := 0x02.
Definition FLAG_IS_REQUEST : Z := 0x04.
Definition RESOURCE_ADV_HEADER_LEN : nat := 1 + 1 + RESOURCE_ID_LEN + RESOURCE_ID_LEN + 4 + 4 + 4.
Definition RESOURCE_PART_HEADER_LEN : nat := 1 + RESOURCE_ID_LEN + 4.
Definition RESOURCE_PROOF_LEN : nat := 1 + RESOURCE_ID_LEN + 1.
Definition RESOURCE_HASH_UPDATE_HEADER_LEN : nat := 1 + RESOURCE_ID_LEN.
Definition RESOURCE_CANCEL_LEN : nat := 1 + RESOURCE_ID_LEN.
Definition RESOURCE_DEFAULT_MAX_RETRIES : Z := 3.
Definition RESOURCE_PROOF_STATUS_OK : byte := x01.
Definition RESOURCE_PROOF_STATUS_FAILED : byte := x00.
Definition RESOURCE_MAPHASH_LEN : nat := 4.
Definition RESOURCE_HASHMAP_IS_NOT_EXHAUSTED : byte := x00.
Definition RESOURCE_HASHMAP_IS_EXHAUSTED : byte := xff.
Definition RESOURCE_COMPLETED_CACHE_SIZE : nat := 256.

(** [buffer[at..at + n]] of a buffer known to be long enough *)
Definition field (at_ n : nat) (buffer : list byte) : list byte := take n (drop at_ buffer).

Module ResourceAdvertisement.

Record t : Type := mk {
  resource_id : arr 16;
  request_id : option (arr 16);
  total_len : Z;
  part_size : Z;
  total_parts : Z;
  is_response : bool;
  is_request : bool
}.

Definition flags (a : t) : Z :=
  Z.lor (Z.lor (if request_id a then FLAG_HAS_REQUEST_ID else 0)
               (if is_response a then FLAG_IS_RESPONSE else 0))
        (if is_request a then FLAG_IS_REQUEST else 0).

Definition encode (a : t) : list byte :=
  RESOURCE_VERSION :: byte_of_Z (flags a) :: resource_id a
  ++ (match request_id a with Some r => arr_list r | None => replicate RESOURCE_ID_LEN x00 end)
  ++ be_bytes 4 (total_len a) ++ be_bytes 4 (total_parts a) ++ be_bytes 4 (part_size a).

Definition decode (buffer : list byte) : result RetError t :=
  if Nat.ltb (length buffer) RESOURCE_ADV_HEADER_LEN then Err OutOfMemory
  else match buffer with
  | version :: flags :: _ =>
      if negb (bool_decide (version = RESOURCE_VERSION)) then Err InvalidArgument
      else
        let has flag := negb (Z.land (u8 flags) flag =? 0) in
        Ok (mk (arr_of 16 (field 2 16 buffer))
               (if has FLAG_HAS_REQUEST_ID then Some (arr_of 16 (field 18 16 buffer)) else None)
               (be_val (field 34 4 buffer)) (be_val (field 42 4 buffer)) (be_val (field 38 4 buffer))
               (has FLAG_IS_RESPONSE) (has FLAG_IS_REQUEST))
  | _ => Err OutOfMemory
  end.

End ResourceAdvertisement.

Module ResourcePart.

Record t : Type := mk { resource_id : arr 16; part_index : Z; data : list byte }.

Definition encode (p : t) : list byte :=
  RESOURCE_VERSION :: resource_id p ++ be_bytes 4 (part_index p) ++ data p.

Definition decode (buffer : list byte) : result RetError t :=
  if Nat.ltb (length buffer) RESOURCE_PART_HEADER_LEN then Err OutOfMemory
  else if negb (bool_decide (head buffer = Some RESOURCE_VERSION)) then Err InvalidArgument
  else Ok (mk (arr_of 16 (field 1 16 buffer)) (be_val (field 17 4 buffer)) (drop 21 buffer)).

End ResourcePart.

Module ResourceProof.

Record t : Type := mk { resource_id : arr 16; status : byte }.

Definition encode (p : t) : list byte := RESOURCE_VERSION :: resource_id p ++ [status p].

Definition decode (buffer : list byte) : result RetError t :=
  if Nat.ltb (length buffer) RESOURCE_PROOF_LEN then Err OutOfMemory
  else if negb (bool_decide (head buffer = Some RESOURCE_VERSION)) then Err InvalidArgument
  else Ok (mk (arr_of 16 (field 1 16 buffer)) (nth 17 buffer x00)).

End ResourceProof.

Module ResourceCancel.

Definition encode (resource_id : arr 16) : list byte := RESOURCE_VERSION :: resource_id.

Definition decode (buffer : list byte) : result RetError (arr 16) :=
  if Nat.ltb (length buffer) RESOURCE_CANCEL_LEN then Err OutOfMemory
  else if negb (bool_decide (head buffer = Some RESOURCE_VERSION)) then Err InvalidArgument
  else Ok (arr_of 16 (field 1 16 buffer)).

End ResourceCancel.

Module ResourceRequest.

Record t : Type := mk {
  resource_id : arr 16;
  hashmap_exhausted : bool;
  last_map_hash : option (arr 4);
  requested_hashes : list (arr 4)
}.

Definition encode (r : t) : list byte :=
  (if hashmap_exhausted r
   then RESOURCE_HASHMAP_IS_EXHAUSTED :: arr_list (default (arr_zero 4) (last_map_hash r))
   else [RESOURCE_HASHMAP_IS_NOT_EXHAUSTED])
  ++ resource_id r ++ concat (map arr_list (requested_hashes r)).

(** [while offset + RESOURCE_MAPHASH_LEN <= buffer.len() { ... }]; what is left
    makes the request invalid. *)
Fixpoint read_hashes (buffer : list byte) : result RetError (list (arr 4)) :=
  match buffer with
  | [] => Ok []
  | a :: b :: c :: d :: rest => hs ← read_hashes rest; Ok (arr_of 4 [a; b; c; d] :: hs)
  | _ => Err InvalidArgument
  end.

Definition decode (buffer : list byte) : result RetError t :=
  match buffer with
  | [] => Err OutOfMemory
  | flag :: rest =>
      let exhausted := bool_decide (flag = RESOURCE_HASHMAP_IS_EXHAUSTED) in
      '(last, rest) ← (if exhausted
                       then if Nat.ltb (length rest) RESOURCE_MAPHASH_LEN then Err OutOfMemory
                            else Ok (Some (arr_of 4 (take 4 rest)), drop 4 rest)
                       else Ok (None, rest));
      if Nat.ltb (length rest) RESOURCE_ID_LEN then Err OutOfMemory
      else hashes ← read_hashes (drop 16 rest);
           if exhausted && negb (bool_decide (is_Some last)) then Err InvalidArgument
           else Ok (mk (arr_of 16 (take 16 rest)) exhausted last hashes)
  end.

End ResourceRequest.

(** The [rmp] crate: the headers of a MessagePack array, integer and byte
    string. *)
Class Rmp : Type := {
  write_array_len : Z -> list byte;
  write_uint : Z -> list byte;
  write_bin : list byte -> list byte;
  read_array_len : list byte -> option (Z * list byte);
  read_int : list byte -> option (Z * list byte);
  read_bin_len : list byte -> option (Z * list byte)
}.

Class RmpLaws `{Rmp} : Prop := {
  read_write_array_len : forall n rest, is_u32 n = true ->
    read_array_len (write_array_len n ++ rest) = Some (n, rest);
  read_write_uint : forall n rest, is_u64 n = true -> read_int (write_uint n ++ rest) = Some (n, rest);
  read_write_bin : forall data rest, Z.of_nat (length data) <= u32_max ->
    read_bin_len (write_bin data ++ rest) = Some (Z.of_nat (length data), data ++ rest)
}.

Module ResourceHashUpdate.

Record t : Type := mk { resource_id : arr 16; segment : Z; hashmap : list byte }.

Section Codec.
Context `{R : Rmp}.

Definition encode (u : t) : list byte :=
  RESOURCE_VERSION :: resource_id u ++ write_array_len 2 ++ write_uint (segment u) ++ write_bin (hashmap u).

Definition decode (buffer : list byte) : result RetError t :=
  if Nat.ltb (length buffer) RESOURCE_HASH_UPDATE_HEADER_LEN then Err OutOfMemory
  else if negb (bool_decide (head buffer = Some RESOURCE_VERSION)) then Err InvalidArgument
  else
    '(array_len, cursor) ← ok_or (read_array_len (drop 17 buffer)) InvalidArgument;
    if negb (array_len =? 2) then Err InvalidArgument
    else
      '(segment, cursor) ← ok_or (read_int cursor) InvalidArgument;
      if u32_max <? segment then Err InvalidArgument
      else
        '(bin_len, cursor) ← ok_or (read_bin_len cursor) InvalidArgument;
        if Z.of_nat (length cursor) <? bin_len then Err InvalidArgument
        else Ok (mk (arr_of 16 (field 1 16 buffer)) segment (take (Z.to_nat bin_len) cursor)).

End Codec.
End ResourceHashUpdate.

(** * Receiving *)

Record ResourceCompletion : Type := mkCompletion {
  rc_resource_id : arr 16;
  rc_data : list byte;
  rc_request_id : option (arr 16);
  rc_is_response : bool
}.

Record ResourceProgress : Type := mkProgress {
  rp_resource_id : arr 16;
  rp_request_id : option (arr 16);
  rp_is_response : bool;
  rp_progress : f32
}.

Inductive ResourceEvent : Type :=
| RProgress (p : ResourceProgress)
| RComplete (c : ResourceCompletion).

Record ResourceCancelEvent : Type := mkCancelEvent {
  ce_resource_id : arr 16;
  ce_request_id : option (arr 16);
  ce_is_response : bool
}.

Record ResourceTimeout : Type := mkTimeout {
  rt_resource_id : arr 16;
  rt_link_id : arr 16;
  rt_request_id : option (arr 16);
  rt_is_response : bool;
  rt_requested_hashes : list (arr 4);
  rt_hashmap_exhausted : bool;
  rt_last_map_hash : option (arr 4);
  rt_failed : bool
}.

Inductive ResourceAdvertisementResult : Type := Accepted | AlreadyCompleted.

Record ResourceAssembly : Type := mkAssembly {
  as_resource_id : arr 16;
  as_link_id : arr 16;
  as_request_id : option (arr 16);
  as_is_response : bool;
  as_total_len : Z;
  as_total_parts : Z;
  as_part_size : Z;
  received : list (option (list byte));
  received_count : Z;
  as_hashmap : list (option (arr 4));
  last_activity : Z;
  as_retries : Z;
  as_max_retries : Z
}.

Definition compute_map_hash `{Crypto} (data : list byte) : arr 4 := arr_of 4 (take 4 (sha256 data)).

Module ResourceTracker.

Record t : Type := mk {
  incoming : gmap (arr 16) ResourceAssembly;
  timeout : Z;
  completed : CacheSet.t (arr 16)
}.

Definition new (timeout : Z) : t := mk ∅ timeout (CacheSet.new RESOURCE_COMPLETED_CACHE_SIZE).

Definition handle_advertisement (advert : ResourceAdvertisement.t) (link_id : arr 16) (now : Z) (r : t) :
    t * result RetError ResourceAdvertisementResult :=
  let id := ResourceAdvertisement.resource_id advert in
  if CacheSet.contains id (completed r) then (r, Ok AlreadyCompleted)
  else if ResourceAdvertisement.total_parts advert =? 0 then (r, Err InvalidArgument)
  else
    let n := Z.to_nat (ResourceAdvertisement.total_parts advert) in
    let assembly := mkAssembly id link_id (ResourceAdvertisement.request_id advert)
      (ResourceAdvertisement.is_response advert) (ResourceAdvertisement.total_len advert)
      (ResourceAdvertisement.total_parts advert) (ResourceAdvertisement.part_size advert)
      (replicate n None) 0 (replicate n None) now 0 RESOURCE_DEFAULT_MAX_RETRIES in
    (r {{ incoming := <[id := assembly]> (incoming r) }}, Ok Accepted).

Section Crypto.
Context `{C : Crypto} `{HI : HashIter}.

(** The assembly with the part at [index], which is in range. *)
Definition store_part (index : nat) (data : list byte) (now : Z) (a : ResourceAssembly) :
    ResourceAssembly :=
  let '(chunks, count) :=
    match received a !! index with
    | Some None => (<[index := Some data]> (received a), as_u32 (received_count a + 1))
    | _ => (received a, received_count a)
    end in
  let hashmap :=
    match as_hashmap a !! index, chunks !! index with
    | Some None, Some (Some data) => <[index := Some (compute_map_hash data)]> (as_hashmap a)
    | _, _ => as_hashmap a
    end in
  a {{ received := chunks; received_count := count; as_hashmap := hashmap; last_activity := now }}.

Definition assembled (a : ResourceAssembly) : list byte :=
  take (Z.to_nat (as_total_len a)) (concat (omap id (received a))).

(** [assembly.hashmap[index]] panics when the index is out of range. *)
Definition handle_part (now : Z) (part : ResourcePart.t) (r : t) :
    t * result (fault RetError) (option ResourceEvent) :=
  match incoming r !! ResourcePart.resource_id part with
  | None => (r, Ok None)
  | Some a =>
      if as_part_size a <? Z.of_nat (length (ResourcePart.data part)) then (r, Err (Fails OutOfMemory))
      else if Z.of_nat (length (received a)) <=? ResourcePart.part_index part
      then (r, Err (Fails InvalidArgument))
      else if Z.of_nat (length (as_hashmap a)) <=? ResourcePart.part_index part
      then (r, Err Panics)
      else
        let a := store_part (Z.to_nat (ResourcePart.part_index part)) (ResourcePart.data part) now a in
        if received_count a =? as_total_parts a then
          let completion := mkCompletion (as_resource_id a) (assembled a) (as_request_id a)
                              (as_is_response a) in
          (r {{ incoming := delete (as_resource_id a) (<[ResourcePart.resource_id part := a]> (incoming r));
                completed := (CacheSet.insert (as_resource_id a) (completed r)).1 }},
           Ok (Some (RComplete completion)))
        else
          let progress := f32_div (f32_of_Z (received_count a)) (f32_of_Z (as_total_parts a)) in
          (r {{ incoming := <[ResourcePart.resource_id part := a]> (incoming r) }},
           Ok (Some (RProgress (mkProgress (as_resource_id a) (as_request_id a) (as_is_response a)
                                  progress))))
  end.

(** The hashes of an update: its length is a multiple of [RESOURCE_MAPHASH_LEN]. *)
Definition update_hashes (hashmap : list byte) : list (arr 4) :=
  default [] (res_ok (ResourceRequest.read_hashes hashmap)).

(** [for i in 0..entries { ... }], which stops at the end of the table. *)
Fixpoint set_hashes (idx : Z) (hashes : list (arr 4)) (hashmap : list (option (arr 4))) :
    list (option (arr 4)) :=
  match hashes with
  | [] => hashmap
  | h :: hashes =>
      if Z.of_nat (length hashmap) <=? idx then hashmap
      else set_hashes (idx + 1) hashes (<[Z.to_nat idx := Some h]> hashmap)
  end.

Definition handle_hash_update (update : ResourceHashUpdate.t) (now : Z) (r : t) : t * bool :=
  match incoming r !! ResourceHashUpdate.resource_id update with
  | None => (r, false)
  | Some a =>
      let bytes := ResourceHashUpdate.hashmap update in
      if negb (Nat.eqb (length bytes mod RESOURCE_MAPHASH_LEN) 0) then (r, false)
      else
        let entries := Z.of_nat (length bytes / RESOURCE_MAPHASH_LEN) in
        let a := a {{ as_hashmap := set_hashes (ResourceHashUpdate.segment update * entries)
                                      (update_hashes bytes) (as_hashmap a);
                      last_activity := now }} in
        (r {{ incoming := <[ResourceHashUpdate.resource_id update := a]> (incoming r) }}, true)
  end.

Definition handle_cancel (resource_id : arr 16) (r : t) : t * option ResourceCancelEvent :=
  match incoming r !! resource_id with
  | None => (r, None)
  | Some a =>
      (r {{ incoming := delete resource_id (incoming r);
            completed := (CacheSet.insert resource_id (completed r)).1 }},
       Some (mkCancelEvent resource_id (as_request_id a) (as_is_response a)))
  end.

(** The hashes of the missing parts, and whether some have none. *)
Fixpoint missing (received : list (option (list byte))) (hashmap : list (option (arr 4))) :
    list (arr 4) * bool :=
  match received with
  | [] => ([], false)
  | chunk :: received =>
      let '(hashes, exhausted) := missing received (tail hashmap) in
      match chunk, hashmap with
      | Some _, _ => (hashes, exhausted)
      | None, Some h :: _ => (h :: hashes, exhausted)
      | None, _ => (hashes, true)
      end
  end.

Definition timed_out (now : Z) (a : ResourceAssembly) (failed : bool) : ResourceTimeout :=
  let '(hashes, exhausted) := missing (received a) (as_hashmap a) in
  mkTimeout (as_resource_id a) (as_link_id a) (as_request_id a) (as_is_response a) hashes exhausted
    (last (omap id (as_hashmap a))) failed.

(** The turn of the loop for one key. *)
Definition poll_key (now : Z) (key : arr 16) (s : t * list ResourceTimeout) : t * list ResourceTimeout :=
  let '(r, expired) := s in
  match incoming r !! key with
  | None => (r, expired)
  | Some a =>
      if sat_sub now (last_activity a) <? timeout r then (r, expired)
      else if as_max_retries a <=? as_retries a then
        (r {{ incoming := delete key (incoming r) }}, expired ++ [timed_out now a true])
      else
        let a := a {{ as_retries := as_u32 (as_retries a + 1); last_activity := now }} in
        (r {{ incoming := <[key := a]> (incoming r) }}, expired ++ [timed_out now a false])
  end.

Definition poll_timeouts (now : Z) (r : t) : t * list ResourceTimeout :=
  foldl (fun s key => poll_key now key s) (r, []) (hash_keys (incoming r)).

End Crypto.
End ResourceTracker.

(** * Sending *)

(** [data.chunks(n)]; each chunk takes at least one byte, so the length of the
    data is fuel enough. *)
Fixpoint chunks_from (fuel : nat) (n : nat) (data : list byte) : list (list byte) :=
  match fuel, data with
  | S fuel, _ :: _ => take n data :: chunks_from fuel n (drop n data)
  | _, _ => []
  end.
Definition chunks (n : nat) (data : list byte) : list (list byte) := chunks_from (length data) n data.

Module ResourceSender.
Section Split.
Context `{C : Crypto}.

Definition resource_id_of (data : list byte) : arr 16 := AddressHash.new_from_hash (sha256 data).

Definition split (data : list byte) (part_size : nat) (request_id : option (arr 16))
    (is_response is_request : bool) :
    result RetError (ResourceAdvertisement.t * list ResourcePart.t) :=
  if Nat.eqb part_size 0 then Err InvalidArgument
  else
    let total_len := Z.of_nat (length data) in
    let total_parts := as_u32 (as_u64 (total_len + Z.of_nat part_size - 1) / Z.of_nat part_size) in
    let id := resource_id_of data in
    Ok (ResourceAdvertisement.mk id request_id (as_u32 total_len) (as_u32 (Z.of_nat part_size))
          total_parts is_response is_request,
        imap (fun idx chunk => ResourcePart.mk id (as_u32 (Z.of_nat idx)) chunk) (chunks part_size data)).

End Split.
End ResourceSender.

Inductive ResourceReceiptStatus : Type := ReceiptSent | ReceiptCompleted | ReceiptFailed.
#[export] Instance ResourceReceiptStatus_eq_dec : EqDecision ResourceReceiptStatus.
Proof. solve_decision. Defined.

Record ResourceReceipt : Type := mkReceipt {
  rr_resource_id : arr 16;
  rr_status : ResourceReceiptStatus;
  rr_sent_at : Z;
  rr_concluded_at : option Z;
  rr_timeout : Z
}.

Module ResourceSendState.

Record t : Type := mk {
  resource_id : arr 16;
  destination : AddressHash;
  request_id : option (arr 16);
  is_response : bool;
  is_request : bool;
  advert : ResourceAdvertisement.t;
  parts : list ResourcePart.t;
  receipt : ResourceReceipt;
  timeout : Z;
  last_sent : Z;
  retries : Z;
  max_retries : Z
}.

Section Crypto.
Context `{C : Crypto}.

Definition new (destination : AddressHash) (data : list byte) (part_size : nat)
    (request_id : option (arr 16)) (is_response is_request : bool) (timeout max_retries now : Z) :
    result RetError t :=
  '(advert, parts) ← ResourceSender.split data part_size request_id is_response is_request;
  let id := ResourceAdvertisement.resource_id advert in
  Ok (mk id destination (ResourceAdvertisement.request_id advert) is_response is_request advert parts
        (mkReceipt id ReceiptSent now None timeout) timeout now 0 max_retries).

Definition mark_sent (now : Z) (s : t) : t := s {{ last_sent := now }}.

Definition conclude (status : ResourceReceiptStatus) (now : Z) (s : t) : t :=
  s {{ receipt := (receipt s) {{ rr_status := status; rr_concluded_at := Some now }} }}.

Definition handle_proof (proof : ResourceProof.t) (now : Z) (s : t) : t * bool :=
  if negb (bool_decide (ResourceProof.resource_id proof = resource_id s)) then (s, false)
  else (conclude (if bool_decide (ResourceProof.status proof = RESOURCE_PROOF_STATUS_OK)
                  then ReceiptCompleted else ReceiptFailed) now s, true).

Definition mark_failed (now : Z) (s : t) : t := conclude ReceiptFailed now s.

Definition handle_request (request : ResourceRequest.t) (s : t) : list ResourcePart.t :=
  if negb (bool_decide (ResourceRequest.resource_id request = resource_id s)) then []
  else if bool_decide (ResourceRequest.requested_hashes request = []) then []
  else filter (fun part => compute_map_hash (ResourcePart.data part)
                             ∈ ResourceRequest.requested_hashes request) (parts s).

Definition poll_retry (now : Z) (s : t) : t * option (list ResourcePart.t) :=
  if sat_sub now (last_sent s) <? timeout s then (s, None)
  else if max_retries s <=? retries s then (conclude ReceiptFailed now s, None)
  else (s {{ retries := as_u32 (retries s + 1); last_sent := now }}, Some (parts s)).

Definition status (s : t) : ResourceReceiptStatus := rr_status (receipt s).

End Crypto.
End ResourceSendState.

(** * Round trips of the control packets *)

Lemma field_app (l1 l2 l3 : list byte) i n :
  length l1 = i -> length l2 = n -> field i n (l1 ++ l2 ++ l3) = l2.
Proof. intros <- <-. unfold field. by rewrite drop_app_length, take_app_length. Qed.

Lemma field_id v (id : arr 16) l : field 1 16 (v :: arr_list id ++ l) = arr_list id.
Proof. apply (field_app [v]); [done|apply arr_length]. Qed.

Lemma be_val_u32 z : is_u32 z = true -> be_val (be_bytes 4 z) = z.
Proof. intros Hz. rewrite be_val_bytes. apply Z.mod_small. unfold is_u32, u32_max in Hz. simpl. lia. Qed.

Lemma drop_length_app {A} (l1 l2 : list A) n : length l1 = n -> drop n (l1 ++ l2) = l2.
Proof. intros <-. apply drop_app_length. Qed.
Lemma take_length_app {A} (l1 l2 : list A) n : length l1 = n -> take n (l1 ++ l2) = l1.
Proof. intros <-. apply take_app_length. Qed.

Definition advert_ok (a : ResourceAdvertisement.t) : bool :=
  is_u32 (ResourceAdvertisement.total_len a) && is_u32 (ResourceAdvertisement.total_parts a)
  && is_u32 (ResourceAdvertisement.part_size a).

Lemma advert_roundtrip a :
  advert_ok a = true -> ResourceAdvertisement.decode (ResourceAdvertisement.encode a) = Ok a.
Proof.
  destruct a as [id rid tl ps tp resp req]. unfold advert_ok. simpl.
  rewrite !andb_true_iff. intros [[Hl Hp] Hs].
  unfold ResourceAdvertisement.encode, ResourceAdvertisement.decode. cbn [ResourceAdvertisement.resource_id
    ResourceAdvertisement.request_id ResourceAdvertisement.total_len ResourceAdvertisement.part_size
    ResourceAdvertisement.total_parts].
  set (r := match rid with Some r => arr_list r | None => replicate RESOURCE_ID_LEN x00 end).
  assert (Hr : length r = 16%nat) by (subst r; destruct rid; [apply arr_length|done]).
  set (f := byte_of_Z _). set (buffer := RESOURCE_VERSION :: _).
  assert (Hlen : length buffer = RESOURCE_ADV_HEADER_LEN).
  { subst buffer. cbn [length]. rewrite !length_app, arr_length, Hr, !length_be_bytes. done. }
  rewrite Hlen, Nat.ltb_irrefl. subst buffer. rewrite bool_decide_true by done. cbn [negb].
  assert (F0 : forall g, field 2 16 (RESOURCE_VERSION :: f :: arr_list id ++ g) = arr_list id).
  { intros g. apply (field_app [RESOURCE_VERSION; f]); [done|apply arr_length]. }
  rewrite F0, arr_of_arr.
  change (?v :: ?f :: ?g) with ([v; f] ++ g). rewrite !(app_assoc _ (arr_list id)).
  rewrite (field_app _ r) by (rewrite ?length_app, ?arr_length; done).
  rewrite !(app_assoc _ r).
  rewrite (field_app _ (be_bytes 4 tl)) by (rewrite ?length_app, ?arr_length, ?length_be_bytes, ?Hr; done).
  rewrite !(app_assoc _ (be_bytes 4 tl)).
  rewrite (field_app _ (be_bytes 4 tp) _ 38) by (rewrite ?length_app, ?arr_length, ?length_be_bytes, ?Hr; done).
  rewrite !(app_assoc _ (be_bytes 4 tp)), <- (app_nil_r (be_bytes 4 ps)).
  rewrite (field_app _ (be_bytes 4 ps)) by (rewrite ?length_app, ?arr_length, ?length_be_bytes, ?Hr; done).
  rewrite !be_val_u32 by done. subst f.
  f_equal. destruct rid as [rid|], resp, req; subst r; cbn; rewrite ?arr_of_arr; done.
Qed.

Lemma part_roundtrip p : is_u32 (ResourcePart.part_index p) = true ->
  ResourcePart.decode (ResourcePart.encode p) = Ok p.
Proof.
  destruct p as [id i data]. simpl. intros Hi. unfold ResourcePart.decode, ResourcePart.encode.
  cbn [ResourcePart.resource_id ResourcePart.part_index ResourcePart.data].
  change (?v :: ?g) with ([v] ++ g).
  rewrite (proj2 (Nat.ltb_ge _ _)); cycle 1.
  { rewrite !length_app, arr_length, length_be_bytes.
    unfold RESOURCE_PART_HEADER_LEN, RESOURCE_ID_LEN. simpl. lia. }
  rewrite bool_decide_true by done. cbn [negb].
  rewrite (field_app _ (arr_list id)), arr_of_arr by (done || apply arr_length).
  rewrite !(app_assoc _ (arr_list id)).
  rewrite (field_app _ (be_bytes 4 i)), be_val_u32
    by (done || rewrite ?length_app, ?arr_length, ?length_be_bytes; done).
  rewrite (app_assoc _ (be_bytes 4 i)), drop_length_app; [done|].
  by rewrite !length_app, arr_length, length_be_bytes.
Qed.

Lemma proof_roundtrip p : ResourceProof.decode (ResourceProof.encode p) = Ok p.
Proof.
  destruct p as [id st]. unfold ResourceProof.decode, ResourceProof.encode. simpl.
  rewrite length_app, arr_length. simpl.
  rewrite field_id, arr_of_arr.
  rewrite app_nth2; rewrite arr_length; [done|lia].
Qed.

Lemma cancel_roundtrip id : ResourceCancel.decode (ResourceCancel.encode id) = Ok id.
Proof.
  unfold ResourceCancel.decode, ResourceCancel.encode. simpl. rewrite arr_length. simpl.
  by rewrite <- (app_nil_r (arr_list id)), field_id, arr_of_arr.
Qed.

Lemma read_hashes_concat (hs : list (arr 4)) :
  ResourceRequest.read_hashes (concat (map arr_list hs)) = Ok hs.
Proof.
  induction hs as [|h hs IH]; [done|]. simpl map. simpl concat. pose proof (arr_length h) as Hh.
  assert (Ha : arr_of 4 (arr_list h) = h) by apply arr_of_arr.
  destruct (arr_list h) as [|a [|b [|c [|d [|]]]]]; try done. simpl. rewrite IH. simpl. by rewrite Ha.
Qed.

(** A request as the receiver reads it: the last hash travels only with the
    exhausted flag, and is zero when there is none. *)
Definition request_read (r : ResourceRequest.t) : ResourceRequest.t :=
  r {{ ResourceRequest.last_map_hash :=
         if ResourceRequest.hashmap_exhausted r
         then Some (default (arr_zero 4) (ResourceRequest.last_map_hash r)) else None }}.

Lemma request_roundtrip r : ResourceRequest.decode (ResourceRequest.encode r) = Ok (request_read r).
Proof.
  destruct r as [id ex lst hs]. unfold ResourceRequest.decode, ResourceRequest.encode, request_read.
  cbn [ResourceRequest.resource_id ResourceRequest.hashmap_exhausted ResourceRequest.last_map_hash
       ResourceRequest.requested_hashes].
  assert (Hid : forall g, Nat.ltb (length (arr_list id ++ g)) RESOURCE_ID_LEN = false).
  { intros g. apply Nat.ltb_ge. rewrite length_app, arr_length. unfold RESOURCE_ID_LEN. lia. }
  destruct ex; cbn [app].
  - rewrite !bool_decide_true by done. set (h := default (arr_zero 4) lst).
    rewrite (proj2 (Nat.ltb_ge _ _)) by (rewrite !length_app, arr_length; unfold RESOURCE_MAPHASH_LEN; lia).
    rewrite take_length_app, drop_length_app by apply arr_length. cbn [mbind result_bind].
    rewrite Hid, take_length_app, drop_length_app, read_hashes_concat, !arr_of_arr by apply arr_length.
    done.
  - cbn [mbind result_bind bool_decide]. rewrite !bool_decide_false by done. cbn [mbind result_bind].
    rewrite Hid, take_length_app, drop_length_app, read_hashes_concat, arr_of_arr by apply arr_length.
    done.
Qed.

Lemma hash_update_roundtrip `{R : Rmp, !RmpLaws} u :
  is_u32 (ResourceHashUpdate.segment u) = true ->
  Z.of_nat (length (ResourceHashUpdate.hashmap u)) <= u32_max ->
  ResourceHashUpdate.decode (ResourceHashUpdate.encode u) = Ok u.
Proof.
  destruct u as [id s h]. simpl. intros Hs Hh.
  unfold ResourceHashUpdate.decode, ResourceHashUpdate.encode.
  cbn [ResourceHashUpdate.resource_id ResourceHashUpdate.segment ResourceHashUpdate.hashmap].
  cbn [length]. rewrite !length_app, arr_length.
  rewrite (proj2 (Nat.ltb_ge _ _)) by (unfold RESOURCE_HASH_UPDATE_HEADER_LEN, RESOURCE_ID_LEN; lia).
  rewrite bool_decide_true by done. cbn [negb].
  rewrite field_id, arr_of_arr.
  change (drop 17 (RESOURCE_VERSION :: ?l)) with (drop 16 l).
  rewrite drop_length_app by apply arr_length.
  rewrite read_write_array_len by done. cbn [ok_or mbind result_bind]. cbn [negb Z.eqb Pos.eqb].
  rewrite read_write_uint by (unfold is_u32, is_u64, u32_max, u64_max in *; lia).
  cbn [ok_or mbind result_bind].
  replace (u32_max <? s) with false by (unfold is_u32 in Hs; lia).
  rewrite <- (app_nil_r (write_bin h)), read_write_bin by done. cbn [ok_or mbind result_bind].
  rewrite app_nil_r, Z.ltb_irrefl, Nat2Z.id, firstn_all. done.
Qed.

(** * Cutting into chunks *)

Lemma concat_chunks_from fuel n data :
  (0 < n)%nat -> (length data <= fuel)%nat -> concat (chunks_from fuel n data) = data.
Proof.
  intros Hn. revert data. induction fuel as [|fuel IH]; intros [|b data] Hlen; simpl in Hlen; try done; [lia|].
  cbn [chunks_from concat]. rewrite IH; [apply take_drop|]. rewrite length_drop. simpl. lia.
Qed.

Lemma concat_chunks n data : (0 < n)%nat -> concat (chunks n data) = data.
Proof. intros Hn. by apply concat_chunks_from. Qed.

Lemma length_chunks_from fuel n data :
  (0 < n)%nat -> (length data <= fuel)%nat ->
  length (chunks_from fuel n data) = ((length data + n - 1) / n)%nat.
Proof.
  intros Hn. revert data. induction fuel as [|fuel IH]; intros [|b data] Hlen; simpl in Hlen; try lia.
  - cbn. by rewrite Nat.div_small by lia.
  - cbn. by rewrite Nat.div_small by lia.
  - cbn [chunks_from]. rewrite length_cons, IH by (rewrite length_drop; simpl; lia).
    rewrite length_drop. set (m := length (b :: data)). assert (1 <= m)%nat by (subst m; simpl; lia).
    destruct (le_lt_dec n m) as [Hle|Hgt].
    + replace (m + n - 1)%nat with (m - n + n - 1 + 1 * n)%nat by lia. rewrite Nat.div_add by lia. lia.
    + replace (m - n)%nat with 0%nat by lia. rewrite (Nat.div_small (0 + n - 1)) by lia.
      replace (m + n - 1)%nat with (m - 1 + 1 * n)%nat by lia.
      rewrite Nat.div_add, Nat.div_small by lia. lia.
Qed.

Lemma chunks_from_short fuel n data :
  Forall (fun c => (length c <= n)%nat) (chunks_from fuel n data).
Proof.
  revert data. induction fuel as [|fuel IH]; intros [|b data]; cbn [chunks_from]; constructor; [|apply IH].
  rewrite length_take. lia.
Qed.

(** * The invariant of the tracker *)

Section CacheSetLemmas.
Context {T : Type} `{Countable T}.

(** The set is the queue, which has no duplicates and at most [capacity]
    elements. *)
Definition cache_set_ok (c : CacheSet.t T) : Prop :=
  CacheSet.set c = list_to_set (CacheSet.queue c) /\ NoDup (CacheSet.queue c) /\
  (0 < CacheSet.capacity c)%nat /\ (length (CacheSet.queue c) <= CacheSet.capacity c)%nat.

Lemma cache_set_size c : cache_set_ok c -> size (CacheSet.set c) = length (CacheSet.queue c).
Proof. intros (-> & Hnd & _). by rewrite size_list_to_set. Qed.

Lemma cache_set_snoc v cap q : NoDup q -> v ∉ q -> (length q < cap)%nat ->
  cache_set_ok (CacheSet.mk cap ({[v]} ∪ list_to_set q) (q ++ [v])).
Proof.
  intros Hnd Hv Hlen. unfold cache_set_ok. cbn. split; [|split; [|split; [lia|]]].
  - rewrite list_to_set_app_L. cbn. rewrite (union_empty_r_L {[v]}). apply union_comm_L.
  - apply NoDup_app. split; [done|]. split; [|apply NoDup_singleton].
    intros x Hx ->%list_elem_of_singleton. done.
  - rewrite length_app. cbn. lia.
Qed.

(** Inserting keeps the invariant, adds the value and adds nothing else. *)
Lemma cache_set_insert v c : cache_set_ok c ->
  cache_set_ok (CacheSet.insert v c).1 /\ v ∈ CacheSet.set (CacheSet.insert v c).1 /\
  CacheSet.set (CacheSet.insert v c).1 ⊆ {[v]} ∪ CacheSet.set c.
Proof.
  intros Hc. pose proof (cache_set_size c Hc) as Hsize. destruct Hc as (Hset & Hnd & Hcap & Hlen).
  destruct c as [cap st q]. unfold CacheSet.insert. cbn in *. subst st.
  destruct (bool_decide_reflect (v ∈ (list_to_set q : gset T))) as [Hin|Hout]; cbn.
  { split; [done|]. split; [done|]. set_solver. }
  rewrite elem_of_list_to_set in Hout. rewrite Hsize.
  destruct (Nat.eqb_spec (length q) cap) as [He|Hne]; [destruct q as [|o q]|]; cbn in *; [lia| |].
  - apply NoDup_cons in Hnd as [Ho Hnd]. apply not_elem_of_cons in Hout as [_ Hout].
    replace (({[o]} ∪ list_to_set q) ∖ {[o]} : gset T) with (list_to_set q : gset T).
    + split; [apply cache_set_snoc; [done|done|lia]|]. set_solver.
    + apply set_eq. intros x. rewrite elem_of_difference, elem_of_union, elem_of_singleton, elem_of_list_to_set.
      naive_solver.
  - split; [apply cache_set_snoc; [done|done|lia]|]. set_solver.
Qed.

End CacheSetLemmas.

(** How many parts are there. *)
Definition count_some {A} (l : list (option A)) : nat := length (omap id l).
Arguments count_some : simpl never.

Lemma count_some_le {A} (l : list (option A)) : (count_some l <= length l)%nat.
Proof. unfold count_some. induction l as [|[x|] l IH]; csimpl; lia. Qed.

Lemma count_some_insert {A} (l : list (option A)) i x :
  l !! i = Some None -> count_some (<[i := Some x]> l) = S (count_some l).
Proof.
  unfold count_some. revert i. induction l as [|y l IH]; intros [|i] Hi; csimpl in *; try done.
  - by injection Hi as ->.
  - destruct y; csimpl; rewrite IH by done; done.
Qed.

Lemma count_some_none {A} n : count_some (replicate n (@None A)) = 0%nat.
Proof. unfold count_some. induction n; csimpl; done. Qed.

Record assembly_ok (key : arr 16) (a : ResourceAssembly) : Prop := {
  ok_id : as_resource_id a = key;
  ok_total : is_u32 (as_total_parts a) = true;
  ok_received : Z.of_nat (length (received a)) = as_total_parts a;
  ok_hashmap : length (as_hashmap a) = length (received a);
  ok_count : received_count a = Z.of_nat (count_some (received a));
  ok_partial : (count_some (received a) < length (received a))%nat;
  ok_retries : 0 <= as_retries a <= as_max_retries a;
  ok_max : as_max_retries a = RESOURCE_DEFAULT_MAX_RETRIES
}.

(** Every resource being received is incomplete and not one that was completed. *)
Definition tracker_ok (r : ResourceTracker.t) : Prop :=
  map_Forall assembly_ok (ResourceTracker.incoming r) /\ cache_set_ok (ResourceTracker.completed r) /\
  (forall key, is_Some (ResourceTracker.incoming r !! key) ->
     key ∉ CacheSet.set (ResourceTracker.completed r)).

Lemma tracker_new_ok timeout : tracker_ok (ResourceTracker.new timeout).
Proof.
  split; [apply map_Forall_empty|]. split.
  - split; [done|]. split; [constructor|]. cbn. unfold RESOURCE_COMPLETED_CACHE_SIZE. lia.
  - cbn. intros key [x Hx]. by rewrite lookup_empty in Hx.
Qed.

Section TrackerInvariant.
Context `{C : Crypto} `{HI : HashIter}.

Lemma store_part_received i data now a :
  received (ResourceTracker.store_part i data now a) =
    match received a !! i with Some None => <[i := Some data]> (received a) | _ => received a end.
Proof. destruct a. unfold ResourceTracker.store_part. cbn. destruct (_ !! i) as [[|]|]; done. Qed.

(** What storing a part leaves as it is. *)
Lemma store_part_frame i data now a :
  let a' := ResourceTracker.store_part i data now a in
  as_resource_id a' = as_resource_id a /\ as_total_parts a' = as_total_parts a /\
  as_total_len a' = as_total_len a /\ as_part_size a' = as_part_size a /\
  as_request_id a' = as_request_id a /\ as_is_response a' = as_is_response a /\
  as_retries a' = as_retries a /\ as_max_retries a' = as_max_retries a /\
  length (as_hashmap a') = length (as_hashmap a) /\ length (received a') = length (received a).
Proof.
  destruct a. unfold ResourceTracker.store_part. cbn.
  destruct (_ !! i) as [[|]|]; cbn; unfold constant; repeat split; rewrite ?length_insert; try done;
    repeat case_match; rewrite ?length_insert; done.
Qed.

Lemma store_part_count key i data now a : assembly_ok key a ->
  let a' := ResourceTracker.store_part i data now a in
  received_count a' = Z.of_nat (count_some (received a')).
Proof.
  intros [Hid Ht Hr Hh Hc Hp _ _]. cbn. rewrite store_part_received.
  assert (Hcount : received_count (ResourceTracker.store_part i data now a) =
    match received a !! i with Some None => as_u32 (received_count a + 1) | _ => received_count a end).
  { destruct a. unfold ResourceTracker.store_part. cbn. destruct (_ !! i) as [[|]|]; done. }
  rewrite Hcount. destruct (received a !! i) as [[|]|] eqn:Hi; try done.
  rewrite count_some_insert by done. unfold as_u32, is_u32, u32_max in *.
  rewrite Z.mod_small by lia. lia.
Qed.

(** The whole effect of a part on a tracker that satisfies the invariant. *)
Lemma handle_part_cases now part r : tracker_ok r ->
  ResourceTracker.handle_part now part r =
  match ResourceTracker.incoming r !! ResourcePart.resource_id part with
  | None => (r, Ok None)
  | Some a =>
      if as_part_size a <? Z.of_nat (length (ResourcePart.data part)) then (r, Err (Fails OutOfMemory))
      else if Z.of_nat (length (received a)) <=? ResourcePart.part_index part
      then (r, Err (Fails InvalidArgument))
      else
        let id := ResourcePart.resource_id part in
        let a' := ResourceTracker.store_part (Z.to_nat (ResourcePart.part_index part))
                    (ResourcePart.data part) now a in
        if Nat.eqb (count_some (received a')) (length (received a')) then
          (ResourceTracker.mk (delete id (ResourceTracker.incoming r)) (ResourceTracker.timeout r)
             (CacheSet.insert id (ResourceTracker.completed r)).1,
           Ok (Some (RComplete (mkCompletion id (ResourceTracker.assembled a') (as_request_id a)
                                  (as_is_response a)))))
        else
          (ResourceTracker.mk (<[id := a']> (ResourceTracker.incoming r)) (ResourceTracker.timeout r)
             (ResourceTracker.completed r),
           Ok (Some (RProgress (mkProgress id (as_request_id a) (as_is_response a)
             (f32_div (f32_of_Z (received_count a')) (f32_of_Z (as_total_parts a)))))))
  end.
Proof.
  intros (Hinc & _ & _). unfold ResourceTracker.handle_part.
  destruct (_ !! ResourcePart.resource_id part) as [a|] eqn:Ha; [|done].
  pose proof (Hinc _ _ Ha) as Hok.
  destruct (as_part_size a <? _); [done|]. destruct (Z.leb_spec (Z.of_nat (length (received a)))
    (ResourcePart.part_index part)) as [|Hlt]; [done|].
  rewrite (ok_hashmap _ _ Hok), (proj2 (Z.leb_gt _ _)) by done. cbv zeta.
  set (i := Z.to_nat (ResourcePart.part_index part)). set (a' := ResourceTracker.store_part _ _ _ _).
  destruct (store_part_frame i (ResourcePart.data part) now a)
    as (Fid & Ftp & _ & _ & Frq & Frs & _ & _ & _ & Flen). fold a' in Fid, Ftp, Frq, Frs, Flen.
  pose proof (store_part_count _ i (ResourcePart.data part) now a Hok) as Hc. cbv zeta in Hc. fold a' in Hc.
  assert (Hq : (received_count a' =? as_total_parts a') = Nat.eqb (count_some (received a')) (length (received a'))).
  { rewrite Hc, Ftp, Flen, <- (ok_received _ _ Hok).
    destruct (Nat.eqb_spec (count_some (received a')) (length (received a))); lia. }
  rewrite Hq, Fid, Frq, Frs, (ok_id _ _ Hok), Ftp. destruct (Nat.eqb _ _); destruct r; cbn; unfold constant.
  - by rewrite delete_insert_eq.
  - done.
Qed.

Lemma stored_assembly_ok key i data now a : assembly_ok key a ->
  let a' := ResourceTracker.store_part i data now a in
  Nat.eqb (count_some (received a')) (length (received a')) = false -> assembly_ok key a'.
Proof.
  intros Hok. cbv zeta. intros Hne. apply Nat.eqb_neq in Hne.
  pose proof (store_part_count _ i data now a Hok) as Hc.
  destruct (store_part_frame i data now a) as (Fid & Ftp & _ & _ & _ & _ & Fr & Fm & Fh & Flen).
  pose proof (count_some_le (received (ResourceTracker.store_part i data now a))) as Hle.
  destruct Hok. constructor; rewrite ?Fid, ?Ftp, ?Fr, ?Fm, ?Fh, ?Flen; try done. lia.
Qed.

Lemma tracker_ok_delete key r set' : tracker_ok r -> cache_set_ok set' ->
  CacheSet.set set' ⊆ {[key]} ∪ CacheSet.set (ResourceTracker.completed r) ->
  tracker_ok (ResourceTracker.mk (delete key (ResourceTracker.incoming r)) (ResourceTracker.timeout r) set').
Proof.
  intros (Hinc & Hset & Hdis) Hs Hsub. split; [by apply map_Forall_delete|]. split; [done|].
  cbn. intros k [a Ha]. apply lookup_delete_Some in Ha as [Hne Ha].
  pose proof (Hdis k (mk_is_Some _ _ Ha)). set_solver.
Qed.

Lemma tracker_ok_insert key a r : tracker_ok r -> assembly_ok key a ->
  key ∉ CacheSet.set (ResourceTracker.completed r) ->
  tracker_ok (ResourceTracker.mk (<[key := a]> (ResourceTracker.incoming r)) (ResourceTracker.timeout r)
                (ResourceTracker.completed r)).
Proof.
  intros (Hinc & Hset & Hdis) Ha Hkey. split; [by apply map_Forall_insert_2|]. split; [done|].
  cbn. intros k [x Hx]. apply lookup_insert_Some in Hx as [[<- _]|[_ Hx]]; [done|]. by apply Hdis.
Qed.

Lemma handle_part_ok now part r :
  tracker_ok r -> tracker_ok (ResourceTracker.handle_part now part r).1 /\
  (ResourceTracker.handle_part now part r).2 <> Err Panics.
Proof.
  intros Hr. rewrite handle_part_cases by done.
  destruct (_ !! ResourcePart.resource_id part) as [a|] eqn:Ha; [|done].
  pose proof Hr as (Hinc & Hset & Hdis). pose proof (Hinc _ _ Ha) as Hok.
  destruct (_ <? _); [done|]. destruct (_ <=? _); [done|]. cbv zeta.
  destruct (Nat.eqb _ _) eqn:Hfull; cbn; (split; [|done]).
  - destruct (cache_set_insert (ResourcePart.resource_id part) _ Hset) as (H1 & _ & H3).
    by apply tracker_ok_delete.
  - apply tracker_ok_insert; [done|by apply stored_assembly_ok|]. by apply Hdis.
Qed.

End TrackerInvariant.

(** ** The other operations *)

Section TrackerSteps.
Context `{C : Crypto} `{HI : HashIter}.

(** What a poll makes of one assembly, and what it reports. *)
Definition expired (now timeout : Z) (a : ResourceAssembly) : bool :=
  negb (sat_sub now (last_activity a) <? timeout).
Definition retried (now : Z) (a : ResourceAssembly) : ResourceAssembly :=
  a {{ as_retries := as_u32 (as_retries a + 1); last_activity := now }}.
Definition poll_after (now timeout : Z) (a : ResourceAssembly) : option ResourceAssembly :=
  if negb (expired now timeout a) then Some a
  else if as_max_retries a <=? as_retries a then None else Some (retried now a).
Definition poll_report (now timeout : Z) (a : ResourceAssembly) : option ResourceTimeout :=
  if negb (expired now timeout a) then None
  else Some (ResourceTracker.timed_out now a (as_max_retries a <=? as_retries a)).

Lemma poll_key_cases now key r ex :
  ResourceTracker.poll_key now key (r, ex) =
  (ResourceTracker.mk
     (partial_alter (fun o => o ≫= poll_after now (ResourceTracker.timeout r)) key (ResourceTracker.incoming r))
     (ResourceTracker.timeout r) (ResourceTracker.completed r),
   ex ++ option_list (ResourceTracker.incoming r !! key ≫= poll_report now (ResourceTracker.timeout r))).
Proof.
  destruct r as [inc tmo comp]. cbn. destruct (inc !! key) as [a|] eqn:Ha; cbn; cycle 1.
  { rewrite app_nil_r. f_equal. f_equal. apply map_eq. intros k. destruct (decide (k = key)) as [->|Hk].
    - by rewrite lookup_partial_alter_eq, Ha.
    - by rewrite lookup_partial_alter_ne. }
  unfold poll_after, poll_report, expired. rewrite negb_involutive.
  assert (Hpa : forall f, f (Some a) = (if sat_sub now (last_activity a) <? tmo then Some a
      else if as_max_retries a <=? as_retries a then None else Some (retried now a)) ->
    partial_alter f key inc = (if sat_sub now (last_activity a) <? tmo then inc
      else if as_max_retries a <=? as_retries a then delete key inc else <[key := retried now a]> inc)).
  { intros f Hf. apply map_eq. intros k. destruct (decide (k = key)) as [->|Hk].
    - rewrite lookup_partial_alter_eq, Ha, Hf. repeat case_match; simplify_map_eq; done.
    - rewrite lookup_partial_alter_ne by done. repeat case_match; simplify_map_eq; done. }
  match goal with |- context [partial_alter ?f key inc] =>
    rewrite (Hpa f) by (cbn; by rewrite negb_involutive) end. destruct (_ <? tmo); cbn; [by rewrite app_nil_r|].
  destruct (_ <=? _); destruct a; done.
Qed.

Lemma poll_fold now keys r ex : NoDup keys ->
  let s := foldl (fun s key => ResourceTracker.poll_key now key s) (r, ex) keys in
  ResourceTracker.timeout s.1 = ResourceTracker.timeout r /\
  ResourceTracker.completed s.1 = ResourceTracker.completed r /\
  (forall k, ResourceTracker.incoming s.1 !! k =
     if decide (k ∈ keys) then ResourceTracker.incoming r !! k ≫= poll_after now (ResourceTracker.timeout r)
     else ResourceTracker.incoming r !! k) /\
  s.2 = ex ++ omap (fun k => ResourceTracker.incoming r !! k ≫= poll_report now (ResourceTracker.timeout r)) keys.
Proof.
  revert r ex. induction keys as [|key keys IH]; intros r ex Hnd; cbn [foldl].
  { split; [done|]. split; [done|]. split; [|by rewrite app_nil_r].
    intros k. by rewrite decide_False by apply not_elem_of_nil. }
  apply NoDup_cons in Hnd as [Hkey Hnd]. rewrite poll_key_cases.
  match goal with |- context [foldl _ (?r1, ?e1) keys] => specialize (IH r1 e1 Hnd) end.
  cbv zeta in *. cbn in IH. destruct IH as (-> & -> & Hinc & ->).
  split; [done|]. split; [done|]. split.
  - intros k. rewrite Hinc. destruct (decide (k = key)) as [->|Hk].
    + rewrite decide_False, lookup_partial_alter_eq, decide_True by (done || apply elem_of_cons; by left). done.
    + rewrite lookup_partial_alter_ne by done.
      destruct (decide (k ∈ keys)) as [Hin|Hout].
      * rewrite decide_True by (apply elem_of_cons; by right). done.
      * rewrite decide_False; [done|]. by intros [|]%elem_of_cons.
  - rewrite <- app_assoc. f_equal. cbn [omap list_omap].
    erewrite list_omap_ext; cycle 1.
    { apply Forall_Forall2_diag, Forall_forall. intros k Hk.
      rewrite lookup_partial_alter_ne; [reflexivity|]. by intros <-. }
    by destruct (_ ≫= _).
Qed.

Lemma poll_timeouts_spec now r :
  let s := ResourceTracker.poll_timeouts now r in
  ResourceTracker.timeout s.1 = ResourceTracker.timeout r /\
  ResourceTracker.completed s.1 = ResourceTracker.completed r /\
  (forall k, ResourceTracker.incoming s.1 !! k =
     ResourceTracker.incoming r !! k ≫= poll_after now (ResourceTracker.timeout r)) /\
  s.2 = omap (fun k => ResourceTracker.incoming r !! k ≫= poll_report now (ResourceTracker.timeout r))
          (hash_keys (ResourceTracker.incoming r)).
Proof.
  unfold ResourceTracker.poll_timeouts.
  destruct (poll_fold now (hash_keys (ResourceTracker.incoming r)) r [] (NoDup_hash_keys _))
    as (H1 & H2 & H3 & H4). cbv zeta in *. repeat split; try done.
  intros k. rewrite H3. case_decide as Hk; [done|]. rewrite elem_of_hash_keys in Hk.
  destruct (_ !! k); [|done]. destruct Hk. done.
Qed.

End TrackerSteps.

Section TrackerRuns.
Context `{C : Crypto} `{HI : HashIter}.

Inductive tracker_step (r : ResourceTracker.t) : ResourceTracker.t -> Prop :=
| step_advert advert link now : advert_ok advert = true ->
    tracker_step r (ResourceTracker.handle_advertisement advert link now r).1
| step_part now part : tracker_step r (ResourceTracker.handle_part now part r).1
| step_hashes update now : tracker_step r (ResourceTracker.handle_hash_update update now r).1
| step_cancel id : tracker_step r (ResourceTracker.handle_cancel id r).1
| step_poll now : tracker_step r (ResourceTracker.poll_timeouts now r).1.

(** The assembly of a new advertisement. *)
Definition fresh_assembly (advert : ResourceAdvertisement.t) (link : arr 16) (now : Z) : ResourceAssembly :=
  let n := Z.to_nat (ResourceAdvertisement.total_parts advert) in
  mkAssembly (ResourceAdvertisement.resource_id advert) link (ResourceAdvertisement.request_id advert)
    (ResourceAdvertisement.is_response advert) (ResourceAdvertisement.total_len advert)
    (ResourceAdvertisement.total_parts advert) (ResourceAdvertisement.part_size advert)
    (replicate n None) 0 (replicate n None) now 0 RESOURCE_DEFAULT_MAX_RETRIES.

Lemma fresh_assembly_ok advert link now : advert_ok advert = true ->
  ResourceAdvertisement.total_parts advert <> 0 ->
  assembly_ok (ResourceAdvertisement.resource_id advert) (fresh_assembly advert link now).
Proof.
  unfold advert_ok. rewrite !andb_true_iff. intros [[_ Hp] _] Hne.
  assert (0 < ResourceAdvertisement.total_parts advert) by (unfold is_u32 in Hp; lia).
  unfold fresh_assembly, RESOURCE_DEFAULT_MAX_RETRIES.
  constructor; cbn; rewrite ?length_replicate, ?count_some_none; try done; lia.
Qed.

Lemma set_hashes_length hs idx l :
  length (ResourceTracker.set_hashes idx hs l) = length l.
Proof.
  revert idx l. induction hs as [|h hs IH]; intros idx l; cbn; [done|].
  destruct (_ <=? idx); [done|]. by rewrite IH, length_insert.
Qed.

Lemma poll_after_ok now timeout key a a' :
  assembly_ok key a -> poll_after now timeout a = Some a' -> assembly_ok key a'.
Proof.
  intros [H1 H2 H3 H4 H5 H6 H7 H8]. unfold poll_after. destruct (negb _); [intros [= <-]; by constructor|].
  destruct (Z.leb_spec (as_max_retries a) (as_retries a)) as [|Hlt]; [done|]. intros [= <-].
  destruct a. unfold retried. constructor; cbn in *; unfold constant in *; try done.
  unfold as_u32, RESOURCE_DEFAULT_MAX_RETRIES in *. rewrite Z.mod_small by lia. lia.
Qed.

Lemma tracker_step_ok r r' : tracker_ok r -> tracker_step r r' -> tracker_ok r'.
Proof.
  intros Hr Hstep. pose proof Hr as (Hinc & Hset & Hdis). destruct Hstep as [advert link now Ha|now part|u now|id|now].
  - unfold ResourceTracker.handle_advertisement, CacheSet.contains. cbv zeta.
    destruct (bool_decide_reflect (ResourceAdvertisement.resource_id advert
      ∈ CacheSet.set (ResourceTracker.completed r))); [done|].
    destruct (Z.eqb_spec (ResourceAdvertisement.total_parts advert) 0); [done|].
    destruct r. apply (tracker_ok_insert _ (fresh_assembly advert link now)); [done| |done].
    by apply fresh_assembly_ok.
  - by apply handle_part_ok.
  - unfold ResourceTracker.handle_hash_update.
    destruct (_ !! ResourceHashUpdate.resource_id u) as [a|] eqn:Hl; [|done].
    destruct (negb _); [done|]. destruct r. apply tracker_ok_insert; [done| |by apply Hdis].
    destruct (Hinc _ _ Hl), a. constructor; cbn in *; unfold constant in *; rewrite ?set_hashes_length; done.
  - unfold ResourceTracker.handle_cancel. destruct (_ !! id) as [a|] eqn:Hl; [|done].
    destruct (cache_set_insert id _ Hset) as (H1 & _ & H3). destruct r. by apply tracker_ok_delete.
  - destruct (poll_timeouts_spec now r) as (_ & H2 & H3 & _). unfold tracker_ok. rewrite H2. split; [|split; [done|]].
    + intros k a'. rewrite H3. intros (a & Hl & Ha)%bind_Some. eapply poll_after_ok; [|done]. by apply Hinc.
    + intros k. rewrite H3. intros [a' (a & Hl & _)%bind_Some]. apply Hdis. by eexists.
Qed.

(** Polls at the given times, with all they report. *)
Fixpoint poll_all (times : list Z) (r : ResourceTracker.t) : ResourceTracker.t * list ResourceTimeout :=
  match times with
  | [] => (r, [])
  | now :: times =>
      let '(r, expired) := ResourceTracker.poll_timeouts now r in
      let '(r, more) := poll_all times r in
      (r, expired ++ more)
  end.

(** What was reported about one resource. *)
Definition about (id : arr 16) (reports : list ResourceTimeout) : list ResourceTimeout :=
  filter (fun t => rt_resource_id t = id) reports.

Lemma about_app id l1 l2 : about id (l1 ++ l2) = about id l1 ++ about id l2.
Proof. apply filter_app. Qed.

Lemma poll_report_id now timeout a t : poll_report now timeout a = Some t -> rt_resource_id t = as_resource_id a.
Proof.
  unfold poll_report, ResourceTracker.timed_out. destruct (negb _); [done|].
  destruct (ResourceTracker.missing _ _). by intros [= <-].
Qed.

(** A poll reports a resource at most once. *)
Lemma about_poll now r id : tracker_ok r ->
  about id (ResourceTracker.poll_timeouts now r).2 =
    option_list (ResourceTracker.incoming r !! id ≫= poll_report now (ResourceTracker.timeout r)).
Proof.
  intros (Hinc & _ & _). destruct (poll_timeouts_spec now r) as (_ & _ & _ & ->).
  set (f := fun k => _ ≫= _). change (ResourceTracker.incoming r !! id ≫= _) with (f id).
  assert (Hf : forall k t, f k = Some t -> rt_resource_id t = k).
  { intros k t (a & Hl & Ht)%bind_Some. rewrite (poll_report_id _ _ _ _ Ht). by apply (ok_id _ _ (Hinc _ _ Hl)). }
  assert (Hnone : forall keys, id ∉ keys -> about id (omap f keys) = []).
  { intros keys Hk.
    induction keys as [|k keys IH]; [done|]. apply not_elem_of_cons in Hk as [Hne Hk]. cbn.
    destruct (f k) as [t|] eqn:Ht; [|by apply IH]. rewrite filter_cons_False; [by apply IH|].
    rewrite (Hf _ _ Ht). congruence. }
  destruct (decide (id ∈ hash_keys (ResourceTracker.incoming r))) as [Hin|Hout].
  - pose proof (NoDup_hash_keys (ResourceTracker.incoming r)) as Hnd.
    apply list_elem_of_split in Hin as (l1 & l2 & Hl). rewrite Hl in Hnd |- *.
    apply NoDup_app in Hnd as (_ & H12 & Hnd). apply NoDup_cons in Hnd as [H2 _].
    rewrite omap_app, about_app, Hnone; cycle 1.
    { intros H1. by apply (H12 _ H1), elem_of_cons; left. }
    cbn [omap list_omap app]. destruct (f id) as [t|] eqn:Ht; cbn [option_list]; [|by apply Hnone].
    unfold about. rewrite filter_cons_True by (by eapply Hf).
    change (option_list (Some t)) with [t]. f_equal. by apply Hnone.
  - rewrite Hnone by done. rewrite elem_of_hash_keys in Hout. subst f. cbn.
    destruct (_ !! id); [|done]. destruct Hout. by eexists.
Qed.

End TrackerRuns.

Section TrackerTimeouts.
Context `{C : Crypto} `{HI : HashIter}.

Lemma tracker_run_ok timeout r : rtc tracker_step (ResourceTracker.new timeout) r -> tracker_ok r.
Proof.
  intros Hrun. cut (forall r0, tracker_ok r0 -> rtc tracker_step r0 r -> tracker_ok r).
  { intros Hall. by apply (Hall _ (tracker_new_ok timeout)). }
  clear Hrun. intros r0 H0 Hrun. induction Hrun; [done|]. eauto using tracker_step_ok.
Qed.

Lemma poll_all_absent times id : forall r, tracker_ok r -> ResourceTracker.incoming r !! id = None ->
  ResourceTracker.incoming (poll_all times r).1 !! id = None /\ about id (poll_all times r).2 = [].
Proof.
  induction times as [|now times IH]; intros r Hr Hid; [done|]. cbn [poll_all].
  pose proof (about_poll now r id Hr) as Hab. pose proof (tracker_step_ok r _ Hr (step_poll r now)) as Hr1.
  destruct (poll_timeouts_spec now r) as (_ & _ & Hinc & _). specialize (Hinc id).
  rewrite Hid in Hinc, Hab. destruct (ResourceTracker.poll_timeouts now r) as [r1 ex].
  cbn [fst snd mbind option_bind] in *.
  destruct (IH r1 Hr1 Hinc) as [H1 H2]. destruct (poll_all times r1) as [r2 more].
  split; [done|]. cbn [snd] in *. rewrite about_app. by rewrite H2, Hab.
Qed.

(** The report of an assembly, apart from its time. *)
Definition asks_for (a : ResourceAssembly) (t : ResourceTimeout) : Prop :=
  (rt_requested_hashes t, rt_hashmap_exhausted t) = ResourceTracker.missing (received a) (as_hashmap a) /\
  rt_link_id t = as_link_id a.

Lemma timed_out_asks now a failed :
  asks_for a (ResourceTracker.timed_out now a failed) /\
  rt_failed (ResourceTracker.timed_out now a failed) = failed.
Proof.
  unfold asks_for, ResourceTracker.timed_out.
  destruct (ResourceTracker.missing (received a) (as_hashmap a)) as [hs ex]. done.
Qed.

Lemma poll_all_counts times id : forall r a, tracker_ok r -> ResourceTracker.incoming r !! id = Some a ->
  spaced (ResourceTracker.timeout r) (last_activity a + ResourceTracker.timeout r) times ->
  let left := Z.to_nat (as_max_retries a - as_retries a) in
  let s := poll_all times r in
  map rt_failed (about id s.2) = take (length times) (replicate left false ++ [true]) /\
  Forall (asks_for a) (about id s.2) /\
  (ResourceTracker.incoming s.1 !! id = None <-> (left < length times)%nat).
Proof.
  induction times as [|now times IH]; intros r a Hr Hid Hsp; cbv zeta.
  { cbn. rewrite Hid. split; [done|]. split; [constructor|]. split; [done|lia]. }
  destruct Hsp as [Hnow Hsp]. cbn [poll_all].
  pose proof (about_poll now r id Hr) as Hab. pose proof (tracker_step_ok r _ Hr (step_poll r now)) as Hr1.
  destruct (poll_timeouts_spec now r) as (Htmo & _ & Hinc & _). specialize (Hinc id).
  rewrite Hid in Hinc, Hab. destruct (ResourceTracker.poll_timeouts now r) as [r1 ex].
  cbn [mbind option_bind fst snd] in *.
  assert (He : expired now (ResourceTracker.timeout r) a = true).
  { unfold expired, sat_sub. rewrite (proj2 (Z.ltb_ge _ _)); [done|lia]. }
  unfold poll_after, poll_report in *. rewrite He in *. cbn [negb] in *.
  pose proof Hr as (Hall & _ & _). destruct (Hall _ _ Hid) as [_ _ _ _ _ _ Hret Hmax].
  destruct (timed_out_asks now a (as_max_retries a <=? as_retries a)) as [Hask Hfail].
  destruct (Z.leb_spec (as_max_retries a) (as_retries a)) as [Hlast|Hmore].
  - replace (Z.to_nat (as_max_retries a - as_retries a)) with 0%nat by lia.
    destruct (poll_all_absent times id r1 Hr1 Hinc) as [H1 H2]. destruct (poll_all times r1) as [r2 more].
    cbn [fst snd length replicate app take] in *. rewrite about_app, H2, Hab, app_nil_r.
    change (option_list (Some ?t)) with [t]. cbn [map]. rewrite Hfail, take_nil.
    split; [done|]. split; [by apply Forall_singleton|]. split; [lia|done].
  - specialize (IH r1 (retried now a) Hr1 Hinc).
    assert (Hsame : as_max_retries (retried now a) = as_max_retries a /\
      as_retries (retried now a) = as_retries a + 1 /\ last_activity (retried now a) = now /\
      (forall t, asks_for (retried now a) t <-> asks_for a t)).
    { destruct a. cbn in *. unfold retried. cbn. unfold constant, as_u32, RESOURCE_DEFAULT_MAX_RETRIES in *.
      rewrite Z.mod_small by lia. done. }
    destruct Hsame as (E1 & E2 & E3 & E4). rewrite Htmo, E3 in IH. specialize (IH Hsp).
    cbv zeta in IH. rewrite E1, E2 in IH. destruct (poll_all times r1) as [r2 more].
    destruct IH as (I1 & I2 & I3). cbn [fst snd] in *. rewrite about_app, Hab.
    change (option_list (Some ?t)) with [t]. cbn [app map length]. rewrite Hfail, I1.
    replace (Z.to_nat (as_max_retries a - as_retries a))
      with (S (Z.to_nat (as_max_retries a - (as_retries a + 1)))) by lia.
    split; [done|]. split; [|rewrite I3; lia].
    constructor; [exact Hask|]. eapply Forall_impl; [exact I2|]. intros t. apply E4.
Qed.

End TrackerTimeouts.

(** A receiver that hears nothing more gives a resource up, and says so
    once.  Polled at intervals of at least the timeout, a tracker reports an
    unfinished resource as many times as it has retries left, each time asking
    its link for exactly the missing parts, then once as failed; with that
    report the resource is forgotten. *)
Theorem resource_times_out `{Crypto} `{HashIter} (timeout : Z) (r : ResourceTracker.t) (id : arr 16)
  (a : ResourceAssembly) (times : list Z)
  (Hrun : rtc tracker_step (ResourceTracker.new timeout) r)
  (Ha : ResourceTracker.incoming r !! id = Some a)
  (Htimes : spaced (ResourceTracker.timeout r) (last_activity a + ResourceTracker.timeout r) times) :
  let left := Z.to_nat (RESOURCE_DEFAULT_MAX_RETRIES - as_retries a) in
  let '(r', reports) := poll_all times r in
  map rt_failed (about id reports) = take (length times) (replicate left false ++ [true]) /\
  Forall (asks_for a) (about id reports) /\
  (ResourceTracker.incoming r' !! id = None <-> (left < length times)%nat).
Proof.
  pose proof (tracker_run_ok _ _ Hrun) as Hr. pose proof Hr as (Hall & _ & _).
  rewrite <- (ok_max _ _ (Hall _ _ Ha)).
  pose proof (poll_all_counts times id r a Hr Ha Htimes) as Hc.
  destruct (poll_all times r) as [r' reports]. exact Hc.
Qed.

(** * Transfers *)

Section Transfer.
Context `{C : Crypto} `{HI : HashIter}.

(** The parts of [cs] whose index is in [S]. *)
Definition masked (S : gset nat) (cs : list (list byte)) : list (option (list byte)) :=
  imap (fun i c => if decide (i ∈ S) then Some c else None) cs.

Lemma masked_lookup S cs i :
  masked S cs !! i = (fun c => if decide (i ∈ S) then Some c else None) <$> cs !! i.
Proof. unfold masked. by rewrite list_lookup_imap. Qed.

Lemma masked_empty cs : masked ∅ cs = replicate (length cs) None.
Proof.
  apply list_eq. intros i. rewrite masked_lookup. destruct (cs !! i) as [c|] eqn:Hi; cbn.
  - symmetry. apply lookup_replicate. split; [done|]. by apply lookup_lt_Some in Hi.
  - symmetry. apply lookup_replicate_None. by apply lookup_ge_None in Hi.
Qed.

Lemma masked_store S cs i c now a : received a = masked S cs -> cs !! i = Some c ->
  received (ResourceTracker.store_part i c now a) = masked ({[i]} ∪ S) cs.
Proof.
  intros Hr Hc. rewrite store_part_received, Hr, masked_lookup, Hc. cbn.
  destruct (decide (i ∈ S)) as [Hi|Hi].
  - f_equal. set_solver.
  - apply list_eq. intros j. rewrite masked_lookup. destruct (decide (i = j)) as [<-|Hj].
    + rewrite list_lookup_insert_eq, Hc; cbn; [by rewrite decide_True by set_solver|].
      unfold masked. rewrite length_imap. by apply lookup_lt_Some in Hc.
    + rewrite list_lookup_insert_ne, masked_lookup by done. destruct (cs !! j); cbn; [|done].
      f_equal. destruct (decide (j ∈ S)); [rewrite decide_True|rewrite decide_False]; set_solver.
Qed.

Lemma omap_imap_some {A} (f : nat -> A -> option A) (l : list A) :
  (forall i x, l !! i = Some x -> f i x = Some x) -> omap id (imap f l) = l.
Proof.
  revert f. induction l as [|x l IH]; intros f Hf; [done|]. cbn.
  rewrite (Hf 0%nat x eq_refl). cbn. f_equal. apply IH. intros i y Hi. by apply Hf.
Qed.

(** The indices of all parts. *)
Definition all_of (cs : list (list byte)) : gset nat := set_seq 0 (length cs).

(** All parts are there when the count says so. *)
Lemma masked_full S cs : count_some (masked S cs) = length cs <-> all_of cs ⊆ S.
Proof.
  unfold all_of. split.
  - intros Hfull i Hi. apply elem_of_set_seq in Hi as [_ Hi]. cbn in Hi. destruct (decide (i ∈ S)) as [|Hout]; [done|].
    apply lookup_lt_is_Some in Hi as [c Hc].
    assert (Hl : masked S cs !! i = Some None) by (rewrite masked_lookup, Hc; cbn; by rewrite decide_False).
    pose proof (count_some_insert _ _ c Hl) as Hins.
    pose proof (count_some_le (<[i := Some c]> (masked S cs))) as Hle.
    rewrite length_insert in Hle. unfold masked in Hle at 2. rewrite length_imap in Hle. lia.
  - intros Hall. unfold count_some, masked. rewrite omap_imap_some; [done|].
    intros i c Hi. rewrite decide_True; [done|]. apply Hall, elem_of_set_seq.
    apply lookup_lt_Some in Hi. lia.
Qed.

Lemma masked_concat S cs : all_of cs ⊆ S -> omap id (masked S cs) = cs.
Proof.
  intros Hall. apply omap_imap_some. intros i c Hi. rewrite decide_True; [done|].
  apply Hall, elem_of_set_seq. apply lookup_lt_Some in Hi. lia.
Qed.

(** Parts handled one after another, each at its time. *)
Fixpoint handle_parts (arrivals : list (Z * ResourcePart.t)) (r : ResourceTracker.t) :
    ResourceTracker.t * list (result (fault RetError) (option ResourceEvent)) :=
  match arrivals with
  | [] => (r, [])
  | (now, part) :: arrivals =>
      let '(r, event) := ResourceTracker.handle_part now part r in
      let '(r, events) := handle_parts arrivals r in
      (r, event :: events)
  end.

(** The completions of one resource. *)
Definition completion_of (id : arr 16) (event : result (fault RetError) (option ResourceEvent)) :
    option ResourceCompletion :=
  match event with
  | Ok (Some (RComplete c)) => if decide (rc_resource_id c = id) then Some c else None
  | _ => None
  end.
Definition completions (id : arr 16) : list (result (fault RetError) (option ResourceEvent)) ->
    list ResourceCompletion := omap (completion_of id).

(** A part of another resource does not touch this one. *)
Lemma handle_part_other now part r id : tracker_ok r -> ResourcePart.resource_id part <> id ->
  let s := ResourceTracker.handle_part now part r in
  ResourceTracker.incoming s.1 !! id = ResourceTracker.incoming r !! id /\ completion_of id s.2 = None.
Proof.
  intros Hr Hne. cbv zeta. rewrite handle_part_cases by done.
  destruct (_ !! ResourcePart.resource_id part) as [a|]; [|done].
  destruct (_ <? _); [done|]. destruct (_ <=? _); [done|]. cbv zeta.
  destruct (Nat.eqb _ _); cbn.
  - rewrite lookup_delete_ne by done. by rewrite decide_False.
  - by rewrite lookup_insert_ne.
Qed.

Lemma handle_parts_absent id arrivals : forall r, tracker_ok r -> ResourceTracker.incoming r !! id = None ->
  ResourceTracker.incoming (handle_parts arrivals r).1 !! id = None /\
  completions id (handle_parts arrivals r).2 = [].
Proof.
  induction arrivals as [|[now part] arrivals IH]; intros r Hr Hid; [done|]. cbn [handle_parts].
  assert (Hs : let s := ResourceTracker.handle_part now part r in
    ResourceTracker.incoming s.1 !! id = None /\ completion_of id s.2 = None).
  { destruct (decide (ResourcePart.resource_id part = id)) as [He|Hne].
    - cbv zeta. rewrite handle_part_cases, He, Hid by done. done.
    - cbv zeta. destruct (handle_part_other now part r id Hr Hne) as [-> ->]. done. }
  pose proof (handle_part_ok now part r Hr) as [Hr1 _]. cbv zeta in Hs.
  destruct (ResourceTracker.handle_part now part r) as [r1 e]. cbn in Hs, Hr1. destruct Hs as [H1 H2].
  destruct (IH r1 Hr1 H1) as [I1 I2]. destruct (handle_parts arrivals r1) as [r2 es]. cbn in *.
  by rewrite H2.
Qed.

(** The receiver's side of a transfer: an assembly that holds the parts in [S]. *)
Record receiving (cs : list (list byte)) (len : Z) (rid : option (arr 16)) (resp : bool) (S : gset nat)
    (a : ResourceAssembly) : Prop := {
  rcv_received : received a = masked S cs;
  rcv_len : as_total_len a = len;
  rcv_rid : as_request_id a = rid;
  rcv_resp : as_is_response a = resp;
  rcv_size : Forall (fun c => Z.of_nat (length c) <= as_part_size a) cs
}.

(** The indices of the parts of a resource that arrived. *)
Definition arrived (id : arr 16) (arrivals : list (Z * ResourcePart.t)) : gset nat :=
  list_to_set (map (fun x => Z.to_nat (ResourcePart.part_index x.2))
    (filter (fun x => ResourcePart.resource_id x.2 = id) arrivals)).

Lemma handle_part_receiving now i c cs len rid resp S a r id : tracker_ok r ->
  ResourceTracker.incoming r !! id = Some a -> receiving cs len rid resp S a -> cs !! i = Some c ->
  Z.of_nat (length (concat cs)) = len ->
  let part := ResourcePart.mk id (Z.of_nat i) c in
  let s := ResourceTracker.handle_part now part r in
  if decide (all_of cs ⊆ {[i]} ∪ S)
  then ResourceTracker.incoming s.1 !! id = None /\
       s.2 = Ok (Some (RComplete (mkCompletion id (concat cs) rid resp)))
  else exists a' progress, s.2 = Ok (Some (RProgress (mkProgress id rid resp progress))) /\
       ResourceTracker.incoming s.1 !! id = Some a' /\ receiving cs len rid resp ({[i]} ∪ S) a'.
Proof.
  intros Hr Ha [R1 R2 R3 R4 R5] Hc Hlen. cbv zeta. rewrite handle_part_cases by done.
  cbn [ResourcePart.resource_id ResourcePart.part_index ResourcePart.data]. rewrite Ha, Nat2Z.id.
  assert (Hsize : Z.of_nat (length c) <= as_part_size a) by (by eapply (Forall_lookup_1 _ _ _ _ R5)).
  assert (Hm : forall S, length (masked S cs) = length cs) by (intros; unfold masked; apply length_imap).
  rewrite R1, Hm, (proj2 (Z.ltb_ge _ _)) by done.
  rewrite (proj2 (Z.leb_gt _ _)) by (apply lookup_lt_Some in Hc; lia). cbv zeta.
  pose proof (masked_store S cs i c now a R1 Hc) as Hst.
  destruct (store_part_frame i c now a) as (_ & _ & Fl & Fp & Frq & Frs & _).
  rewrite Hst, Hm.
  assert (Hd : Nat.eqb (count_some (masked ({[i]} ∪ S) cs)) (length cs) = true <->
    all_of cs ⊆ {[i]} ∪ S) by (rewrite Nat.eqb_eq; apply masked_full).
  destruct (decide _) as [Hall|Hnot].
  - rewrite (proj2 Hd Hall). cbn. rewrite lookup_delete_eq. split; [done|].
    unfold ResourceTracker.assembled. rewrite Hst, masked_concat by done.
    rewrite Fl, R2, <- Hlen, Nat2Z.id, firstn_all, R3, R4. done.
  - destruct (Nat.eqb _ _) eqn:He; [by destruct Hnot; apply Hd|]. cbn.
    rewrite lookup_insert_eq, R3, R4. eexists _, _. split; [done|]. split; [done|].
    constructor; rewrite ?Fl, ?Fp, ?Frq, ?Frs; done.
Qed.


(** The part of [cs] at an index. *)
Definition part_at (id : arr 16) (cs : list (list byte)) (part : ResourcePart.t) : Prop :=
  exists i c, cs !! i = Some c /\ part = ResourcePart.mk id (Z.of_nat i) c.

Lemma arrived_cons id now part arrivals :
  arrived id ((now, part) :: arrivals) =
    (if decide (ResourcePart.resource_id part = id) then {[Z.to_nat (ResourcePart.part_index part)]} else ∅)
    ∪ arrived id arrivals.
Proof.
  unfold arrived. rewrite filter_cons. cbn [snd].
  destruct (decide (ResourcePart.resource_id part = id)); cbn; set_solver.
Qed.

Lemma handle_parts_receiving cs len rid resp id arrivals :
  Forall (fun x => ResourcePart.resource_id x.2 = id -> part_at id cs x.2) arrivals ->
  Z.of_nat (length (concat cs)) = len ->
  forall r a S, tracker_ok r -> ResourceTracker.incoming r !! id = Some a -> receiving cs len rid resp S a ->
  ~ all_of cs ⊆ S ->
  let s := handle_parts arrivals r in
  if decide (all_of cs ⊆ arrived id arrivals ∪ S)
  then ResourceTracker.incoming s.1 !! id = None /\
       completions id s.2 = [mkCompletion id (concat cs) rid resp]
  else is_Some (ResourceTracker.incoming s.1 !! id) /\ completions id s.2 = [].
Proof.
  intros Harr Hlen. induction Harr as [|[now part] arrivals Hpart _ IH]; intros r a S Hr Ha Hrcv Hnot; cbv zeta.
  { rewrite decide_False by (unfold arrived; set_solver). cbn. rewrite Ha. done. }
  rewrite arrived_cons. cbn [handle_parts]. pose proof (handle_part_ok now part r Hr) as [Hr1 _].
  cbn [snd] in Hpart. destruct (decide (ResourcePart.resource_id part = id)) as [Hid|Hne].
  - destruct (Hpart Hid) as (i & c & Hc & ->). clear Hpart.
    pose proof (handle_part_receiving now i c cs len rid resp S a r id Hr Ha Hrcv Hc Hlen) as Hs. cbv zeta in Hs.
    cbn [ResourcePart.part_index]. rewrite Nat2Z.id.
    destruct (ResourceTracker.handle_part now _ r) as [r1 e]. cbn [fst snd] in *.
    destruct (decide (all_of cs ⊆ {[i]} ∪ S)) as [Hall|Hmore].
    + destruct Hs as [H1 ->]. destruct (handle_parts_absent id arrivals r1 Hr1 H1) as [I1 I2].
      destruct (handle_parts arrivals r1) as [r2 es]. cbn [fst snd] in *.
      rewrite decide_True by set_solver. split; [done|]. unfold completions in *. cbn [omap list_omap].
      unfold completion_of at 1. cbn [rc_resource_id]. rewrite decide_True, I2 by done. done.
    + destruct Hs as (a' & progress & -> & Ha' & Hrcv').
      pose proof (IH r1 a' _ Hr1 Ha' Hrcv' Hmore) as I1. cbv zeta in I1.
      destruct (handle_parts arrivals r1) as [r2 es]. cbn [fst snd] in *.
      unfold completions in *. cbn [omap list_omap completion_of].
      replace ({[i]} ∪ arrived id arrivals ∪ S) with (arrived id arrivals ∪ ({[i]} ∪ S)) by set_solver. done.
  - destruct (handle_part_other now part r id Hr Hne) as [H1 H2].
    destruct (ResourceTracker.handle_part now part r) as [r1 e]. cbn [fst snd] in *. rewrite Ha in H1.
    pose proof (IH r1 a S Hr1 H1 Hrcv Hnot) as I1. cbv zeta in I1.
    destruct (handle_parts arrivals r1) as [r2 es]. cbn [fst snd] in *.
    unfold completions in *. cbn [omap list_omap]. rewrite H2.
    replace (∅ ∪ arrived id arrivals ∪ S) with (arrived id arrivals ∪ S) by set_solver. done.
Qed.

(** Every part arrived when every index did. *)
Lemma arrived_all id cs arrivals :
  Forall (fun x => ResourcePart.resource_id x.2 = id -> part_at id cs x.2) arrivals ->
  Forall (fun p => p ∈ arrivals.*2) (imap (fun i c => ResourcePart.mk id (Z.of_nat i) c) cs) <->
  all_of cs ⊆ arrived id arrivals.
Proof.
  rewrite Forall_forall. intros Harr. unfold arrived. rewrite Forall_forall. split.
  - intros Hall i Hi. apply elem_of_set_seq in Hi as [_ Hi]. cbn in Hi.
    apply lookup_lt_is_Some in Hi as [c Hc].
    assert (Hp : ResourcePart.mk id (Z.of_nat i) c ∈ arrivals.*2).
    { apply Hall, elem_of_lookup_imap. by exists i, c. }
    apply list_elem_of_fmap in Hp as ([now p] & Hp & Hin). cbn in Hp. subst p.
    apply elem_of_list_to_set, list_elem_of_fmap.
    exists (now, ResourcePart.mk id (Z.of_nat i) c). split; [|by apply list_elem_of_filter].
    cbn. by rewrite Nat2Z.id.
  - intros Hsub p Hp. apply elem_of_lookup_imap in Hp as (i & c & -> & Hc).
    assert (Hi : i ∈ all_of cs) by (apply elem_of_set_seq; apply lookup_lt_Some in Hc; lia).
    apply Hsub, elem_of_list_to_set, list_elem_of_fmap in Hi as ([now p] & -> & Hin).
    apply list_elem_of_filter in Hin as [Hid Hin]. destruct (Harr _ Hin Hid) as (j & c' & Hc' & Hj).
    cbn in Hj, Hc. subst p. cbn in Hc. rewrite Nat2Z.id in Hc. rewrite Hc in Hc'. injection Hc' as <-.
    cbn [snd ResourcePart.part_index]. rewrite Nat2Z.id. apply list_elem_of_fmap.
    eexists. split; [|exact Hin]. done.
Qed.

(** What [split] makes. *)
Lemma split_spec data part_size rid resp req advert parts :
  ResourceSender.split data part_size rid resp req = Ok (advert, parts) ->
  data <> [] -> Z.of_nat (length data) <= u32_max -> Z.of_nat part_size <= u32_max ->
  let cs := chunks part_size data in
  let id := ResourceSender.resource_id_of data in
  advert = ResourceAdvertisement.mk id rid (Z.of_nat (length data)) (Z.of_nat part_size)
             (Z.of_nat (length cs)) resp req /\
  parts = imap (fun i c => ResourcePart.mk id (Z.of_nat i) c) cs /\
  concat cs = data /\ Forall (fun c => (length c <= part_size)%nat) cs /\
  (0 < length cs)%nat /\ Z.of_nat (length cs) <= u32_max.
Proof.
  unfold ResourceSender.split. destruct (Nat.eqb_spec part_size 0) as [|Hp]; [done|].
  intros [= <- <-] Hne Hl Hs. cbv zeta.
  assert (Hcs : length (chunks part_size data) = ((length data + part_size - 1) / part_size)%nat)
    by (apply length_chunks_from; lia).
  assert (Hd : (0 < length data)%nat) by (destruct data; [done|cbn; lia]).
  assert (Hbound : (0 < length (chunks part_size data) <= length data)%nat).
  { rewrite Hcs. split; [apply Nat.div_str_pos; lia|].
    apply Nat.Div0.div_le_upper_bound. nia. }
  unfold u32_max in *. repeat split; try lia.
  - unfold as_u32, as_u64. rewrite (Z.mod_small _ (2 ^ 64)), !(Z.mod_small _ (2 ^ 32)); try lia.
    + f_equal. rewrite Hcs, Nat2Z.inj_div. f_equal. lia.
    + replace (Z.of_nat (length data) + Z.of_nat part_size - 1) with (Z.of_nat (length data + part_size - 1)) by lia.
      rewrite <- Nat2Z.inj_div, <- Hcs. lia.
  - apply imap_ext. intros i c Hi. f_equal. apply lookup_lt_Some in Hi. unfold as_u32. apply Z.mod_small. lia.
  - apply concat_chunks. lia.
  - apply chunks_from_short.
Qed.

End Transfer.

(** The receiver's side of a whole transfer. *)
Lemma transfer_complete `{Crypto} `{HashIter} (r : ResourceTracker.t) (data : list byte)
  (part_size : nat) (rid : option (arr 16)) (resp req : bool) (advert : ResourceAdvertisement.t)
  (parts : list ResourcePart.t) (link : arr 16) (now : Z) (arrivals : list (Z * ResourcePart.t))
  (Hr : tracker_ok r)
  (Hsplit : ResourceSender.split data part_size rid resp req = Ok (advert, parts))
  (Hdata : 1 <= Z.of_nat (length data) <= u32_max) (Hsize : Z.of_nat part_size <= u32_max)
  (Hnew : CacheSet.contains (ResourceSender.resource_id_of data) (ResourceTracker.completed r) = false)
  (Harr : Forall (fun x => ResourcePart.resource_id x.2 = ResourceSender.resource_id_of data ->
                           x.2 ∈ parts) arrivals) :
  let id := ResourceSender.resource_id_of data in
  exists r1, ResourceTracker.handle_advertisement advert link now r = (r1, Ok Accepted) /\
  let '(r2, events) := handle_parts arrivals r1 in
  (Forall (fun p => p ∈ arrivals.*2) parts ->
     completions id events = [mkCompletion id data rid resp] /\ ResourceTracker.incoming r2 !! id = None) /\
  (~ Forall (fun p => p ∈ arrivals.*2) parts ->
     completions id events = [] /\ is_Some (ResourceTracker.incoming r2 !! id)).
Proof.
  assert (Hne : data <> []) by (destruct data; [cbn in Hdata; lia|done]).
  destruct (split_spec _ _ _ _ _ _ _ Hsplit Hne (proj2 Hdata) Hsize) as (-> & -> & Hcat & Hshort & Hpos & Hmax).
  set (cs := chunks part_size data) in *. set (id := ResourceSender.resource_id_of data) in *.
  set (advert := ResourceAdvertisement.mk _ _ _ _ _ _ _). cbv zeta.
  assert (Hadv : ResourceTracker.handle_advertisement advert link now r =
    (ResourceTracker.mk (<[id := fresh_assembly advert link now]> (ResourceTracker.incoming r))
       (ResourceTracker.timeout r) (ResourceTracker.completed r), Ok Accepted)).
  { unfold ResourceTracker.handle_advertisement. change (ResourceAdvertisement.resource_id advert) with id.
    cbv zeta. rewrite Hnew, (proj2 (Z.eqb_neq _ _)) by (cbn; lia). by destruct r. }
  eexists. split; [exact Hadv|]. set (r1 := ResourceTracker.mk _ _ _).
  assert (Hr1 : tracker_ok r1).
  { replace r1 with (ResourceTracker.handle_advertisement advert link now r).1 by by rewrite Hadv.
    eapply tracker_step_ok, step_advert; [done|]. unfold advert_ok, is_u32. cbn. unfold u32_max in *. lia. }
  assert (Harr' : Forall (fun x => ResourcePart.resource_id x.2 = id -> part_at id cs x.2) arrivals).
  { eapply Forall_impl; [exact Harr|]. intros x Hx Hi. apply Hx, elem_of_lookup_imap in Hi as (i & c & -> & Hc).
    by exists i, c. }
  assert (Hrcv : receiving cs (Z.of_nat (length data)) rid resp ∅ (fresh_assembly advert link now)).
  { constructor; try done; cbn.
    - by rewrite masked_empty, Nat2Z.id.
    - eapply Forall_impl; [exact Hshort|]. cbn. lia. }
  assert (Hempty : ~ all_of cs ⊆ ∅).
  { intros Hsub. apply (not_elem_of_empty (C := gset nat) 0%nat), Hsub, elem_of_set_seq. lia. }
  pose proof (handle_parts_receiving cs _ rid resp id arrivals Harr' ltac:(by rewrite Hcat) r1 _ ∅ Hr1
    (lookup_insert_eq _ _ _) Hrcv Hempty) as Hs.
  cbv zeta in Hs. destruct (handle_parts arrivals r1) as [r2 events]. cbn [fst snd] in Hs.
  rewrite Hcat, (union_empty_r_L (arrived id arrivals)) in Hs.
  pose proof (arrived_all id cs arrivals Harr') as Hiff. destruct (decide _) as [Hd|Hd]; split; intros Hf.
  - by destruct Hs.
  - by destruct Hf; apply Hiff.
  - by destruct Hd; apply Hiff.
  - by destruct Hs.
Qed.

(** A resource arrives whole.  Data cut by [split] and advertised to a
    tracker that has not completed it is handed over exactly once, unchanged,
    with its request identifier, as soon as every part has arrived at least
    once, whatever the order of the parts, their repetitions and the parts of
    other resources between them; until then nothing is handed over and the
    resource is kept. *)
Theorem resource_transfer `{Crypto} `{HashIter} (timeout : Z) (r : ResourceTracker.t) (data : list byte)
  (part_size : nat) (rid : option (arr 16)) (resp req : bool) (advert : ResourceAdvertisement.t)
  (parts : list ResourcePart.t) (link : arr 16) (now : Z) (arrivals : list (Z * ResourcePart.t))
  (Hrun : rtc tracker_step (ResourceTracker.new timeout) r)
  (Hsplit : ResourceSender.split data part_size rid resp req = Ok (advert, parts))
  (Hdata : 1 <= Z.of_nat (length data) <= u32_max) (Hsize : Z.of_nat part_size <= u32_max)
  (Hnew : CacheSet.contains (ResourceSender.resource_id_of data) (ResourceTracker.completed r) = false)
  (Harr : Forall (fun x => ResourcePart.resource_id x.2 = ResourceSender.resource_id_of data ->
                           x.2 ∈ parts) arrivals) :
  let id := ResourceSender.resource_id_of data in
  exists r1, ResourceTracker.handle_advertisement advert link now r = (r1, Ok Accepted) /\
  let '(r2, events) := handle_parts arrivals r1 in
  (Forall (fun p => p ∈ arrivals.*2) parts ->
     completions id events = [mkCompletion id data rid resp] /\ ResourceTracker.incoming r2 !! id = None) /\
  (~ Forall (fun p => p ∈ arrivals.*2) parts ->
     completions id events = [] /\ is_Some (ResourceTracker.incoming r2 !! id)).
Proof. by eapply transfer_complete; [eapply tracker_run_ok|..]. Qed.

(** * Witnesses *)

#[local] Existing Instance toy_crypto.
#[local] Existing Instance key_order.

Definition sample_data : list byte := [x01; x02; x03; x04; x05].
Definition sample_id : arr 16 := ResourceSender.resource_id_of sample_data.
Definition sample_advert : ResourceAdvertisement.t := ResourceAdvertisement.mk sample_id None 5 2 3 false false.
Definition sample_part (i : Z) (chunk : list byte) : ResourcePart.t := ResourcePart.mk sample_id i chunk.
Definition sample_parts : list ResourcePart.t :=
  [sample_part 0 [x01; x02]; sample_part 1 [x03; x04]; sample_part 2 [x05]].

Lemma resource_transfer_witness :
  let arrivals := [(1, sample_part 2 [x05]); (2, sample_part 0 [x01; x02]); (3, sample_part 2 [x05]);
                   (4, sample_part 1 [x03; x04])] in
  exists r1, ResourceTracker.handle_advertisement sample_advert (arr_zero 16) 0 (ResourceTracker.new 10) =
      (r1, Ok Accepted) /\
    completions sample_id (handle_parts arrivals r1).2 = [mkCompletion sample_id sample_data None false].
Proof.
  cbv zeta.
  destruct (resource_transfer 10 (ResourceTracker.new 10) sample_data 2 None false false sample_advert
    sample_parts (arr_zero 16) 0
    [(1, sample_part 2 [x05]); (2, sample_part 0 [x01; x02]); (3, sample_part 2 [x05]);
     (4, sample_part 1 [x03; x04])]) as (r1 & H1 & H2).
  - apply rtc_refl.
  - vm_compute. reflexivity.
  - vm_compute. split; discriminate.
  - vm_compute. discriminate.
  - vm_compute. reflexivity.
  - repeat constructor; intros _; unfold sample_parts, sample_part; cbn; set_solver.
  - exists r1. split; [exact H1|]. destruct (handle_parts _ r1) as [r2 events]. apply H2.
    repeat constructor; cbn; set_solver.
Defined.

Lemma resource_times_out_witness :
  let r := (ResourceTracker.handle_advertisement sample_advert (arr_zero 16) 0 (ResourceTracker.new 10)).1 in
  let '(r', reports) := poll_all [10; 20; 30; 45; 60] r in
  map rt_failed (about sample_id reports) = [false; false; false; true] /\
  ResourceTracker.incoming r' !! sample_id = None.
Proof.
  cbv zeta. set (r := (ResourceTracker.handle_advertisement _ _ _ _).1).
  pose proof (resource_times_out 10 r sample_id (fresh_assembly sample_advert (arr_zero 16) 0)
    [10; 20; 30; 45; 60]
    ltac:(apply rtc_once; by apply step_advert) ltac:(vm_compute; reflexivity)
    ltac:(vm_compute; repeat split; discriminate)) as Hs.
  destruct (poll_all _ r) as [r' reports]. destruct Hs as (H1 & _ & H3). split; [exact H1|].
  apply H3. vm_compute. lia.
Defined.
