(* ===== verification/ReqTracker.v ===== *)
(** [reticulum-patched/src/request.rs]: the receipts of requests.

    A receipt is shared: [register_request] returns a handle to it, and the
    tracker keeps the handle as long as the request is pending.  [receipts] is
    the store of all receipts made, a handle the index into it, so that what the
    tracker does to a receipt is seen through every handle.  A receipt's
    callbacks are outside the model; [calls] logs when they are called. *)

From Stdlib Require Import ZArith Lia Permutation.
From Stdlib Require Import Strings.Byte.
From stdpp Require Import base gmap numbers relations list.
From coqutil Require Import Datatypes.RecordSetters.
From S2P Require Import Prelude Float.
Import DoubleBraceUpdate.

Local Open Scope Z_scope.

Inductive RequestStatus : Type := ReqFailed | ReqSent | ReqDelivered | ReqReceiving | ReqReady.
#[export] Instance RequestStatus_eq_dec : EqDecision RequestStatus.
Proof. solve_decision. Defined.

(** Which callbacks are set. *)
Record RequestCallbacks : Type := mkCallbacks {
  cb_response : bool;
  cb_failed : bool;
  cb_progress : bool
}.
Definition no_callbacks : RequestCallbacks := mkCallbacks false false false.

Record RequestReceipt : Type := mkRequestReceipt {
  rq_request_id : arr 16;
  rq_status : RequestStatus;
  rq_response : option (list byte);
  rq_progress : f32;
  rq_sent_at : Z;
  rq_concluded_at : option Z;
  rq_timeout : Z;
  rq_callbacks : RequestCallbacks
}.

Inductive RequestCall : Type :=
| CallResponse (handle : nat)
| CallRequestFailed (handle : nat)
| CallProgress (handle : nat).

#[export] Instance RequestCall_eq_dec : EqDecision RequestCall.
Proof. solve_decision. Defined.

Module RequestTracker.

Record t : Type := mk {
  receipts : list RequestReceipt;
  pending : gmap (arr 16) nat;
  calls : list RequestCall
}.

Definition new : t := mk [] ∅ [].

(** [receipt.lock().unwrap()] written through a handle. *)
Definition write (handle : nat) (f : RequestReceipt -> RequestReceipt) (r : t) : t :=
  r {{ receipts := alter f handle (receipts r) }}.

Definition call (c : RequestCall) (set_ : RequestCallbacks -> bool) (handle : nat) (r : t) : t :=
  match receipts r !! handle with
  | Some receipt => if set_ (rq_callbacks receipt) then r {{ calls := calls r ++ [c] }} else r
  | None => r
  end.

Definition register_request (request_id : arr 16) (timeout : Z) (callbacks : RequestCallbacks) (now : Z)
    (r : t) : t * nat :=
  let receipt := mkRequestReceipt request_id ReqSent None (f32_of_Z 0) now None timeout callbacks in
  let handle := length (receipts r) in
  (r {{ receipts := receipts r ++ [receipt]; pending := <[request_id := handle]> (pending r) }}, handle).

Definition set_delivered (receipt : RequestReceipt) : RequestReceipt :=
  if bool_decide (rq_status receipt = ReqSent) then receipt {{ rq_status := ReqDelivered }} else receipt.

Definition mark_delivered (request_id : arr 16) (r : t) : t :=
  match pending r !! request_id with
  | Some handle => write handle set_delivered r
  | None => r
  end.

Definition set_receiving (progress : f32) (receipt : RequestReceipt) : RequestReceipt :=
  if bool_decide (rq_status receipt = ReqFailed) then receipt
  else receipt {{ rq_status := ReqReceiving; rq_progress := progress }}.

Definition fire_progress (request_id : arr 16) (r : t) : t :=
  match pending r !! request_id with
  | Some handle => call (CallProgress handle) cb_progress handle r
  | None => r
  end.

Definition mark_receiving (request_id : arr 16) (progress : f32) (r : t) : t :=
  fire_progress request_id
    match pending r !! request_id with
    | Some handle => write handle (set_receiving progress) r
    | None => r
    end.

Definition set_ready (response : list byte) (now : Z) (receipt : RequestReceipt) : RequestReceipt :=
  receipt {{ rq_response := Some response; rq_progress := f32_of_Z 1; rq_status := ReqReady;
             rq_concluded_at := Some now }}.

Definition record_response (request_id : arr 16) (response : list byte) (now : Z) (r : t) : t * bool :=
  match pending r !! request_id with
  | None => (r, false)
  | Some handle =>
      let r := r {{ pending := delete request_id (pending r) }} in
      if bool_decide (rq_status <$> receipts r !! handle = Some ReqFailed) then (r, false)
      else (call (CallResponse handle) cb_response handle (write handle (set_ready response now) r), true)
  end.

Definition set_failed (now : Z) (receipt : RequestReceipt) : RequestReceipt :=
  receipt {{ rq_status := ReqFailed; rq_concluded_at := Some now }}.

Definition mark_failed (request_id : arr 16) (now : Z) (r : t) : t :=
  match pending r !! request_id with
  | None => r
  | Some handle =>
      let r := r {{ pending := delete request_id (pending r) }} in
      call (CallRequestFailed handle) cb_failed handle (write handle (set_failed now) r)
  end.

Section Order.
Context `{HI : HashIter}.

Definition timed_out (now : Z) (receipt : RequestReceipt) : bool :=
  bool_decide (rq_status receipt ∈ [ReqSent; ReqDelivered; ReqReceiving])
  && (rq_timeout receipt <=? sat_sub now (rq_sent_at receipt)).

Definition poll_timeouts (now : Z) (r : t) : t :=
  let timed_out := (filter (fun kv => from_option (timed_out now) false (receipts r !! kv.2) = true)
                      (hash_iter (pending r))).*1 in
  foldl (fun r id => mark_failed id now r) r timed_out.

End Order.
End RequestTracker.

(** * A request concludes once *)

Definition concluded (receipt : RequestReceipt) : bool :=
  bool_decide (rq_status receipt ∈ [ReqReady; ReqFailed]).

(** The calls that tell about a conclusion, for one handle. *)
Definition conclusions (handle : nat) (calls : list RequestCall) : list RequestCall :=
  filter (fun c => c = CallResponse handle \/ c = CallRequestFailed handle) calls.
Arguments conclusions : simpl never.

(** The calls a receipt owes for its status. *)
Definition owed (handle : nat) (receipt : RequestReceipt) : list RequestCall :=
  match rq_status receipt with
  | ReqReady => if cb_response (rq_callbacks receipt) then [CallResponse handle] else []
  | ReqFailed => if cb_failed (rq_callbacks receipt) then [CallRequestFailed handle] else []
  | _ => []
  end.

Inductive request_step `{HashIter} (r : RequestTracker.t) : RequestTracker.t -> Prop :=
| step_register id timeout callbacks now :
    request_step r (RequestTracker.register_request id timeout callbacks now r).1
| step_delivered id : request_step r (RequestTracker.mark_delivered id r)
| step_receiving id progress : request_step r (RequestTracker.mark_receiving id progress r)
| step_response id response now : request_step r (RequestTracker.record_response id response now r).1
| step_failed id now : request_step r (RequestTracker.mark_failed id now r)
| step_poll now : request_step r (RequestTracker.poll_timeouts now r).

(** A receipt has a response when it is ready, and a time of conclusion when it
    is concluded. *)
Definition receipt_ok (receipt : RequestReceipt) : Prop :=
  (is_Some (rq_response receipt) <-> rq_status receipt = ReqReady) /\
  (is_Some (rq_concluded_at receipt) <-> concluded receipt = true).

Record requests_ok (r : RequestTracker.t) : Prop := {
  rq_pending : forall id h, RequestTracker.pending r !! id = Some h ->
    exists rc, RequestTracker.receipts r !! h = Some rc /\ rq_request_id rc = id /\ concluded rc = false;
  rq_receipts : forall h rc, RequestTracker.receipts r !! h = Some rc ->
    receipt_ok rc /\ conclusions h (RequestTracker.calls r) = owed h rc;
  rq_fresh : forall h, RequestTracker.receipts r !! h = None -> conclusions h (RequestTracker.calls r) = [];
  rq_orphans : forall h rc, RequestTracker.receipts r !! h = Some rc -> concluded rc = false ->
    RequestTracker.pending r !! rq_request_id rc <> Some h ->
    exists h' rc', (h < h')%nat /\ RequestTracker.receipts r !! h' = Some rc' /\
      rq_request_id rc' = rq_request_id rc
}.

(** Nothing will change this receipt any more: it is concluded, or its
    identifier was registered again. *)
Definition settled (r : RequestTracker.t) (h : nat) (rc : RequestReceipt) : Prop :=
  concluded rc = true \/ RequestTracker.pending r !! rq_request_id rc <> Some h.

(** Receipts stay, with their identifier; settled ones do not change. *)
Definition evolves (r r' : RequestTracker.t) : Prop :=
  forall h rc, RequestTracker.receipts r !! h = Some rc ->
  exists rc', RequestTracker.receipts r' !! h = Some rc' /\ rq_request_id rc' = rq_request_id rc /\
    (settled r h rc -> rc' = rc /\ settled r' h rc).

Lemma conclusions_app h l1 l2 : conclusions h (l1 ++ l2) = conclusions h l1 ++ conclusions h l2.
Proof. apply filter_app. Qed.

Lemma requests_new_ok : requests_ok RequestTracker.new.
Proof. constructor; cbn; intros *; done. Qed.

(** Writing through a pending handle, closing the request or not, with the calls
    [cs] made about it. *)
Lemma write_ok r id h0 rc0 f pending' cs : requests_ok r ->
  RequestTracker.pending r !! id = Some h0 -> RequestTracker.receipts r !! h0 = Some rc0 ->
  rq_request_id (f rc0) = rq_request_id rc0 -> receipt_ok (f rc0) ->
  (pending' = RequestTracker.pending r /\ concluded (f rc0) = false \/
   pending' = delete id (RequestTracker.pending r) /\ concluded (f rc0) = true) ->
  conclusions h0 cs = owed h0 (f rc0) -> (forall h, h <> h0 -> conclusions h cs = []) ->
  let r' := RequestTracker.mk (alter f h0 (RequestTracker.receipts r)) pending' (RequestTracker.calls r ++ cs) in
  requests_ok r' /\ evolves r r'.
Proof.
  intros Hr Hp H0 Hid Hok Hpend Hcs Hother. destruct (rq_pending _ Hr _ _ Hp) as (rc & Hrc & Hrid & Hopen).
  rewrite H0 in Hrc. injection Hrc as <-.
  assert (Hlook : forall h, alter f h0 (RequestTracker.receipts r) !! h =
    if decide (h = h0) then Some (f rc0) else RequestTracker.receipts r !! h).
  { intros h. destruct (decide (h = h0)) as [->|Hh]; [by rewrite list_lookup_alter_eq, H0|].
    by rewrite list_lookup_alter_ne by congruence. }
  assert (Howed : owed h0 rc0 = []).
  { unfold owed, concluded in *. destruct (rq_status rc0); done. }
  assert (Hsub : forall k h, pending' !! k = Some h -> RequestTracker.pending r !! k = Some h).
  { destruct Hpend as [[-> _]|[-> _]]; [done|]. intros k h [_ Hk]%lookup_delete_Some. done. }
  assert (Hkeep : forall k h, h <> h0 -> RequestTracker.pending r !! k = Some h -> pending' !! k = Some h).
  { destruct Hpend as [[-> _]|[-> _]]; [done|]. intros k h Hne Hk. rewrite lookup_delete_ne; congruence. }
  cbv zeta. split; [constructor; cbn|].
  - intros k h Hk. rewrite Hlook. pose proof (Hsub _ _ Hk) as Hk'. case_decide as Hh.
    + subst h. destruct (rq_pending _ Hr _ _ Hk') as (rc & Hrc & Hkid & _). rewrite H0 in Hrc. injection Hrc as <-.
      exists (f rc0). rewrite Hid. split; [done|]. split; [done|].
      destruct Hpend as [[_ Hc]|[-> _]]; [done|]. rewrite lookup_delete_Some in Hk. destruct Hk. congruence.
    + by apply (rq_pending _ Hr).
  - intros h rc. rewrite Hlook, conclusions_app. case_decide as Hh.
    + intros [= <-]. subst h. destruct (rq_receipts _ Hr _ _ H0) as [_ ->]. by rewrite Howed.
    + intros Hrc. rewrite Hother, app_nil_r by done. by apply (rq_receipts _ Hr).
  - intros h. rewrite Hlook, conclusions_app. case_decide as Hh; [done|].
    intros Hrc. rewrite Hother, app_nil_r by done. by apply (rq_fresh _ Hr).
  - intros h rc. rewrite Hlook. intros Hrc Hc Hnp.
    assert (Hold : exists rc1, RequestTracker.receipts r !! h = Some rc1 /\ concluded rc1 = false /\
      rq_request_id rc1 = rq_request_id rc /\ RequestTracker.pending r !! rq_request_id rc <> Some h).
    { case_decide as Hh; [|exists rc; repeat split; try done; intros Hx; by apply Hnp, Hkeep].
      injection Hrc as <-. subst h. exists rc0. rewrite Hid. repeat split; try done.
      rewrite Hid in Hnp. destruct Hpend as [[-> _]|[_ ?]]; congruence. }
    destruct Hold as (rc1 & Hrc1 & Hc1 & Hid1 & Hnp1). rewrite <- Hid1 in Hnp1.
    destruct (rq_orphans _ Hr _ _ Hrc1 Hc1 Hnp1) as (h' & rc' & Hlt & Hrc' & Hid').
    exists h'. rewrite Hlook. destruct (decide (h' = h0)) as [->|_]; cycle 1.
    { exists rc'. split; [done|]. split; congruence. }
    rewrite H0 in Hrc'. injection Hrc' as <-. exists (f rc0). split; [done|]. split; congruence.
  - intros h rc Hrc. cbn. rewrite Hlook. case_decide as Hh.
    + subst h. rewrite H0 in Hrc. injection Hrc as <-. exists (f rc0). split; [done|]. split; [done|].
      intros [Hx|Hx]; congruence.
    + exists rc. split; [done|]. split; [done|]. intros [Hx|Hx]; (split; [done|]); [by left|].
      right. cbn. intros Hy. by apply Hx, Hsub.
Qed.

Lemma write_call r h0 rc0 f pending' c set_ : RequestTracker.receipts r !! h0 = Some rc0 ->
  RequestTracker.call c set_ h0 (RequestTracker.write h0 f (r {{ RequestTracker.pending := pending' }})) =
  RequestTracker.mk (alter f h0 (RequestTracker.receipts r)) pending'
    (RequestTracker.calls r ++ if set_ (rq_callbacks (f rc0)) then [c] else []).
Proof.
  intros H0. destruct r as [rs p cs]. unfold RequestTracker.call, RequestTracker.write. cbn in *.
  unfold constant. rewrite list_lookup_alter_eq, H0. cbn. destruct (set_ _); cbn; [done|]. by rewrite app_nil_r.
Qed.

Lemma evolves_refl r : evolves r r.
Proof. intros h rc Hrc. by exists rc. Qed.

Lemma evolves_trans r1 r2 r3 : evolves r1 r2 -> evolves r2 r3 -> evolves r1 r3.
Proof.
  intros H12 H23 h rc Hrc. destruct (H12 _ _ Hrc) as (rc2 & Hrc2 & Hid2 & Hs2).
  destruct (H23 _ _ Hrc2) as (rc3 & Hrc3 & Hid3 & Hs3). exists rc3. split; [done|]. split; [congruence|].
  intros Hs. destruct (Hs2 Hs) as [-> Hs']. by apply Hs3.
Qed.

(** An open receipt, and the three ways it is written. *)
Lemma open_receipt_ok rc f : receipt_ok rc -> concluded rc = false ->
  rq_response (f rc) = rq_response rc -> rq_concluded_at (f rc) = rq_concluded_at rc ->
  concluded (f rc) = false -> receipt_ok (f rc).
Proof.
  intros [H1 H2] Hc E1 E2 Hc'. unfold receipt_ok. rewrite E1, E2, Hc'. rewrite Hc in H2. split; [|done].
  rewrite H1. unfold concluded in *. destruct (rq_status rc), (rq_status (f rc)); done.
Qed.

Lemma open_owed h rc : concluded rc = false -> owed h rc = [].
Proof. unfold concluded, owed. by destruct (rq_status rc). Qed.

Lemma request_delivered_ok r id : requests_ok r ->
  requests_ok (RequestTracker.mark_delivered id r) /\ evolves r (RequestTracker.mark_delivered id r).
Proof.
  intros Hr. unfold RequestTracker.mark_delivered.
  destruct (RequestTracker.pending r !! id) as [h0|] eqn:Hp; [|split; [done|apply evolves_refl]].
  destruct (rq_pending _ Hr _ _ Hp) as (rc & Hrc & _ & Hopen). destruct (rq_receipts _ Hr _ _ Hrc) as [Hok _].
  assert (Hf : concluded (RequestTracker.set_delivered rc) = false /\
    rq_request_id (RequestTracker.set_delivered rc) = rq_request_id rc /\
    receipt_ok (RequestTracker.set_delivered rc)).
  { assert (Hc : concluded (RequestTracker.set_delivered rc) = false).
    { by destruct rc as [? [] ? ? ? ? ? ?]. }
    split; [done|]. split; [|apply open_receipt_ok; try done];
      by destruct rc as [? [] ? ? ? ? ? ?]. }
  destruct Hf as (Hc & Hid & Hok').
  pose proof (write_ok r id h0 rc RequestTracker.set_delivered (RequestTracker.pending r) [] Hr Hp Hrc Hid Hok'
    (or_introl (conj eq_refl Hc)) ltac:(by rewrite open_owed) ltac:(done)) as Hw.
  cbv zeta in Hw. rewrite app_nil_r in Hw. by destruct r.
Qed.

Lemma request_receiving_ok r id progress : requests_ok r ->
  requests_ok (RequestTracker.mark_receiving id progress r) /\ evolves r (RequestTracker.mark_receiving id progress r).
Proof.
  intros Hr. unfold RequestTracker.mark_receiving, RequestTracker.fire_progress.
  destruct (RequestTracker.pending r !! id) as [h0|] eqn:Hp; [|rewrite Hp; split; [done|apply evolves_refl]].
  destruct (rq_pending _ Hr _ _ Hp) as (rc & Hrc & _ & Hopen). destruct (rq_receipts _ Hr _ _ Hrc) as [Hok _].
  set (f := RequestTracker.set_receiving progress).
  assert (Hf : concluded (f rc) = false /\ rq_request_id (f rc) = rq_request_id rc /\ receipt_ok (f rc)).
  { assert (Hc : concluded (f rc) = false).
    { by destruct rc as [? [] ? ? ? ? ? ?]. }
    split; [done|]. split; [|apply open_receipt_ok; try done];
      by destruct rc as [? [] ? ? ? ? ? ?]. }
  destruct Hf as (Hc & Hid & Hok').
  assert (Hp' : RequestTracker.pending (RequestTracker.write h0 f r) !! id = Some h0) by by destruct r.
  rewrite Hp'. pose proof (write_call r h0 rc f (RequestTracker.pending r) (CallProgress h0) cb_progress Hrc) as Hw.
  replace (r {{ RequestTracker.pending := RequestTracker.pending r }}) with r in Hw by by destruct r.
  rewrite Hw. apply (write_ok r id h0 rc); try done; [by left|rewrite open_owed by done; by destruct (cb_progress _)|].
  intros h _. by destruct (cb_progress _).
Qed.

(** A conclusion: the request is closed, and its callback called. *)
Lemma conclude_ok (r : RequestTracker.t) (id : arr 16) h0 rc f c (set_ : RequestCallbacks -> bool) : requests_ok r -> RequestTracker.pending r !! id = Some h0 ->
  RequestTracker.receipts r !! h0 = Some rc ->
  rq_request_id (f rc) = rq_request_id rc -> concluded (f rc) = true -> receipt_ok (f rc) ->
  (if set_ (rq_callbacks (f rc)) then [c] else []) = owed h0 (f rc) ->
  (forall h, h <> h0 -> conclusions h [c] = []) -> conclusions h0 [c] = [c] ->
  let r' := RequestTracker.call c set_ h0 (RequestTracker.write h0 f
              (r {{ RequestTracker.pending := delete id (RequestTracker.pending r) }})) in
  requests_ok r' /\ evolves r r'.
Proof.
  intros Hr Hp Hrc Hid Hc Hok Howed Hother Hown. cbv zeta. rewrite (write_call r h0 rc) by done.
  apply (write_ok r id h0 rc); try done; [by right| |]; rewrite <- ?Howed; by destruct (set_ _); auto.
Qed.

Lemma request_failed_ok r id now : requests_ok r ->
  requests_ok (RequestTracker.mark_failed id now r) /\ evolves r (RequestTracker.mark_failed id now r).
Proof.
  intros Hr. unfold RequestTracker.mark_failed.
  destruct (RequestTracker.pending r !! id) as [h0|] eqn:Hp; [|split; [done|apply evolves_refl]].
  destruct (rq_pending _ Hr _ _ Hp) as (rc & Hrc & _ & Hopen).
  destruct (rq_receipts _ Hr _ _ Hrc) as [[Hresp _] _].
  apply (conclude_ok r id h0 rc); try done; try (by destruct rc).
  - destruct rc as [? st ? ? ? ? ? ?]. cbn in *. split; cbn; unfold constant.
    + rewrite Hresp. destruct st; done || by split.
    + split; by eauto.
  - intros h Hh. unfold conclusions. rewrite filter_cons_False; [done|]. intros [?|?]; congruence.
  - unfold conclusions. rewrite filter_cons_True; [done|]. by right.
Qed.

Lemma request_response_ok r id response now : requests_ok r ->
  requests_ok (RequestTracker.record_response id response now r).1 /\
  evolves r (RequestTracker.record_response id response now r).1.
Proof.
  intros Hr. unfold RequestTracker.record_response.
  destruct (RequestTracker.pending r !! id) as [h0|] eqn:Hp; [|split; [done|apply evolves_refl]].
  destruct (rq_pending _ Hr _ _ Hp) as (rc & Hrc & _ & Hopen).
  rewrite bool_decide_false; cycle 1.
  { destruct r; cbn in *. rewrite Hrc. unfold concluded in Hopen. cbn. by destruct (rq_status rc). }
  cbn [fst]. apply (conclude_ok r id h0 rc); try done; try (by destruct rc).
  - intros h Hh. unfold conclusions. rewrite filter_cons_False; [done|]. intros [?|?]; congruence.
  - unfold conclusions. rewrite filter_cons_True; [done|]. by left.
Qed.

Lemma request_register_ok r id timeout callbacks now : requests_ok r ->
  requests_ok (RequestTracker.register_request id timeout callbacks now r).1 /\
  evolves r (RequestTracker.register_request id timeout callbacks now r).1.
Proof.
  intros Hr. destruct r as [rs p cs]. unfold RequestTracker.register_request. cbn. unfold constant.
  set (rc0 := mkRequestReceipt _ _ _ _ _ _ _ _). destruct Hr as [P1 P2 P3 P4]. cbn in *.
  assert (Hold : forall h rc, rs !! h = Some rc -> (rs ++ [rc0]) !! h = Some rc /\ h <> length rs).
  { intros h rc Hh. split; [by apply lookup_app_l_Some|]. apply lookup_lt_Some in Hh. lia. }
  assert (Hnew : (rs ++ [rc0]) !! length rs = Some rc0) by (by apply list_lookup_middle).
  assert (Hcase : forall h rc, (rs ++ [rc0]) !! h = Some rc -> rs !! h = Some rc \/ h = length rs /\ rc = rc0).
  { intros h rc [Hh|[Hge Hh]]%lookup_app_Some; [by left|]. right.
    apply list_lookup_singleton_Some in Hh as [? <-]. split; [lia|done]. }
  split; [constructor; cbn|].
  - intros k h [[<- <-]|[Hk Hh]]%lookup_insert_Some; [by exists rc0|].
    destruct (P1 _ _ Hh) as (rc & Hrc & Hid). exists rc. split; [by apply Hold|done].
  - intros h rc [Hh|[-> ->]]%Hcase; [by apply P2|]. split.
    + split; split; cbn; intros Hx; try done; by destruct Hx.
    + rewrite P3; [done|]. apply lookup_ge_None. lia.
  - intros h Hh. apply P3. destruct (rs !! h) eqn:He; [|done]. apply Hold in He as [He _]. congruence.
  - intros h rc [Hh|[-> ->]]%Hcase Hc Hp; cycle 1.
    { cbn in Hp. by rewrite lookup_insert_eq in Hp. }
    destruct (decide (rq_request_id rc = id)) as [He|Hne].
    + exists (length rs), rc0. split; [by apply lookup_lt_Some in Hh|]. by split.
    + rewrite lookup_insert_ne in Hp by done. destruct (P4 _ _ Hh Hc Hp) as (h' & rc' & H1 & H2 & H3).
      exists h', rc'. split; [done|]. split; [by apply Hold|done].
  - intros h rc Hh. cbn in Hh. destruct (Hold _ _ Hh) as [Hh' Hne]. exists rc. split; [done|]. split; [done|].
    intros Hs. split; [done|]. destruct Hs as [Hs|Hs]; [by left|]. right. cbn in *.
    rewrite lookup_insert. case_decide; [congruence|done].
Qed.

Lemma fail_all_ok ids now r : requests_ok r ->
  let r' := foldl (fun r id => RequestTracker.mark_failed id now r) r ids in
  requests_ok r' /\ evolves r r' /\
  (forall k, RequestTracker.pending r' !! k =
     if decide (k ∈ ids) then None else RequestTracker.pending r !! k).
Proof.
  revert r. induction ids as [|id ids IH]; intros r Hr; cbn [foldl].
  { split; [done|]. split; [apply evolves_refl|]. intros k. by rewrite decide_False by apply not_elem_of_nil. }
  destruct (request_failed_ok r id now Hr) as [Hr1 He1]. destruct (IH _ Hr1) as (H1 & H2 & H3). cbv zeta.
  split; [done|]. split; [by eapply evolves_trans|]. intros k. rewrite H3.
  assert (Hp : RequestTracker.pending (RequestTracker.mark_failed id now r) !! k =
    if decide (k = id) then None else RequestTracker.pending r !! k).
  { unfold RequestTracker.mark_failed, RequestTracker.call, RequestTracker.write. destruct r as [rs p cs]. cbn.
    destruct (p !! id) as [h|] eqn:Hh; cbn; [|case_decide; congruence].
    assert (Hd : delete id p !! k = if decide (k = id) then None else p !! k).
    { rewrite lookup_delete. case_decide as Hk; case_decide; congruence. }
    match goal with |- context [?l !! h] => destruct (l !! h) as [rc|] end; [destruct (cb_failed _)|]; exact Hd. }
  rewrite Hp. destruct (decide (k ∈ ids)) as [Hin|Hout].
  - rewrite decide_True by (apply elem_of_cons; by right). done.
  - destruct (decide (k = id)) as [->|Hk].
    + by rewrite decide_True by (apply elem_of_cons; by left).
    + rewrite decide_False; [done|]. by intros [|]%elem_of_cons.
Qed.

Section Runs.
Context `{HI : HashIter}.

Lemma request_step_ok r r' : requests_ok r -> request_step r r' -> requests_ok r' /\ evolves r r'.
Proof.
  intros Hr Hs. destruct Hs.
  - by apply request_register_ok.
  - by apply request_delivered_ok.
  - by apply request_receiving_ok.
  - by apply request_response_ok.
  - by apply request_failed_ok.
  - unfold RequestTracker.poll_timeouts.
    match goal with |- context [foldl _ r ?ids] => destruct (fail_all_ok ids now r Hr) as (H1 & H2 & _) end.
    by split.
Qed.

Lemma request_run_ok r r' : requests_ok r -> rtc request_step r r' -> requests_ok r' /\ evolves r r'.
Proof.
  intros Hr Hrun. revert Hr. induction Hrun as [r|r r1 r2 Hs _ IH]; intros Hr; [split; [done|apply evolves_refl]|].
  destruct (request_step_ok _ _ Hr Hs) as [Hr1 He1]. destruct (IH Hr1) as [Hr2 He2].
  split; [done|]. by eapply evolves_trans.
Qed.

Lemma poll_pending now r id h rc : requests_ok r -> RequestTracker.receipts r !! h = Some rc ->
  RequestTracker.pending (RequestTracker.poll_timeouts now r) !! id = Some h <->
  RequestTracker.pending r !! id = Some h /\ RequestTracker.timed_out now rc = false.
Proof.
  intros Hr Hrc. unfold RequestTracker.poll_timeouts.
  match goal with |- context [foldl _ r ?ids] => destruct (fail_all_ok ids now r Hr) as (_ & _ & ->) end.
  assert (Hin : RequestTracker.pending r !! id = Some h -> (id ∈ (filter (fun kv => from_option
      (RequestTracker.timed_out now) false (RequestTracker.receipts r !! kv.2) = true)
      (hash_iter (RequestTracker.pending r))).*1 <-> RequestTracker.timed_out now rc = true)).
  { intros Hp. rewrite list_elem_of_fmap. split.
    - intros ([k h'] & -> & Hx). apply list_elem_of_filter in Hx as [Hx Hy]. cbn in *.
      apply elem_of_hash_iter in Hy. rewrite Hp in Hy. injection Hy as <-. by rewrite Hrc in Hx.
    - intros Hx. exists (id, h). split; [done|]. apply list_elem_of_filter. cbn. rewrite Hrc.
      split; [done|]. by apply elem_of_hash_iter. }
  case_decide as Hd; split.
  - done.
  - intros [Hp Ht]. apply (Hin Hp) in Hd. congruence.
  - intros Hp. split; [done|]. destruct (RequestTracker.timed_out now rc) eqn:Ht; [|done].
    destruct Hd. by apply (Hin Hp).
  - by intros [Hp _].
Qed.

End Runs.

(** C31. A request concludes once.  Through every sequence of operations, each
    receipt is either open or concluded, with a response exactly when it
    is ready; its callback for the outcome has been called exactly once if it is
    concluded and it asked for the call, and never before.  An open receipt is
    pending, and then the next poll fails it exactly if its time is up, unless the
    same identifier was registered again: such a receipt, like a concluded one,
    never changes any more, so its holder waits forever. *)
Theorem receipts_conclude_once `{HashIter} (r r' : RequestTracker.t) (h : nat) (rc : RequestReceipt)
  (Hrun : rtc request_step RequestTracker.new r) (Hlater : rtc request_step r r')
  (Hrc : RequestTracker.receipts r !! h = Some rc) :
  receipt_ok rc /\ conclusions h (RequestTracker.calls r) = owed h rc /\
  (concluded rc = false -> RequestTracker.pending r !! rq_request_id rc = Some h \/
     exists h' rc', (h < h')%nat /\ RequestTracker.receipts r !! h' = Some rc' /\
       rq_request_id rc' = rq_request_id rc) /\
  (settled r h rc -> RequestTracker.receipts r' !! h = Some rc /\
     conclusions h (RequestTracker.calls r') = owed h rc) /\
  (forall now, RequestTracker.pending (RequestTracker.poll_timeouts now r) !! rq_request_id rc = Some h <->
     RequestTracker.pending r !! rq_request_id rc = Some h /\ RequestTracker.timed_out now rc = false).
Proof.
  destruct (request_run_ok _ _ requests_new_ok Hrun) as [Hr _].
  destruct (request_run_ok _ _ Hr Hlater) as [Hr' Hev]. destruct (rq_receipts _ Hr _ _ Hrc) as [Hok Hcalls].
  split; [done|]. split; [done|]. split; [|split].
  - intros Hc. destruct (decide (RequestTracker.pending r !! rq_request_id rc = Some h)) as [|Hnp]; [by left|].
    right. by apply (rq_orphans _ Hr _ _ Hrc).
  - intros Hs. destruct (Hev _ _ Hrc) as (rc' & Hrc' & _ & Hsame). destruct (Hsame Hs) as [-> _].
    split; [done|]. by apply (rq_receipts _ Hr' _ _ Hrc').
  - intros now. by apply poll_pending.
Qed.

#[local] Existing Instance key_order.

Lemma receipts_conclude_once_witness :
  let r := (RequestTracker.register_request (arr_zero 16) 10 (mkCallbacks true true true) 0 RequestTracker.new).1 in
  exists rc, RequestTracker.receipts r !! 0%nat = Some rc /\ concluded rc = false /\
    RequestTracker.pending (RequestTracker.poll_timeouts 5 r) !! arr_zero 16 = Some 0%nat /\
    RequestTracker.pending (RequestTracker.poll_timeouts 10 r) !! arr_zero 16 <> Some 0%nat.
Proof.
  cbv zeta. set (r := (RequestTracker.register_request _ _ _ _ _).1).
  eexists. split; [reflexivity|]. split; [reflexivity|].
  destruct (receipts_conclude_once r r 0 (mkRequestReceipt (arr_zero 16) ReqSent None (f32_of_Z 0) 0 None 10
    (mkCallbacks true true true)) ltac:(apply rtc_once, step_register) ltac:(apply rtc_refl) eq_refl)
    as (_ & _ & _ & _ & Hpoll).
  split; [apply (Hpoll 5); vm_compute; done|]. intros Hx. apply (Hpoll 10) in Hx as [_ Hx].
  vm_compute in Hx. discriminate Hx.
Defined.
