(* ===== verification/Iface.v ===== *)
(** [reticulum-patched/src/iface/tcp_client.rs] and [udp.rs]: what the interface
    tasks do between the socket and the packet channel: a task is the function
    from the bytes a read returns to the packets it sends to the channel, with
    the buffers it keeps between reads as state.  Connections, channels and
    cancellation around it are in [Interfaces].

    [BUFFER_SIZE] is twice (for UDP three times) the size of a [Packet] in
    memory, which the compiler decides: it is a parameter. *)

From Stdlib Require Import ZArith Lia.
From Stdlib Require Import Strings.Byte.
From stdpp Require Import base numbers list.
From S2P Require Import Prelude Crypto Buffer Hdlc Packet.
Import Hdlc.

(** * TCP *)

Module TcpClient.
Section Tasks.
Context (BUFFER_SIZE : nat).

(** The transmit task for one packet: the bytes written to the stream. *)
Definition tx (packet : Packet) : option (list byte) :=
  match serialize packet (OutputBuffer.new (replicate BUFFER_SIZE x00)) with
  | (output, Ok _) =>
      match encode (OutputBuffer.as_slice output) (OutputBuffer.new (replicate BUFFER_SIZE x00)) with
      | (hdlc_output, Ok _) => Some (OutputBuffer.as_slice hdlc_output)
      | (_, Err _) => None
      end
  | (_, Err _) => None
  end.

(** The receive task's [rx_buffer]. *)
Definition rx_new : list byte := replicate (BUFFER_SIZE + BUFFER_SIZE / 2) x00.

(** Decode a frame and deserialize its packet; a failure is only logged, a panic
    ends the task. *)
Definition rx_frame (frame_buffer : list byte) : result (fault RetError) (list Packet) :=
  match decode frame_buffer (OutputBuffer.new (replicate BUFFER_SIZE x00)) with
  | (output, Ok _) =>
      match deserialize (InputBuffer.new (OutputBuffer.as_slice output)) with
      | (_, Ok packet) => Ok [packet]
      | (_, Err Panics) => Err Panics
      | (_, Err _) => Ok []
      end
  | (_, Err _) => Ok []
  end.

(** [rx_buffer[BUFFER_SIZE-1] = byte; ...] for one byte of the stream:
    [copy_within(1.., 0)] leaves the last byte in place. *)
Definition rx_byte (byte_ : byte) (rx_buffer : list byte) :
    result (fault RetError) (list byte * list Packet) :=
  let rx_buffer := <[BUFFER_SIZE - 1 := byte_]> rx_buffer in
  match find rx_buffer with
  | Some (first, last_) =>
      let frame_buffer := take (last_ + 1 - first) (drop first rx_buffer) in
      packets ← rx_frame frame_buffer;
      Ok (splice rx_buffer first (replicate (length frame_buffer) x00), packets)
  | None => Ok (drop 1 rx_buffer ++ drop (length rx_buffer - 1) rx_buffer, [])
  end.

(** The loop over what one read returned. *)
Fixpoint rx_bytes (bytes : list byte) (rx_buffer : list byte) :
    result (fault RetError) (list byte * list Packet) :=
  match bytes with
  | [] => Ok (rx_buffer, [])
  | b :: bytes =>
      step ← rx_byte b rx_buffer;
      more ← rx_bytes bytes step.1;
      Ok (more.1, step.2 ++ more.2)
  end.

(** The task over the reads of a connection; a read of no bytes is the end of
    the connection and stops the task. *)
Fixpoint rx_reads (reads : list (list byte)) (rx_buffer : list byte) :
    result (fault RetError) (list byte * list Packet) :=
  match reads with
  | [] | [] :: _ => Ok (rx_buffer, [])
  | bytes :: reads =>
      step ← rx_bytes bytes rx_buffer;
      more ← rx_reads reads step.1;
      Ok (more.1, step.2 ++ more.2)
  end.

End Tasks.
End TcpClient.

(** * UDP: one packet per datagram *)

Module UdpInterface.
Section Tasks.
Context (BUFFER_SIZE : nat).

Definition tx (packet : Packet) : option (list byte) :=
  match serialize packet (OutputBuffer.new (replicate BUFFER_SIZE x00)) with
  | (output, Ok _) => Some (OutputBuffer.as_slice output)
  | (_, Err _) => None
  end.

(** A datagram longer than the buffer is cut by the socket. *)
Definition rx_datagram (datagram : list byte) : result (fault RetError) (list Packet) :=
  match deserialize (InputBuffer.new (take BUFFER_SIZE datagram)) with
  | (_, Ok packet) => Ok [packet]
  | (_, Err Panics) => Err Panics
  | (_, Err _) => Ok []
  end.

(** The task over the datagrams received; an empty one stops it. *)
Fixpoint rx (datagrams : list (list byte)) : result (fault RetError) (list Packet) :=
  match datagrams with
  | [] | [] :: _ => Ok []
  | datagram :: datagrams =>
      packets ← rx_datagram datagram;
      more ← rx datagrams;
      Ok (packets ++ more)
  end.

End Tasks.
End UdpInterface.

(** * Receiving a stream of frames *)

Section Stream.
Context (B : nat).

(** The receive buffer after the bytes [partial] of an unfinished frame: they end
    just before the place of the next byte, and no flag comes before them. *)
Definition rx_at (partial buf : list byte) : Prop :=
  exists pre x, HDLC_FRAME_FLAG ∉ pre /\ length (pre ++ partial) = B - 1 /\
    buf = (pre ++ partial) ++ x :: replicate (B / 2) x00.

Lemma no_flag_zeros n : HDLC_FRAME_FLAG ∉ replicate n x00.
Proof. intros Hin. by apply elem_of_replicate in Hin as [? _]. Qed.

Lemma rx_new_at : 1 <= B -> rx_at [] (TcpClient.rx_new B).
Proof.
  intros HB. exists (replicate (B - 1) x00), x00. split; [apply no_flag_zeros|].
  rewrite app_nil_r, length_replicate. split; [done|]. unfold TcpClient.rx_new.
  change (x00 :: replicate (B / 2) x00) with (replicate (S (B / 2)) x00).
  rewrite <- replicate_add. f_equal. lia.
Qed.

Lemma insert_at_end (l r : list byte) x b n : length l = n -> <[n := b]> (l ++ x :: r) = l ++ b :: r.
Proof. intros <-. rewrite <- (Nat.add_0_r (length l)). by rewrite insert_app_r. Qed.

(** A byte inside a frame is kept and nothing is delivered. *)
Lemma rx_byte_inside done_ b buf :
  rx_at done_ buf -> length (done_ ++ [b]) <= B - 1 ->
  HDLC_FRAME_FLAG ∉ tail (done_ ++ [b]) -> head (done_ ++ [b]) = Some HDLC_FRAME_FLAG ->
  exists buf', TcpClient.rx_byte B b buf = Ok (buf', []) /\ rx_at (done_ ++ [b]) buf'.
Proof.
  intros (pre & x & Hpre & Hlen & ->) Hfit Htl Hhd. unfold TcpClient.rx_byte.
  rewrite insert_at_end by done. rewrite length_app in Hlen, Hfit. simpl in Hfit.
  destruct pre as [|c pre]; [simpl in Hlen; lia|].
  assert (Hz : exists k, B / 2 = S k).
  { exists (B / 2 - 1). simpl in Hlen. pose proof (Nat.div_str_pos B 2 ltac:(lia)). lia. }
  unfold rx_at. destruct Hz as [k Hk]. rewrite !Hk.
  assert (Heq : ((c :: pre) ++ done_) ++ b :: replicate (S k) x00 =
    (c :: pre) ++ HDLC_FRAME_FLAG :: tail (done_ ++ [b]) ++ replicate (S k) x00).
  { rewrite <- app_assoc. f_equal. destruct done_ as [|d done_]; simpl in *; simplify_eq; [done|].
    by rewrite <- app_assoc. }
  rewrite Heq, find_open; [|done|].
  2: { rewrite elem_of_app. intros [Hin|Hin]; [done|by apply no_flag_zeros in Hin]. }
  rewrite <- Heq. clear Heq. eexists. split; [done|].
  exists pre, x00. split; [by apply not_elem_of_cons in Hpre as [_ ?]|].
  rewrite !length_app in *. simpl in *. split; [lia|].
  rewrite !Nat.sub_0_r, <- app_assoc. simpl. rewrite drop_0.
  replace (c :: pre ++ done_ ++ b :: x00 :: replicate k x00)
    with ((c :: pre ++ done_ ++ b :: replicate k x00) ++ [x00]).
  2: { simpl. rewrite <- !app_assoc. simpl. by rewrite <- replicate_S_end. }
  rewrite drop_app_length'.
  2: { simpl. rewrite !length_app. simpl. rewrite !length_replicate. lia. }
  rewrite <- !app_assoc. simpl. do 4 f_equal.
  by rewrite <- replicate_S_end.
Qed.

Lemma rx_bytes_app a b buf :
  TcpClient.rx_bytes B (a ++ b) buf =
  (s ← TcpClient.rx_bytes B a buf; t ← TcpClient.rx_bytes B b s.1; Ok (t.1, s.2 ++ t.2)).
Proof.
  revert buf. induction a as [|x a IH]; intros buf; simpl.
  - by destruct (TcpClient.rx_bytes B b buf) as [[? ?]|].
  - destruct (TcpClient.rx_byte B x buf) as [[b1 p1]|e]; simpl; [|done]. rewrite IH.
    destruct (TcpClient.rx_bytes B a b1) as [[b2 p2]|e]; simpl; [|done].
    destruct (TcpClient.rx_bytes B b b2) as [[b3 p3]|e]; simpl; [|done]. by rewrite app_assoc.
Qed.

Lemma rx_bytes_inside body : forall done_ buf,
  rx_at (HDLC_FRAME_FLAG :: done_) buf -> HDLC_FRAME_FLAG ∉ done_ ++ body ->
  length (HDLC_FRAME_FLAG :: done_ ++ body) <= B - 1 ->
  exists buf', TcpClient.rx_bytes B body buf = Ok (buf', []) /\
    rx_at (HDLC_FRAME_FLAG :: done_ ++ body) buf'.
Proof.
  induction body as [|b body IH]; intros done_ buf Hat Hno Hlen; simpl.
  - exists buf. by rewrite app_nil_r.
  - rewrite (cons_middle b done_ body), app_assoc in Hno, Hlen |- *.
    destruct (rx_byte_inside (HDLC_FRAME_FLAG :: done_) b buf) as (buf1 & -> & Hat1).
    + done.
    + simpl in *. rewrite !length_app in *. simpl in *. lia.
    + simpl. intros Hin. apply Hno. rewrite elem_of_app. by left.
    + done.
    + simpl. destruct (IH (done_ ++ [b]) buf1 Hat1 Hno Hlen) as (buf2 & -> & Hat2). eauto.
Qed.

Lemma length_wire_frame (data : list byte) : length data <= length (frame data).
Proof.
  assert (Hs : length data <= length (stuffed data)).
  { unfold stuffed. induction data as [|b l IH]; simpl; [lia|].
    rewrite length_app. unfold stuff at 1. destruct (_ || _); simpl; lia. }
  unfold frame. rewrite !length_app. lia.
Qed.

Lemma tx_frame p : length (frame (wire p)) <= B -> TcpClient.tx B p = Some (frame (wire p)).
Proof.
  intros Hfit. unfold TcpClient.tx.
  pose proof (length_wire_frame (wire p)) as Hw.
  destruct (serialize_fits p (OutputBuffer.new (replicate B x00))) as (out & -> & _ & Ho);
    [apply ob_new_wf|rewrite ob_room_new, length_replicate; lia|].
  change (OutputBuffer.as_slice (OutputBuffer.new _)) with (@nil byte) in Ho.
  rewrite app_nil_l in Ho. rewrite Ho.
  destruct (encode_fits (wire p) (OutputBuffer.new (replicate B x00))) as (hout & -> & _ & Hh);
    [apply ob_new_wf|by rewrite ob_room_new, length_replicate|].
  by rewrite Hh.
Qed.

Lemma rx_frame_wire p : wire_ok p -> length (wire p) <= B ->
  exists q, TcpClient.rx_frame B (frame (wire p)) = Ok [q] /\ q ≡ p.
Proof.
  intros Hp Hfit. unfold TcpClient.rx_frame.
  destruct (decode_frame (wire p) (OutputBuffer.new (replicate B x00))) as (out & m & -> & Ho);
    [apply ob_new_wf|by rewrite ob_room_new, length_replicate|].
  change (OutputBuffer.as_slice (OutputBuffer.new _)) with (@nil byte) in Ho.
  rewrite app_nil_l in Ho. rewrite Ho.
  destruct (deserialize_wire p Hp) as (inp & q & -> & _ & Hq). eauto.
Qed.

(** The closing flag: the packet is delivered and the frame wiped. *)
Lemma rx_byte_close p buf : wire_ok p -> length (frame (wire p)) <= B ->
  rx_at (HDLC_FRAME_FLAG :: stuffed (wire p)) buf ->
  exists buf' q, TcpClient.rx_byte B HDLC_FRAME_FLAG buf = Ok (buf', [q]) /\ q ≡ p /\ rx_at [] buf'.
Proof.
  intros Hp Hfit (pre & x & Hpre & Hlen & ->). unfold TcpClient.rx_byte.
  rewrite insert_at_end by done. pose proof (length_wire_frame (wire p)).
  destruct (rx_frame_wire p Hp ltac:(lia)) as (q & Hq & Heq).
  set (f := frame (wire p)) in *.
  assert (Hb : (pre ++ HDLC_FRAME_FLAG :: stuffed (wire p)) ++ HDLC_FRAME_FLAG :: replicate (B / 2) x00
    = pre ++ f ++ replicate (B / 2) x00).
  { subst f. unfold frame. simpl. by rewrite <- !app_assoc. }
  assert (Hl : length f = S (length (HDLC_FRAME_FLAG :: stuffed (wire p))))
    by (subst f; unfold frame; rewrite !length_app; simpl; lia).
  rewrite length_app in Hlen. rewrite Hb. subst f. rewrite find_frame by done.
  set (f := frame (wire p)) in *.
  replace (length pre + length f - 1 + 1 - length pre) with (length f) by lia.
  rewrite drop_app_length, take_app_length, Hq. cbn [mbind result_bind].
  eexists _, q. split; [done|]. split; [done|].
  exists (pre ++ replicate (length f - 1) x00), x00. split; [|split].
  - rewrite elem_of_app. intros [Hin|Hin]; [done|by apply no_flag_zeros in Hin].
  - rewrite app_nil_r, length_app, length_replicate. lia.
  - unfold splice. rewrite take_app_length, length_replicate, app_nil_r, <- app_assoc. f_equal.
    rewrite <- drop_drop, drop_app_length, drop_app_length.
    replace (length f) with (length f - 1 + 1) at 1 by lia.
    rewrite replicate_add, <- app_assoc. done.
Qed.

Lemma rx_bytes_frame p buf : wire_ok p -> length (frame (wire p)) <= B -> rx_at [] buf ->
  exists buf' q, TcpClient.rx_bytes B (frame (wire p)) buf = Ok (buf', [q]) /\ q ≡ p /\ rx_at [] buf'.
Proof.
  intros Hp Hfit Hat. unfold frame in *. rewrite !length_app in Hfit. simpl in Hfit.
  destruct (rx_byte_inside [] HDLC_FRAME_FLAG buf) as (b1 & H1 & Hat1);
    [done|simpl; lia|simpl; apply not_elem_of_nil|done|].
  destruct (rx_bytes_inside (stuffed (wire p)) [] b1) as (b2 & H2 & Hat2);
    [done|apply stuffed_no_flag|simpl; lia|].
  destruct (rx_byte_close p b2) as (b3 & q & H3 & Hq & Hat3);
    [done|unfold frame; rewrite !length_app; simpl; lia|done|].
  exists b3, q. split; [|done]. change (TcpClient.rx_bytes B (HDLC_FRAME_FLAG :: stuffed (wire p)
    ++ [HDLC_FRAME_FLAG]) buf = Ok (b3, [q])).
  cbn [TcpClient.rx_bytes]. rewrite H1. cbn [mbind result_bind fst snd].
  rewrite rx_bytes_app, H2. cbn [mbind result_bind fst snd TcpClient.rx_bytes]. by rewrite H3.
Qed.

Lemma rx_bytes_frames ps : forall buf,
  Forall (fun p => wire_ok p /\ length (frame (wire p)) <= B) ps -> rx_at [] buf ->
  exists buf' qs, TcpClient.rx_bytes B (concat (map (fun p => frame (wire p)) ps)) buf = Ok (buf', qs) /\
    Forall2 equiv qs ps /\ rx_at [] buf'.
Proof.
  induction ps as [|p ps IH]; intros buf Hps Hat; cbn [map concat];
    [by exists buf, []|].
  inversion Hps as [|? ? [Hp Hfit] Hps']; subst.
  destruct (rx_bytes_frame p buf Hp Hfit Hat) as (b1 & q & H1 & Hq & Hat1).
  destruct (IH b1 Hps' Hat1) as (b2 & qs & H2 & Hqs & Hat2).
  exists b2, (q :: qs). rewrite rx_bytes_app, H1. cbn [mbind result_bind fst snd]. rewrite H2.
  split; [done|]. split; [by constructor|done].
Qed.

Lemma rx_reads_concat reads : forall buf, Forall (.≠ []) reads ->
  TcpClient.rx_reads B reads buf = TcpClient.rx_bytes B (concat reads) buf.
Proof.
  induction reads as [|r reads IH]; intros buf Hne; simpl; [done|].
  apply Forall_cons in Hne as [Hr Hne]. destruct r as [|b r]; [done|].
  change (b :: r ++ concat reads) with ((b :: r) ++ concat reads).
  rewrite rx_bytes_app. generalize (b :: r); clear b r Hr; intros r. destruct (TcpClient.rx_bytes B r buf) as [[b1 p1]|e]; simpl; [|done].
  by rewrite IH by done.
Qed.

End Stream.

(** A TCP connection delivers the packets sent over it: however the stream
    is cut into reads, the receiver sends to its channel, in order and once each,
    packets equivalent to those the transmitter was given, for every sequence of
    packets whose frames fit the buffer; and it is ready for more. *)
Theorem tcp_stream_delivers (B : nat) (ps : list Packet) (reads : list (list byte))
  (Hps : Forall (fun p => wire_ok p /\ length (frame (wire p)) <= B) ps) (HB : 1 <= B)
  (Hreads : mapM (TcpClient.tx B) ps = Some reads) (cuts : list (list byte))
  (Hcuts : concat cuts = concat reads) (Hne : Forall (.≠ []) cuts) :
  exists buf qs, TcpClient.rx_reads B cuts (TcpClient.rx_new B) = Ok (buf, qs) /\
    Forall2 equiv qs ps /\ rx_at B [] buf.
Proof.
  assert (Htx : reads = map (fun p => frame (wire p)) ps).
  { apply mapM_Some_1 in Hreads. clear Hcuts. induction Hreads as [|p r ps reads Hr _ IH]; [done|].
    inversion Hps as [|? ? [_ Hfit] Hps']; subst. rewrite tx_frame in Hr by done. simplify_eq.
    simpl. by rewrite <- IH. }
  rewrite rx_reads_concat, Hcuts, Htx by done. apply rx_bytes_frames; [done|by apply rx_new_at].
Qed.

Lemma tcp_stream_delivers_witness :
  exists buf qs, TcpClient.rx_reads 64 [frame (wire sample_packet); frame (wire sample_packet)]
      (TcpClient.rx_new 64) = Ok (buf, qs) /\ Forall2 equiv qs [sample_packet; sample_packet].
Proof.
  destruct (tcp_stream_delivers 64 [sample_packet; sample_packet]
    [frame (wire sample_packet); frame (wire sample_packet)]) with
    (cuts := [frame (wire sample_packet); frame (wire sample_packet)])
    as (buf & qs & Hr & Hf & _).
  - assert (Hok : wire_ok sample_packet /\ length (frame (wire sample_packet)) <= 64)
      by (split; [exact sample_packet_ok|vm_compute; lia]).
    constructor; [exact Hok|]. constructor; [exact Hok|]. constructor.
  - lia.
  - vm_compute. reflexivity.
  - reflexivity.
  - constructor; [vm_compute; discriminate|]. constructor; [vm_compute; discriminate|]. constructor.
  - exists buf, qs. split; [exact Hr|exact Hf].
Defined.
