(* ===== verification/Identity.v ===== *)
(** [reticulum-patched/src/crypt/fernet.rs] and [identity.rs]: Fernet tokens,
    derived keys, and the identities that encrypt, decrypt and sign with them.

    AES-CBC, HMAC-SHA256, X25519 and the key encodings of Ed25519 are the
    parameters of [IdentityCrypto]; what the random generator yields is an
    argument (the initialisation vector, the ephemeral secret).  A function that
    writes into [out_buf] takes the buffer's length and returns the bytes it
    wrote at the front. *)

From Stdlib Require Import ZArith Lia.
From Stdlib Require Import Strings.Byte.
From stdpp Require Import base strings numbers list.
From S2P Require Import Prelude Crypto Buffer Packet.

(** * Parameters *)

(** The cargo feature that selects AES-128. *)
Class Features : Type := fernet_aes128 : bool.

Class IdentityCrypto `{C : Crypto} : Type := {
  (** [Hmac<Sha256>] over the data, for a key of any length *)
  hmac_sha256 : list byte -> list byte -> arr 32;
  (** [cbc::Encryptor::new(key, iv).encrypt_padded_b2b_mut::<Pkcs7>(text, _)]
      into a buffer that is large enough *)
  aes_cbc_encrypt : list byte -> arr 16 -> list byte -> list byte;
  (** [cbc::Decryptor::new(key, iv).decrypt_padded_b2b_mut::<Pkcs7>(text, _)]
      into a buffer that is large enough; [None] for bad padding *)
  aes_cbc_decrypt : list byte -> arr 16 -> list byte -> option (list byte);
  (** [PublicKey::from(&secret)] and [secret.diffie_hellman(&public)] *)
  x25519_public : arr 32 -> arr 32;
  x25519 : arr 32 -> arr 32 -> arr 32;
  vk_as_bytes : VerifyingKey -> arr 32;
  vk_from_bytes : arr 32 -> option VerifyingKey;
  vk_default : VerifyingKey;
  sk_as_bytes : SigningKey -> arr 32;
  sk_from_bytes : arr 32 -> SigningKey;
  verify_strict : VerifyingKey -> list byte -> arr 64 -> bool
}.

Class IdentityLaws `{IC : IdentityCrypto} : Prop := {
  (** PKCS#7 always pads, to the next multiple of 16. *)
  aes_cbc_length : forall key iv text,
    length (aes_cbc_encrypt key iv text) = 16 * (length text / 16 + 1);
  aes_cbc_inverse : forall key iv text,
    aes_cbc_decrypt key iv (aes_cbc_encrypt key iv text) = Some text;
  x25519_agree : forall a b, x25519 a (x25519_public b) = x25519 b (x25519_public a);
  vk_inverse : forall k, vk_from_bytes (vk_as_bytes k) = Some k;
  vk_inverse' : forall b k, vk_from_bytes b = Some k -> vk_as_bytes k = b;
  sk_inverse : forall k, sk_from_bytes (sk_as_bytes k) = k;
  verify_strict_sign : forall k msg,
    verify_strict (verifying_key k) msg (ed25519_sign k msg) = true
}.

(** [let mut a = [0u8; n]; a.copy_from_slice(l)]: a panic on another length. *)
Definition copy_arr {E} (n : nat) (l : list byte) : result (fault E) (arr n) :=
  ok_or (mk_arr l) Panics.

(** * Fernet ([crypt/fernet.rs]) *)

Definition HMAC_OUT_SIZE : nat := 32.
Definition IV_KEY_SIZE : nat := 16.
Definition FERNET_OVERHEAD_SIZE : nat := IV_KEY_SIZE + HMAC_OUT_SIZE.
Definition AES_KEY_SIZE `{Features} : nat := if fernet_aes128 then 16 else 32.

Module Fernet.

Record t : Type := mk { sign_key : list byte; enc_key : list byte }.

Section Operations.
Context `{F : Features} `{IC : IdentityCrypto}.

(** [bytes[..min(AES_KEY_SIZE, slice.len())].copy_from_slice(slice)]: zero
    padding for a short slice, a panic for a long one. *)
Definition key_from_slice (slice : list byte) : result (fault RetError) (list byte) :=
  if Nat.ltb AES_KEY_SIZE (length slice) then Err Panics
  else Ok (slice ++ replicate (AES_KEY_SIZE - length slice) x00).

Definition new_from_slices (sign_key enc_key : list byte) : result (fault RetError) t :=
  sign_key_bytes ← key_from_slice sign_key;
  enc_key_bytes ← key_from_slice enc_key;
  Ok (mk sign_key_bytes enc_key_bytes).

(** The encryptor's [unwrap] and the slice for the tag panic in a buffer that is
    too small for them. *)
Definition encrypt (f : t) (iv : arr 16) (text : list byte) (out_len : nat) :
    result (fault RetError) (list byte) :=
  if Nat.leb out_len FERNET_OVERHEAD_SIZE then Err (Fails InvalidArgument)
  else
    let chiper := aes_cbc_encrypt (enc_key f) iv text in
    if Nat.ltb (out_len - IV_KEY_SIZE) (length chiper) then Err Panics
    else
      let written := iv ++ chiper in
      if Nat.ltb out_len (length written + HMAC_OUT_SIZE) then Err Panics
      else Ok (written ++ hmac_sha256 (sign_key f) written).

(** The comparison of the tags: no pair of bytes differs, and neither does the
    length. *)
Definition tags_equal (expected actual : list byte) : bool :=
  match list_find (fun o => o <> Eq) (zip_with (fun x y => u8 x ?= u8 y)%Z expected actual) with
  | Some _ => false
  | None => Nat.eqb (length actual) (length expected)
  end.

Definition verify (f : t) (token_data : list byte) : result (fault RetError) (list byte) :=
  if Nat.leb (length token_data) FERNET_OVERHEAD_SIZE then Err (Fails InvalidArgument)
  else
    let split_at := length token_data - HMAC_OUT_SIZE in
    let expected_tag := drop split_at token_data in
    let actual_tag := hmac_sha256 (sign_key f) (take split_at token_data) in
    if tags_equal expected_tag actual_tag then Ok token_data else Err (Fails IncorrectSignature).

Definition decrypt (f : t) (token_data : list byte) (out_len : nat) :
    result (fault RetError) (list byte) :=
  if Nat.leb (length token_data) FERNET_OVERHEAD_SIZE then Err (Fails InvalidArgument)
  else
    let tag_start_index := length token_data - HMAC_OUT_SIZE in
    iv ← copy_arr 16 (take IV_KEY_SIZE token_data);
    let ciphertext := drop IV_KEY_SIZE (take tag_start_index token_data) in
    if Nat.ltb out_len (length ciphertext) then Err (Fails CryptoError)
    else ok_or (aes_cbc_decrypt (enc_key f) iv ciphertext) (Fails CryptoError).

End Operations.
End Fernet.

(** * Derived keys ([identity.rs]) *)

Definition PUBLIC_KEY_LENGTH : nat := 32.
Definition DERIVED_KEY_LENGTH `{Features} : nat := if fernet_aes128 then 32 else 64.

Module DerivedKey.
Section Operations.
Context `{F : Features} `{IC : IdentityCrypto}.

(** HKDF without a salt uses a hash-length block of zeros; a failed expansion
    leaves the key zero. *)
Definition new (shared_key : arr 32) (salt : option (list byte)) : list byte :=
  default (replicate DERIVED_KEY_LENGTH x00)
    (hkdf_expand (default (replicate 32 x00) salt) shared_key DERIVED_KEY_LENGTH).

Definition new_empty : list byte := replicate DERIVED_KEY_LENGTH x00.

Definition new_from_private_key (priv_key pub_key : arr 32) (salt : option (list byte)) :
    list byte := new (x25519 priv_key pub_key) salt.

Definition new_from_ephemeral_key (secret pub_key : arr 32) (salt : option (list byte)) :
    list byte := new (x25519 secret pub_key) salt.

End Operations.
End DerivedKey.

(** * Public identities *)

Module Identity.

Record t `{IC : IdentityCrypto} : Type := mk {
  public_key : arr 32;
  verifying_key : VerifyingKey;
  address_hash : AddressHash
}.

Section Operations.
Context `{F : Features} `{IC : IdentityCrypto}.

Definition new (public_key : arr 32) (verifying_key : VerifyingKey) : t :=
  let hash := sha256 (public_key ++ vk_as_bytes verifying_key) in
  mk _ _ public_key verifying_key (AddressHash.new_from_hash hash).

Definition new_from_slices (public_key verifying_key : list byte) : result (fault RetError) t :=
  public_key ← copy_arr 32 public_key;
  key_data ← copy_arr 32 verifying_key;
  Ok (new public_key (default vk_default (vk_from_bytes key_data))).

Definition default_ : t := new (arr_zero 32) vk_default.

(** Both keys are read in one loop over the digit pairs; an unreadable pair of
    either panics. *)
Definition hex_keys (hex_string : list byte) : result (fault RetError) (list byte * list byte) :=
  if Nat.ltb (length hex_string) (PUBLIC_KEY_LENGTH * 2 * 2) then Err (Fails IncorrectHash)
  else
    first_key ← AddressHash.hex_pairs PUBLIC_KEY_LENGTH hex_string;
    second_key ← AddressHash.hex_pairs PUBLIC_KEY_LENGTH (drop (PUBLIC_KEY_LENGTH * 2) hex_string);
    Ok (first_key, second_key).

Definition new_from_hex_string (hex_string : list byte) : result (fault RetError) t :=
  keys ← hex_keys hex_string;
  new_from_slices keys.1 keys.2.

Definition to_hex_string (i : t) : list byte :=
  concat (map AddressHash.hex_byte (public_key i)) ++
  concat (map AddressHash.hex_byte (vk_as_bytes (verifying_key i))).

Definition verify (i : t) (data : list byte) (signature : arr 64) : result RetError unit :=
  if verify_strict (verifying_key i) data signature then Ok tt else Err IncorrectSignature.

Definition derive_key (i : t) (secret : arr 32) (salt : option (list byte)) : list byte :=
  DerivedKey.new_from_ephemeral_key secret (public_key i) salt.

(** [ephemeral] is the secret drawn here, unrelated to the one [derive_key]
    drew for [derived_key]. *)
Definition encrypt (ephemeral : arr 32) (iv : arr 16) (text derived_key : list byte)
    (out_len : nat) : result (fault RetError) (list byte) :=
  let ephemeral_public := x25519_public ephemeral in
  if Nat.leb PUBLIC_KEY_LENGTH out_len then
    fernet ← Fernet.new_from_slices (take 16 derived_key) (drop 16 derived_key);
    token ← Fernet.encrypt fernet iv text (out_len - PUBLIC_KEY_LENGTH);
    Ok (ephemeral_public ++ token)
  else Err (Fails InvalidArgument).

End Operations.
End Identity.

(** * Private identities *)

Module PrivateIdentity.

Record t `{IC : IdentityCrypto} : Type := mk {
  identity : Identity.t;
  private_key : arr 32;
  sign_key : SigningKey
}.

Section Operations.
Context `{F : Features} `{IC : IdentityCrypto}.

Definition new (private_key : arr 32) (sign_key : SigningKey) : t :=
  mk _ _ (Identity.new (x25519_public private_key) (verifying_key sign_key)) private_key sign_key.

Definition new_from_name (name : list byte) : t :=
  let hash := sha256 name in
  let sign_key := sk_from_bytes (sha256 hash) in
  new hash sign_key.

Definition new_from_hex_string (hex_string : list byte) : result (fault RetError) t :=
  keys ← Identity.hex_keys hex_string;
  Ok (new (arr_of 32 keys.1) (sk_from_bytes (arr_of 32 keys.2))).

Definition to_hex_string (i : t) : list byte :=
  concat (map AddressHash.hex_byte (private_key i)) ++
  concat (map AddressHash.hex_byte (sk_as_bytes (sign_key i))).

Definition verify (i : t) := Identity.verify (identity i).
Definition sign (i : t) (data : list byte) : arr 64 := ed25519_sign (sign_key i) data.
Definition exchange (i : t) (public_key : arr 32) : arr 32 := x25519 (private_key i) public_key.

Definition derive_key (i : t) (public_key : arr 32) (salt : option (list byte)) : list byte :=
  DerivedKey.new_from_private_key (private_key i) public_key salt.

Definition fernet_of (derived_key : list byte) : result (fault RetError) Fernet.t :=
  Fernet.new_from_slices (take (DERIVED_KEY_LENGTH / 2) derived_key)
    (drop (DERIVED_KEY_LENGTH / 2) derived_key).

Definition encrypt (iv : arr 16) (text derived_key : list byte) (out_len : nat) :
    result (fault RetError) (list byte) :=
  fernet ← fernet_of derived_key;
  Fernet.encrypt fernet iv text out_len.

Definition decrypt (data derived_key : list byte) (out_len : nat) :
    result (fault RetError) (list byte) :=
  if Nat.leb (length data) PUBLIC_KEY_LENGTH then Err (Fails InvalidArgument)
  else
    fernet ← fernet_of derived_key;
    token ← Fernet.verify fernet data;
    Fernet.decrypt fernet token out_len.

End Operations.
End PrivateIdentity.

(** * The empty identity, which does not encrypt *)

Module EmptyIdentity.

Definition encrypt (text : list byte) (out_len : nat) : result RetError (list byte) :=
  if Nat.ltb out_len (length text) then Err OutOfMemory else Ok text.

Definition decrypt (data : list byte) (out_len : nat) : result RetError (list byte) :=
  if Nat.ltb out_len (length data) then Err OutOfMemory else Ok data.

End EmptyIdentity.

(** * Tokens *)

Lemma list_find_Eq_None (l : list comparison) :
  list_find (fun o => o <> Eq) l = None <-> Forall (fun o => o = Eq) l.
Proof.
  rewrite list_find_None, !Forall_forall. split; intros H o Ho; specialize (H o Ho); [|tauto].
  destruct (decide (o = Eq)); tauto.
Qed.

Lemma tags_equal_spec a b : Fernet.tags_equal a b = true <-> a = b.
Proof.
  unfold Fernet.tags_equal. revert b.
  assert (Hzip : forall b, length b = length a ->
    Forall (fun o => o = Eq) (zip_with (fun x y => u8 x ?= u8 y)%Z a b) <-> a = b).
  { induction a as [|x a IH]; intros [|y b] Hl; try done; simpl in *.
    rewrite Forall_cons, IH, Z.compare_eq_iff by lia. split.
    - intros [->%u8_inj ->]. done.
    - intros [= -> ->]. done. }
  intros b. destruct (list_find _ _) as [p|] eqn:E.
  - split; [done|]. intros ->. exfalso. revert E.
    rewrite (proj2 (list_find_Eq_None _)); [done|]. by apply Hzip.
  - rewrite Nat.eqb_eq. split; [|by intros ->]. intros Hl. apply Hzip; [done|].
    by apply list_find_Eq_None.
Qed.

Section Tokens.
Context `{F : Features} `{IC : IdentityCrypto} `{!IdentityLaws}.

(** The length of a token for [n] bytes of text. *)
Definition token_length (n : nat) : nat := FERNET_OVERHEAD_SIZE + 16 * (n / 16 + 1).

Lemma fernet_encrypt_spec f iv text out_len :
  Fernet.encrypt f iv text out_len =
    if Nat.leb (token_length (length text)) out_len
    then let body := iv ++ aes_cbc_encrypt (Fernet.enc_key f) iv text in
         Ok (body ++ hmac_sha256 (Fernet.sign_key f) body)
    else if Nat.leb out_len FERNET_OVERHEAD_SIZE then Err (Fails InvalidArgument) else Err Panics.
Proof.
  unfold Fernet.encrypt, token_length, FERNET_OVERHEAD_SIZE, IV_KEY_SIZE, HMAC_OUT_SIZE.
  rewrite length_app, aes_cbc_length, arr_length.
  destruct (Nat.leb_spec (16 + 32 + 16 * (length text / 16 + 1)) out_len) as [Hr|Hr];
    destruct (Nat.leb_spec out_len (16 + 32)) as [Hr'|Hr']; try done; [lia| |].
  - rewrite !(proj2 (Nat.ltb_ge _ _)) by lia. done.
  - destruct (Nat.ltb _ _); [done|]. by rewrite (proj2 (Nat.ltb_lt _ _)) by lia.
Qed.

Lemma fernet_verify_spec f body (tag : arr 32) :
  FERNET_OVERHEAD_SIZE < length (body ++ tag) ->
  Fernet.verify f (body ++ tag) =
    if decide (tag = hmac_sha256 (Fernet.sign_key f) body) then Ok (body ++ tag)
    else Err (Fails IncorrectSignature).
Proof.
  intros Hlen. unfold Fernet.verify. rewrite (proj2 (Nat.leb_gt _ _)) by done.
  rewrite length_app, arr_length. unfold HMAC_OUT_SIZE. rewrite Nat.add_sub.
  rewrite take_app_length, drop_app_length.
  destruct (Fernet.tags_equal tag _) eqn:E.
  - apply tags_equal_spec in E. rewrite decide_True; [done|]. by apply arr_eq.
  - rewrite decide_False; [done|]. intros Ht. rewrite <- Ht in E.
    by rewrite (proj2 (tags_equal_spec _ _)) in E.
Qed.

Lemma fernet_decrypt_token f (iv : arr 16) cipher (tag : arr 32) text out_len :
  cipher <> [] -> length cipher <= out_len ->
  aes_cbc_decrypt (Fernet.enc_key f) iv cipher = Some text ->
  Fernet.decrypt f ((iv ++ cipher) ++ tag) out_len = Ok text.
Proof.
  intros Hne Hout Hdec. unfold Fernet.decrypt, FERNET_OVERHEAD_SIZE, IV_KEY_SIZE, HMAC_OUT_SIZE.
  assert (0 < length cipher) by (destruct cipher; simpl; [done|lia]).
  rewrite !length_app, !arr_length, (proj2 (Nat.leb_gt _ _)) by lia.
  replace (16 + length cipher + 32 - 32) with (length (iv ++ cipher))
    by (rewrite length_app, arr_length; lia).
  rewrite take_app_length, <- app_assoc.
  rewrite (take_app_length' (arr_list iv)), (drop_app_length' (arr_list iv)) by (by rewrite arr_length).
  unfold copy_arr. rewrite mk_arr_list. simpl.
  rewrite (proj2 (Nat.ltb_ge _ _)) by lia. by rewrite Hdec.
Qed.

Lemma fernet_of_ok key : length key = DERIVED_KEY_LENGTH ->
  exists f, PrivateIdentity.fernet_of key = Ok f.
Proof.
  intros Hlen. unfold PrivateIdentity.fernet_of, Fernet.new_from_slices, Fernet.key_from_slice.
  unfold DERIVED_KEY_LENGTH, AES_KEY_SIZE in *.
  rewrite length_take, length_drop, Hlen. destruct fernet_aes128; simpl; by eexists.
Qed.

Lemma private_decrypt_encrypt key f iv text out_len in_len :
  PrivateIdentity.fernet_of key = Ok f -> token_length (length text) <= out_len ->
  16 * (length text / 16 + 1) <= in_len ->
  exists token, PrivateIdentity.encrypt iv text key out_len = Ok token /\
    length token = token_length (length text) /\
    PrivateIdentity.decrypt token key in_len = Ok text.
Proof.
  intros Hf Hout Hin. unfold PrivateIdentity.encrypt, PrivateIdentity.decrypt. rewrite Hf. simpl.
  rewrite fernet_encrypt_spec, (proj2 (Nat.leb_le _ _)) by done. cbv zeta.
  set (cipher := aes_cbc_encrypt _ _ _).
  assert (Hc : length cipher = 16 * (length text / 16 + 1)) by apply aes_cbc_length.
  eexists. split; [done|].
  assert (Hl : length ((iv ++ cipher) ++ hmac_sha256 (Fernet.sign_key f) (iv ++ cipher)) =
    token_length (length text)).
  { rewrite !length_app, !arr_length, Hc. unfold token_length, FERNET_OVERHEAD_SIZE, IV_KEY_SIZE,
      HMAC_OUT_SIZE. lia. }
  split; [done|]. rewrite (proj2 (Nat.leb_gt _ _))
    by (rewrite Hl; unfold token_length, FERNET_OVERHEAD_SIZE, IV_KEY_SIZE, HMAC_OUT_SIZE,
        PUBLIC_KEY_LENGTH; lia).
  rewrite fernet_verify_spec
    by (rewrite Hl; unfold token_length; lia).
  rewrite decide_True by done. simpl.
  apply fernet_decrypt_token; [|lia|apply aes_cbc_inverse].
  intros ->. simpl in Hc. lia.
Qed.

Lemma length_derived_key `{!CryptoLaws} shared salt :
  length (DerivedKey.new shared salt) = DERIVED_KEY_LENGTH.
Proof.
  unfold DerivedKey.new.
  destruct (hkdf_expand_ok (default (replicate 32 x00) salt) shared DERIVED_KEY_LENGTH)
    as (out & -> & Hlen); [unfold DERIVED_KEY_LENGTH; destruct fernet_aes128; lia|done].
Qed.

Lemma derived_keys_agree (a b : PrivateIdentity.t) salt :
  Identity.public_key (PrivateIdentity.identity a) = x25519_public (PrivateIdentity.private_key a) ->
  Identity.public_key (PrivateIdentity.identity b) = x25519_public (PrivateIdentity.private_key b) ->
  PrivateIdentity.derive_key a (Identity.public_key (PrivateIdentity.identity b)) salt =
  PrivateIdentity.derive_key b (Identity.public_key (PrivateIdentity.identity a)) salt.
Proof.
  intros Ha Hb. unfold PrivateIdentity.derive_key, DerivedKey.new_from_private_key.
  by rewrite Ha, Hb, x25519_agree.
Qed.

Lemma private_decrypt_authentic data key out_len text :
  PrivateIdentity.decrypt data key out_len = Ok text ->
  exists f body, PrivateIdentity.fernet_of key = Ok f /\
    data = body ++ hmac_sha256 (Fernet.sign_key f) body.
Proof.
  unfold PrivateIdentity.decrypt. intros Hd.
  destruct (Nat.leb _ _); [done|].
  destruct (PrivateIdentity.fernet_of key) as [f|]; [|done]. simpl in Hd.
  destruct (Fernet.verify f data) eqn:E; [|done]. clear Hd.
  unfold Fernet.verify in E. destruct (Nat.leb _ _); [done|].
  destruct (Fernet.tags_equal _ _) eqn:Et; [|done]. apply tags_equal_spec in Et.
  exists f, (take (length data - HMAC_OUT_SIZE) data). split; [done|].
  by rewrite <- Et, take_drop.
Qed.

End Tokens.

(** * A toy instance

    CBC replaced by PKCS#7 padding alone, Diffie-Hellman by bytewise addition,
    keys encoded as themselves. *)

Definition toy_pad (text : list byte) : list byte :=
  let n := (16 - length text mod 16) in
  text ++ replicate n (byte_of_Z (Z.of_nat n)).

Definition toy_unpad (l : list byte) : option (list byte) :=
  b ← last l; Some (take (length l - Z.to_nat (u8 b)) l).

Lemma toy_unpad_pad text : toy_unpad (toy_pad text) = Some text.
Proof.
  unfold toy_unpad, toy_pad. set (n := 16 - length text mod 16).
  assert (0 < n <= 16) as Hn by (pose proof (Nat.mod_upper_bound (length text) 16); subst n; lia).
  destruct n as [|m] eqn:En; [lia|]. rewrite <- En in *.
  rewrite last_app. replace (last (replicate n _)) with (Some (byte_of_Z (Z.of_nat n)))
    by (rewrite En, replicate_S_end, last_snoc; done).
  simpl. rewrite u8_of_Z, Z.mod_small, Nat2Z.id, length_app, length_replicate by lia.
  by rewrite Nat.add_sub, take_app_length.
Qed.

Definition toy_key (k : byte) : arr 32 := arr_of 32 (k :: replicate 31 x00).

Definition toy_key_from (b : arr 32) : option byte :=
  let k := default x00 (head b) in if decide (b = toy_key k) then Some k else None.

Definition toy_identity : @IdentityCrypto toy_crypto := {|
  hmac_sha256 key data := @sha256 toy_crypto (key ++ data);
  aes_cbc_encrypt key iv text := toy_pad text;
  aes_cbc_decrypt key iv text := toy_unpad text;
  x25519_public a := a;
  x25519 a b := arr_of 32 (zip_with (fun x y => byte_of_Z (u8 x + u8 y)) a b);
  vk_as_bytes := toy_key : @VerifyingKey toy_crypto -> arr 32;
  vk_from_bytes := toy_key_from : arr 32 -> option (@VerifyingKey toy_crypto);
  vk_default := x00 : @VerifyingKey toy_crypto;
  sk_as_bytes := toy_key : @SigningKey toy_crypto -> arr 32;
  sk_from_bytes b := default x00 (head b) : @SigningKey toy_crypto;
  verify_strict k msg sig := @ed25519_verify toy_crypto k msg sig
|}.

Definition toy_secret (b : byte) : @SigningKey toy_crypto := b.

Lemma toy_identity_laws : @IdentityLaws toy_crypto toy_identity.
Proof.
  constructor.
  - intros key iv text. change (length (toy_pad text) = 16 * (length text / 16 + 1)).
    unfold toy_pad. rewrite length_app, length_replicate.
    pose proof (Nat.div_mod_eq (length text) 16). pose proof (Nat.mod_upper_bound (length text) 16).
    lia.
  - intros key iv text. apply toy_unpad_pad.
  - intros a b. simpl. f_equal. rewrite <- zip_with_flip. apply zip_with_ext; try done.
    intros x y. unfold flip. by rewrite Z.add_comm.
  - intros k. cbn -[toy_key]. unfold toy_key_from. by rewrite decide_True.
  - intros b k. cbn -[toy_key]. unfold toy_key_from. case_decide as Hb; [|done]. by intros [= <-].
  - done.
  - intros k msg. apply (@verify_sign toy_crypto toy_crypto_laws).
Qed.

(** The instances the examples below are evaluated with. *)
Definition toy_features : Features := false.
#[local] Existing Instance toy_features.
#[local] Existing Instance toy_crypto.
#[local] Existing Instance toy_identity.
#[local] Existing Instance toy_crypto_laws.
#[local] Existing Instance toy_identity_laws.

(** * Properties *)

(** Two private identities that know each other's public keys derive the
    same key, and what one encrypts the other decrypts, in any buffers large
    enough for the padded token; conversely only data that ends in the HMAC of
    the rest under that key decrypts at all. *)
Theorem private_identities_communicate `{Features} `{IdentityCrypto} `{!CryptoLaws} `{!IdentityLaws}
  (sa sb : arr 32) (ka kb : SigningKey) (salt : option (list byte)) (iv : arr 16)
  (text : list byte) (out_len in_len : nat)
  (Hout : token_length (length text) <= out_len) (Hin : 16 * (length text / 16 + 1) <= in_len) :
  let a := PrivateIdentity.new sa ka in
  let b := PrivateIdentity.new sb kb in
  let key_a := PrivateIdentity.derive_key a (Identity.public_key (PrivateIdentity.identity b)) salt in
  let key_b := PrivateIdentity.derive_key b (Identity.public_key (PrivateIdentity.identity a)) salt in
  (exists token, PrivateIdentity.encrypt iv text key_a out_len = Ok token /\
     length token = token_length (length text) /\
     PrivateIdentity.decrypt token key_b in_len = Ok text) /\
  (forall data n p, PrivateIdentity.decrypt data key_b n = Ok p ->
     exists f body, PrivateIdentity.fernet_of key_b = Ok f /\
       data = body ++ hmac_sha256 (Fernet.sign_key f) body).
Proof.
  intros a b key_a key_b.
  assert (Hagree : key_a = key_b) by (by apply derived_keys_agree).
  assert (Hlen : length key_b = DERIVED_KEY_LENGTH) by apply length_derived_key.
  destruct (fernet_of_ok key_b Hlen) as [f Hf]. split.
  - rewrite Hagree. by eapply private_decrypt_encrypt.
  - intros data n p. apply private_decrypt_authentic.
Qed.

Lemma private_identities_communicate_witness :
  let a := PrivateIdentity.new (arr_zero 32) (toy_secret x01) in
  exists token, PrivateIdentity.encrypt (arr_zero 16) [x61; x62]
      (PrivateIdentity.derive_key a (x25519_public (arr_of 32 (replicate 32 x05))) None) 64 = Ok token.
Proof.
  intros a.
  destruct (private_identities_communicate (arr_zero 32) (arr_of 32 (replicate 32 x05))
    (toy_secret x01) (toy_secret x02) None (arr_zero 16) [x61; x62] 64 16
    ltac:(vm_compute; lia) ltac:(vm_compute; lia)) as [(token & Ht & _) _].
  exists token. exact Ht.
Defined.

(** [Identity::encrypt] cannot be used.  Without the AES-128 feature it
    panics on every derived key, because it splits the 64-byte key after 16
    bytes and the second slice does not fit the cipher's key.  With the feature,
    the public key it sends is that of a fresh secret which the token does not
    depend on, while the key was derived from another secret that is never
    sent. *)
Theorem identity_encrypt_unusable `{Features} `{IdentityCrypto} `{!CryptoLaws} `{!IdentityLaws}
  (i : Identity.t) (secret ephemeral : arr 32) (salt : option (list byte)) (iv : arr 16)
  (text : list byte) (out_len : nat)
  (Hout : PUBLIC_KEY_LENGTH + token_length (length text) <= out_len) :
  let key := Identity.derive_key i secret salt in
  if fernet_aes128
  then exists token, forall ephemeral',
    Identity.encrypt ephemeral' iv text key out_len = Ok (x25519_public ephemeral' ++ token)
  else Identity.encrypt ephemeral iv text key out_len = Err Panics.
Proof.
  intros key. assert (Hlen : length key = DERIVED_KEY_LENGTH) by apply length_derived_key.
  unfold DERIVED_KEY_LENGTH in Hlen. unfold Identity.encrypt.
  rewrite (proj2 (Nat.leb_le _ _)) by (unfold PUBLIC_KEY_LENGTH in *; lia).
  unfold Fernet.new_from_slices, Fernet.key_from_slice, AES_KEY_SIZE.
  rewrite length_take, length_drop, Hlen. destruct fernet_aes128; simpl; [|done].
  eexists. intros ephemeral'. rewrite fernet_encrypt_spec, (proj2 (Nat.leb_le _ _)) by lia. done.
Qed.

Lemma identity_encrypt_unusable_witness :
  Identity.encrypt (arr_zero 32) (arr_zero 16) [x61]
    (Identity.derive_key Identity.default_ (arr_zero 32) None) 96 = Err Panics.
Proof.
  exact (identity_encrypt_unusable Identity.default_ (arr_zero 32) (arr_zero 32) None
    (arr_zero 16) [x61] 96 ltac:(vm_compute; lia)).
Defined.

Lemma hex_keys_print (a b : arr 32) :
  Identity.hex_keys (concat (map AddressHash.hex_byte a) ++ concat (map AddressHash.hex_byte b)) =
  Ok (arr_list a, arr_list b).
Proof.
  unfold Identity.hex_keys, PUBLIC_KEY_LENGTH.
  rewrite length_app, !length_hex, !arr_length. simpl Nat.ltb. cbn iota.
  rewrite drop_app_length' by (by rewrite length_hex, arr_length).
  rewrite (hex_pairs_print _ _ (arr_length b)).
  rewrite (hex_pairs_prefix _ _ _ (arr_length a)). done.
Qed.

(** Identities survive their hexadecimal form: a public identity and a
    private identity are read back from the text they print, with the same keys
    and address. *)
Theorem identity_hex_roundtrip `{Features} `{IdentityCrypto} `{!IdentityLaws}
  (pk : arr 32) (vk : VerifyingKey) (secret : arr 32) (sk : SigningKey) :
  Identity.new_from_hex_string (Identity.to_hex_string (Identity.new pk vk)) =
    Ok (Identity.new pk vk) /\
  PrivateIdentity.new_from_hex_string (PrivateIdentity.to_hex_string (PrivateIdentity.new secret sk))
    = Ok (PrivateIdentity.new secret sk).
Proof.
  unfold Identity.new_from_hex_string, PrivateIdentity.new_from_hex_string.
  unfold Identity.to_hex_string, PrivateIdentity.to_hex_string. rewrite !hex_keys_print. simpl.
  unfold Identity.new_from_slices, copy_arr. rewrite !mk_arr_list. simpl.
  by rewrite vk_inverse, !arr_of_arr, sk_inverse.
Qed.

Lemma identity_hex_roundtrip_witness :
  Identity.new_from_hex_string (Identity.to_hex_string (Identity.new (arr_zero 32) (toy_secret x05))) =
    Ok (Identity.new (arr_zero 32) (toy_secret x05)).
Proof.
  exact (proj1 (identity_hex_roundtrip (arr_zero 32) (toy_secret x05) (arr_zero 32) (toy_secret x06))).
Defined.
