(* ===== verification/Destination.v ===== *)
(** [reticulum-patched/src/destination.rs]: destination names and addresses, and
    the announce packets that publish an identity for an address. *)

From Stdlib Require Import ZArith Lia.
From Stdlib Require Import Strings.Byte.
From stdpp Require Import base strings numbers list.
From S2P Require Import Prelude Crypto Buffer Packet Identity.

Definition SIGNATURE_LEN : nat := 64.
Definition NAME_HASH_LENGTH : nat := 10.
Definition RAND_HASH_LENGTH : nat := 10.
Definition MIN_ANNOUNCE_DATA_LENGTH : nat :=
  PUBLIC_KEY_LENGTH * 2 + NAME_HASH_LENGTH + RAND_HASH_LENGTH + SIGNATURE_LEN.

(** [PacketDataBuffer] *)
Abbreviation PacketData := (StaticBuffer.t PACKET_MDU).

Module DestinationName.
Section Operations.
Context `{C : Crypto}.

(** The name is its hash. *)
Definition new (app_name aspects : list byte) : Hash := sha256 (app_name ++ [x2e] ++ aspects).

(** [hash[..slice.len()].copy_from_slice(slice)] panics past 32 bytes. *)
Definition new_from_hash_slice (hash_slice : list byte) : result (fault RetError) Hash :=
  if Nat.ltb 32 (length hash_slice) then Err Panics
  else Ok (arr_of 32 (hash_slice ++ replicate (32 - length hash_slice) x00)).

Definition as_name_hash_slice (name : Hash) : list byte := take NAME_HASH_LENGTH name.

End Operations.
End DestinationName.

Record DestinationDesc `{IC : IdentityCrypto} : Type := mkDesc {
  d_identity : Identity.t;
  d_address_hash : AddressHash;
  d_name : Hash
}.

(** [Destination<PrivateIdentity, Input, Single>] and
    [Destination<Identity, Output, Single>]. *)
Record SingleInputDestination `{IC : IdentityCrypto} : Type := mkInput {
  in_identity : PrivateIdentity.t;
  in_desc : DestinationDesc
}.
Record SingleOutputDestination `{IC : IdentityCrypto} : Type := mkOutput {
  out_identity : Identity.t;
  out_desc : DestinationDesc
}.

Inductive DestinationHandleStatus : Type := StatusNone | StatusLinkProof.

Section Operations.
Context `{IC : IdentityCrypto}.

(** [identity] is [identity.as_address_hash_slice()]. *)
Definition create_address_hash (identity : list byte) (name : Hash) : AddressHash :=
  AddressHash.new_from_hash (sha256 (DestinationName.as_name_hash_slice name ++ identity)).

Definition SingleInput_new (identity : PrivateIdentity.t) (name : Hash) : SingleInputDestination :=
  let pub_identity := PrivateIdentity.identity identity in
  mkInput _ _ identity
    (mkDesc _ _ pub_identity (create_address_hash (Identity.address_hash pub_identity) name) name).

Definition SingleOutput_new (identity : Identity.t) (name : Hash) : SingleOutputDestination :=
  mkOutput _ _ identity
    (mkDesc _ _ identity (create_address_hash (Identity.address_hash identity) name) name).

(** The description of a [Plain] destination, whose identity is empty. *)
Definition Plain_new (name : Hash) : DestinationDesc :=
  mkDesc _ _ Identity.default_ (create_address_hash [] name) name.

(** A run of [chain_safe_write]s. *)
Definition safe_writes (slices : list (list byte)) (b : PacketData) : PacketData :=
  foldl (fun b slice => StaticBuffer.chain_safe_write slice b) b slices.

(** [if let Some(data) = app_data { packet_data.write(data)?; }] *)
Definition write_app_data (app_data : option (list byte)) (b : PacketData) :
    result RetError PacketData :=
  match app_data with
  | None => Ok b
  | Some data => match StaticBuffer.write data b with (b', Ok _) => Ok b' | (_, Err e) => Err e end
  end.

(** [rand] is what the generator fills in for [Hash::new_from_rand]. *)
Definition announce (rand : arr 32) (app_data : option (list byte)) (d : SingleInputDestination) :
    result RetError Packet :=
  let rand_hash := take RAND_HASH_LENGTH (sha256 rand) in
  let identity := PrivateIdentity.identity (in_identity d) in
  let pub_key := arr_list (Identity.public_key identity) in
  let verifying_key := arr_list (vk_as_bytes (Identity.verifying_key identity)) in
  let name_hash := DestinationName.as_name_hash_slice (d_name (in_desc d)) in
  signed ← write_app_data app_data
    (safe_writes [arr_list (d_address_hash (in_desc d)); pub_key; verifying_key; name_hash; rand_hash]
       (StaticBuffer.new PACKET_MDU));
  let signature := PrivateIdentity.sign (in_identity d) (StaticBuffer.as_slice signed) in
  packet_data ← write_app_data app_data
    (safe_writes [pub_key; verifying_key; name_hash; rand_hash; arr_list signature]
       (StaticBuffer.reset signed));
  Ok (mkPacket (mkHeader Open Type1 Broadcast Single Announce x00) None
        (d_address_hash (in_desc d)) None CtxNone packet_data).

(** A run of [chain_write]s with [?]. *)
Fixpoint chain_writes (slices : list (list byte)) (b : PacketData) : result RetError PacketData :=
  match slices with
  | [] => Ok b
  | slice :: more =>
      match StaticBuffer.chain_write slice b with
      | (b', Ok _) => chain_writes more b'
      | (_, Err e) => Err e
      end
  end.

(** The fields of the announce data, in order. *)
Definition announce_slice (at_ n : nat) (announce_data : list byte) : list byte :=
  take n (drop at_ announce_data).

(** The announced destination and the application data.  Every slice taken has
    the length its array needs, so [arr_of] is [copy_from_slice]. *)
Definition validate (packet : Packet) :
    result (fault RetError) (SingleOutputDestination * list byte) :=
  if negb (bool_decide (packet_type (header packet) = Announce)) then Err (Fails PacketError)
  else
    let announce_data := StaticBuffer.as_slice (data packet) in
    if Nat.ltb (length announce_data) MIN_ANNOUNCE_DATA_LENGTH then Err (Fails OutOfMemory)
    else
      let public_key := arr_of 32 (announce_slice 0 PUBLIC_KEY_LENGTH announce_data) in
      let key_data := arr_of 32 (announce_slice 32 PUBLIC_KEY_LENGTH announce_data) in
      verifying_key ← ok_or (vk_from_bytes key_data) (Fails CryptoError);
      let identity := Identity.new public_key verifying_key in
      let name_hash := announce_slice 64 NAME_HASH_LENGTH announce_data in
      let rand_hash := announce_slice 74 RAND_HASH_LENGTH announce_data in
      let signature := arr_of 64 (announce_slice 84 SIGNATURE_LEN announce_data) in
      let app_data := drop 148 announce_data in
      signed_data ← map_err Fails (chain_writes
        [arr_list (destination packet); arr_list public_key; arr_list (vk_as_bytes verifying_key);
         name_hash; rand_hash; app_data] (StaticBuffer.new PACKET_MDU));
      _ ← map_err Fails (Identity.verify identity (StaticBuffer.as_slice signed_data) signature);
      name ← DestinationName.new_from_hash_slice name_hash;
      Ok (SingleOutput_new identity name, app_data).

Definition SingleInput_handle_packet (packet : Packet) (d : SingleInputDestination) :
    DestinationHandleStatus :=
  if negb (bool_decide (d_address_hash (in_desc d) = destination packet)) then StatusNone
  else match packet_type (header packet) with LinkRequest => StatusLinkProof | _ => StatusNone end.

End Operations.

(** * Writing into packet data *)

Lemma chain_safe_write_fits {N} slice (b : StaticBuffer.t N) :
  StaticBuffer.wf b -> length (StaticBuffer.as_slice b) + length slice <= N ->
  StaticBuffer.wf (StaticBuffer.chain_safe_write slice b) /\
  StaticBuffer.as_slice (StaticBuffer.chain_safe_write slice b) = StaticBuffer.as_slice b ++ slice.
Proof.
  intros Hwf Hfit. unfold StaticBuffer.chain_safe_write.
  pose proof (static_safe_write_spec slice b Hwf) as Hs.
  destruct (StaticBuffer.safe_write slice b) as [b' n]. destruct Hs as (Hwf' & Ha & _).
  simpl fst. rewrite Ha. split; [done|]. by rewrite take_ge by lia.
Qed.

Lemma safe_writes_fit slices (b : PacketData) :
  StaticBuffer.wf b ->
  length (StaticBuffer.as_slice b) + length (concat slices) <= PACKET_MDU ->
  StaticBuffer.wf (safe_writes slices b) /\
  StaticBuffer.as_slice (safe_writes slices b) = StaticBuffer.as_slice b ++ concat slices.
Proof.
  unfold safe_writes. revert b. induction slices as [|s slices IH]; intros b Hwf Hfit.
  - simpl. by rewrite app_nil_r.
  - cbn [foldl concat] in *. rewrite length_app in Hfit.
    destruct (chain_safe_write_fits s b Hwf ltac:(lia)) as [Hwf' Hs].
    destruct (IH _ Hwf') as [Hw Ha]; [rewrite Hs, length_app; lia|].
    split; [done|]. by rewrite Ha, Hs, app_assoc.
Qed.

Lemma static_write_cases {N} slice (b : StaticBuffer.t N) :
  StaticBuffer.wf b ->
  if Nat.leb (length (StaticBuffer.as_slice b) + length slice) N
  then exists b', StaticBuffer.write slice b = (b', Ok (length slice)) /\ StaticBuffer.wf b' /\
    StaticBuffer.as_slice b' = StaticBuffer.as_slice b ++ slice
  else exists b', StaticBuffer.write slice b = (b', Err OutOfMemory).
Proof.
  intros Hwf. pose proof (static_write_spec slice b Hwf) as Hs.
  destruct (StaticBuffer.write slice b) as [b' r]. destruct Hs as [Hwf' Heq].
  unfold bounded_append in Heq. destruct (Nat.leb _ _); injection Heq as Ha ->; eauto.
Qed.

Lemma chain_writes_fit slices (b : PacketData) :
  StaticBuffer.wf b ->
  length (StaticBuffer.as_slice b) + length (concat slices) <= PACKET_MDU ->
  exists b', chain_writes slices b = Ok b' /\
    StaticBuffer.as_slice b' = StaticBuffer.as_slice b ++ concat slices.
Proof.
  revert b. induction slices as [|s slices IH]; intros b Hwf Hfit.
  - exists b. simpl. by rewrite app_nil_r.
  - cbn [chain_writes concat] in *. rewrite length_app in Hfit. unfold StaticBuffer.chain_write.
    pose proof (static_write_cases s b Hwf) as Hs.
    rewrite (proj2 (Nat.leb_le _ _)) in Hs by lia. destruct Hs as (b1 & -> & Hwf1 & Ha1).
    destruct (IH b1 Hwf1) as (b' & -> & Ha); [rewrite Ha1, length_app; lia|].
    exists b'. split; [done|]. by rewrite Ha, Ha1, app_assoc.
Qed.

Lemma write_app_data_spec app_data (b : PacketData) :
  StaticBuffer.wf b -> length (StaticBuffer.as_slice b) <= PACKET_MDU ->
  if Nat.leb (length (StaticBuffer.as_slice b) + length (default [] app_data)) PACKET_MDU
  then exists b', write_app_data app_data b = Ok b' /\ StaticBuffer.wf b' /\
    StaticBuffer.as_slice b' = StaticBuffer.as_slice b ++ default [] app_data
  else write_app_data app_data b = Err OutOfMemory.
Proof.
  intros Hwf Hle. destruct app_data as [data|]; cbn [default write_app_data].
  - pose proof (static_write_cases data b Hwf) as Hs.
    destruct (Nat.leb _ _); [destruct Hs as (b' & -> & Hs)|destruct Hs as (b' & ->)]; eauto.
  - rewrite (proj2 (Nat.leb_le _ _)) by (simpl; lia). exists b. by rewrite app_nil_r.
Qed.

Lemma reset_wf {N} (b : StaticBuffer.t N) :
  StaticBuffer.wf b -> StaticBuffer.wf (StaticBuffer.reset b).
Proof. intros [Hb _]. split; simpl; [done|lia]. Qed.

(** Slices and application data into an empty buffer. *)
Lemma write_fresh slices app_data (b : PacketData) n :
  StaticBuffer.wf b -> StaticBuffer.as_slice b = [] -> length (concat slices) = n ->
  n <= PACKET_MDU ->
  if Nat.leb (n + length (default [] app_data)) PACKET_MDU
  then exists b', write_app_data app_data (safe_writes slices b) = Ok b' /\ StaticBuffer.wf b' /\
    StaticBuffer.as_slice b' = concat slices ++ default [] app_data
  else write_app_data app_data (safe_writes slices b) = Err OutOfMemory.
Proof.
  intros Hwf Hnil <- Hn. destruct (safe_writes_fit slices b Hwf) as [Hwf' Ha]; [by rewrite Hnil|].
  rewrite Hnil, app_nil_l in Ha. pose proof (write_app_data_spec app_data _ Hwf') as Hw.
  rewrite Ha in Hw. by apply Hw.
Qed.

Lemma announce_slice_at (pre x post : list byte) at_ n :
  length pre = at_ -> length x = n -> announce_slice at_ n (pre ++ x ++ post) = x.
Proof.
  intros <- <-. unfold announce_slice. by rewrite drop_app_length, take_app_length.
Qed.

(** * Announces *)

Section Announces.
Context `{IC : IdentityCrypto}.

(** What is signed, and what is sent. *)
Definition signed_bytes (address : AddressHash) (pk vk : arr 32) (name_hash rand_hash app : list byte) :
    list byte :=
  arr_list address ++ arr_list pk ++ arr_list vk ++ name_hash ++ rand_hash ++ app.
Definition announce_bytes (pk vk : arr 32) (name_hash rand_hash : list byte) (signature : arr 64)
    (app : list byte) : list byte :=
  arr_list pk ++ arr_list vk ++ name_hash ++ rand_hash ++ arr_list signature ++ app.

Lemma length_name_hash (h : Hash) : length (DestinationName.as_name_hash_slice h) = 10.
Proof. unfold DestinationName.as_name_hash_slice, NAME_HASH_LENGTH. rewrite length_take, arr_length. lia. Qed.

Lemma length_rand_hash (h : Hash) : length (take RAND_HASH_LENGTH h) = 10.
Proof. unfold RAND_HASH_LENGTH. rewrite length_take, arr_length. lia. Qed.

(** [validate] on data laid out as an announce. *)
Lemma validate_layout `{!IdentityLaws} (p : Packet) pk vk name_hash rand_hash signature app :
  packet_type (header p) = Announce -> length name_hash = 10 -> length rand_hash = 10 ->
  148 + length app <= PACKET_MDU ->
  StaticBuffer.as_slice (data p) = announce_bytes pk (vk_as_bytes vk) name_hash rand_hash signature app ->
  verify_strict vk (signed_bytes (destination p) pk (vk_as_bytes vk) name_hash rand_hash app) signature
    = true ->
  validate p = Ok (SingleOutput_new (Identity.new pk vk)
                     (arr_of 32 (name_hash ++ replicate 22 x00)), app).
Proof.
  intros Hty Hn Hr Hfit Hdata Hsig. unfold validate. rewrite bool_decide_true by done. simpl negb.
  rewrite Hdata. cbv zeta iota. set (bytes := announce_bytes _ _ _ _ _ _).
  assert (Hb : length bytes = 148 + length app)
    by (subst bytes; unfold announce_bytes; rewrite !length_app, !arr_length; lia).
  rewrite (proj2 (Nat.ltb_ge _ _))
    by (rewrite Hb; unfold MIN_ANNOUNCE_DATA_LENGTH, PUBLIC_KEY_LENGTH, NAME_HASH_LENGTH,
        RAND_HASH_LENGTH, SIGNATURE_LEN; lia).
  assert (H0 : announce_slice 0 PUBLIC_KEY_LENGTH bytes = pk)
    by (apply (announce_slice_at []); [done|apply arr_length]).
  assert (H1 : announce_slice 32 PUBLIC_KEY_LENGTH bytes = vk_as_bytes vk)
    by (apply announce_slice_at; apply arr_length).
  assert (H2 : announce_slice 64 NAME_HASH_LENGTH bytes = name_hash).
  { subst bytes. unfold announce_bytes. rewrite (app_assoc (arr_list pk)).
    apply announce_slice_at; [rewrite length_app, !arr_length; done|done]. }
  assert (H3 : announce_slice 74 RAND_HASH_LENGTH bytes = rand_hash).
  { subst bytes. unfold announce_bytes. rewrite !app_assoc, <- (app_assoc _ (arr_list signature)).
    rewrite <- (app_assoc _ rand_hash).
    apply announce_slice_at; [rewrite !length_app, !arr_length; lia|done]. }
  assert (H4 : announce_slice 84 SIGNATURE_LEN bytes = signature).
  { subst bytes. unfold announce_bytes. rewrite !app_assoc, <- (app_assoc _ (arr_list signature)).
    apply announce_slice_at; [rewrite !length_app, !arr_length; lia|apply arr_length]. }
  assert (H5 : drop 148 bytes = app).
  { subst bytes. unfold announce_bytes. rewrite !app_assoc.
    apply drop_app_length'. rewrite !length_app, !arr_length. lia. }
  rewrite H0, H1, H2, H3, H4, H5, !arr_of_arr, vk_inverse. cbn [ok_or mbind result_bind].
  destruct (chain_writes_fit [arr_list (destination p); arr_list pk; arr_list (vk_as_bytes vk);
      name_hash; rand_hash; app] (StaticBuffer.new PACKET_MDU)) as (sb & -> & Hsb).
  { apply static_new_wf. }
  { cbn [concat StaticBuffer.as_slice]. rewrite !length_app, !arr_length.
    unfold StaticBuffer.as_slice. rewrite length_take. simpl StaticBuffer.len. simpl length. lia. }
  cbn [map_err mbind result_bind]. rewrite Hsb. cbn [concat]. rewrite app_nil_r.
  change (StaticBuffer.as_slice (StaticBuffer.new PACKET_MDU)) with (@nil byte).
  rewrite app_nil_l.
  unfold Identity.verify. change (Identity.verifying_key (Identity.new pk vk)) with vk.
  unfold signed_bytes in Hsig. rewrite Hsig. cbn [map_err mbind result_bind].
  unfold DestinationName.new_from_hash_slice. rewrite Hn. done.
Qed.

(** The total length of a list of slices of known lengths. *)
Ltac spec_length H slices :=
  specialize (H ltac:(subst slices; cbn [concat]; rewrite !length_app, !arr_length; simpl length; lia)
                ltac:(unfold PACKET_MDU; lia)).

(** [announce] lays the data out and signs it, when it fits. *)
Lemma announce_layout (rand : arr 32) (app_data : option (list byte)) (d : SingleInputDestination) :
  let identity := PrivateIdentity.identity (in_identity d) in
  let pk := Identity.public_key identity in
  let vk := vk_as_bytes (Identity.verifying_key identity) in
  let name_hash := DestinationName.as_name_hash_slice (d_name (in_desc d)) in
  let rand_hash := take RAND_HASH_LENGTH (sha256 rand) in
  let app := default [] app_data in
  if Nat.leb (148 + length app) PACKET_MDU
  then exists p, announce rand app_data d = Ok p /\ packet_type (header p) = Announce /\
    destination p = d_address_hash (in_desc d) /\
    StaticBuffer.as_slice (data p) = announce_bytes pk vk name_hash rand_hash
      (PrivateIdentity.sign (in_identity d)
         (signed_bytes (d_address_hash (in_desc d)) pk vk name_hash rand_hash app)) app
  else announce rand app_data d = Err OutOfMemory.
Proof.
  intros identity pk vk name_hash rand_hash app. unfold announce. cbv zeta.
  fold identity. fold pk. fold vk. fold name_hash. fold rand_hash.
  pose proof (length_name_hash (d_name (in_desc d))) as Hn. fold name_hash in Hn.
  pose proof (length_rand_hash (sha256 rand)) as Hr. fold rand_hash in Hr.
  set (slices := [arr_list (d_address_hash (in_desc d)); arr_list pk; arr_list vk; name_hash; rand_hash]).
  pose proof (write_fresh slices app_data (StaticBuffer.new PACKET_MDU) 100) as Hw.
  specialize (Hw (static_new_wf _) eq_refl). fold app in Hw.
  spec_length Hw slices.
  destruct (Nat.leb_spec (100 + length app) PACKET_MDU) as [Hfit|Hover];
    [|rewrite (proj2 (Nat.leb_gt _ _)) by lia; by rewrite Hw].
  destruct Hw as (signed & -> & Hwf2 & Ha2). cbn [mbind result_bind].
  set (sig := PrivateIdentity.sign _ _).
  set (slices2 := [arr_list pk; arr_list vk; name_hash; rand_hash; arr_list sig]).
  pose proof (write_fresh slices2 app_data (StaticBuffer.reset signed) 148) as Hw.
  specialize (Hw (reset_wf _ Hwf2) eq_refl). fold app in Hw.
  spec_length Hw slices2.
  destruct (Nat.leb (148 + length app) PACKET_MDU); [|by rewrite Hw].
  destruct Hw as (pd & -> & _ & Ha4). cbn [mbind result_bind]. eexists. split; [done|].
  split; [done|]. split; [done|]. cbn [data]. rewrite Ha4. subst slices2 sig. cbn [concat].
  rewrite Ha2. subst slices. cbn [concat]. unfold announce_bytes, signed_bytes.
  by rewrite !app_nil_r, <- !app_assoc.
Qed.

Lemma address_hash_truncated identity (name : Hash) :
  create_address_hash identity
    (arr_of 32 (DestinationName.as_name_hash_slice name ++ replicate 22 x00)) =
  create_address_hash identity name.
Proof.
  unfold create_address_hash. do 3 f_equal. unfold DestinationName.as_name_hash_slice at 1.
  rewrite arr_of_list by (rewrite length_app, length_name_hash, length_replicate; done).
  apply take_app_length'. by rewrite length_name_hash.
Qed.

End Announces.

#[local] Existing Instance toy_features.
#[local] Existing Instance toy_crypto.
#[local] Existing Instance toy_identity.
#[local] Existing Instance toy_identity_laws.

(** An announce validates.  When the application data fits, the packet
    [announce] makes validates to the announcing identity, the address of its
    name, and the application data; otherwise [announce] fails with
    [OutOfMemory].  This holds whatever address the announce is made for: nothing
    ties the packet's destination to the identity that signed it, so a node can
    announce its own keys for an address that is not its own. *)
Theorem announce_validates `{IdentityCrypto} `{!IdentityLaws} (secret : arr 32) (k : SigningKey)
  (name : Hash) (address : AddressHash) (rand : arr 32) (app_data : option (list byte)) :
  let id := PrivateIdentity.new secret k in
  let d := mkInput _ _ id (mkDesc _ _ (PrivateIdentity.identity id) address name) in
  if Nat.leb (148 + length (default [] app_data)) PACKET_MDU
  then exists p out, announce rand app_data d = Ok p /\ destination p = address /\
    validate p = Ok (out, default [] app_data) /\ out_identity out = PrivateIdentity.identity id /\
    d_address_hash (out_desc out) = d_address_hash (in_desc (SingleInput_new id name))
  else announce rand app_data d = Err OutOfMemory.
Proof.
  intros id d. pose proof (announce_layout rand app_data d) as Hl. cbv zeta in Hl.
  destruct (Nat.leb_spec (148 + length (default [] app_data)) PACKET_MDU) as [Hfit|]; [|done].
  destruct Hl as (p & Hp & Hty & Hd & Hdata). exists p. eexists. split; [done|]. split; [done|].
  split; [|split].
  - eapply validate_layout; eauto using length_name_hash, length_rand_hash.
    rewrite Hd. apply verify_strict_sign.
  - done.
  - apply address_hash_truncated.
Qed.

Lemma announce_validates_witness :
  exists p out, announce (arr_zero 32) (Some [x61])
      (SingleInput_new (PrivateIdentity.new (arr_zero 32) (toy_secret x07)) (arr_zero 32)) = Ok p /\
    validate p = Ok (out, [x61]).
Proof.
  destruct (announce_validates (arr_zero 32) (toy_secret x07) (arr_zero 32)
    (d_address_hash (in_desc (SingleInput_new (PrivateIdentity.new (arr_zero 32) (toy_secret x07))
       (arr_zero 32)))) (arr_zero 32) (Some [x61])) as (p & out & Hp & _ & Hv & _).
  exists p, out. split; [exact Hp|exact Hv].
Defined.
