(* ===== verification/Link.v ===== *)
(** [reticulum-patched/src/destination/link.rs]: encrypted links.  An initiator
    sends a request, the destination answers with a proof signed by its key, and
    both derive the key that encrypts the packets of the link.

    The events a link posts to its broadcast channel are returned by the
    operation that posts them.  [now] is the monotonic clock in milliseconds;
    keys drawn at random are arguments. *)

From Stdlib Require Import ZArith Lia.
From Stdlib Require Import Strings.Byte.
From stdpp Require Import base strings numbers relations list.
From coqutil Require Import Datatypes.RecordSetters.
From S2P Require Import Prelude Crypto Buffer Packet Identity Destination.
Import DoubleBraceUpdate.

Definition LINK_MTU_SIZE : nat := 3.

Inductive LinkStatus : Type := Pending | Handshake | Active | Stale | Closed.
#[export] Instance LinkStatus_eq_dec : EqDecision LinkStatus.
Proof. solve_decision. Defined.

(** * Payloads *)

Module LinkPayload.

Record t : Type := mk { buffer : list byte; len : nat }.

Definition new : t := mk (replicate PACKET_MDU x00) 0.

Definition new_from_slice (data : list byte) : t :=
  let n := Nat.min (length data) PACKET_MDU in
  mk (splice (replicate PACKET_MDU x00) 0 (take n data)) n.

(** The length is that of the data, also when the buffer cannot hold it. *)
Definition new_from_vec (data : list byte) : t :=
  mk (splice (replicate PACKET_MDU x00) 0 (take PACKET_MDU data)) (length data).

Definition as_slice (p : t) : result (fault RetError) (list byte) :=
  if Nat.ltb (length (buffer p)) (len p) then Err Panics else Ok (take (len p) (buffer p)).

End LinkPayload.

Section LinkId.
Context `{C : Crypto}.

(** [LinkId::from(&packet)]: the packet hash over at most the two public keys. *)
Definition LinkId_from (packet : Packet) : AddressHash :=
  let data := StaticBuffer.as_slice (data packet) in
  let data_diff := if Nat.ltb (PUBLIC_KEY_LENGTH * 2) (length data)
                   then length data - PUBLIC_KEY_LENGTH * 2 else 0 in
  let hashable_data := take (length data - data_diff) data in
  AddressHash.new_from_hash
    (sha256 ([byte_of_Z (Z.land (to_meta (header packet)) 0x0F)] ++ arr_list (destination packet)
             ++ [byte_of_Z (PacketContext_u8 (context packet))] ++ hashable_data)).

End LinkId.

Inductive LinkHandleResult : Type := HandleNone | HandleActivated | HandleKeepAlive.

Inductive LinkEvent : Type :=
| EvActivated
| EvData (payload : LinkPayload.t) (context : PacketContext)
| EvClosed.

Record LinkEventData : Type := mkEvent {
  ev_id : AddressHash;
  ev_address_hash : AddressHash;
  ev_event : LinkEvent;
  ev_peer_identity_hash : option AddressHash
}.

(** * Links *)

Module Link.

Record t `{IC : IdentityCrypto} : Type := mk {
  id : AddressHash;
  l_destination : DestinationDesc;
  priv_identity : PrivateIdentity.t;
  peer_identity : Identity.t;
  derived_key : list byte;
  status : LinkStatus;
  request_time : Z;
  rtt : Z
}.

Section Operations.
Context `{F : Features} `{IC : IdentityCrypto}.

(** The header of the packets a link makes. *)
Definition link_header (ty : DestinationType) (pt : PacketType) : Header :=
  mkHeader Open Type1 Broadcast ty pt x00.

(** A new packet buffer with a run of [safe_write]s. *)
Definition packet_data (slices : list (list byte)) : PacketData :=
  safe_writes slices (StaticBuffer.new PACKET_MDU).

Definition post_event (event : LinkEvent) (l : t) : LinkEventData :=
  mkEvent (id l) (d_address_hash (l_destination l)) event
    (Some (Identity.address_hash (peer_identity l))).

Definition new (identity : PrivateIdentity.t) (destination : DestinationDesc) (now : Z) : t :=
  mk _ _ AddressHash.new_empty destination identity Identity.default_ DerivedKey.new_empty Pending
    now 0.

Definition handshake (peer : Identity.t) (l : t) : t :=
  l {{ status := Handshake; peer_identity := peer;
       derived_key := PrivateIdentity.derive_key (priv_identity l) (Identity.public_key peer)
                        (Some (arr_list (id l))) }}.

(** [secret] is the new link's private key. *)
Definition new_from_request (packet : Packet) (signing_key : SigningKey) (secret : arr 32)
    (destination : DestinationDesc) (now : Z) : result (fault RetError) t :=
  let bytes := StaticBuffer.as_slice (data packet) in
  if Nat.ltb (StaticBuffer.len (data packet)) (PUBLIC_KEY_LENGTH * 2)
  then Err (Fails InvalidArgument)
  else
    peer_identity ← Identity.new_from_slices (take PUBLIC_KEY_LENGTH bytes)
      (take PUBLIC_KEY_LENGTH (drop PUBLIC_KEY_LENGTH bytes));
    let link := mk _ _ (LinkId_from packet) destination (PrivateIdentity.new secret signing_key)
                  peer_identity DerivedKey.new_empty Pending now 0 in
    Ok (handshake peer_identity link).

Definition request (now : Z) (l : t) : t * Packet :=
  let identity := PrivateIdentity.identity (priv_identity l) in
  let packet := mkPacket (link_header Single LinkRequest) None (d_address_hash (l_destination l)) None
    CtxNone (packet_data [arr_list (Identity.public_key identity);
                          arr_list (vk_as_bytes (Identity.verifying_key identity))]) in
  (l {{ status := Pending; id := LinkId_from packet; request_time := now }}, packet).

Definition prove (l : t) : t * Packet * list LinkEventData :=
  let '(l, events) := if negb (bool_decide (status l = Active))
                      then let l := l {{ status := Active }} in (l, [post_event EvActivated l])
                      else (l, []) in
  let identity := PrivateIdentity.identity (priv_identity l) in
  let public_key := arr_list (Identity.public_key identity) in
  let signed := packet_data [arr_list (id l); public_key;
                             arr_list (vk_as_bytes (Identity.verifying_key identity))] in
  let signature := PrivateIdentity.sign (priv_identity l) (StaticBuffer.as_slice signed) in
  let proof := safe_writes [arr_list signature; public_key] (StaticBuffer.reset signed) in
  (l, mkPacket (link_header Single Proof_) None (id l) None LinkRequestProof proof, events).

Definition encrypt (iv : arr 16) (text : list byte) (out_len : nat) (l : t) :
    result (fault RetError) (list byte) := PrivateIdentity.encrypt iv text (derived_key l) out_len.
Definition decrypt (text : list byte) (out_len : nat) (l : t) :
    result (fault RetError) (list byte) := PrivateIdentity.decrypt text (derived_key l) out_len.

(** Decrypt, note the time and post the data; an error is only logged, a panic
    is kept. *)
Definition receive_data (packet : Packet) (now : Z) (l : t) :
    result (fault RetError) (t * LinkHandleResult * list LinkEventData) :=
  match decrypt (StaticBuffer.as_slice (data packet)) PACKET_MDU l with
  | Ok plain_text =>
      let l := l {{ request_time := now }} in
      Ok (l, HandleNone,
          [post_event (EvData (LinkPayload.new_from_slice plain_text) (context packet)) l])
  | Err Panics => Err Panics
  | Err _ => Ok (l, HandleNone, [])
  end.

(** A link that is not active handles data all the same (with a warning). *)
Definition handle_data_packet (packet : Packet) (now : Z) (l : t) :
    result (fault RetError) (t * LinkHandleResult * list LinkEventData) :=
  match context packet with
  | KeepAlive =>
      match head (StaticBuffer.as_slice (data packet)) with
      | Some xff => Ok (l {{ request_time := now }}, HandleKeepAlive, [])
      | Some xfe => Ok (l {{ request_time := now }}, HandleNone, [])
      | _ => Ok (l, HandleNone, [])
      end
  | _ => receive_data packet now l
  end.

Definition MIN_PROOF_LEN : nat := SIGNATURE_LEN + PUBLIC_KEY_LENGTH.
Definition MTU_PROOF_LEN : nat := SIGNATURE_LEN + PUBLIC_KEY_LENGTH + LINK_MTU_SIZE.
Definition SIGN_DATA_LEN : nat := ADDRESS_HASH_SIZE + PUBLIC_KEY_LENGTH * 2 + LINK_MTU_SIZE.

(** The bytes the proof's signature covers, written into [proof_data]. *)
Definition proof_sign_data (verifying_key : list byte) (id : AddressHash) (bytes : list byte) :
    stres OutputBuffer.t RetError unit :=
  _ ← OutputBuffer.write (arr_list id);
  _ ← OutputBuffer.write (take PUBLIC_KEY_LENGTH (drop SIGNATURE_LEN bytes));
  _ ← OutputBuffer.write verifying_key;
  if Nat.leb MTU_PROOF_LEN (length bytes)
  then _ ← OutputBuffer.write (drop (SIGNATURE_LEN + PUBLIC_KEY_LENGTH) bytes); mret tt
  else mret tt.

Definition validate_proof_packet (destination : DestinationDesc) (id : AddressHash)
    (packet : Packet) : result (fault RetError) Identity.t :=
  let bytes := StaticBuffer.as_slice (data packet) in
  if Nat.ltb (length bytes) MIN_PROOF_LEN then Err (Fails PacketError)
  else
    let verifying_key := arr_list (vk_as_bytes (Identity.verifying_key (d_identity destination))) in
    let '(output, r) := proof_sign_data verifying_key id bytes
                          (OutputBuffer.new (replicate SIGN_DATA_LEN x00)) in
    _ ← map_err Fails r;
    let proof_data := OutputBuffer.buffer output in
    identity ← Identity.new_from_slices
      (take PUBLIC_KEY_LENGTH (drop ADDRESS_HASH_SIZE proof_data)) verifying_key;
    let signature := arr_of 64 (take SIGNATURE_LEN bytes) in
    _ ← map_err Fails (Identity.verify identity (OutputBuffer.as_slice output) signature);
    Ok identity.

Definition handle_packet (packet : Packet) (now : Z) (l : t) :
    result (fault RetError) (t * LinkHandleResult * list LinkEventData) :=
  if negb (bool_decide (destination packet = id l)) then Ok (l, HandleNone, [])
  else match packet_type (header packet) with
  | Data => handle_data_packet packet now l
  | Proof_ =>
      if bool_decide (status l = Pending) && bool_decide (context packet = LinkRequestProof) then
        match validate_proof_packet (l_destination l) (id l) packet with
        | Ok identity =>
            let l := (handshake identity l) {{ status := Active; rtt := sat_sub now (request_time l) }} in
            Ok (l, HandleActivated, [post_event EvActivated l])
        | Err Panics => Err Panics
        | Err _ => Ok (l, HandleNone, [])
        end
      else Ok (l, HandleNone, [])
  | _ => Ok (l, HandleNone, [])
  end.

(** The packet of a token: [accuire_buf_max], the encryption into it, and
    [resize] to the token's length. *)
Definition token_data (token : list byte) : PacketData :=
  let b := StaticBuffer.new PACKET_MDU in
  StaticBuffer.resize (StaticBuffer.fill token (StaticBuffer.mk (StaticBuffer.buffer b) PACKET_MDU))
    (length token).

Definition data_packet_with_context (context : PacketContext) (iv : arr 16) (data : list byte)
    (l : t) : result (fault RetError) Packet :=
  cipher_text ← encrypt iv data PACKET_MDU l;
  Ok (mkPacket (link_header Packet.Link Packet.Data) None (id l) None context (token_data cipher_text)).

Definition data_packet (iv : arr 16) (data : list byte) (l : t) : result (fault RetError) Packet :=
  data_packet_with_context CtxNone iv data l.

Definition keep_alive_packet (byte_ : byte) (l : t) : Packet :=
  mkPacket (link_header Packet.Link Packet.Data) None (id l) None KeepAlive (packet_data [[byte_]]).

(** [encoded_rtt] is the MessagePack [f32] of the round-trip time. *)
Definition create_rtt (iv : arr 16) (encoded_rtt : list byte) (l : t) :
    result (fault RetError) Packet :=
  match encrypt iv encoded_rtt PACKET_MDU l with
  | Ok token => Ok (mkPacket (link_header Packet.Link Packet.Data) None (id l) None LinkRTT
                      (token_data token))
  | Err _ => Err Panics
  end.

Definition close (l : t) : t * list LinkEventData :=
  let l := l {{ status := Closed }} in (l, [post_event EvClosed l]).

Definition restart (l : t) : t := l {{ status := Pending }}.

Definition elapsed (now : Z) (l : t) : Z := sat_sub now (request_time l).

End Operations.
End Link.

Import Link.

(** * Packet data *)

Lemma packet_data_fits slices : length (concat slices) <= PACKET_MDU ->
  StaticBuffer.wf (packet_data slices) /\ StaticBuffer.as_slice (packet_data slices) = concat slices.
Proof.
  intros Hfit. unfold packet_data.
  destruct (safe_writes_fit slices (StaticBuffer.new PACKET_MDU)) as [Hwf Ha];
    [apply static_new_wf|done|]. done.
Qed.

Lemma wf_len_slice {N} (b : StaticBuffer.t N) :
  StaticBuffer.wf b -> StaticBuffer.len b = length (StaticBuffer.as_slice b).
Proof. intros Hwf. by rewrite length_as_slice. Qed.

Lemma token_data_slice token : length token <= PACKET_MDU ->
  StaticBuffer.as_slice (token_data token) = token.
Proof.
  intros Hfit. unfold token_data, StaticBuffer.resize, StaticBuffer.fill, StaticBuffer.as_slice.
  cbn [StaticBuffer.buffer StaticBuffer.len StaticBuffer.new].
  rewrite length_splice by (rewrite length_replicate; lia). rewrite length_replicate.
  rewrite Nat.min_l by done.
  change (length token) with (0 + length token) at 1. rewrite take_splice by (rewrite length_replicate; lia).
  done.
Qed.

Lemma payload_slice data : length data <= PACKET_MDU ->
  LinkPayload.as_slice (LinkPayload.new_from_slice data) = Ok data.
Proof.
  intros Hfit. unfold LinkPayload.as_slice, LinkPayload.new_from_slice.
  cbn [LinkPayload.buffer LinkPayload.len]. rewrite Nat.min_l, take_ge by done.
  rewrite length_splice by (rewrite length_replicate; lia). rewrite length_replicate.
  rewrite (proj2 (Nat.ltb_ge _ _)) by done.
  change (length data) with (0 + length data). rewrite take_splice by (rewrite length_replicate; lia).
  done.
Qed.

Section Facts.
Context `{F : Features} `{IC : IdentityCrypto} `{IL : !IdentityLaws}.

Lemma new_from_slices_keys (pk : arr 32) (vk : VerifyingKey) :
  Identity.new_from_slices pk (vk_as_bytes vk) = Ok (Identity.new pk vk).
Proof.
  unfold Identity.new_from_slices, copy_arr. rewrite !mk_arr_list. simpl. by rewrite vk_inverse.
Qed.

(** * Handshake *)

(** The two keys a request carries. *)
Definition request_bytes (i : Identity.t) : list byte :=
  Identity.public_key i ++ vk_as_bytes (Identity.verifying_key i).

Lemma request_packet now (l : Link.t) :
  let p := (Link.request now l).2 in
  StaticBuffer.wf (data p) /\
  StaticBuffer.as_slice (data p) = request_bytes (PrivateIdentity.identity (priv_identity l)).
Proof.
  cbn [Link.request snd data]. edestruct packet_data_fits as [Hwf Ha]; [|split; [exact Hwf|]].
  - cbn [concat]. rewrite !length_app, !arr_length. unfold PACKET_MDU. simpl length. lia.
  - rewrite Ha. cbn [concat]. by rewrite app_nil_r.
Qed.

Lemma new_from_request_ok packet kb secret desc now pk vk :
  StaticBuffer.wf (data packet) ->
  StaticBuffer.as_slice (data packet) = request_bytes (Identity.new pk vk) ->
  Link.new_from_request packet kb secret desc now =
  Ok (Link.handshake (Identity.new pk vk)
        (Link.mk _ _ (LinkId_from packet) desc (PrivateIdentity.new secret kb) (Identity.new pk vk)
           DerivedKey.new_empty Pending now 0)).
Proof.
  intros Hwf Hb. unfold Link.new_from_request. cbv zeta. rewrite (wf_len_slice _ Hwf), Hb.
  unfold request_bytes. cbn [Identity.new Identity.public_key Identity.verifying_key].
  rewrite length_app, !arr_length. cbn [Nat.ltb Nat.leb PUBLIC_KEY_LENGTH Nat.add Nat.mul].
  rewrite (take_app_length' (arr_list pk)), (drop_app_length' (arr_list pk))
    by (by rewrite arr_length).
  rewrite take_ge by (rewrite arr_length; done). rewrite new_from_slices_keys. done.
Qed.

(** What a proof signs, and its data. *)
Definition proof_signed (id : AddressHash) (pk : arr 32) (vk : VerifyingKey) : list byte :=
  id ++ pk ++ vk_as_bytes vk.

Lemma prove_packet (l : Link.t) :
  let '(l', p, _) := Link.prove l in
  let i := PrivateIdentity.identity (priv_identity l) in
  l' = l {{ status := Active }} /\ header p = link_header Single Proof_ /\
  destination p = id l /\ context p = LinkRequestProof /\
  StaticBuffer.as_slice (data p) =
    PrivateIdentity.sign (priv_identity l)
      (proof_signed (id l) (Identity.public_key i) (Identity.verifying_key i)) ++ Identity.public_key i.
Proof.
  unfold Link.prove. set (step := if negb _ then _ else _).
  assert (Hs : fst step = l {{ status := Active }}).
  { subst step. destruct l; simpl. case_bool_decide; [by subst|done]. }
  destruct step as [l1 events]. simpl in Hs. subst l1.
  destruct l as [lid desc priv peer key st time_ rtt_]. cbn [id priv_identity].
  set (i := PrivateIdentity.identity _).
  destruct (packet_data_fits [arr_list lid; arr_list (Identity.public_key i);
    arr_list (vk_as_bytes (Identity.verifying_key i))]) as [Hwf Ha].
  { cbn [concat]. rewrite !length_app, !arr_length. unfold PACKET_MDU. simpl length. lia. }
  repeat (split; [done|]). cbn [data].
  edestruct safe_writes_fit as [_ ->]; [apply reset_wf, Hwf| |].
  { change (StaticBuffer.as_slice (StaticBuffer.reset _)) with (@nil byte).
    cbn [concat]. rewrite !length_app, !arr_length. unfold PACKET_MDU. simpl length. lia. }
  change (StaticBuffer.as_slice (StaticBuffer.reset _)) with (@nil byte). cbn [concat].
  rewrite Ha. cbn [concat]. by rewrite !app_nil_r.
Qed.

(** The MTU bytes count when there are at least three. *)
Definition proof_extra (mtu : list byte) : list byte :=
  if Nat.leb LINK_MTU_SIZE (length mtu) then mtu else [].

Lemma proof_sign_data_spec (vk : VerifyingKey) (id : AddressHash) (sig : arr 64) (pk : arr 32) mtu :
  let '(out, r) := proof_sign_data (vk_as_bytes vk) id (sig ++ pk ++ mtu)
                     (OutputBuffer.new (replicate SIGN_DATA_LEN x00)) in
  if Nat.leb (length mtu) LINK_MTU_SIZE
  then r = Ok tt /\ OutputBuffer.as_slice out = proof_signed id pk vk ++ proof_extra mtu
  else r = Err OutOfMemory.
Proof.
  unfold proof_sign_data, MTU_PROOF_LEN.
  rewrite (drop_app_length' (arr_list sig) _ SIGNATURE_LEN) by (by rewrite arr_length).
  rewrite (take_app_length' (arr_list pk)) by (by rewrite arr_length).
  rewrite (app_assoc (arr_list sig)), (drop_app_length' (sig ++ pk))
    by (by rewrite length_app, !arr_length).
  rewrite !length_app, !arr_length. set (b0 := OutputBuffer.new _).
  assert (W0 : OutputBuffer.wf b0) by apply ob_new_wf.
  assert (R0 : OutputBuffer.room b0 = 83) by (subst b0; by rewrite ob_room_new, length_replicate).
  assert (S0 : OutputBuffer.as_slice b0 = []) by done. clearbody b0.
  pose proof (arr_length id) as Li. pose proof (arr_length pk) as Lp.
  pose proof (arr_length (vk_as_bytes vk)) as Lv.
  ob_step b1 W1 S1 R1. ob_step b2 W2 S2 R2. ob_step b3 W3 S3 R3. unfold proof_extra.
  assert (Hb3 : OutputBuffer.as_slice b3 = proof_signed id pk vk)
    by (rewrite S3, S2, S1, S0; unfold proof_signed; by rewrite <- !app_assoc).
  unfold SIGNATURE_LEN, PUBLIC_KEY_LENGTH, LINK_MTU_SIZE.
  destruct (Nat.leb_spec (64 + 32 + 3) (64 + 32 + length mtu)) as [Hm|Hm].
  - rewrite (proj2 (Nat.leb_le 3 _)) by lia. destruct (Nat.leb_spec (length mtu) 3) as [Hs|Hs].
    + ob_step b4 W4 S4 R4. cbn [mret stres_ret]. by rewrite S4, Hb3.
    + by rewrite (stres_bind_Err _ _ _ _ _ (ob_write_overflow mtu b3 W3 ltac:(lia))).
  - rewrite (proj2 (Nat.leb_le (length mtu) 3)), (proj2 (Nat.leb_gt 3 _)) by lia.
    cbn [mret stres_ret]. by rewrite Hb3, app_nil_r.
Qed.

Lemma take_drop_of_take {A} (l : list A) i n off : i + n <= off ->
  take n (drop i (take off l)) = take n (drop i l).
Proof. intros H. rewrite skipn_firstn_comm, take_take. f_equal. lia. Qed.

Lemma proof_signed_key id pk vk rest :
  take PUBLIC_KEY_LENGTH (drop ADDRESS_HASH_SIZE (proof_signed id pk vk ++ rest)) = arr_list pk.
Proof.
  unfold proof_signed. rewrite <- app_assoc.
  rewrite (drop_app_length' (arr_list id)) by (by rewrite arr_length). rewrite <- app_assoc.
  by rewrite (take_app_length' (arr_list pk)) by (by rewrite arr_length).
Qed.

(** [validate_proof_packet] accepts exactly the proofs signed by the
    destination's key. *)
Lemma validate_proof_spec desc id packet (sig : arr 64) (pk : arr 32) mtu :
  StaticBuffer.as_slice (data packet) = sig ++ pk ++ mtu ->
  validate_proof_packet desc id packet =
    let vk := Identity.verifying_key (d_identity desc) in
    if Nat.ltb LINK_MTU_SIZE (length mtu) then Err (Fails OutOfMemory)
    else if verify_strict vk (proof_signed id pk vk ++ proof_extra mtu) sig
    then Ok (Identity.new pk vk) else Err (Fails IncorrectSignature).
Proof.
  intros Hb. unfold validate_proof_packet. cbv zeta. rewrite Hb.
  rewrite !length_app, !arr_length, (proj2 (Nat.ltb_ge _ MIN_PROOF_LEN))
    by (unfold MIN_PROOF_LEN, SIGNATURE_LEN, PUBLIC_KEY_LENGTH; lia).
  set (vk := Identity.verifying_key _).
  pose proof (proof_sign_data_spec vk id sig pk mtu) as Hs.
  destruct (proof_sign_data _ _ _ _) as [out r].
  destruct (Nat.leb_spec (length mtu) LINK_MTU_SIZE) as [Hm|Hm];
    [|rewrite (proj2 (Nat.ltb_lt _ _)) by done; by subst r].
  destruct Hs as [-> Hs]. rewrite (proj2 (Nat.ltb_ge _ _)) by done. cbn [map_err mbind result_bind].
  assert (Hl : 48 <= OutputBuffer.offset out).
  { assert (48 <= length (OutputBuffer.as_slice out)) as Hge
      by (rewrite Hs; unfold proof_signed; rewrite !length_app, !arr_length; lia).
    unfold OutputBuffer.as_slice in Hge. rewrite length_take in Hge. lia. }
  rewrite <- (take_drop_of_take (OutputBuffer.buffer out) ADDRESS_HASH_SIZE PUBLIC_KEY_LENGTH
    (OutputBuffer.offset out)) by done.
  change (take (OutputBuffer.offset out) (OutputBuffer.buffer out)) with (OutputBuffer.as_slice out).
  rewrite Hs, proof_signed_key, new_from_slices_keys. cbn [mbind result_bind].
  rewrite (take_app_length' (arr_list sig)) by (by rewrite arr_length). rewrite arr_of_arr.
  unfold Identity.verify. change (Identity.verifying_key (Identity.new pk vk)) with vk.
  by destruct (verify_strict _ _ _).
Qed.

Lemma validate_proof_authentic desc id packet i :
  validate_proof_packet desc id packet = Ok i ->
  exists sig pk mtu, let vk := Identity.verifying_key (d_identity desc) in
    StaticBuffer.as_slice (data packet) = arr_list sig ++ arr_list pk ++ mtu /\
    verify_strict vk (proof_signed id pk vk ++ proof_extra mtu) sig = true /\ i = Identity.new pk vk.
Proof.
  intros Hok. set (bytes := StaticBuffer.as_slice (data packet)) in *.
  destruct (Nat.ltb_spec (length bytes) MIN_PROOF_LEN) as [Hs|Hs].
  { exfalso. revert Hok. unfold validate_proof_packet. cbv zeta. fold bytes.
    by rewrite (proj2 (Nat.ltb_lt _ _)) by done. }
  unfold MIN_PROOF_LEN, SIGNATURE_LEN, PUBLIC_KEY_LENGTH in Hs.
  exists (arr_of 64 (take 64 bytes)), (arr_of 32 (take 32 (drop 64 bytes))), (drop 96 bytes).
  assert (Hb : bytes = arr_of 64 (take 64 bytes) ++ arr_of 32 (take 32 (drop 64 bytes)) ++ drop 96 bytes).
  { rewrite !arr_of_list by (rewrite length_take, ?length_drop; lia).
    change 96 with (64 + 32). rewrite <- drop_drop, !take_drop. done. }
  split; [done|]. rewrite (validate_proof_spec _ _ _ _ _ _ Hb) in Hok. cbv zeta in Hok.
  destruct (Nat.ltb _ _); [done|]. destruct (verify_strict _ _ _); [|done].
  by injection Hok as <-.
Qed.

(** * Data *)

(** Two ends with the same identifier and key: what one sends the other posts,
    and a payload too long for a packet panics. *)
Lemma link_transfer (x y : Link.t) ctx iv text now :
  id x = id y -> derived_key x = derived_key y -> length (derived_key x) = DERIVED_KEY_LENGTH ->
  ctx <> KeepAlive ->
  if Nat.leb (token_length (length text)) PACKET_MDU
  then exists p payload, data_packet_with_context ctx iv text x = Ok p /\
    Link.handle_packet p now y =
      Ok (y {{ request_time := now }}, HandleNone, [post_event (EvData payload ctx) y]) /\
    LinkPayload.as_slice payload = Ok text
  else data_packet_with_context ctx iv text x = Err Panics.
Proof.
  intros Hid Hkey Hlen Hctx. destruct (fernet_of_ok (derived_key x) Hlen) as [f Hf].
  unfold data_packet_with_context, Link.encrypt.
  destruct (Nat.leb_spec (token_length (length text)) PACKET_MDU) as [Hfit|Hover].
  - destruct (private_decrypt_encrypt (derived_key x) f iv text PACKET_MDU PACKET_MDU)
      as (token & -> & Htl & Hdec); [done|done|unfold token_length in Hfit; lia|].
    cbn [mbind result_bind]. eexists _, _. split; [done|].
    unfold Link.handle_packet. cbn [destination header packet_type link_header context].
    rewrite bool_decide_true by done. cbn [negb].
    assert (Hd : handle_data_packet (mkPacket (link_header Packet.Link Packet.Data) None (id x) None ctx
        (token_data token)) now y =
      receive_data (mkPacket (link_header Packet.Link Packet.Data) None (id x) None ctx
        (token_data token)) now y) by (unfold handle_data_packet; by destruct ctx).
    rewrite Hd. unfold receive_data, Link.decrypt. cbn [data context].
    rewrite token_data_slice, <- Hkey, Hdec by lia. split; [by destruct y|].
    apply payload_slice. unfold token_length in Hfit.
    pose proof (Nat.div_mod_eq (length text) 16). pose proof (Nat.mod_upper_bound (length text) 16). lia.
  - unfold PrivateIdentity.encrypt. rewrite Hf. cbn [mbind result_bind].
    rewrite fernet_encrypt_spec, (proj2 (Nat.leb_gt (token_length _) _)) by done. done.
Qed.

End Facts.

(** * Runs of an initiator's link *)

Section Runs.
Context `{F : Features} `{IC : IdentityCrypto}.

(** What can happen to a link after it was created: requests, packets from the
    network, closing and restarting. *)
Inductive link_step : Link.t -> Link.t -> Prop :=
| step_request l now : link_step l (fst (Link.request now l))
| step_packet l l' packet now result events :
    Link.handle_packet packet now l = Ok (l', result, events) -> link_step l l'
| step_close l : link_step l (fst (Link.close l))
| step_restart l : link_step l (Link.restart l).

(** The link keeps its identity and destination, and is active only with a key
    agreed with whoever the destination's key signed for. *)
Definition link_inv (priv : PrivateIdentity.t) (desc : DestinationDesc) (l : Link.t) : Prop :=
  priv_identity l = priv /\ l_destination l = desc /\
  (status l = Active -> exists sig pk mtu,
     let vk := Identity.verifying_key (d_identity desc) in
     verify_strict vk (proof_signed (id l) pk vk ++ proof_extra mtu) sig = true /\
     peer_identity l = Identity.new pk vk /\
     derived_key l = PrivateIdentity.derive_key priv pk (Some (arr_list (id l)))).

Lemma link_step_inv `{!IdentityLaws} priv desc l l' :
  link_step l l' -> link_inv priv desc l -> link_inv priv desc l'.
Proof.
  intros Hstep (Hp & Hd & Ha). destruct Hstep as [l now|l l' packet now r events Hh|l|l].
  - by destruct l.
  - unfold Link.handle_packet in Hh. destruct (negb _); [by inv_ok|].
    destruct (packet_type _); [|by inv_ok|by inv_ok|].
    + assert (l' = l \/ l' = l {{ request_time := now }}) as [->| ->].
      { unfold handle_data_packet, receive_data in Hh. repeat split_match; inv_ok; auto. }
      * done.
      * by destruct l.
    + destruct (_ && _); [|by inv_ok].
      destruct (validate_proof_packet _ _ _) as [i|[]] eqn:E; [|by inv_ok|done].
      apply validate_proof_authentic in E as (sig & pk & mtu & _ & Hv & ->). inv_ok.
      destruct l; simpl in *; subst. split; [done|]. split; [done|]. intros _.
      exists sig, pk, mtu. done.
  - by destruct l.
  - by destruct l.
Qed.

End Runs.

(** The handshake, end to end. *)
Lemma handshake_agrees `{Features} `{IdentityCrypto} `{!CryptoLaws} `{!IdentityLaws}
  (sa sb sr : arr 32) (ka kb : SigningKey) (name : Hash) (t0 t1 t2 t3 : Z) :
  let desc := in_desc (SingleInput_new (PrivateIdentity.new sb kb) name) in
  let '(l1, req) := Link.request t1 (Link.new (PrivateIdentity.new sa ka) desc t0) in
  exists r0, Link.new_from_request req kb sr desc t2 = Ok r0 /\
  let '(r1, proof, _) := Link.prove r0 in
  exists l2 ev, Link.handle_packet proof t3 l1 = Ok (l2, HandleActivated, [ev]) /\
    status l2 = Active /\ status r1 = Active /\ id l2 = id r1 /\
    derived_key l2 = derived_key r1 /\ length (derived_key l2) = DERIVED_KEY_LENGTH /\
    peer_identity r1 = PrivateIdentity.identity (PrivateIdentity.new sa ka) /\
    peer_identity l2 = Identity.new (x25519_public sr) (verifying_key kb).
Proof.
  intros desc. set (l0 := Link.new _ _ _).
  destruct (request_packet t1 l0) as [Hwf Hreq]. destruct (Link.request t1 l0) as [l1 req] eqn:Er.
  simpl in Hwf, Hreq. eexists. split; [by apply new_from_request_ok|].
  set (r0 := Link.handshake _ _).
  pose proof (prove_packet r0) as Hp. destruct (Link.prove r0) as [[r1 proof] evs].
  destruct Hp as (Hr1 & Hh & Hd & Hc & Hdata).
  assert (Hid : id l1 = LinkId_from req) by (unfold Link.request in Er; by simplify_eq/=).
  assert (Hst : status l1 = Pending) by (unfold Link.request in Er; by simplify_eq/=).
  assert (Hdesc : l_destination l1 = desc) by (unfold Link.request in Er; by simplify_eq/=).
  assert (Hpr : priv_identity l1 = PrivateIdentity.new sa ka)
    by (unfold Link.request in Er; by simplify_eq/=).
  unfold Link.handle_packet. rewrite Hd, Hh, Hc, Hst, Hdesc, Hid.
  cbn [link_header packet_type id r0 Link.handshake].
  rewrite !bool_decide_true by done. cbn [negb andb].
  rewrite <- (app_nil_r (arr_list (Identity.public_key _))) in Hdata.
  rewrite (validate_proof_spec _ _ _ _ _ _ Hdata). cbv zeta. cbn [length Nat.ltb Nat.leb LINK_MTU_SIZE].
  change (proof_extra []) with (@nil byte). rewrite app_nil_r.
  assert (Hv : verify_strict (Identity.verifying_key (d_identity desc))
    (proof_signed (LinkId_from req) (Identity.public_key (PrivateIdentity.identity (priv_identity r0)))
       (Identity.verifying_key (d_identity desc)))
    (PrivateIdentity.sign (priv_identity r0) (proof_signed (id r0)
       (Identity.public_key (PrivateIdentity.identity (priv_identity r0)))
       (Identity.verifying_key (PrivateIdentity.identity (priv_identity r0))))) = true)
    by apply verify_strict_sign.
  rewrite Hv. eexists _, _. split; [done|]. subst r1.
  repeat (split; [by destruct l1|]). destruct l1; simpl in *; subst.
  split; [by apply (derived_keys_agree (PrivateIdentity.new sa ka) (PrivateIdentity.new sr kb))|].
  split; [apply length_derived_key|done].
Qed.

#[local] Existing Instance toy_features.
#[local] Existing Instance toy_crypto.
#[local] Existing Instance toy_identity.
#[local] Existing Instance toy_crypto_laws.
#[local] Existing Instance toy_identity_laws.

(** The handshake succeeds and agrees: the destination accepts the
    initiator's request, the initiator accepts the destination's proof, both
    links become active under the same identifier with the same key of full
    length, and each end knows the other's key. *)
Theorem link_handshake_agrees `{Features} `{IdentityCrypto} `{!CryptoLaws} `{!IdentityLaws}
  (sa sb sr : arr 32) (ka kb : SigningKey) (name : Hash) (t0 t1 t2 t3 : Z) :
  let desc := in_desc (SingleInput_new (PrivateIdentity.new sb kb) name) in
  let '(l1, req) := Link.request t1 (Link.new (PrivateIdentity.new sa ka) desc t0) in
  exists r0, Link.new_from_request req kb sr desc t2 = Ok r0 /\
  let '(r1, proof, _) := Link.prove r0 in
  exists l2 ev, Link.handle_packet proof t3 l1 = Ok (l2, HandleActivated, [ev]) /\
    status l2 = Active /\ status r1 = Active /\ id l2 = id r1 /\
    derived_key l2 = derived_key r1 /\ length (derived_key l2) = DERIVED_KEY_LENGTH /\
    peer_identity r1 = PrivateIdentity.identity (PrivateIdentity.new sa ka) /\
    peer_identity l2 = Identity.new (x25519_public sr) (verifying_key kb).
Proof. apply handshake_agrees. Qed.

Lemma link_handshake_agrees_witness :
  let desc := in_desc (SingleInput_new (PrivateIdentity.new (arr_zero 32) (toy_secret x02)) (arr_zero 32)) in
  let req := snd (Link.request 1 (Link.new (PrivateIdentity.new (arr_zero 32) (toy_secret x01)) desc 0)) in
  exists r0, Link.new_from_request req (toy_secret x02) (arr_of 32 (replicate 32 x05)) desc 2 = Ok r0.
Proof.
  intros desc req.
  destruct (link_handshake_agrees (arr_zero 32) (arr_zero 32) (arr_of 32 (replicate 32 x05))
    (toy_secret x01) (toy_secret x02) (arr_zero 32) 0 1 2 3) as (r0 & Hr & _).
  exists r0. exact Hr.
Defined.

(** A link carries data: when two ends share the identifier and the key, a
    packet one makes from any context but [KeepAlive] is posted by the other as
    an event with the same bytes and context.  A payload whose token does not
    fit a packet (2000 bytes or more) panics instead of failing. *)
Theorem link_data_roundtrip `{Features} `{IdentityCrypto} `{!IdentityLaws} (x y : Link.t)
  (ctx : PacketContext) (iv : arr 16) (text : list byte) (now : Z)
  (Hid : id x = id y) (Hkey : derived_key x = derived_key y)
  (Hlen : length (derived_key x) = DERIVED_KEY_LENGTH) (Hctx : ctx <> KeepAlive) :
  if Nat.ltb (length text) 2000
  then exists p payload, data_packet_with_context ctx iv text x = Ok p /\
    Link.handle_packet p now y =
      Ok (y {{ request_time := now }}, HandleNone, [post_event (EvData payload ctx) y]) /\
    LinkPayload.as_slice payload = Ok text
  else data_packet_with_context ctx iv text x = Err Panics.
Proof.
  pose proof (link_transfer x y ctx iv text now Hid Hkey Hlen Hctx) as Ht.
  assert (Heq : Nat.ltb (length text) 2000 = Nat.leb (token_length (length text)) PACKET_MDU);
    [|by rewrite Heq].
  unfold token_length, FERNET_OVERHEAD_SIZE, IV_KEY_SIZE, HMAC_OUT_SIZE, PACKET_MDU.
  pose proof (Nat.div_mod_eq (length text) 16). pose proof (Nat.mod_upper_bound (length text) 16).
  destruct (Nat.ltb_spec (length text) 2000), (Nat.leb_spec (16 + 32 + 16 * (length text / 16 + 1)) 2048);
    lia || done.
Qed.

Definition sample_link : Link.t :=
  Link.new (PrivateIdentity.new (arr_zero 32) (toy_secret x01))
    (in_desc (SingleInput_new (PrivateIdentity.new (arr_zero 32) (toy_secret x02)) (arr_zero 32))) 0.

Lemma link_data_roundtrip_witness :
  exists p, data_packet_with_context CtxNone (arr_zero 16) [x68; x69] sample_link = Ok p.
Proof.
  destruct (@link_data_roundtrip toy_features _ _ _ sample_link sample_link CtxNone (arr_zero 16) [x68; x69] 0
    eq_refl eq_refl ltac:(reflexivity) ltac:(done)) as (p & payload & Hp & _).
  exists p. exact Hp.
Defined.

(** An initiator's link is active only after the destination proved it:
    along every run of requests, received packets, closes and restarts of a new
    link, an active link's peer key was signed, together with the link's
    identifier, by the destination's key, and the link's key is the one agreed
    with that peer key. *)
Theorem link_active_authentic `{Features} `{IdentityCrypto} `{!IdentityLaws}
  (priv : PrivateIdentity.t) (desc : DestinationDesc) (t0 : Z) (l : Link.t)
  (Hrun : rtc link_step (Link.new priv desc t0) l) : link_inv priv desc l.
Proof.
  assert (Hnew : link_inv priv desc (Link.new priv desc t0)) by done.
  induction Hrun as [|a b c Hstep _ IH]; [done|]. apply IH. by eapply link_step_inv.
Qed.

Lemma link_active_authentic_witness :
  link_inv (priv_identity sample_link) (l_destination sample_link)
    (Link.restart (fst (Link.request 5 sample_link))).
Proof.
  apply (link_active_authentic _ _ 0).
  eapply rtc_l; [exact (step_request sample_link 5)|].
  eapply rtc_l; [apply step_restart|]. apply rtc_refl.
Defined.

(** Before the handshake a link accepts data under the all-zero key: a
    packet anyone can make from the link's identifier, which is public, is
    decrypted and posted as data by a link that is still pending. *)
Theorem pending_link_accepts_zero_key `{Features} `{IdentityCrypto} `{!IdentityLaws}
  (priv : PrivateIdentity.t) (desc : DestinationDesc) (t0 t1 now : Z) (forger : Link.t)
  (text : list byte) (iv : arr 16)
  (Hzero : derived_key forger = DerivedKey.new_empty)
  (Hshort : token_length (length text) <= PACKET_MDU) :
  let l := fst (Link.request t1 (Link.new priv desc t0)) in
  status l = Pending /\ (id forger = id l -> exists p payload,
    data_packet iv text forger = Ok p /\
    Link.handle_packet p now l =
      Ok (l {{ request_time := now }}, HandleNone, [post_event (EvData payload CtxNone) l]) /\
    LinkPayload.as_slice payload = Ok text).
Proof.
  intros l. split; [done|]. intros Hid.
  pose proof (link_transfer forger l CtxNone iv text now Hid) as Ht.
  rewrite (proj2 (Nat.leb_le _ _)) in Ht by done. apply Ht; [done| |done].
  rewrite Hzero. apply length_replicate.
Qed.

Definition sample_forger : Link.t := sample_link {{ id := id (fst (Link.request 1 sample_link)) }}.

Lemma pending_link_accepts_zero_key_witness :
  exists p payload, data_packet (arr_zero 16) [x68; x69] sample_forger = Ok p /\
    LinkPayload.as_slice payload = Ok [x68; x69].
Proof.
  destruct (@pending_link_accepts_zero_key toy_features _ _ _ (priv_identity sample_link)
    (l_destination sample_link) 0 1 2 sample_forger [x68; x69] (arr_zero 16)
    ltac:(reflexivity) ltac:(vm_compute; lia)) as [_ Hacc].
  destruct (Hacc eq_refl) as (p & payload & Hp & _ & Hs). exists p, payload.
  split; [exact Hp|exact Hs].
Defined.
