(* ===== verification/Transport.v ===== *)
(** [reticulum-patched/src/transport.rs], with [transport/packet_cache.rs] and the
    [send] and [cleanup] of [iface.rs]: the state a transport keeps (destinations,
    links, known packets, interfaces) and what it does with a received packet, on
    its timers, and when asked to send.

    The tasks are in [Network]: each handler runs under the handler's
    lock from its beginning to its end, so a run of the transport is a sequence
    of these operations ([link] alone takes the lock three times; here it is one
    operation, as when it is not called for one destination from two tasks at
    once).  What an operation hands on, packets to an interface's
    channel and events to the broadcast channels, is the list of [Output]s it
    returns.  A panic in it is [Err Panics].  The links are behind shared handles
    in the source; the tables here are the only holders, and what an application
    does through a handle it was given is the operation on the table's entry.
    Keys and initialisation vectors drawn at random are arguments. *)

From Stdlib Require Import ZArith Lia Permutation.
From Stdlib Require Import Strings.Byte.
From stdpp Require Import base gmap strings numbers relations list.
From coqutil Require Import Datatypes.RecordSetters.
From S2P Require Import Prelude Crypto Buffer Packet Identity Destination Link.
Import DoubleBraceUpdate.

Local Open Scope Z_scope.

(** Times in milliseconds. *)
Definition INTERVAL_INPUT_LINK_CLEANUP : Z := 20000.
Definition INTERVAL_OUTPUT_LINK_RESTART : Z := 60000.
Definition INTERVAL_OUTPUT_LINK_REPEAT : Z := 6000.
Definition PACKET_CACHE_KEEP : Z := 4000.

Inductive TxMessageType : Type :=
| TxBroadcast (except : option AddressHash)
| TxDirect (address : AddressHash).

Record TxMessage : Type := mkTx { tx_type : TxMessageType; tx_packet : Packet }.
Record RxMessage : Type := mkRx { rx_address : AddressHash; rx_packet : Packet }.

Record LocalInterface : Type := mkIface { if_address : AddressHash; if_stopped : bool }.

(** * Known packets *)

Record PacketTrack : Type := mkTrack { track_time : Z; min_hops : Z }.

Module PacketCache.
Section PacketCache.
Context `{C : Crypto}.

Definition t : Type := gmap Hash PacketTrack.

Definition release (duration now : Z) (m : t) : t :=
  filter (fun kv => (duration <? sat_sub now (track_time kv.2)) = false) m.

Definition update (now : Z) (packet : Packet) (m : t) : t * bool :=
  let hash := packet_hash packet in
  let hops := u8 (hops (header packet)) in
  match m !! hash with
  | Some track => (<[hash := mkTrack now (Z.min hops (min_hops track))]> m, false)
  | None => (<[hash := mkTrack now hops]> m, true)
  end.

End PacketCache.
End PacketCache.

(** * The handler *)

Section State.
Context `{IC : IdentityCrypto}.

Inductive Output : Type :=
| ToIface (iface : AddressHash) (message : TxMessage)
| InLinkEvent (event : LinkEventData)
| OutLinkEvent (event : LinkEventData)
| Announced (destination : SingleOutputDestination) (app_data : list byte)
| Received_ (message : RxMessage).

Record TransportHandler : Type := mkHandler {
  broadcast : bool;
  ifaces : list LocalInterface;
  single_in_destinations : gmap AddressHash SingleInputDestination;
  single_out_destinations : gmap AddressHash SingleOutputDestination;
  out_links : gmap AddressHash Link.t;
  in_links : gmap AddressHash Link.t;
  packet_cache : PacketCache.t
}.

End State.

Module Transport.
Section Transport.
Context `{F : Features} `{IC : IdentityCrypto} `{HI : HashIter}.

(** What a handler returns: the new state and what it handed on. *)
Definition step : Type := result (fault RetError) (TransportHandler * list Output).

Definition new (broadcast : bool) (ifaces : list LocalInterface) : TransportHandler :=
  mkHandler broadcast ifaces ∅ ∅ ∅ ∅ ∅.

(** [InterfaceManager::send] *)
Definition should_send (ty : TxMessageType) (iface : LocalInterface) : bool :=
  match ty with
  | TxBroadcast (Some address) => negb (bool_decide (address = if_address iface))
  | TxBroadcast None => true
  | TxDirect address => bool_decide (address = if_address iface)
  end && negb (if_stopped iface).

Definition iface_send (message : TxMessage) (ifaces : list LocalInterface) : list Output :=
  map (fun iface => ToIface (if_address iface) message)
    (filter (fun iface => should_send (tx_type message) iface = true) ifaces).

(** [InterfaceManager::cleanup] *)
Definition cleanup (ifaces : list LocalInterface) : list LocalInterface :=
  filter (fun iface => if_stopped iface = false) ifaces.

(** [TransportHandler::send]: the cache's answer is not used. *)
Definition send (now : Z) (message : TxMessage) (h : TransportHandler) : TransportHandler * list Output :=
  (h {{ packet_cache := (PacketCache.update now (tx_packet message) (packet_cache h)).1 }},
   iface_send message (ifaces h)).

Definition send_packet (now : Z) (packet : Packet) (h : TransportHandler) : TransportHandler * list Output :=
  send now (mkTx (TxBroadcast None) packet) h.

(** The run of [send_packet]s of a handler. *)
Fixpoint send_packets (now : Z) (packets : list Packet) (h : TransportHandler) :
    TransportHandler * list Output :=
  match packets with
  | [] => (h, [])
  | packet :: packets =>
      let '(h, out) := send_packet now packet h in
      let '(h, outs) := send_packets now packets h in
      (h, out ++ outs)
  end.

(** [for link in handler.out_links.values() { ... }]: [f] is the body, which may
    change the link, send packets and post events. *)
Fixpoint each_link (f : AddressHash -> Link.t -> result (fault RetError) (Link.t * list Packet * list LinkEventData))
    (entries : list (AddressHash * Link.t)) :
    result (fault RetError) (list (AddressHash * Link.t) * list Packet * list LinkEventData) :=
  match entries with
  | [] => Ok ([], [], [])
  | (address, link) :: entries =>
      '(link, packets, events) ← f address link;
      '(entries, more, events') ← each_link f entries;
      Ok ((address, link) :: entries, packets ++ more, events ++ events')
  end.

Definition over_out_links (now : Z)
    (f : AddressHash -> Link.t -> result (fault RetError) (Link.t * list Packet * list LinkEventData))
    (h : TransportHandler) : step :=
  '(entries, packets, events) ← each_link f (hash_iter (out_links h));
  let '(h, outs) := send_packets now packets (h {{ out_links := list_to_map entries }}) in
  Ok (h, outs ++ map OutLinkEvent events).

(** ** Received packets *)

Definition handle_announce (packet : Packet) (h : TransportHandler) : step :=
  match validate packet with
  | Err Panics => Err Panics
  | Err (Fails _) => Ok (h, [])
  | Ok (destination_, app_data) =>
      let known := match single_out_destinations h !! destination packet with
                   | Some _ => single_out_destinations h
                   | None => <[destination packet := destination_]> (single_out_destinations h)
                   end in
      Ok (h {{ single_out_destinations := known }}, [Announced destination_ app_data])
  end.

(** [secret] is the private key of a link that is made. *)
Definition handle_link_request (secret : arr 32) (now : Z) (packet : Packet) (h : TransportHandler) : step :=
  match single_in_destinations h !! destination packet with
  | None => Ok (h, [])
  | Some d =>
      match SingleInput_handle_packet packet d with
      | StatusNone => Ok (h, [])
      | StatusLinkProof =>
          match in_links h !! LinkId_from packet with
          | Some _ => Ok (h, [])
          | None =>
              match Link.new_from_request packet (PrivateIdentity.sign_key (in_identity d)) secret
                      (in_desc d) now with
              | Err Panics => Err Panics
              | Err (Fails _) => Ok (h, [])
              | Ok link =>
                  let '(link, proof, events) := Link.prove link in
                  let '(h, outs) := send_packet now proof h in
                  Ok (h {{ in_links := <[Link.id link := link]> (in_links h) }},
                      map InLinkEvent events ++ outs)
              end
          end
      end
  end.

(** [ivs] are the vectors drawn for the packets of each link, [rtt_bytes] the
    MessagePack form of a round-trip time. *)
Context (rtt_bytes : Z -> list byte).

Definition proof_body (ivs : AddressHash -> arr 16) (now : Z) (packet : Packet)
    (address : AddressHash) (link : Link.t) :
    result (fault RetError) (Link.t * list Packet * list LinkEventData) :=
  '(link, handled, events) ← Link.handle_packet packet now link;
  match handled with
  | HandleActivated =>
      rtt ← Link.create_rtt (ivs address) (rtt_bytes (Link.rtt link)) link;
      Ok (link, [rtt], events)
  | _ => Ok (link, [], events)
  end.

Definition handle_proof (ivs : AddressHash -> arr 16) (now : Z) (packet : Packet) (h : TransportHandler) : step :=
  over_out_links now (proof_body ivs now packet) h.

Definition data_body (now : Z) (packet : Packet) (address : AddressHash) (link : Link.t) :
    result (fault RetError) (Link.t * list Packet * list LinkEventData) :=
  '(link, _, events) ← Link.handle_packet packet now link;
  Ok (link, [], events).

(** Data for an incoming link; a keep-alive is answered. *)
Definition handle_in_link (now : Z) (packet : Packet) (h : TransportHandler) : step :=
  match in_links h !! destination packet with
  | None => Ok (h, [])
  | Some link =>
      '(link, handled, events) ← Link.handle_packet packet now link;
      let h := h {{ in_links := <[destination packet := link]> (in_links h) }} in
      match handled with
      | HandleKeepAlive =>
          let '(h, outs) := send_packet now (Link.keep_alive_packet xfe link) h in
          Ok (h, map InLinkEvent events ++ outs)
      | _ => Ok (h, map InLinkEvent events)
      end
  end.

Definition handle_data (now : Z) (packet : Packet) (h : TransportHandler) : step :=
  if bool_decide (destination_type (header packet) = Packet.Link) then
    '(h, outs) ← handle_in_link now packet h;
    '(h, outs') ← over_out_links now (data_body now packet) h;
    Ok (h, outs ++ outs')
  else Ok (h, []).

(** The body of the packet task. *)
Definition receive (secret : arr 32) (ivs : AddressHash -> arr 16) (now : Z) (message : RxMessage)
    (h : TransportHandler) : step :=
  let packet := rx_packet message in
  let '(h, outs) :=
    if broadcast h then send now (mkTx (TxBroadcast (Some (rx_address message))) packet) h else (h, []) in
  '(h, outs') ← match packet_type (header packet) with
                | Announce => handle_announce packet h
                | LinkRequest => handle_link_request secret now packet h
                | Proof_ => handle_proof ivs now packet h
                | Data => handle_data now packet h
                end;
  Ok (h, Received_ message :: outs ++ outs').

(** ** Timers *)

Definition in_link_old (now : Z) (link : Link.t) : bool :=
  INTERVAL_INPUT_LINK_CLEANUP <? Link.elapsed now link.

Definition check_body (now : Z) (address : AddressHash) (link : Link.t) :
    result (fault RetError) (Link.t * list Packet * list LinkEventData) :=
  let link := if bool_decide (Link.status link = Active)
                 && (INTERVAL_OUTPUT_LINK_RESTART <? Link.elapsed now link)
              then Link.restart link else link in
  if bool_decide (Link.status link = Pending) && (INTERVAL_OUTPUT_LINK_REPEAT <? Link.elapsed now link)
  then let '(link, request) := Link.request now link in Ok (link, [request], [])
  else Ok (link, [], []).

(** Incoming links that have been silent are closed and dropped; closed outgoing
    links are closed again, which posts the event, and dropped; the others are
    restarted or requested again. *)
Definition handle_check_links (now : Z) (h : TransportHandler) : step :=
  let old := filter (fun kv => in_link_old now kv.2 = true) (hash_iter (in_links h)) in
  let closed := filter (fun kv => Link.status kv.2 = Closed) (hash_iter (out_links h)) in
  let close_events (links : list (AddressHash * Link.t)) := concat (map (fun kv => (Link.close kv.2).2) links) in
  let h := h {{ in_links := foldl (fun m k => delete k m) (in_links h) old.*1;
                out_links := foldl (fun m k => delete k m) (out_links h) closed.*1 }} in
  '(h, outs) ← over_out_links now (check_body now) h;
  Ok (h, map InLinkEvent (close_events old) ++ map OutLinkEvent (close_events closed) ++ outs).

Definition keep_body (address : AddressHash) (link : Link.t) :
    result (fault RetError) (Link.t * list Packet * list LinkEventData) :=
  Ok (link, if bool_decide (Link.status link = Active) then [Link.keep_alive_packet xff link] else [], []).

Definition handle_keep_links (now : Z) (h : TransportHandler) : step := over_out_links now keep_body h.

Definition handle_cleanup (h : TransportHandler) : TransportHandler := h {{ ifaces := cleanup (ifaces h) }}.

Definition release_packets (now : Z) (h : TransportHandler) : TransportHandler :=
  h {{ packet_cache := PacketCache.release PACKET_CACHE_KEEP now (packet_cache h) }}.

(** ** Requests of the application *)

Definition add_destination (identity : PrivateIdentity.t) (name : Hash) (h : TransportHandler) :
    TransportHandler * SingleInputDestination :=
  let d := SingleInput_new identity name in
  (h {{ single_in_destinations := <[d_address_hash (in_desc d) := d]> (single_in_destinations h) }}, d).

(** [announce(...).expect("valid announce packet")] *)
Definition send_announce (rand : arr 32) (app_data : option (list byte)) (d : SingleInputDestination)
    (now : Z) (h : TransportHandler) : step :=
  match announce rand app_data d with
  | Ok packet => Ok (send_packet now packet h)
  | Err _ => Err Panics
  end.

Definition send_broadcast (packet : Packet) (from_iface : option AddressHash) (now : Z)
    (h : TransportHandler) : TransportHandler * list Output :=
  send now (mkTx (TxBroadcast from_iface) packet) h.

Definition send_direct (addr : AddressHash) (packet : Packet) (now : Z) (h : TransportHandler) :
    TransportHandler * list Output := send now (mkTx (TxDirect addr) packet) h.

(** [identity] is the key pair a new link draws. *)
Definition link (identity : PrivateIdentity.t) (destination : DestinationDesc) (now : Z)
    (h : TransportHandler) : TransportHandler * list Output * Link.t :=
  let fresh :=
    let '(link, packet) := Link.request now (Link.new identity destination now) in
    let '(h, outs) := send_packet now packet h in
    (h {{ out_links := <[d_address_hash destination := link]> (out_links h) }}, outs, link) in
  match out_links h !! d_address_hash destination with
  | Some link => if negb (bool_decide (Link.status link = Closed)) then (h, [], link) else fresh
  | None => fresh
  end.

(** The packets of the links a predicate selects; an encryption that fails is
    skipped, one that panics panics. *)
Fixpoint link_packets (select : Link.t -> bool) (context : PacketContext) (ivs : AddressHash -> arr 16)
    (payload : list byte) (entries : list (AddressHash * Link.t)) : result (fault RetError) (list Packet) :=
  match entries with
  | [] => Ok []
  | (address, link) :: entries =>
      if select link && bool_decide (Link.status link = Active) then
        match Link.data_packet_with_context context (ivs address) payload link with
        | Ok packet => packets ← link_packets select context ivs payload entries; Ok (packet :: packets)
        | Err (Fails _) => link_packets select context ivs payload entries
        | Err Panics => Err Panics
        end
      else link_packets select context ivs payload entries
  end.

Definition send_over (select : Link.t -> bool) (context : PacketContext) (ivs : AddressHash -> arr 16)
    (payload : list byte) (links : gmap AddressHash Link.t) (now : Z) (h : TransportHandler) : step :=
  packets ← link_packets select context ivs payload (hash_iter links);
  Ok (send_packets now packets h).

Definition to_destination (destination : AddressHash) (link : Link.t) : bool :=
  bool_decide (d_address_hash (Link.l_destination link) = destination).

Definition send_to_all_out_links (ivs : AddressHash -> arr 16) (payload : list byte) (now : Z)
    (h : TransportHandler) : step := send_over (fun _ => true) CtxNone ivs payload (out_links h) now h.

Definition send_to_out_links_with_context (destination : AddressHash) (ivs : AddressHash -> arr 16)
    (payload : list byte) (context : PacketContext) (now : Z) (h : TransportHandler) : step :=
  send_over (to_destination destination) context ivs payload (out_links h) now h.

Definition send_to_out_links (destination : AddressHash) (ivs : AddressHash -> arr 16)
    (payload : list byte) (now : Z) (h : TransportHandler) : step :=
  send_to_out_links_with_context destination ivs payload CtxNone now h.

Definition send_to_in_links (destination : AddressHash) (ivs : AddressHash -> arr 16) (payload : list byte)
    (now : Z) (h : TransportHandler) : step :=
  send_over (to_destination destination) CtxNone ivs payload (in_links h) now h.

(** The first active link with the identifier that can make the packet. *)
Fixpoint first_packet (context : PacketContext) (ivs : AddressHash -> arr 16) (payload : list byte)
    (links : list (AddressHash * Link.t)) : result (fault RetError) (option Packet) :=
  match links with
  | [] => Ok None
  | (address, link) :: links =>
      if bool_decide (Link.status link = Active) then
        match Link.data_packet_with_context context (ivs address) payload link with
        | Ok packet => Ok (Some packet)
        | Err (Fails _) => first_packet context ivs payload links
        | Err Panics => Err Panics
        end
      else first_packet context ivs payload links
  end.

Definition send_to_link_id_with_context (link_id : AddressHash) (ivs : AddressHash -> arr 16)
    (payload : list byte) (context : PacketContext) (now : Z) (h : TransportHandler) :
    result (fault RetError) (TransportHandler * list Output * bool) :=
  let incoming := match in_links h !! link_id with Some l => [(link_id, l)] | None => [] end in
  let outgoing := filter (fun kv => Link.id kv.2 = link_id) (hash_iter (out_links h)) in
  packet ← first_packet context ivs payload (incoming ++ outgoing);
  match packet with
  | Some packet => let '(h, outs) := send_packet now packet h in Ok (h, outs, true)
  | None => Ok (h, [], false)
  end.

(** An application closes an outgoing link through its handle. *)
Definition close_out_link (address : AddressHash) (h : TransportHandler) : TransportHandler * list Output :=
  match out_links h !! address with
  | Some link => let '(link, events) := Link.close link in
                 (h {{ out_links := <[address := link]> (out_links h) }}, map OutLinkEvent events)
  | None => (h, [])
  end.

End Transport.
End Transport.

(** * Nothing a link receives panics *)

Section LinkSafety.
Context `{F : Features} `{IC : IdentityCrypto} `{CL : !CryptoLaws} `{IL : !IdentityLaws}.

Definition key_ok (l : Link.t) : Prop := length (Link.derived_key l) = DERIVED_KEY_LENGTH.

Lemma decrypt_no_panic data key n : length key = DERIVED_KEY_LENGTH ->
  PrivateIdentity.decrypt data key n <> Err Panics.
Proof.
  intros Hk. unfold PrivateIdentity.decrypt. destruct (Nat.leb _ _); [done|].
  destruct (fernet_of_ok key Hk) as [f ->]. cbn [mbind result_bind].
  unfold Fernet.verify. destruct (Nat.leb_spec (length data) FERNET_OVERHEAD_SIZE) as [|Hl]; [done|].
  destruct (Fernet.tags_equal _ _); [|done]. cbn [mbind result_bind]. unfold Fernet.decrypt.
  rewrite (proj2 (Nat.leb_gt _ _)) by done. unfold copy_arr.
  destruct (mk_arr (take IV_KEY_SIZE data)) as [iv|] eqn:Hiv; cycle 1.
  { apply mk_arr_None in Hiv. rewrite length_take in Hiv.
    unfold FERNET_OVERHEAD_SIZE, IV_KEY_SIZE in *. lia. }
  cbn [ok_or mbind result_bind]. destruct (Nat.ltb _ _); [done|]. by destruct (aes_cbc_decrypt _ _ _).
Qed.

Lemma validate_proof_no_panic desc id packet : Link.validate_proof_packet desc id packet <> Err Panics.
Proof.
  set (bytes := StaticBuffer.as_slice (data packet)).
  destruct (Nat.ltb_spec (length bytes) Link.MIN_PROOF_LEN) as [Hs|Hs].
  { unfold Link.validate_proof_packet. cbv zeta. fold bytes. by rewrite (proj2 (Nat.ltb_lt _ _)) by done. }
  unfold Link.MIN_PROOF_LEN, SIGNATURE_LEN, PUBLIC_KEY_LENGTH in Hs.
  assert (Hb : bytes = arr_of 64 (take 64 bytes) ++ arr_of 32 (take 32 (drop 64 bytes)) ++ drop 96 bytes).
  { rewrite !arr_of_list by (rewrite length_take, ?length_drop; lia).
    change 96%nat with (64 + 32)%nat. rewrite <- drop_drop, !take_drop. done. }
  rewrite (validate_proof_spec _ _ _ _ _ _ Hb). cbv zeta.
  destruct (Nat.ltb _ _); [done|]. by destruct (verify_strict _ _ _).
Qed.

Lemma key_ok_time now (l : Link.t) : key_ok l -> key_ok (l {{ Link.request_time := now }}).
Proof. by destruct l. Qed.

(** What handling a packet keeps: the link's destination and identifier, the
    length of its key, and that it is active. *)
Definition link_kept (l l' : Link.t) (handled : LinkHandleResult) : Prop :=
  key_ok l' /\ Link.l_destination l' = Link.l_destination l /\ Link.id l' = Link.id l /\
  (Link.status l = Active -> Link.status l' = Active /\ handled <> HandleActivated).

Lemma link_kept_same (l l' : Link.t) now handled : key_ok l -> handled <> HandleActivated ->
  l' = l \/ l' = l {{ Link.request_time := now }} -> link_kept l l' handled.
Proof. intros Hk Hh [->| ->]; [done|]. pose proof (key_ok_time now l Hk). by destruct l. Qed.

Lemma link_handle_safe packet now (l : Link.t) : key_ok l ->
  exists l' handled events, Link.handle_packet packet now l = Ok (l', handled, events) /\
    link_kept l l' handled.
Proof.
  intros Hk. assert (Hsame : link_kept l l HandleNone) by (apply (link_kept_same l l 0); by auto).
  unfold Link.handle_packet. destruct (negb _); [by eexists _, _, _|].
  destruct (packet_type _); [|by eexists _, _, _|by eexists _, _, _|].
  - assert (Hr : exists l' handled events, Link.receive_data packet now l = Ok (l', handled, events) /\
      link_kept l l' handled).
    { unfold Link.receive_data. destruct (Link.decrypt _ _ _) as [text|[e|]] eqn:Hd.
      - eexists _, _, _. split; [done|]. apply (link_kept_same l _ now); by auto.
      - by eexists _, _, _.
      - by apply decrypt_no_panic in Hd. }
    unfold Link.handle_data_packet. destruct (context packet); try exact Hr.
    match goal with |- exists _ _ _, ?m = _ /\ _ => assert (Hm : exists l' handled, m = Ok (l', handled, []) /\
      (l' = l \/ l' = l {{ Link.request_time := now }}) /\ handled <> HandleActivated) end.
    { destruct (head (StaticBuffer.as_slice (data packet))) as [[]|];
        (eexists _, _; split; [reflexivity|]; split; [|discriminate]; (by left) || by right). }
    destruct Hm as (l' & handled & -> & Hl' & Hh). exists l', handled, []. split; [done|].
    by apply (link_kept_same l l' now).
  - destruct (bool_decide_reflect (Link.status l = Pending)) as [Hp|Hp]; [|by eexists _, _, _].
    destruct (bool_decide (context packet = LinkRequestProof)); [|by eexists _, _, _]. cbn [andb].
    destruct (Link.validate_proof_packet _ _ _) as [i|[e|]] eqn:E; [| |by apply validate_proof_no_panic in E];
      (eexists _, _, _; split; [done|]); [|done].
    unfold link_kept, key_ok. destruct l; cbn in *. unfold constant. split; [apply length_derived_key|].
    split; [done|]. split; [done|congruence].
Qed.

Lemma new_from_request_safe packet k secret desc now : StaticBuffer.wf (data packet) ->
  match Link.new_from_request packet k secret desc now with
  | Ok l => key_ok l /\ Link.l_destination l = desc /\ Link.id l = LinkId_from packet
  | Err e => e <> Panics
  end.
Proof.
  intros Hwf. unfold Link.new_from_request. cbv zeta. rewrite (wf_len_slice _ Hwf).
  destruct (Nat.ltb_spec (length (StaticBuffer.as_slice (data packet))) (PUBLIC_KEY_LENGTH * 2)) as [|Hl]; [done|].
  unfold PUBLIC_KEY_LENGTH in *. unfold Identity.new_from_slices, copy_arr.
  destruct (mk_arr (take 32 (StaticBuffer.as_slice (data packet)))) as [pk|] eqn:Hpk; cycle 1.
  { apply mk_arr_None in Hpk. rewrite length_take in Hpk. lia. }
  destruct (mk_arr (take 32 (drop 32 _))) as [vk|] eqn:Hvk; cycle 1.
  { apply mk_arr_None in Hvk. rewrite length_take, length_drop in Hvk. lia. }
  cbn. split; [|done]. unfold key_ok. cbn. apply length_derived_key.
Qed.

Lemma validate_no_panic packet : validate packet <> Err Panics.
Proof.
  unfold validate. destruct (negb _); [done|]. destruct (Nat.ltb _ _); [done|]. cbv zeta.
  destruct (vk_from_bytes _); [|done]. cbn [ok_or mbind result_bind].
  destruct (chain_writes _ _); [|done]. cbn [map_err mbind result_bind].
  destruct (Identity.verify _ _ _); [|done]. cbn [map_err mbind result_bind].
  unfold DestinationName.new_from_hash_slice, announce_slice.
  rewrite (proj2 (Nat.ltb_ge _ _)); [done|]. rewrite length_take. unfold NAME_HASH_LENGTH. lia.
Qed.

(** A short text can always be sent. *)
Lemma data_packet_short ctx iv text (l : Link.t) : key_ok l -> (length text < 2000)%nat ->
  exists p, Link.data_packet_with_context ctx iv text l = Ok p.
Proof.
  intros Hk Hlen. unfold Link.data_packet_with_context, Link.encrypt, PrivateIdentity.encrypt.
  destruct (fernet_of_ok _ Hk) as [f ->]. cbn [mbind result_bind].
  rewrite fernet_encrypt_spec. rewrite (proj2 (Nat.leb_le (token_length (length text)) PACKET_MDU)); cycle 1.
  { unfold token_length, FERNET_OVERHEAD_SIZE, IV_KEY_SIZE, HMAC_OUT_SIZE, PACKET_MDU.
    pose proof (Nat.div_mod_eq (length text) 16). pose proof (Nat.mod_upper_bound (length text) 16). lia. }
  by eexists.
Qed.

End LinkSafety.

(** * Sending and the loops over links *)

Section Loops.
Context `{F : Features} `{IC : IdentityCrypto} `{HI : HashIter}.

(** The packet goes out on every running interface. *)
Definition sends (ifaces : list LocalInterface) (packet : Packet) (outs : list Output) : Prop :=
  Transport.iface_send (mkTx (TxBroadcast None) packet) ifaces ⊆ outs.

(** Everything but the packet cache. *)
Definition same_tables (h h' : TransportHandler) : Prop :=
  broadcast h' = broadcast h /\ ifaces h' = ifaces h /\
  single_in_destinations h' = single_in_destinations h /\
  single_out_destinations h' = single_out_destinations h /\
  out_links h' = out_links h /\ in_links h' = in_links h.

Lemma send_same now m h : same_tables h (Transport.send now m h).1.
Proof. by destruct h. Qed.

Lemma send_packets_spec now ps : forall h,
  same_tables h (Transport.send_packets now ps h).1 /\
  (Transport.send_packets now ps h).2 =
    concat (map (fun p => Transport.iface_send (mkTx (TxBroadcast None) p) (ifaces h)) ps).
Proof.
  induction ps as [|p ps IH]; intros h; [done|]. cbn [Transport.send_packets].
  pose proof (send_same now (mkTx (TxBroadcast None) p) h) as Hs.
  unfold Transport.send_packet. destruct (Transport.send now _ h) as [h1 out] eqn:E.
  injection E as _ Hout. subst out. destruct (IH h1) as [H1 H2].
  destruct (Transport.send_packets now ps h1) as [h2 outs]. cbn [fst snd] in *. subst outs.
  destruct Hs as (S1 & S2 & S3 & S4 & S5 & S6). destruct H1 as (T1 & T2 & T3 & T4 & T5 & T6).
  split; [repeat split; congruence|]. cbn [map concat]. by rewrite S2.
Qed.

Lemma sends_concat ifs (ps : list Packet) p rest : p ∈ ps ->
  sends ifs p (concat (map (fun p => Transport.iface_send (mkTx (TxBroadcast None) p) ifs) ps) ++ rest).
Proof.
  intros Hp o Ho. apply elem_of_app. left.
  induction ps as [|q ps IH]; [by apply not_elem_of_nil in Hp|]. cbn. apply elem_of_app.
  apply elem_of_cons in Hp as [->|Hp]; [by left|]. right. by apply IH.
Qed.

Definition body : Type :=
  AddressHash -> Link.t -> result (fault RetError) (Link.t * list Packet * list LinkEventData).

Lemma each_link_spec (f : body) entries : (forall k l, (k, l) ∈ entries -> exists x, f k l = Ok x) ->
  exists es ps evs, Transport.each_link f entries = Ok (es, ps, evs) /\
    Forall2 (fun e e' => e'.1 = e.1 /\ exists ps1 evs1, f e.1 e.2 = Ok (e'.2, ps1, evs1) /\
                         ps1 ⊆ ps /\ evs1 ⊆ evs) entries es.
Proof.
  induction entries as [|[k l] entries IH]; intros Hok; cbn; [by exists [], [], []|].
  destruct (Hok k l) as [[[l' ps1] evs1] Hf]; [by left|]. rewrite Hf. cbn [mbind result_bind].
  destruct IH as (es & ps & evs & -> & Hall). { intros k1 l1 Hin. apply Hok. by right. }
  cbn [mbind result_bind]. eexists _, _, _. split; [done|]. constructor.
  - split; [done|]. exists ps1, evs1. cbn. split; [done|]. split; apply list_subseteq_app_l; done.
  - eapply Forall2_impl; [exact Hall|]. intros e e' (H1 & ps2 & evs2 & H2 & H3 & H4). split; [done|].
    exists ps2, evs2. split; [done|]. split; by apply list_subseteq_app_r.
Qed.

Lemma each_link_map (entries es : list (AddressHash * Link.t)) (m : gmap AddressHash Link.t) R :
  entries ≡ₚ map_to_list m ->
  Forall2 (fun e e' => e'.1 = e.1 /\ R e.1 e.2 e'.2) entries es ->
  forall k, match (list_to_map es : gmap AddressHash Link.t) !! k with
            | Some l' => exists l, m !! k = Some l /\ R k l l'
            | None => m !! k = None
            end.
Proof.
  intros Hperm Hall k.
  assert (Hkeys : es.*1 = entries.*1).
  { clear Hperm. induction Hall as [|e e' l l' [He _] _ IH]; [done|]. cbn. by rewrite He, IH. }
  assert (Hnd : NoDup es.*1) by (rewrite Hkeys, Hperm; apply NoDup_fst_map_to_list).
  destruct (list_to_map es !! k) as [l'|] eqn:Hl.
  - apply elem_of_list_to_map in Hl; [|done]. apply list_elem_of_lookup in Hl as [i Hi].
    destruct (Forall2_lookup_r _ _ _ _ _ Hall Hi) as ([k0 l] & Hi0 & Hk & HR). cbn in Hk, HR. subst k0.
    exists l. split; [|done]. apply elem_of_map_to_list. rewrite <- Hperm. by eapply list_elem_of_lookup_2.
  - apply not_elem_of_list_to_map_2 in Hl. rewrite Hkeys, Hperm in Hl.
    destruct (m !! k) as [l|] eqn:Hm; [|done]. destruct Hl. apply list_elem_of_fmap.
    exists (k, l). split; [done|]. by apply elem_of_map_to_list.
Qed.

(** A loop over the outgoing links whose body succeeds on each of them. *)
Lemma over_out_links_spec now (f : body) h :
  (forall k l, out_links h !! k = Some l -> exists x, f k l = Ok x) ->
  exists h' outs, Transport.over_out_links now f h = Ok (h', outs) /\
    same_tables (h {{ out_links := out_links h' }}) h' /\
    (forall k, match out_links h' !! k with
               | Some l' => exists l ps evs, out_links h !! k = Some l /\ f k l = Ok (l', ps, evs) /\
                   Forall (fun p => sends (ifaces h) p outs) ps /\ Forall (fun ev => OutLinkEvent ev ∈ outs) evs
               | None => out_links h !! k = None
               end).
Proof.
  intros Hok. destruct (each_link_spec f (hash_iter (out_links h))) as (es & ps & evs & He & Hall).
  { intros k l Hin. apply Hok. by apply elem_of_hash_iter. }
  unfold Transport.over_out_links. rewrite He. cbn [mbind result_bind].
  set (h1 := h {{ out_links := list_to_map es }}).
  destruct (send_packets_spec now ps h1) as [Hsame Houts].
  destruct (Transport.send_packets now ps h1) as [h' outs]. cbn [fst snd] in *. subst outs.
  assert (Hlinks : out_links h' = list_to_map es) by (destruct Hsame as (_ & _ & _ & _ & -> & _); by destruct h).
  assert (Hifs : ifaces h1 = ifaces h) by by destruct h. rewrite Hifs.
  eexists h', _. split; [done|]. split.
  { rewrite Hlinks. exact Hsame. }
  intros k. rewrite Hlinks.
  pose proof (each_link_map _ es (out_links h) (fun k l l' => exists ps1 evs1, f k l = Ok (l', ps1, evs1) /\
    ps1 ⊆ ps /\ evs1 ⊆ evs) (hash_iter_perm _) Hall k) as Hk. cbn beta in Hk.
  destruct (list_to_map es !! k) as [l'|]; [|done].
  destruct Hk as (l & Hl & ps1 & evs1 & Hf & Hps & Hevs). exists l, ps1, evs1.
  split; [done|]. split; [done|]. split; apply Forall_forall.
  - intros p Hp. by apply sends_concat, Hps.
  - intros ev Hev. apply elem_of_app. right. apply list_elem_of_fmap. exists ev. split; [done|]. by apply Hevs.
Qed.

End Loops.

(** * The invariant *)

Section Invariant.
Context `{F : Features} `{IC : IdentityCrypto} `{HI : HashIter} `{CL : !CryptoLaws} `{IL : !IdentityLaws}.
Context (rtt_bytes : Z -> list byte) (Hrtt : forall z, (length (rtt_bytes z) < 2000)%nat).

(** An outgoing link is filed under its destination's address, has a key, and is
    active only as the destination proved it. *)
Definition out_link_ok (k : AddressHash) (l : Link.t) : Prop :=
  key_ok l /\ d_address_hash (Link.l_destination l) = k /\
  exists priv, link_inv priv (Link.l_destination l) l.

(** An incoming link is filed under its identifier, has a key, and is active. *)
Definition in_link_ok (k : AddressHash) (l : Link.t) : Prop :=
  key_ok l /\ Link.id l = k /\ Link.status l = Active.

Record transport_ok (h : TransportHandler) : Prop := {
  tr_out : map_Forall out_link_ok (out_links h);
  tr_in : map_Forall in_link_ok (in_links h);
  tr_dest : map_Forall (fun k d => d_address_hash (in_desc d) = k) (single_in_destinations h)
}.

Lemma transport_new_ok bc ifs : transport_ok (Transport.new bc ifs).
Proof. constructor; apply map_Forall_empty. Qed.

Lemma same_tables_ok h h' : same_tables h h' -> transport_ok h -> transport_ok h'.
Proof.
  intros (_ & _ & E1 & _ & E2 & E3) [H1 H2 H3]. constructor; [by rewrite E2|by rewrite E3|by rewrite E1].
Qed.

(** A loop over the outgoing links whose body keeps them in order. *)
Lemma over_out_links_ok now (f : body) h : transport_ok h ->
  (forall k l, out_link_ok k l -> exists l' ps evs, f k l = Ok (l', ps, evs) /\ out_link_ok k l') ->
  exists h' outs, Transport.over_out_links now f h = Ok (h', outs) /\ transport_ok h' /\
    in_links h' = in_links h /\ ifaces h' = ifaces h /\
    (forall k, match out_links h' !! k with
               | Some l' => exists l ps evs, out_links h !! k = Some l /\ f k l = Ok (l', ps, evs) /\
                   Forall (fun p => sends (ifaces h) p outs) ps /\ Forall (fun ev => OutLinkEvent ev ∈ outs) evs
               | None => out_links h !! k = None
               end).
Proof.
  intros [H1 H2 H3] Hf. destruct (over_out_links_spec now f h) as (h' & outs & E & Hsame & Hlinks).
  { intros k l Hl. destruct (Hf k l (H1 _ _ Hl)) as (l' & ps & evs & -> & _). by eexists. }
  exists h', outs. split; [done|]. destruct Hsame as (_ & S2 & S3 & _ & _ & S6).
  split; [constructor|].
  - intros k l' Hl'. specialize (Hlinks k). rewrite Hl' in Hlinks.
    destruct Hlinks as (l & ps & evs & Hl & Hfl & _). destruct (Hf k l (H1 _ _ Hl)) as (l2 & ps2 & evs2 & Hf2 & Hok).
    rewrite Hfl in Hf2. by injection Hf2 as <- _ _.
  - rewrite S6. by destruct h.
  - rewrite S3. by destruct h.
  - split; [rewrite S6; by destruct h|]. split; [rewrite S2; by destruct h|done].
Qed.

Lemma out_link_handle k packet now l : out_link_ok k l ->
  exists l' handled evs, Link.handle_packet packet now l = Ok (l', handled, evs) /\ out_link_ok k l'.
Proof.
  intros (Hk & Hd & priv & Hinv). destruct (link_handle_safe packet now l Hk) as (l' & r & evs & E & K1 & K2 & _).
  exists l', r, evs. split; [done|]. split; [done|]. rewrite K2. split; [done|]. exists priv.
  eapply link_step_inv; [by eapply step_packet|done].
Qed.

Lemma create_rtt_ok iv (l : Link.t) : key_ok l -> exists p, Link.create_rtt iv (rtt_bytes (Link.rtt l)) l = Ok p.
Proof.
  intros Hk. destruct (data_packet_short CtxNone iv _ l Hk (Hrtt (Link.rtt l))) as [p Hp].
  unfold Link.create_rtt. unfold Link.data_packet_with_context in Hp.
  destruct (Link.encrypt _ _ _ _); [by eexists|done].
Qed.

Lemma proof_body_ok ivs now packet k l : out_link_ok k l ->
  exists l' ps evs, Transport.proof_body rtt_bytes ivs now packet k l = Ok (l', ps, evs) /\ out_link_ok k l'.
Proof.
  intros Hl. unfold Transport.proof_body. destruct (out_link_handle k packet now l Hl) as (l' & r & evs & -> & Hl').
  cbn [mbind result_bind]. destruct r; [by eexists _, _, _| |by eexists _, _, _].
  destruct (create_rtt_ok (ivs k) l' (proj1 Hl')) as [p ->]. by eexists _, _, _.
Qed.

Lemma data_body_ok now packet k l : out_link_ok k l ->
  exists l' ps evs, Transport.data_body now packet k l = Ok (l', ps, evs) /\ out_link_ok k l'.
Proof.
  intros Hl. unfold Transport.data_body. destruct (out_link_handle k packet now l Hl) as (l' & r & evs & -> & Hl').
  by eexists _, _, _.
Qed.

Lemma check_body_ok now k l : out_link_ok k l ->
  exists l' ps evs, Transport.check_body now k l = Ok (l', ps, evs) /\ out_link_ok k l'.
Proof.
  intros Hl. unfold Transport.check_body.
  assert (Hr : out_link_ok k (if bool_decide (Link.status l = Active) &&
    (INTERVAL_OUTPUT_LINK_RESTART <? Link.elapsed now l) then Link.restart l else l)).
  { destruct (_ && _); [|done]. destruct Hl as (H1 & H2 & priv & H3). destruct l. split; [done|]. split; [done|].
    exists priv. eapply link_step_inv; [apply step_restart|done]. }
  match type of Hr with out_link_ok _ ?x => set (l1 := x) in * end.
  clearbody l1. cbv zeta. destruct (_ && _); [|by eexists _, _, _].
  destruct (Link.request now l1) as [l2 p] eqn:E. eexists _, _, _. split; [done|].
  destruct Hr as (H1 & H2 & priv & H3).
  assert (Hl2 : l2 = (Link.request now l1).1) by by rewrite E. subst l2.
  assert (Hi : link_inv priv (Link.l_destination l1) (Link.request now l1).1)
    by (eapply link_step_inv; [apply step_request|done]).
  clear E. destruct l1. split; [done|]. split; [done|]. by exists priv.
Qed.

(** ** Received packets *)

Lemma handle_in_link_ok now packet (h : TransportHandler) : transport_ok h ->
  exists h' outs, Transport.handle_in_link now packet h = Ok (h', outs) /\ transport_ok h' /\
    out_links h' = out_links h /\
    (forall l l' handled evs, in_links h !! destination packet = Some l ->
       Link.handle_packet packet now l = Ok (l', handled, evs) ->
       in_links h' !! destination packet = Some l' /\ map InLinkEvent evs ⊆ outs).
Proof.
  intros Hh. unfold Transport.handle_in_link.
  destruct (in_links h !! destination packet) as [l|] eqn:Hl; [|by eexists _, _].
  destruct (tr_in _ Hh _ _ Hl) as (Hk & Hid & Hst).
  destruct (link_handle_safe packet now l Hk) as (l' & r & evs & E & K1 & K2 & K3 & K4). rewrite E.
  cbn [mbind result_bind]. set (h1 := h {{ in_links := <[destination packet := l']> (in_links h) }}).
  assert (Hh1 : transport_ok h1).
  { destruct Hh as [P1 P2 P3], h. constructor; cbn in *; try done. apply map_Forall_insert_2; [|done].
    destruct (K4 Hst) as [? _]. split; [done|]. by rewrite K3. }
  assert (Hin1 : in_links h1 !! destination packet = Some l') by (destruct h; apply lookup_insert_eq).
  assert (Hout1 : out_links h1 = out_links h) by by destruct h.
  pose proof (send_same now (mkTx (TxBroadcast None) (Link.keep_alive_packet xfe l')) h1) as Hs.
  assert (Hend : forall l0 l0' handled evs0, Some l = Some l0 ->
    Link.handle_packet packet now l0 = Ok (l0', handled, evs0) -> l0' = l' /\ evs0 = evs).
  { intros l0 l0' handled evs0 [= <-] E0. rewrite E in E0. by injection E0 as <- _ <-. }
  destruct r; [| |unfold Transport.send_packet; destruct (Transport.send now _ h1) as [h2 outs]; cbn [fst] in Hs];
    eexists _, _; (split; [done|]).
  - split; [done|]. split; [done|]. intros l0 l0' r0 evs0 H1 H2. by destruct (Hend _ _ _ _ H1 H2) as [-> ->].
  - split; [done|]. split; [done|]. intros l0 l0' r0 evs0 H1 H2. by destruct (Hend _ _ _ _ H1 H2) as [-> ->].
  - split; [by eapply same_tables_ok|]. destruct Hs as (_ & _ & _ & _ & S5 & S6). split; [congruence|].
    intros l0 l0' r0 evs0 H1 H2. destruct (Hend _ _ _ _ H1 H2) as [-> ->]. split; [congruence|].
    by apply list_subseteq_app_l.
Qed.

Lemma handle_link_request_ok secret now packet h : transport_ok h -> StaticBuffer.wf (data packet) ->
  exists h' outs, Transport.handle_link_request secret now packet h = Ok (h', outs) /\ transport_ok h'.
Proof.
  intros Hh Hwf. unfold Transport.handle_link_request.
  destruct (single_in_destinations h !! destination packet) as [d|] eqn:Hd; [|by eexists _, _].
  destruct (SingleInput_handle_packet packet d); [by eexists _, _|].
  destruct (in_links h !! LinkId_from packet) as [|] eqn:Hl; [by eexists _, _|].
  pose proof (new_from_request_safe packet (PrivateIdentity.sign_key (in_identity d)) secret (in_desc d) now Hwf) as Hn.
  destruct (Link.new_from_request _ _ _ _ _) as [l|[e|]]; [|by eexists _, _|done].
  pose proof (prove_packet l) as Hp. destruct (Link.prove l) as [[l1 proof] evs]. destruct Hp as [-> _].
  pose proof (send_same now (mkTx (TxBroadcast None) proof) h) as Hs. unfold Transport.send_packet.
  destruct (Transport.send now _ h) as [h1 outs]. cbn [fst] in Hs. pose proof (same_tables_ok _ _ Hs Hh) as [P1 P2 P3].
  eexists _, _. split; [done|]. destruct h1. constructor; cbn in *; try done.
  apply map_Forall_insert_2; [|done]. destruct Hn as (Hk & _ & _), l. done.
Qed.

Lemma receive_ok secret ivs now message h : transport_ok h -> StaticBuffer.wf (data (rx_packet message)) ->
  exists h' outs, Transport.receive rtt_bytes secret ivs now message h = Ok (h', outs) /\ transport_ok h'.
Proof.
  intros Hh Hwf. unfold Transport.receive. cbv zeta.
  match goal with |- context [if broadcast h then ?x else ?y] => set (s := if broadcast h then x else y) end.
  assert (Hs : transport_ok s.1).
  { subst s. destruct (broadcast h); [|done]. eapply same_tables_ok; [apply send_same|done]. }
  destruct s as [h1 outs]. cbn [fst] in Hs. clear Hh.
  assert (Hm : exists h2 outs2, match packet_type (header (rx_packet message)) with
    | Announce => Transport.handle_announce (rx_packet message) h1
    | LinkRequest => Transport.handle_link_request secret now (rx_packet message) h1
    | Proof_ => Transport.handle_proof rtt_bytes ivs now (rx_packet message) h1
    | Data => Transport.handle_data now (rx_packet message) h1
    end = Ok (h2, outs2) /\ transport_ok h2).
  { destruct (packet_type _).
    - unfold Transport.handle_data. destruct (bool_decide _); [|by eexists _, _].
      destruct (handle_in_link_ok now (rx_packet message) h1 Hs) as (h2 & o2 & -> & Hh2 & _).
      destruct (over_out_links_ok now _ h2 Hh2 (data_body_ok now (rx_packet message))) as (h3 & o3 & E & Hh3 & _).
      cbn [mbind result_bind]. rewrite E. by eexists _, _.
    - unfold Transport.handle_announce. pose proof (validate_no_panic (rx_packet message)) as Hv.
      destruct (validate (rx_packet message)) as [[d app]|[e|]]; [|by eexists _, _|done].
      eexists _, _. split; [done|]. destruct Hs, h1. by constructor.
    - by apply handle_link_request_ok.
    - destruct (over_out_links_ok now _ h1 Hs (proof_body_ok ivs now (rx_packet message))) as (h3 & o3 & E & Hh3 & _).
      by eexists _, _. }
  destruct Hm as (h2 & outs2 & E & Hh2). exists h2, (Received_ message :: outs ++ outs2). split; [|done].
  destruct (packet_type _); by rewrite E.
Qed.


(** ** Timers and requests *)

Lemma delete_all_subset (keys : list AddressHash) (m : gmap AddressHash Link.t) k l :
  foldl (fun m k => delete k m) m keys !! k = Some l -> m !! k = Some l.
Proof.
  revert m. induction keys as [|k' keys IH]; intros m; cbn; [done|].
  intros Hl%IH. by apply lookup_delete_Some in Hl as [_ ?].
Qed.

Lemma handle_check_links_ok now h : transport_ok h ->
  exists h' outs, Transport.handle_check_links now h = Ok (h', outs) /\ transport_ok h'.
Proof.
  intros [H1 H2 H3]. unfold Transport.handle_check_links. cbv zeta.
  match goal with |- context [Transport.over_out_links now _ ?x] => set (h1 := x) end.
  assert (Hh1 : transport_ok h1).
  { subst h1. destruct h. constructor; cbn in *; [| |done]; intros k l Hl%delete_all_subset;
      [by apply H1|by apply H2]. }
  destruct (over_out_links_ok now _ h1 Hh1 (check_body_ok now)) as (h2 & o2 & -> & Hh2 & _). by eexists _, _.
Qed.

Lemma handle_keep_links_ok now h : transport_ok h ->
  exists h' outs, Transport.handle_keep_links now h = Ok (h', outs) /\ transport_ok h'.
Proof.
  intros Hh. destruct (over_out_links_ok now Transport.keep_body h Hh) as (h2 & o2 & E & Hh2 & _).
  - intros k l Hl. by eexists _, _, _.
  - by exists h2, o2.
Qed.

Lemma new_link_ok identity destination now :
  out_link_ok (d_address_hash destination) (Link.request now (Link.new identity destination now)).1.
Proof.
  split; [unfold key_ok; cbn; unfold DerivedKey.new_empty; apply length_replicate|]. split; [done|].
  exists identity. eapply link_step_inv; [apply step_request|]. split; [done|]. split; [done|]. done.
Qed.

Inductive transport_step (h : TransportHandler) : TransportHandler -> Prop :=
| tr_receive secret ivs now message h' outs : StaticBuffer.wf (data (rx_packet message)) ->
    Transport.receive rtt_bytes secret ivs now message h = Ok (h', outs) -> transport_step h h'
| tr_check now h' outs : Transport.handle_check_links now h = Ok (h', outs) -> transport_step h h'
| tr_keep now h' outs : Transport.handle_keep_links now h = Ok (h', outs) -> transport_step h h'
| tr_cleanup : transport_step h (Transport.handle_cleanup h)
| tr_release now : transport_step h (Transport.release_packets now h)
| tr_add identity name : transport_step h (Transport.add_destination identity name h).1
| tr_link identity destination now : transport_step h (Transport.link identity destination now h).1.1
| tr_announce rand app_data d now h' outs :
    Transport.send_announce rand app_data d now h = Ok (h', outs) -> transport_step h h'
| tr_send now message : transport_step h (Transport.send now message h).1
| tr_send_over select context ivs payload links now h' outs :
    Transport.send_over select context ivs payload links now h = Ok (h', outs) -> transport_step h h'
| tr_send_to link_id ivs payload context now h' outs sent :
    Transport.send_to_link_id_with_context link_id ivs payload context now h = Ok (h', outs, sent) ->
    transport_step h h'
| tr_close address : transport_step h (Transport.close_out_link address h).1.

Lemma transport_step_ok h h' : transport_ok h -> transport_step h h' -> transport_ok h'.
Proof.
  intros Hh Hstep. destruct Hstep as [secret ivs now m h' o Hwf E|now h' o E|now h' o E| |now|idn name|idn d now
    |rand app d now h' o E|now m|sel ctx ivs pl links now h' o E|lid ivs pl ctx now h' o sent E|address].
  - destruct (receive_ok secret ivs now m h Hh Hwf) as (h2 & o2 & E2 & Hok). rewrite E in E2. by injection E2 as <- _.
  - destruct (handle_check_links_ok now h Hh) as (h2 & o2 & E2 & Hok). rewrite E in E2. by injection E2 as <- _.
  - destruct (handle_keep_links_ok now h Hh) as (h2 & o2 & E2 & Hok). rewrite E in E2. by injection E2 as <- _.
  - destruct Hh, h. by constructor.
  - destruct Hh, h. by constructor.
  - destruct Hh as [H1 H2 H3], h. constructor; cbn in *; try done. by apply map_Forall_insert_2.
  - assert (Hfresh : transport_ok (let '(link, packet) := Link.request now (Link.new idn d now) in
      let '(h, outs) := Transport.send_packet now packet h in
      (h {{ out_links := <[d_address_hash d := link]> (out_links h) }}, outs, link)).1.1).
    { pose proof (new_link_ok idn d now) as Hl. destruct (Link.request now _) as [l p]. cbn [fst] in Hl.
      pose proof (send_same now (mkTx (TxBroadcast None) p) h) as Hs. unfold Transport.send_packet.
      destruct (Transport.send now _ h) as [h1 outs]. cbn [fst] in *.
      destruct (same_tables_ok _ _ Hs Hh) as [P1 P2 P3], h1. constructor; cbn in *; try done.
      by apply map_Forall_insert_2. }
    unfold Transport.link. cbv zeta. destruct (out_links h !! d_address_hash d); [destruct (negb _)|]; done.
  - unfold Transport.send_announce, Transport.send_packet in E. destruct (announce rand app d) as [p|]; [|done].
    pose proof (send_same now (mkTx (TxBroadcast None) p) h) as Hs. destruct (Transport.send now _ h) as [h1 o1].
    injection E as <- <-. by eapply same_tables_ok.
  - eapply same_tables_ok; [apply send_same|done].
  - unfold Transport.send_over in E. destruct (Transport.link_packets _ _ _ _ _) as [ps|]; [|done].
    cbn in E. injection E as E. pose proof (proj1 (send_packets_spec now ps h)) as Hs. rewrite E in Hs.
    by eapply same_tables_ok.
  - unfold Transport.send_to_link_id_with_context in E. destruct (Transport.first_packet _ _ _ _) as [[p|]|]; [| |done].
    + cbn [mbind result_bind] in E. unfold Transport.send_packet in E.
      pose proof (send_same now (mkTx (TxBroadcast None) p) h) as Hs. destruct (Transport.send now _ h) as [h1 o1].
      injection E as <- <- _. by eapply same_tables_ok.
    + cbn in E. by injection E as <- _ _.
  - unfold Transport.close_out_link. destruct (out_links h !! address) as [l|] eqn:Hl; [|done]. cbn.
    destruct Hh as [H1 H2 H3]. destruct (H1 _ _ Hl) as (L1 & L2 & priv & L3).
    assert (Hi : link_inv priv (Link.l_destination l) (Link.close l).1)
      by (eapply link_step_inv; [apply step_close|done]).
    destruct h. constructor; cbn in *; try done. apply map_Forall_insert_2; [|done].
    destruct l. split; [done|]. split; [done|]. by exists priv.
Qed.

Lemma transport_run_ok bc ifs h : rtc transport_step (Transport.new bc ifs) h -> transport_ok h.
Proof.
  intros Hrun. pose proof (transport_new_ok bc ifs) as H0. revert H0.
  induction Hrun; [done|]. eauto using transport_step_ok.
Qed.

End Invariant.

(** No packet brings a transport down, and its outgoing links are genuine.
    Through every run of received packets, timers and requests, whatever the
    packets contain, handling the next packet and the timers do not panic; every
    outgoing link is filed under its destination's address and is active only
    with a key that the destination's own key signed for this link; every
    incoming link is active and filed under its identifier. *)
Theorem transport_safe `{Features} `{IdentityCrypto} `{HashIter} `{!CryptoLaws} `{!IdentityLaws}
  (rtt_bytes : Z -> list byte) (Hrtt : forall z, (length (rtt_bytes z) < 2000)%nat) (bc : bool)
  (ifs : list LocalInterface) (h : TransportHandler)
  (Hrun : rtc (transport_step rtt_bytes) (Transport.new bc ifs) h) :
  (forall secret ivs now message, StaticBuffer.wf (data (rx_packet message)) ->
     exists h' outs, Transport.receive rtt_bytes secret ivs now message h = Ok (h', outs)) /\
  (forall now, exists h1 outs1 h2 outs2, Transport.handle_check_links now h = Ok (h1, outs1) /\
     Transport.handle_keep_links now h = Ok (h2, outs2)) /\
  (forall k l, out_links h !! k = Some l -> d_address_hash (Link.l_destination l) = k /\
     exists priv, link_inv priv (Link.l_destination l) l) /\
  (forall k l, in_links h !! k = Some l -> Link.id l = k /\ Link.status l = Active).
Proof.
  pose proof (transport_run_ok rtt_bytes Hrtt _ _ _ Hrun) as Hh. split; [|split; [|split]].
  - intros secret ivs now m Hwf. destruct (receive_ok rtt_bytes Hrtt secret ivs now m h Hh Hwf) as (h' & o & E & _).
    by eexists _, _.
  - intros now. destruct (handle_check_links_ok now h Hh) as (h1 & o1 & E1 & _).
    destruct (handle_keep_links_ok now h Hh) as (h2 & o2 & E2 & _). by exists h1, o1, h2, o2.
  - intros k l Hl. by destruct (tr_out _ Hh _ _ Hl) as (_ & ? & ?).
  - intros k l Hl. by destruct (tr_in _ Hh _ _ Hl) as (_ & ? & ?).
Qed.

(** * Two transports *)

Section Connect.
Context `{F : Features} `{IC : IdentityCrypto} `{HI : HashIter} `{CL : !CryptoLaws} `{IL : !IdentityLaws}.
Context (rtt_bytes : Z -> list byte) (Hrtt : forall z, (length (rtt_bytes z) < 2000)%nat).

Lemma sends_app_r ifs p outs outs' : sends ifs p outs' -> sends ifs p (outs ++ outs').
Proof. intros Hs o Ho. apply elem_of_app. right. by apply Hs. Qed.

(** Passing the packet on changes no table. *)
Lemma receive_dispatch secret ivs now message h : exists h1 outs, same_tables h h1 /\
  Transport.receive rtt_bytes secret ivs now message h =
    ('(h2, outs') ← match packet_type (header (rx_packet message)) with
                    | Announce => Transport.handle_announce (rx_packet message) h1
                    | LinkRequest => Transport.handle_link_request secret now (rx_packet message) h1
                    | Proof_ => Transport.handle_proof rtt_bytes ivs now (rx_packet message) h1
                    | Data => Transport.handle_data now (rx_packet message) h1
                    end;
     Ok (h2, Received_ message :: outs ++ outs')).
Proof.
  unfold Transport.receive. cbv zeta. destruct (broadcast h).
  - pose proof (send_same now (mkTx (TxBroadcast (Some (rx_address message))) (rx_packet message)) h) as Hs.
    destruct (Transport.send now _ h) as [h1 outs]. exists h1, outs. split; [done|]. by destruct (packet_type _).
  - exists h, []. split; [done|]. by destruct (packet_type _).
Qed.

Lemma link_fresh identity desc now h : out_links h !! d_address_hash desc = None ->
  let '(l, req) := Link.request now (Link.new identity desc now) in
  exists h1, Transport.link identity desc now h = (h1, Transport.iface_send (mkTx (TxBroadcast None) req) (ifaces h), l) /\
    out_links h1 !! d_address_hash desc = Some l /\ ifaces h1 = ifaces h.
Proof.
  intros Hno. unfold Transport.link. cbv zeta. rewrite Hno.
  destruct (Link.request now _) as [l req]. destruct h. cbn. eexists. split; [done|].
  split; [apply lookup_insert_eq|done].
Qed.

Lemma receive_link_request secret ivs now via req b d r0 :
  single_in_destinations b !! destination req = Some d -> packet_type (header req) = LinkRequest ->
  d_address_hash (in_desc d) = destination req -> in_links b !! LinkId_from req = None ->
  Link.new_from_request req (PrivateIdentity.sign_key (in_identity d)) secret (in_desc d) now = Ok r0 ->
  let '(r1, proof, _) := Link.prove r0 in
  exists b1 outs, Transport.receive rtt_bytes secret ivs now (mkRx via req) b = Ok (b1, outs) /\
    sends (ifaces b) proof outs /\ in_links b1 !! Link.id r1 = Some r1 /\ ifaces b1 = ifaces b.
Proof.
  intros Hd Hty Haddr Hno Hnew. destruct (receive_dispatch secret ivs now (mkRx via req) b) as (h1 & o1 & Hs & ->).
  cbn [rx_packet]. rewrite Hty. unfold Transport.handle_link_request.
  destruct Hs as (_ & S2 & S3 & _ & _ & S6). rewrite S3, S6, Hd, Hno. unfold SingleInput_handle_packet.
  rewrite bool_decide_true, Hty by done. cbn [negb]. rewrite Hnew. destruct (Link.prove r0) as [[r1 proof] evs].
  unfold Transport.send_packet, Transport.send. cbn [mbind result_bind]. eexists _, _. split; [done|].
  split; [|split; [destruct h1; apply lookup_insert_eq|destruct h1; exact S2]].
  rewrite <- S2. apply (sends_app_r _ _ (Received_ (mkRx via req) :: o1)).
  apply sends_app_r. by intros o Ho.
Qed.

Lemma receive_proof secret ivs now via proof a k l1 l2 handled evs : transport_ok a ->
  out_links a !! k = Some l1 -> packet_type (header proof) = Proof_ ->
  Link.handle_packet proof now l1 = Ok (l2, handled, evs) ->
  exists a2 outs, Transport.receive rtt_bytes secret ivs now (mkRx via proof) a = Ok (a2, outs) /\
    out_links a2 !! k = Some l2 /\ ifaces a2 = ifaces a /\ transport_ok a2.
Proof.
  intros Ha Hl Hty Hh. destruct (receive_dispatch secret ivs now (mkRx via proof) a) as (h1 & o1 & Hs & ->).
  cbn [rx_packet]. rewrite Hty. pose proof (same_tables_ok _ _ Hs Ha) as Hh1.
  destruct Hs as (_ & S2 & _ & _ & S5 & _).
  destruct (over_out_links_ok now _ h1 Hh1 (proof_body_ok rtt_bytes Hrtt ivs now proof))
    as (a2 & o2 & E & Ha2 & _ & Hifs & Hlinks).
  unfold Transport.handle_proof. rewrite E. cbn [mbind result_bind]. eexists _, _. split; [done|].
  specialize (Hlinks k). rewrite S5, Hl in Hlinks. split; [|split; [congruence|done]].
  destruct (out_links a2 !! k) as [l'|]; [|done]. destruct Hlinks as (l & ps & evs' & [= <-] & Hb & _).
  unfold Transport.proof_body in Hb. rewrite Hh in Hb. cbn [mbind result_bind] in Hb.
  destruct handled; [| |]; try (by injection Hb as <- _ _).
  destruct (Link.create_rtt _ _ _); [|done]. cbn in Hb. by injection Hb as <- _ _.
Qed.

Lemma link_packets_short select ctx ivs payload entries : (length payload < 2000)%nat ->
  (forall k l, (k, l) ∈ entries -> key_ok l) ->
  exists ps, Transport.link_packets select ctx ivs payload entries = Ok ps /\
    (forall k l, (k, l) ∈ entries -> select l = true -> Link.status l = Active ->
       exists p, p ∈ ps /\ Link.data_packet_with_context ctx (ivs k) payload l = Ok p).
Proof.
  intros Hlen. induction entries as [|[k l] entries IH]; intros Hk; cbn [Transport.link_packets].
  { exists []. split; [done|]. by intros ? ? ?%not_elem_of_nil. }
  destruct IH as (ps & E & Hall). { intros k1 l1 Hin. eapply Hk. by right. }
  destruct (data_packet_short ctx (ivs k) payload l) as [p Hp]; [apply (Hk k); by left|done|].
  destruct (select l && bool_decide (Link.status l = Active)) eqn:Hsel.
  - rewrite Hp, E. cbn [mbind result_bind]. exists (p :: ps). split; [done|].
    intros k1 l1 [[= -> ->]|Hin]%elem_of_cons Hs Ha; [exists p; split; [by left|done]|].
    destruct (Hall k1 l1 Hin Hs Ha) as (q & Hq & Hd). exists q. split; [by right|done].
  - exists ps. split; [done|]. intros k1 l1 [[= -> ->]|Hin]%elem_of_cons Hs Ha; [|by eapply Hall].
    rewrite Hs, bool_decide_true in Hsel by done. done.
Qed.

(** Data sent to a destination goes out on its active link. *)
Lemma send_to_out_links_ok k ivs payload ctx now a l : transport_ok a -> out_links a !! k = Some l ->
  Link.status l = Active -> (length payload < 2000)%nat ->
  exists a' outs p, Transport.send_to_out_links_with_context k ivs payload ctx now a = Ok (a', outs) /\
    sends (ifaces a) p outs /\ Link.data_packet_with_context ctx (ivs k) payload l = Ok p.
Proof.
  intros Ha Hl Hst Hlen. unfold Transport.send_to_out_links_with_context, Transport.send_over.
  destruct (link_packets_short (Transport.to_destination k) ctx ivs payload (hash_iter (out_links a)) Hlen)
    as (ps & -> & Hall).
  { intros k1 l1 Hin. apply elem_of_hash_iter in Hin. apply (tr_out _ Ha _ _ Hin). }
  destruct (Hall k l) as (p & Hp & Hd); [by apply elem_of_hash_iter| |done|].
  { apply bool_decide_true. by apply (tr_out _ Ha _ _ Hl). }
  cbn [mbind result_bind]. pose proof (proj2 (send_packets_spec now ps a)) as Ho.
  destruct (Transport.send_packets now ps a) as [a' outs]. cbn [snd] in Ho. subst outs.
  eexists a', _, p. split; [done|]. split; [|done].
  rewrite <- (app_nil_r (concat _)). by apply sends_concat.
Qed.

Lemma receive_data secret ivs now via p b l l' handled evs : transport_ok b ->
  in_links b !! destination p = Some l -> packet_type (header p) = Data ->
  destination_type (header p) = Packet.Link -> Link.handle_packet p now l = Ok (l', handled, evs) ->
  exists b' outs, Transport.receive rtt_bytes secret ivs now (mkRx via p) b = Ok (b', outs) /\
    map InLinkEvent evs ⊆ outs.
Proof.
  intros Hb Hl Hty Hdt Hh. destruct (receive_dispatch secret ivs now (mkRx via p) b) as (h1 & o1 & Hs & ->).
  cbn [rx_packet]. rewrite Hty. pose proof (same_tables_ok _ _ Hs Hb) as Hh1.
  destruct Hs as (_ & _ & _ & _ & _ & S6). unfold Transport.handle_data.
  rewrite bool_decide_true by done.
  destruct (handle_in_link_ok now p h1 Hh1) as (h2 & o2 & -> & Hh2 & _ & Hin). cbn [mbind result_bind].
  destruct (over_out_links_ok now _ h2 Hh2 (data_body_ok now p)) as (h3 & o3 & -> & _).
  cbn [mbind result_bind]. eexists _, _. split; [done|].
  destruct (Hin l l' handled evs) as [_ Hev]; [by rewrite S6|done|].
  intros o Ho. apply elem_of_cons. right. apply elem_of_app. right. apply elem_of_app. left. by apply Hev.
Qed.

End Connect.

(** C10. Two transports connect and exchange data.  A transport asked for a link
    to a destination of another one sends a request on every running interface;
    the other transport, receiving it, answers with a proof; the first,
    receiving that, has an active link, the other an active incoming link with
    the same identifier and key; and from then on a payload of fewer than 2000
    bytes sent to the destination is posted by the other side, unchanged and with
    its context, whatever other destinations and links the two have. *)
Theorem transports_connect `{Features} `{IdentityCrypto} `{HashIter} `{!CryptoLaws} `{!IdentityLaws}
  (rtt_bytes : Z -> list byte) (Hrtt : forall z, (length (rtt_bytes z) < 2000)%nat)
  (bca bcb : bool) (ifsa ifsb : list LocalInterface) (a b : TransportHandler)
  (Ha : rtc (transport_step rtt_bytes) (Transport.new bca ifsa) a)
  (Hb : rtc (transport_step rtt_bytes) (Transport.new bcb ifsb) b)
  (sa sb sr : arr 32) (ka kb : SigningKey) (name : Hash) (t1 t2 t3 : Z)
  (Hdest : single_in_destinations b !! d_address_hash (in_desc (SingleInput_new (PrivateIdentity.new sb kb) name))
             = Some (SingleInput_new (PrivateIdentity.new sb kb) name))
  (Hnone : out_links a !! d_address_hash (in_desc (SingleInput_new (PrivateIdentity.new sb kb) name)) = None)
  (Hfresh : in_links b !! LinkId_from (Link.request t1 (Link.new (PrivateIdentity.new sa ka)
              (in_desc (SingleInput_new (PrivateIdentity.new sb kb) name)) t1)).2 = None)
  (ivs : AddressHash -> arr 16) (secret : arr 32) (via via' : AddressHash) :
  let desc := in_desc (SingleInput_new (PrivateIdentity.new sb kb) name) in
  let addr := d_address_hash desc in
  let '(a1, outs1, _) := Transport.link (PrivateIdentity.new sa ka) desc t1 a in
  exists req b1 outs2 proof a2 outs3 la lb, sends (ifaces a) req outs1 /\
    Transport.receive rtt_bytes sr ivs t2 (mkRx via req) b = Ok (b1, outs2) /\ sends (ifaces b) proof outs2 /\
    Transport.receive rtt_bytes secret ivs t3 (mkRx via' proof) a1 = Ok (a2, outs3) /\
    out_links a2 !! addr = Some la /\ in_links b1 !! Link.id la = Some lb /\
    Link.status la = Active /\ Link.status lb = Active /\ Link.derived_key la = Link.derived_key lb /\
    forall ctx payload t4 t5, ctx <> KeepAlive -> (length payload < 2000)%nat ->
    exists a3 outs4 p b2 outs5 received,
      Transport.send_to_out_links_with_context addr ivs payload ctx t4 a2 = Ok (a3, outs4) /\
      sends (ifaces a) p outs4 /\
      Transport.receive rtt_bytes secret ivs t5 (mkRx via p) b1 = Ok (b2, outs5) /\
      InLinkEvent (Link.post_event (EvData received ctx) lb) ∈ outs5 /\
      LinkPayload.as_slice received = Ok payload.
Proof.
  intros desc addr. pose proof (transport_run_ok rtt_bytes Hrtt _ _ _ Ha) as Hoka.
  pose proof (transport_run_ok rtt_bytes Hrtt _ _ _ Hb) as Hokb.
  pose proof (link_fresh (PrivateIdentity.new sa ka) desc t1 a Hnone) as Hlink.
  pose proof (handshake_agrees sa sb sr ka kb name t1 t1 t2 t3) as Hs.
  pose proof (tr_link rtt_bytes a (PrivateIdentity.new sa ka) desc t1) as Hstep.
  cbv zeta in Hs. fold desc in Hs, Hfresh.
  assert (Hreq : forall l req, Link.request t1 (Link.new (PrivateIdentity.new sa ka) desc t1) = (l, req) ->
    destination req = addr /\ packet_type (header req) = LinkRequest) by (intros l req [= <- <-]; done).
  pose proof (proj1 (request_packet t1 (Link.new (PrivateIdentity.new sa ka) desc t1))) as Hwf.
  destruct (Link.request t1 _) as [l1 req]. destruct (Hreq _ _ eq_refl) as [Hdst Hty].
  cbn [snd] in Hfresh. destruct Hlink as (a1 & Elink & Ha1 & Hifs1). rewrite Elink in Hstep |- *. cbn [fst] in Hstep.
  pose proof (transport_step_ok rtt_bytes Hrtt _ _ Hoka Hstep) as Hok1.
  destruct Hs as (r0 & Hr0 & Hs).
  pose proof (receive_link_request rtt_bytes sr ivs t2 via req b _ r0 ltac:(by rewrite Hdst) Hty
    ltac:(by rewrite Hdst) Hfresh Hr0) as Hrcv.
  pose proof (prove_packet r0) as Hproof. destruct (Link.prove r0) as [[r1 proof] evs].
  destruct Hproof as (_ & Hph & _). destruct Hs as (l2 & ev & Hh & Hst & Hst1 & Hid & Hkey & Hkl & _).
  destruct Hrcv as (b1 & outs2 & Eb & Hsend & Hin & Hifsb).
  destruct (receive_proof rtt_bytes Hrtt secret ivs t3 via' proof a1 addr l1 l2 _ _ Hok1 Ha1
    ltac:(by rewrite Hph) Hh) as (a2 & outs3 & Ea & Ha2 & Hifs2 & Hok2).
  exists req, b1, outs2, proof, a2, outs3, l2, r1. split; [by intros o Ho|].
  split; [done|]. split; [done|]. split; [done|]. split; [done|]. split; [by rewrite Hid|].
  split; [done|]. split; [done|]. split; [done|].
  intros ctx payload t4 t5 Hctx Hlen.
  destruct (send_to_out_links_ok addr ivs payload ctx t4 a2 l2 Hok2 Ha2 Hst Hlen) as (a3 & outs4 & p & E4 & Hp & Hd).
  pose proof (link_transfer l2 r1 ctx (ivs addr) payload t5 Hid Hkey Hkl Hctx) as Ht.
  rewrite Hd in Ht. destruct (Nat.leb _ _); [|done]. destruct Ht as (p' & received & [= <-] & Hhandle & Hslice).
  assert (Hpd : destination p = Link.id r1 /\ header p = Link.link_header Packet.Link Data).
  { unfold Link.data_packet_with_context in Hd. destruct (Link.encrypt _ _ _ _); [|done].
    cbn in Hd. injection Hd as <-. by rewrite Hid. }
  destruct Hpd as [Hpdst Hphd].
  pose proof (receive_ok rtt_bytes Hrtt sr ivs t2 (mkRx via req) b Hokb) as Hokb1. rewrite Eb in Hokb1.
  destruct (Hokb1 Hwf) as (b1' & o' & [= <- <-] & Hokb2).
  destruct (receive_data rtt_bytes secret ivs t5 via p b1 r1 _ _ _ Hokb2 ltac:(by rewrite Hpdst)
    ltac:(by rewrite Hphd) ltac:(by rewrite Hphd) Hhandle) as (b2 & outs5 & E5 & Hev).
  exists a3, outs4, p, b2, outs5, received. split; [done|]. split; [by rewrite <- Hifs1, <- Hifs2|].
  split; [done|]. split; [|done]. apply Hev. by left.
Qed.

#[local] Existing Instance toy_features.
#[local] Existing Instance toy_crypto.
#[local] Existing Instance toy_identity.
#[local] Existing Instance key_order.
#[local] Existing Instance toy_crypto_laws.
#[local] Existing Instance toy_identity_laws.

Definition sample_rtt (z : Z) : list byte := [xca; x00; x00; x00; x00].
Definition sample_server : PrivateIdentity.t := PrivateIdentity.new (arr_zero 32) (toy_secret x02).
Definition sample_client : TransportHandler := Transport.new false [mkIface (arr_zero 16) false].
Definition sample_node : TransportHandler :=
  (Transport.add_destination sample_server (arr_zero 32) (Transport.new true [mkIface (arr_zero 16) false])).1.

Lemma transport_safe_witness :
  let req := (Link.request 1 (Link.new (PrivateIdentity.new (arr_zero 32) (toy_secret x01))
                (in_desc (SingleInput_new sample_server (arr_zero 32))) 1)).2 in
  exists h outs, Transport.receive sample_rtt (arr_zero 32) (fun _ => arr_zero 16) 2 (mkRx (arr_zero 16) req)
    sample_node = Ok (h, outs).
Proof.
  intros req.
  destruct (transport_safe sample_rtt ltac:(intros z; cbn; lia) true [mkIface (arr_zero 16) false] sample_node
    ltac:(apply rtc_once, tr_add)) as [Hr _].
  apply Hr. apply (proj1 (request_packet 1 _)).
Defined.

Lemma transports_connect_witness :
  let desc := in_desc (SingleInput_new sample_server (arr_zero 32)) in
  let '(a1, _, _) := Transport.link (PrivateIdentity.new (arr_zero 32) (toy_secret x01)) desc 1 sample_client in
  exists proof a2 outs la, Transport.receive sample_rtt (arr_zero 32) (fun _ => arr_zero 16) 3
      (mkRx (arr_zero 16) proof) a1 = Ok (a2, outs) /\
    out_links a2 !! d_address_hash desc = Some la /\ Link.status la = Active.
Proof.
  intros desc.
  pose proof (transports_connect sample_rtt ltac:(intros z; cbn; lia) false true [mkIface (arr_zero 16) false]
    [mkIface (arr_zero 16) false] sample_client sample_node ltac:(apply rtc_refl) ltac:(apply rtc_once, tr_add)
    (arr_zero 32) (arr_zero 32) (arr_of 32 (replicate 32 x05)) (toy_secret x01) (toy_secret x02) (arr_zero 32) 1 2 3
    ltac:(apply lookup_insert_eq) ltac:(apply lookup_empty) ltac:(apply lookup_empty)
    (fun _ => arr_zero 16) (arr_zero 32) (arr_zero 16) (arr_zero 16)) as Hc.
  cbv zeta in Hc. fold sample_server in Hc. fold desc in Hc. destruct (Transport.link _ _ _ _) as [[a1 outs1] l].
  destruct Hc as (req & b1 & outs2 & proof & a2 & outs3 & la & lb & _ & _ & _ & E & Hl & _ & Hst & _).
  by exists proof, a2, outs3, la.
Defined.
