(* ===== verification/Stamp.v ===== *)
(** [lxmf-rs/src/constants.rs], [error.rs] and the proof-of-work half of
    [message.rs]: work blocks, the value and the validity of a stamp, the
    search for one, peering keys and propagation-node stamps. *)

From Stdlib Require Import ZArith Lia.
From Stdlib Require Import Strings.Byte.
From stdpp Require Import base list strings numbers.
From S2P Require Import Prelude Float Msgpack Crypto.

Local Open Scope Z_scope.

(** * Constants *)

Definition DESTINATION_LENGTH : nat := 16.
Definition SIGNATURE_LENGTH : nat := 64.
Definition HASH_LENGTH : nat := 32.
Definition STAMP_SIZE : nat := 32.
Definition TICKET_LENGTH : nat := 16.
Definition TIMESTAMP_SIZE : nat := 8.
Definition STRUCT_OVERHEAD : nat := 8.
Definition LXMF_OVERHEAD : nat :=
  2 * DESTINATION_LENGTH + SIGNATURE_LENGTH + TIMESTAMP_SIZE + STRUCT_OVERHEAD.

Definition STATE_GENERATING : Z := 0x00.
Definition STATE_OUTBOUND : Z := 0x01.
Definition STATE_SENDING : Z := 0x02.
Definition STATE_SENT : Z := 0x04.
Definition STATE_DELIVERED : Z := 0x08.
Definition STATE_REJECTED : Z := 0xfd.
Definition STATE_CANCELLED : Z := 0xfe.
Definition STATE_FAILED : Z := 0xff.
Definition REPR_UNKNOWN : Z := 0x00.
Definition REPR_PACKET : Z := 0x01.
Definition REPR_RESOURCE : Z := 0x02.

Definition WORKBLOCK_EXPAND_ROUNDS : nat := 3000.
Definition WORKBLOCK_EXPAND_ROUNDS_PN : nat := 1000.
Definition WORKBLOCK_EXPAND_ROUNDS_PEERING : nat := 25.

Definition TICKET_EXPIRY : Z := 21 * 24 * 60 * 60.
Definition TICKET_GRACE : Z := 5 * 24 * 60 * 60.
Definition TICKET_RENEW : Z := 14 * 24 * 60 * 60.
Definition TICKET_INTERVAL : Z := 1 * 24 * 60 * 60.
Definition COST_TICKET : Z := 0x100.
Definition MESSAGE_EXPIRY : Z := 30 * 24 * 60 * 60.
Definition FIELD_TICKET : Z := 0x0c.

(** * Errors *)

Inductive LXMFError : Type :=
| InvalidLength
| InvalidPayload
| InvalidBytes
| InvalidTimestamp
| MissingSignature
| Qr (e : string)
| MsgpackDecode (e : string)
| MsgpackEncode (e : string)
| Io (e : string).

#[export] Instance LXMFError_eq_dec : EqDecision LXMFError.
Proof. solve_decision. Defined.

Section Stamps.
Context `{C : Crypto} `{M : Msgpack}.

(** [rmpv::encode::write_value(&mut buf, v)?] and
    [rmpv::decode::read_value(&mut Cursor::new(bytes))?] *)
Definition write_msgpack (v : Value) : result LXMFError (list byte) :=
  map_err MsgpackEncode (write_value v).
Definition read_msgpack (bs : list byte) : result LXMFError Value :=
  map_err MsgpackDecode (read_value bs).

(** * Hashes and work blocks *)

Definition full_hash (data : list byte) : arr 32 := sha256 data.
Definition truncated_hash (data : list byte) : arr 16 := arr_of 16 (take 16 (full_hash data)).

Definition pack_u64_msgpack (value : Z) : result LXMFError (list byte) :=
  write_msgpack (Integer value).

(** One round of the expansion. *)
Definition workblock_round (material : list byte) (n : Z) : result LXMFError (list byte) :=
  packed ← pack_u64_msgpack n;
  let salt := full_hash (material ++ packed) in
  ok_or (hkdf_expand salt material 256) InvalidPayload.

Fixpoint workblock_from (material : list byte) (n : Z) (rounds : nat) :
    result LXMFError (list byte) :=
  match rounds with
  | O => Ok []
  | S k => out ← workblock_round material n;
           rest ← workblock_from material (n + 1) k;
           Ok (out ++ rest)
  end.

Definition stamp_workblock (material : list byte) (expand_rounds : nat) :
    result LXMFError (list byte) := workblock_from material 0 expand_rounds.

(** * Value and validity of a stamp *)

(** [u8::leading_zeros] *)
Definition leading_zeros (b : byte) : Z := if u8 b =? 0 then 8 else 7 - Z.log2 (u8 b).

Fixpoint count_zeros (hash : list byte) : Z :=
  match hash with
  | [] => 0
  | b :: hash' => if u8 b =? 0 then 8 + count_zeros hash' else leading_zeros b
  end.

Definition stamp_value (workblock stamp : list byte) : Z :=
  count_zeros (full_hash (workblock ++ stamp)).

(** The lexicographic comparison loop. *)
Fixpoint hash_le (hash target : list byte) : bool :=
  match hash, target with
  | h :: hash', t :: target' =>
      if u8 h <? u8 t then true
      else if u8 t <? u8 h then false
      else hash_le hash' target'
  | _, _ => true
  end.

Definition stamp_target (shift : Z) : list byte :=
  let byte_index := (HASH_LENGTH - 1 - Z.to_nat (shift / 8))%nat in
  let bit_index := shift mod 8 in
  <[byte_index := byte_of_Z (Z.shiftl 1 bit_index)]> (replicate HASH_LENGTH x00).

Definition stamp_valid (workblock stamp : list byte) (target_cost : Z) : bool :=
  if target_cost =? 0 then true
  else if 256 <? target_cost then false
  else
    let hash := full_hash (workblock ++ stamp) in
    let shift := sat_sub 256 target_cost in
    if 256 <=? shift then true
    else hash_le hash (stamp_target shift).

(** * Searching for a stamp *)

Definition max_rounds (stamp_cost : Z) : positive :=
  if stamp_cost <=? 15 then Z.to_pos u32_max
  else if stamp_cost <=? 20 then 10000000
  else 1000000.

(** One turn of the search: [draws n] is the [n]th block [OsRng] fills. *)
Definition stamp_round (workblock : list byte) (stamp_cost : Z) (draws : Z -> arr 32)
    (rounds : Z) : Z + (option (arr 32) * Z) :=
  let stamp := draws rounds in
  let rounds := sat_add32 rounds 1 in
  if stamp_valid workblock stamp stamp_cost
  then inr (Some stamp, stamp_value workblock stamp)
  else if Zpos (max_rounds stamp_cost) <=? rounds then inr (None, 0)
  else inl rounds.

Definition generate_stamp (draws : Z -> arr 32) (message_id : list byte) (stamp_cost : Z)
    (expand_rounds : nat) : option (arr 32) * Z :=
  match stamp_workblock message_id expand_rounds with
  | Err _ => (None, 0)
  | Ok workblock =>
      match loop_for (max_rounds stamp_cost) (stamp_round workblock stamp_cost draws) 0 with
      | inr r => r
      | inl _ => (None, 0)
      end
  end.

(** * Peering keys and propagation stamps *)

Definition validate_peering_key (peering_id peering_key : list byte) (target_cost : Z) : bool :=
  match stamp_workblock peering_id WORKBLOCK_EXPAND_ROUNDS_PEERING with
  | Ok workblock => stamp_valid workblock peering_key target_cost
  | Err _ => false
  end.

Definition generate_peering_key (draws : Z -> arr 32) (peering_id : arr 32) (target_cost : Z) :
    option (list byte) :=
  let '(stamp, _) := generate_stamp draws peering_id target_cost WORKBLOCK_EXPAND_ROUNDS_PEERING in
  arr_list <$> stamp.

Definition validate_pn_stamp (transient_data : list byte) (target_cost : Z) :
    option (arr 32 * list byte * Z * list byte) :=
  if Nat.leb (length transient_data) (LXMF_OVERHEAD + STAMP_SIZE) then None
  else
    let split_at := (length transient_data - STAMP_SIZE)%nat in
    let lxm_data := take split_at transient_data in
    let stamp := drop split_at transient_data in
    let transient_id := full_hash lxm_data in
    workblock ← res_ok (stamp_workblock transient_id WORKBLOCK_EXPAND_ROUNDS_PN);
    if negb (stamp_valid workblock stamp target_cost) then None
    else Some (transient_id, lxm_data, stamp_value workblock stamp, stamp).

(** * The comparison is the comparison of numbers *)

Lemma hash_le_spec h t :
  length h = length t -> hash_le h t = (be_val h <=? be_val t).
Proof.
  revert t. induction h as [|b h IH]; intros [|c t] Hl; simplify_eq/=; [done|].
  pose proof (be_val_range h) as Hh. pose proof (be_val_range t) as Ht.
  rewrite Hl in *. set (p := 256 ^ Z.of_nat (length t)) in *.
  pose proof (u8_range b). pose proof (u8_range c).
  destruct (Z.ltb_spec (u8 b) (u8 c)).
  - symmetry. apply Z.leb_le. nia.
  - destruct (Z.ltb_spec (u8 c) (u8 b)).
    + symmetry. apply Z.leb_gt. nia.
    + assert (u8 b = u8 c) as -> by lia. rewrite IH by done.
      destruct (Z.leb_spec (be_val h) (be_val t)); symmetry; [apply Z.leb_le|apply Z.leb_gt]; lia.
Qed.

Lemma be_val_single i q b :
  be_val (replicate i x00 ++ b :: replicate q x00) = u8 b * 256 ^ Z.of_nat q.
Proof.
  rewrite be_val_app, be_val_zeros. cbn [be_val]. rewrite length_replicate, be_val_zeros. lia.
Qed.

Lemma length_stamp_target shift : length (stamp_target shift) = HASH_LENGTH.
Proof. unfold stamp_target. by rewrite length_insert, length_replicate. Qed.

Lemma stamp_target_spec shift :
  0 <= shift < 256 -> be_val (stamp_target shift) = 2 ^ shift.
Proof.
  intros Hs. unfold stamp_target.
  assert (0 <= shift / 8 < 32) as Hq by (split; [apply Z.div_pos|apply Z.div_lt_upper_bound]; lia).
  pose proof (Z.mod_pos_bound shift 8 ltac:(lia)) as Hr.
  set (q := Z.to_nat (shift / 8)) in *. unfold HASH_LENGTH.
  replace (replicate 32 x00) with (replicate (32 - 1 - q) x00 ++ x00 :: replicate q x00).
  2: { change (x00 :: replicate q x00) with (replicate (S q) x00).
       rewrite <- replicate_add. f_equal. lia. }
  rewrite insert_app_r_alt by (rewrite length_replicate; lia).
  rewrite length_replicate, Nat.sub_diag. cbn [insert list_insert].
  rewrite be_val_single, u8_of_Z, Z.shiftl_1_l.
  assert (2 ^ (shift mod 8) < 2 ^ 8) by (apply Z.pow_lt_mono_r; lia).
  pose proof (Z.pow_pos_nonneg 2 (shift mod 8)).
  rewrite Z.mod_small by lia.
  replace (Z.of_nat q) with (shift / 8) by lia.
  change 256 with (2 ^ 8). rewrite <- Z.pow_mul_r by lia. rewrite <- Z.pow_add_r by lia.
  f_equal. pose proof (Z.div_mod shift 8). lia.
Qed.

(** The number a stamp is judged by. *)
Definition stamp_number (workblock stamp : list byte) : Z :=
  be_val (full_hash (workblock ++ stamp)).

Lemma stamp_valid_spec workblock stamp cost :
  0 <= cost ->
  stamp_valid workblock stamp cost =
  (cost =? 0) || (cost <=? 256) && (stamp_number workblock stamp <=? 2 ^ (256 - cost)).
Proof.
  intros Hc. unfold stamp_valid, stamp_number.
  destruct (Z.eqb_spec cost 0); [done|]. simpl.
  destruct (Z.ltb_spec 256 cost); [by rewrite (proj2 (Z.leb_gt _ _)) by lia|].
  rewrite (proj2 (Z.leb_le cost 256)) by lia. simpl.
  unfold sat_sub. rewrite Z.max_l by lia.
  rewrite (proj2 (Z.leb_gt 256 (256 - cost))) by lia.
  rewrite hash_le_spec by (rewrite length_stamp_target; apply arr_length).
  by rewrite stamp_target_spec by lia.
Qed.

(** * The value is the number of leading zero bits *)

Lemma count_zeros_spec l :
  count_zeros l =
  if be_val l =? 0 then 8 * Z.of_nat (length l) else 8 * Z.of_nat (length l) - 1 - Z.log2 (be_val l).
Proof.
  induction l as [|b l IH]; [done|].
  pose proof (be_val_range l) as Hl. pose proof (u8_range b) as Hb.
  cbn [count_zeros be_val]. rewrite length_cons, Nat2Z.inj_succ.
  destruct (Z.eqb_spec (u8 b) 0) as [H0|H0].
  - rewrite H0, Z.mul_0_l, Z.add_0_l, IH. destruct (be_val l =? 0); lia.
  - unfold leading_zeros. rewrite (proj2 (Z.eqb_neq (u8 b) 0)) by done.
    set (n := Z.of_nat (length l)) in *. assert (0 <= n) by lia.
    assert (0 < 256 ^ n) by (apply Z.pow_pos_nonneg; lia).
    rewrite (proj2 (Z.eqb_neq _ _)) by nia.
    rewrite (Z.log2_unique (u8 b * 256 ^ n + be_val l) (Z.log2 (u8 b) + 8 * n)).
    + lia.
    + pose proof (Z.log2_nonneg (u8 b)). lia.
    + destruct (Z.log2_spec (u8 b)) as [Hlo Hhi]; [lia|].
      pose proof (Z.log2_nonneg (u8 b)).
      rewrite <- Z.add_succ_l, !Z.pow_add_r by lia.
      replace (2 ^ (8 * n)) with (256 ^ n) by (rewrite Z.pow_mul_r by lia; done). nia.
Qed.

Lemma stamp_value_spec workblock stamp :
  stamp_value workblock stamp =
  if stamp_number workblock stamp =? 0 then 256
  else 255 - Z.log2 (stamp_number workblock stamp).
Proof.
  unfold stamp_value, stamp_number. rewrite count_zeros_spec, arr_length.
  destruct (_ =? 0); lia.
Qed.

Lemma stamp_number_range workblock stamp : 0 <= stamp_number workblock stamp < 2 ^ 256.
Proof.
  unfold stamp_number. pose proof (be_val_range (full_hash (workblock ++ stamp))) as H.
  rewrite arr_length in H. exact H.
Qed.

(** * The search *)

Lemma max_rounds_u32 cost : Zpos (max_rounds cost) <= u32_max.
Proof. unfold max_rounds, u32_max. repeat case_match; simpl; lia. Qed.

(** What a search answers that has already tried the draws below [from]. *)
Definition search_ok (workblock : list byte) (cost : Z) (draws : Z -> arr 32) (from : Z)
    (r : option (arr 32) * Z) : Prop :=
  match r with
  | (Some s, v) => exists n, from <= n < Zpos (max_rounds cost) /\ s = draws n /\
      stamp_valid workblock s cost = true /\ v = stamp_value workblock s /\
      forall m, from <= m < n -> stamp_valid workblock (draws m) cost = false
  | (None, v) => v = 0 /\ forall m, from <= m < Zpos (max_rounds cost) ->
      stamp_valid workblock (draws m) cost = false
  end.

Lemma search_ok_extend workblock cost (draws : Z -> arr 32) r res :
  stamp_valid workblock (draws r) cost = false ->
  search_ok workblock cost draws (r + 1) res -> search_ok workblock cost draws r res.
Proof.
  intros Hr. destruct res as [[s|] v]; simpl.
  - intros (n & Hn & Hs & Hv & Hval & Hm). exists n. split_and!; try done; [lia..|].
    intros m Hmr. destruct (decide (m = r)) as [->|]; [done|]. apply Hm. lia.
  - intros [Hv Hm]. split; [done|]. intros m Hmr.
    destruct (decide (m = r)) as [->|]; [done|]. apply Hm. lia.
Qed.

Lemma stamp_search workblock cost (draws : Z -> arr 32) k r :
  0 <= r -> r + Z.of_nat k = Zpos (max_rounds cost) -> (0 < k)%nat ->
  exists res, loop_nat k (stamp_round workblock cost draws) r = inr res /\
    search_ok workblock cost draws r res.
Proof.
  pose proof (max_rounds_u32 cost) as Hmax.
  revert r. induction k as [|k IH]; intros r Hr Hk Hpos; [lia|].
  cbn [loop_nat]. unfold stamp_round at 1. cbv zeta.
  replace (sat_add32 r 1) with (r + 1) by (unfold sat_add32; lia).
  destruct (stamp_valid workblock (draws r) cost) eqn:Hv.
  - eexists. split; [done|]. exists r. split_and!; try done; lia.
  - destruct (Z.leb_spec (Zpos (max_rounds cost)) (r + 1)).
    + eexists. split; [done|]. split; [done|]. intros m Hm. by replace m with r by lia.
    + destruct (IH (r + 1)) as (res & Hl & Hok); [lia..|].
      exists res. split; [done|]. by apply search_ok_extend.
Qed.

Lemma generate_stamp_spec draws message_id cost rounds workblock :
  stamp_workblock message_id rounds = Ok workblock ->
  search_ok workblock cost draws 0 (generate_stamp draws message_id cost rounds).
Proof.
  intros Hwb. unfold generate_stamp. rewrite Hwb, loop_for_nat.
  destruct (stamp_search workblock cost draws (Pos.to_nat (max_rounds cost)) 0)
    as (res & -> & Hok); [lia..|done].
Qed.

Lemma generate_stamp_Some draws message_id cost rounds s v :
  generate_stamp draws message_id cost rounds = (Some s, v) ->
  exists workblock, stamp_workblock message_id rounds = Ok workblock /\
    stamp_valid workblock s cost = true /\ v = stamp_value workblock s.
Proof.
  intros Hg. destruct (stamp_workblock message_id rounds) as [wb|e] eqn:Hwb.
  - pose proof (generate_stamp_spec draws message_id cost rounds wb Hwb) as Hok.
    rewrite Hg in Hok. destruct Hok as (n & _ & -> & Hv & Hval & _). eauto.
  - unfold generate_stamp in Hg. by rewrite Hwb in Hg.
Qed.

Lemma generate_stamp_cost0 draws message_id rounds workblock :
  stamp_workblock message_id rounds = Ok workblock ->
  generate_stamp draws message_id 0 rounds = (Some (draws 0), stamp_value workblock (draws 0)).
Proof.
  intros Hwb. pose proof (generate_stamp_spec draws message_id 0 rounds workblock Hwb) as Hok.
  destruct (generate_stamp draws message_id 0 rounds) as [[s|] v]; simpl in Hok.
  - destruct Hok as (n & Hn & -> & _ & -> & Hm).
    destruct (decide (n = 0)) as [->|]; [done|]. by specialize (Hm 0 ltac:(lia)).
  - by destruct Hok as [_ Hm]; specialize (Hm 0 ltac:(lia)).
Qed.

(** * Work blocks always exist *)

Context `{CL : !CryptoLaws} `{ML : !MsgpackLaws}.

Lemma pack_u64_ok n : is_u64 n = true -> exists bs, pack_u64_msgpack n = Ok bs.
Proof.
  intros Hn. destruct (write_value_ok (Integer n)) as [bs Hw].
  - unfold representable. simpl. unfold is_u64, u64_max in *. lia.
  - exists bs. unfold pack_u64_msgpack, write_msgpack. by rewrite Hw.
Qed.

Lemma workblock_from_ok material rounds n :
  0 <= n -> n + Z.of_nat rounds <= 2 ^ 64 ->
  exists wb, workblock_from material n rounds = Ok wb /\ length wb = (256 * rounds)%nat.
Proof.
  revert n. induction rounds as [|k IH]; intros n Hn Hb; [by exists []|].
  destruct (pack_u64_ok n) as [bs Hbs]; [unfold is_u64, u64_max; lia|].
  destruct (hkdf_expand_ok (full_hash (material ++ bs)) material 256) as (out & Hout & Hlo); [lia|].
  destruct (IH (n + 1)) as (wb & Hwb & Hlw); [lia..|].
  exists (out ++ wb). split.
  - cbn [workblock_from]. unfold workblock_round. rewrite Hbs. simpl. rewrite Hout. simpl. by rewrite Hwb.
  - rewrite length_app. lia.
Qed.

Lemma stamp_workblock_ok material rounds :
  Z.of_nat rounds <= 2 ^ 64 ->
  exists wb, stamp_workblock material rounds = Ok wb /\ length wb = (256 * rounds)%nat.
Proof. intros H. by apply workblock_from_ok. Qed.

Lemma stamp_valid_antitone workblock stamp cost cost' :
  0 <= cost' <= cost -> stamp_valid workblock stamp cost = true ->
  stamp_valid workblock stamp cost' = true.
Proof.
  intros Hc'. rewrite !stamp_valid_spec by lia. intros Hv.
  destruct (Z.eqb_spec cost' 0); [done|].
  assert (cost <= 256 /\ stamp_number workblock stamp <= 2 ^ (256 - cost)) as [H1 H2] by lia.
  pose proof (Z.pow_le_mono_r 2 (256 - cost) (256 - cost')). lia.
Qed.

Lemma stamp_rule_arith n cost :
  0 <= n -> 0 <= cost ->
  (cost =? 0) || (cost <=? 256) && (n <=? 2 ^ (256 - cost)) = true <->
  cost = 0 \/ cost <= 256 /\
    (cost <= (if n =? 0 then 256 else 255 - Z.log2 n) \/ n = 2 ^ (256 - cost)).
Proof.
  intros Hn Hc. destruct (Z.eqb_spec cost 0) as [->|Hne]; [by split; [left|]|].
  destruct (Z.leb_spec cost 256) as [Hle|Hgt]; [|simpl; split; [done|lia]].
  assert (0 < 2 ^ (256 - cost)) by (apply Z.pow_pos_nonneg; lia).
  simpl. rewrite Z.leb_le. destruct (Z.eqb_spec n 0) as [->|Hn0]; [split; lia|].
  pose proof (Z.log2_lt_pow2 n (256 - cost) ltac:(lia)) as Hlog. split.
  - intros Hle2. right. split; [done|].
    destruct (decide (n = 2 ^ (256 - cost))) as [|Hx]; [by right|left]. lia.
  - intros [|[_ [|]]]; lia.
Qed.

Lemma leading_zeros_range n :
  0 <= n < 2 ^ 256 -> 0 <= (if n =? 0 then 256 else 255 - Z.log2 n) <= 256.
Proof.
  intros Hn. destruct (Z.eqb_spec n 0); [lia|].
  pose proof (Z.log2_nonneg n). pose proof (Z.log2_lt_pow2 n 256 ltac:(lia)). lia.
Qed.

End Stamps.
(** Thousands of hash rounds: never to be unfolded by unification. *)
#[global] Opaque stamp_workblock.

(** The proof-of-work rule.  A stamp is valid for a cost exactly when the
    cost is zero, or is at most 256 and the stamp's value (its number of
    leading zero bits) reaches the cost or its hash is exactly the target
    [2^(256 - cost)], the one case where the value is one less than the cost.
    Values lie between 0 and 256, and a stamp valid for a cost is valid for
    every smaller one. *)
Theorem stamp_rule `{Crypto} (workblock stamp : list byte) (cost : Z) (Hc : is_u32 cost = true) :
  (stamp_valid workblock stamp cost = true <->
     cost = 0 \/ cost <= 256 /\
       (cost <= stamp_value workblock stamp \/ stamp_number workblock stamp = 2 ^ (256 - cost))) /\
  (0 <= stamp_value workblock stamp <= 256) /\
  (stamp_valid workblock stamp cost = true ->
     forall cost', 0 <= cost' <= cost -> stamp_valid workblock stamp cost' = true).
Proof.
  assert (0 <= cost) as Hc0 by (unfold is_u32 in Hc; lia).
  pose proof (stamp_number_range workblock stamp) as Hn. split_and!.
  - rewrite stamp_valid_spec, stamp_value_spec by done. apply stamp_rule_arith; lia.
  - rewrite stamp_value_spec. by apply leading_zeros_range.
  - rewrite stamp_value_spec. by apply leading_zeros_range.
  - intros Hv cost' Hc'. by eapply stamp_valid_antitone.
Qed.

Lemma stamp_rule_witness :
  stamp_valid (C := toy_crypto) [x01] [x02; x03] 246 = true /\
  stamp_valid (C := toy_crypto) [x01] [x02; x03] 247 = false.
Proof.
  split; [|reflexivity].
  pose proof (stamp_rule (H := toy_crypto) [x01] [x02; x03] 246 eq_refl) as [Hr _]. apply Hr.
  right. split; [lia|]. left. vm_compute. discriminate.
Defined.

(** C34. The stamp search terminates and is exact: it tries the random draws in
    order, at most [max_rounds] of them (also where a comment calls the search
    unlimited), answers the first valid one with its value, and answers none
    only when every draw within the bound is invalid. *)
Theorem generate_stamp_exact `{Crypto} `{Msgpack} (draws : Z -> arr 32) (message_id : list byte)
  (cost : Z) (rounds : nat) (workblock : list byte)
  (Hwb : stamp_workblock message_id rounds = Ok workblock) :
  match generate_stamp draws message_id cost rounds with
  | (Some s, v) => exists n, 0 <= n < Zpos (max_rounds cost) /\ s = draws n /\
      stamp_valid workblock s cost = true /\ v = stamp_value workblock s /\
      forall m, 0 <= m < n -> stamp_valid workblock (draws m) cost = false
  | (None, v) => v = 0 /\ forall m, 0 <= m < Zpos (max_rounds cost) ->
      stamp_valid workblock (draws m) cost = false
  end.
Proof. by apply generate_stamp_spec. Qed.

Lemma generate_stamp_exact_witness :
  exists s, fst (generate_stamp (C := toy_crypto) (M := bit_codec)
                   (fun n => arr_of 32 [byte_of_Z (n + 254)]) [x01] 243 1) = Some s.
Proof.
  destruct (stamp_workblock (C := toy_crypto) (M := bit_codec) [x01] 1) as [wb|] eqn:E;
    [|discriminate E].
  pose proof (generate_stamp_exact (H := toy_crypto) (H0 := bit_codec)
    (fun n => arr_of 32 [byte_of_Z (n + 254)]) [x01] 243 1 wb E) as Hx.
  destruct (generate_stamp _ [x01] 243 1) as [[s|] v]; [by exists s|].
  exfalso. destruct Hx as [_ Hx]. specialize (Hx 2).
  vm_compute in E. injection E as <-. 
  vm_compute in Hx. discriminate Hx. by split.
Defined.

(** Propagation-node stamps: [validate_pn_stamp] accepts exactly the data
    that is a message longer than the LXMF overhead followed by a 32-byte stamp
    valid for the work block of the message's hash, and answers that hash, the
    message, the stamp's value and the stamp. *)
Theorem validate_pn_stamp_exact `{Crypto} `{Msgpack} (transient_data : list byte) (cost : Z)
  (id : arr 32) (lxm_data : list byte) (value : Z) (stamp : list byte) :
  validate_pn_stamp transient_data cost = Some (id, lxm_data, value, stamp) <->
  transient_data = lxm_data ++ stamp /\ length stamp = STAMP_SIZE /\
  (LXMF_OVERHEAD < length lxm_data)%nat /\ id = full_hash lxm_data /\
  exists workblock, stamp_workblock id WORKBLOCK_EXPAND_ROUNDS_PN = Ok workblock /\
    stamp_valid workblock stamp cost = true /\ value = stamp_value workblock stamp.
Proof.
  unfold validate_pn_stamp. split.
  - destruct (Nat.leb_spec (length transient_data) (LXMF_OVERHEAD + STAMP_SIZE)) as [|Hl]; [done|].
    cbv zeta. match goal with |- context [res_ok ?x] => set (W := x) end.
    destruct W as [wb|e] eqn:Hwb; subst W; cbn [res_ok mbind option_bind].
    + destruct (stamp_valid wb _ cost) eqn:Hv; cbn [negb]; intros Hs; [|discriminate Hs].
      injection Hs as <- <- <- <-.
      split_and!; [by rewrite take_drop|rewrite length_drop; lia|rewrite length_take; lia
                  |reflexivity|by exists wb].
    + intros Hs. discriminate Hs.
  - intros (-> & Hls & Hll & -> & wb & Hwb & Hv & ->).
    rewrite length_app, Hls. rewrite (proj2 (Nat.leb_gt _ _)) by lia. cbv zeta.
    replace (length lxm_data + STAMP_SIZE - STAMP_SIZE)%nat with (length lxm_data) by lia.
    rewrite take_app_length, drop_app_length, Hwb. simpl. by rewrite Hv.
Qed.

Lemma validate_pn_stamp_generated `{Crypto} `{Msgpack} draws lxm_data cost s v :
  (LXMF_OVERHEAD < length lxm_data)%nat ->
  generate_stamp draws (full_hash lxm_data) cost WORKBLOCK_EXPAND_ROUNDS_PN = (Some s, v) ->
  validate_pn_stamp (lxm_data ++ s) cost = Some (full_hash lxm_data, lxm_data, v, arr_list s).
Proof.
  intros Hl Hg. destruct (generate_stamp_Some _ _ _ _ _ _ Hg) as (wb & Hwb & Hv & ->).
  unfold validate_pn_stamp. rewrite length_app, arr_length.
  rewrite (proj2 (Nat.leb_gt _ _)) by (unfold STAMP_SIZE; lia). cbv zeta. unfold STAMP_SIZE.
  replace (length lxm_data + 32 - 32)%nat with (length lxm_data) by lia.
  rewrite take_app_length, drop_app_length, Hwb. simpl. by rewrite Hv.
Qed.

Lemma validate_peering_key_generated `{Crypto} `{Msgpack} draws (peering_id : arr 32) cost key :
  generate_peering_key draws peering_id cost = Some key ->
  validate_peering_key peering_id key cost = true.
Proof.
  unfold generate_peering_key, validate_peering_key.
  destruct (generate_stamp _ _ _ _) as [[s|] v] eqn:Hg; simpl; [|done]. intros Hk. inv_ok.
  destruct (generate_stamp_Some _ _ _ _ _ _ Hg) as (wb & -> & Hv & _). done.
Qed.

(** What the search generates, the validators accept: a propagation stamp
    appended to its message is validated back to the message, its hash and the
    value the search reported, and a generated peering key validates for the
    cost it was generated for and for every smaller one. *)
Theorem generated_stamps_validate `{Crypto} `{Msgpack} (draws draws' : Z -> arr 32)
  (lxm_data : list byte) (cost cost' : Z) (s : arr 32) (v : Z) (peering_id : arr 32)
  (key : list byte)
  (Hlen : (LXMF_OVERHEAD < length lxm_data)%nat)
  (Hgen : generate_stamp draws (full_hash lxm_data) cost WORKBLOCK_EXPAND_ROUNDS_PN = (Some s, v))
  (Hkey : generate_peering_key draws' peering_id cost = Some key)
  (Hcost : is_u32 cost = true) (Hcost' : 0 <= cost' <= cost) :
  validate_pn_stamp (lxm_data ++ s) cost = Some (full_hash lxm_data, lxm_data, v, arr_list s) /\
  validate_peering_key peering_id key cost = true /\
  validate_peering_key peering_id key cost' = true.
Proof.
  split; [by eapply validate_pn_stamp_generated|].
  pose proof (validate_peering_key_generated _ _ _ _ Hkey) as Hv. split; [done|].
  unfold validate_peering_key in *. destruct (stamp_workblock _ _) as [wb|]; [|done].
  by eapply stamp_valid_antitone.
Qed.

Lemma generated_stamps_validate_witness :
  exists v, validate_pn_stamp (C := toy_crypto) (M := bit_codec)
              (replicate 113 x01 ++ arr_zero 32) 0 =
    Some (full_hash (C := toy_crypto) (replicate 113 x01), replicate 113 x01, v,
          arr_list (arr_zero 32)).
Proof.
  destruct (stamp_workblock_ok (C := toy_crypto) (M := bit_codec) (CL := toy_crypto_laws)
    (ML := bit_codec_laws) (full_hash (C := toy_crypto) (replicate 113 x01))
    WORKBLOCK_EXPAND_ROUNDS_PN) as (wb & Hwb & _); [unfold WORKBLOCK_EXPAND_ROUNDS_PN; lia|].
  destruct (stamp_workblock_ok (C := toy_crypto) (M := bit_codec) (CL := toy_crypto_laws)
    (ML := bit_codec_laws) (arr_zero 32) WORKBLOCK_EXPAND_ROUNDS_PEERING) as (wb' & Hwb' & _);
    [unfold WORKBLOCK_EXPAND_ROUNDS_PEERING; lia|].
  exists (stamp_value (C := toy_crypto) wb (arr_zero 32)).
  apply (generated_stamps_validate (H := toy_crypto) (H0 := bit_codec) (fun _ => arr_zero 32)
    (fun _ => arr_zero 32) (replicate 113 x01) 0 0 (arr_zero 32) _ (arr_zero 32)
    (arr_list (arr_zero 32))).
  - vm_compute. lia.
  - by rewrite (generate_stamp_cost0 _ _ _ _ Hwb).
  - unfold generate_peering_key. by rewrite (generate_stamp_cost0 _ _ _ _ Hwb').
  - reflexivity.
  - lia.
Defined.
