(* ===== verification/Message.v ===== *)
(** [lxmf-rs/src/message.rs]: LXMF messages.  [LXMessage.t] is the message
    struct; its methods are the definitions of the module, those through
    [&mut self] in the state-and-error monad, so that the fields written before
    an early return stay written. *)

From Stdlib Require Import ZArith Lia.
From Stdlib Require Import Strings.Byte.
From stdpp Require Import base list strings numbers.
From S2P Require Import Prelude Float Msgpack Crypto Stamp.

Local Open Scope Z_scope.

Module LXMessage.

Record t : Type := mk {
  m_destination_hash : arr 16;
  m_source_hash : arr 16;
  m_timestamp : f64;
  m_title : list byte;
  m_content : list byte;
  m_fields : Value;
  m_stamp : option (list byte);
  m_stamp_cost : option Z;
  m_stamp_value : option Z;
  m_stamp_valid : bool;
  m_stamp_checked : bool;
  m_outbound_ticket : option (list byte);
  m_include_ticket : bool;
  m_defer_stamp : bool;
  m_state : Z;
  m_method : option Z;
  m_representation : Z;
  m_transport_encrypted : option bool;
  m_transport_encryption : option string;
  m_signature : option (arr 64);
  m_message_id : option (arr 32)
}.

Definition with_content (destination_hash source_hash : arr 16) (timestamp : f64)
    (title content : list byte) (fields : Value) : t :=
  mk destination_hash source_hash timestamp title content fields None None None false false None
    false true STATE_GENERATING None REPR_UNKNOWN None None None None.

Definition new (destination_hash source_hash : arr 16) : t :=
  with_content destination_hash source_hash f64_zero [] [] (VMap []).

Definition with_strings (destination_hash source_hash : arr 16) (timestamp : f64)
    (title content : string) (fields : Value) : t :=
  with_content destination_hash source_hash timestamp (bytes_of_string title)
    (bytes_of_string content) fields.

(** * Field assignments *)

(** [self.stamp], [self.stamp_value], [self.stamp_valid] and
    [self.stamp_checked] together. *)
Definition set_stamp_fields (stamp : option (list byte)) (value : option Z) (valid checked : bool)
    (m : t) : t :=
  mk (m_destination_hash m) (m_source_hash m) (m_timestamp m) (m_title m) (m_content m)
    (m_fields m) stamp (m_stamp_cost m) value valid checked (m_outbound_ticket m)
    (m_include_ticket m) (m_defer_stamp m) (m_state m) (m_method m) (m_representation m)
    (m_transport_encrypted m) (m_transport_encryption m) (m_signature m) (m_message_id m).

Definition set_stamp_inputs (cost : option Z) (ticket : option (list byte)) (defer : bool)
    (m : t) : t :=
  mk (m_destination_hash m) (m_source_hash m) (m_timestamp m) (m_title m) (m_content m)
    (m_fields m) (m_stamp m) cost (m_stamp_value m) (m_stamp_valid m) (m_stamp_checked m) ticket
    (m_include_ticket m) defer (m_state m) (m_method m) (m_representation m)
    (m_transport_encrypted m) (m_transport_encryption m) (m_signature m) (m_message_id m).

Definition set_identity (signature : option (arr 64)) (message_id : option (arr 32)) (m : t) : t :=
  mk (m_destination_hash m) (m_source_hash m) (m_timestamp m) (m_title m) (m_content m)
    (m_fields m) (m_stamp m) (m_stamp_cost m) (m_stamp_value m) (m_stamp_valid m)
    (m_stamp_checked m) (m_outbound_ticket m) (m_include_ticket m) (m_defer_stamp m) (m_state m)
    (m_method m) (m_representation m) (m_transport_encrypted m) (m_transport_encryption m)
    signature message_id.

Definition set_transfer (state : Z) (method : option Z) (encrypted : option bool)
    (encryption : option string) (m : t) : t :=
  mk (m_destination_hash m) (m_source_hash m) (m_timestamp m) (m_title m) (m_content m)
    (m_fields m) (m_stamp m) (m_stamp_cost m) (m_stamp_value m) (m_stamp_valid m)
    (m_stamp_checked m) (m_outbound_ticket m) (m_include_ticket m) (m_defer_stamp m) state
    method (m_representation m) encrypted encryption (m_signature m) (m_message_id m).

Definition set_outbound_ticket (ticket : list byte) (m : t) : t :=
  set_stamp_inputs (m_stamp_cost m) (Some ticket) (m_defer_stamp m) m.
Definition set_stamp_cost (cost : Z) (m : t) : t :=
  set_stamp_inputs (Some cost) (m_outbound_ticket m) (m_defer_stamp m) m.
Definition set_defer_stamp (defer : bool) (m : t) : t :=
  set_stamp_inputs (m_stamp_cost m) (m_outbound_ticket m) defer m.

Section Operations.
Context `{C : Crypto} `{M : Msgpack}.

(** * Helpers *)

Definition pack_payload_values (values : list Value) : result LXMFError (list byte) :=
  write_msgpack (VArray values).

Definition compute_message_id (destination_hash source_hash : arr 16) (packed_payload : list byte) :
    arr 32 := sha256 (destination_hash ++ source_hash ++ packed_payload).

Definition build_signed_part (destination_hash source_hash : arr 16) (packed_payload : list byte)
    (message_id : arr 32) : list byte :=
  destination_hash ++ source_hash ++ packed_payload ++ message_id.

Definition value_to_bytes (v : Value) : result LXMFError (list byte) :=
  match v with
  | Binary data => Ok data
  | VString s => ok_or (bytes_of_string <$> utf8_as_str s) InvalidBytes
  | _ => Err InvalidBytes
  end.

Definition value_to_f64 (v : Value) : result LXMFError f64 :=
  match v with
  | F64 x => Ok x
  | F32 x => Ok (f64_of_f32 x)
  | Integer i => ok_or (f64_of_Z <$> integer_as_i64 i) InvalidTimestamp
  | _ => Err InvalidTimestamp
  end.

Definition payload_values (m : t) : list Value :=
  [F64 (m_timestamp m); Binary (m_title m); Binary (m_content m); m_fields m].

Definition pack_payload (include_stamp : bool) (m : t) : result LXMFError (list byte) :=
  pack_payload_values
    (payload_values m ++
     (if include_stamp then match m_stamp m with Some stamp => [Binary stamp] | None => [] end
      else [])).

(** The identifier and the signed bytes, from the payload without its stamp. *)
Definition message_id_of (m : t) (payload : list byte) : arr 32 :=
  compute_message_id (m_destination_hash m) (m_source_hash m) payload.
Definition signed_part_of (m : t) (payload : list byte) : list byte :=
  build_signed_part (m_destination_hash m) (m_source_hash m) payload (message_id_of m payload).

(** * Stamping *)

Definition ticket_stamp (ticket : list byte) (message_id : arr 32) : arr 16 :=
  truncated_hash (ticket ++ message_id).

(** Stamp with the outbound ticket; [None] when there is none of the right
    length. *)
Definition stamp_with_ticket (message_id : arr 32) (m : t) : option t :=
  ticket ← m_outbound_ticket m;
  if Nat.eqb (length ticket) TICKET_LENGTH
  then Some (set_stamp_fields (Some (arr_list (ticket_stamp ticket message_id)))
               (Some COST_TICKET) true true m)
  else None.

(** Stamp by proof of work, if the message has a cost and the search succeeds. *)
Definition stamp_with_work (draws : Z -> arr 32) (message_id : arr 32) (m : t) : t :=
  match m_stamp_cost m with
  | Some cost =>
      match generate_stamp draws message_id cost WORKBLOCK_EXPAND_ROUNDS with
      | (Some stamp, value) => set_stamp_fields (Some (arr_list stamp)) (Some value) true true m
      | (None, _) => m
      end
  | None => m
  end.

Definition ensure_stamp (draws : Z -> arr 32) : stres t LXMFError unit := fun m =>
  match m_stamp m with
  | Some _ => (m, Ok tt)
  | None =>
      match m_message_id m with
      | None => (m, Err MissingSignature)
      | Some message_id =>
          match stamp_with_ticket message_id m with
          | Some m' => (m', Ok tt)
          | None => (stamp_with_work draws message_id m, Ok tt)
          end
      end
  end.

(** * Encoding *)

Definition encode_with_signature : stres t LXMFError (list byte) :=
  st_get (fun m =>
    signature ← ok_or (m_signature m) MissingSignature;
    payload_with_stamp ← pack_payload (bool_decide (is_Some (m_stamp m))) m;
    Ok (m_destination_hash m ++ m_source_hash m ++ arr_list signature ++ payload_with_stamp)).

Definition encode_signed (draws : Z -> arr 32) (signing_key : SigningKey) :
    stres t LXMFError (list byte) :=
  signed ← st_get (fun m => payload ← pack_payload false m;
                            Ok (message_id_of m payload, signed_part_of m payload));
  let '(message_id, signed_part) := signed in
  _ ← st_modify (fun m => set_identity (m_signature m) (Some message_id) m);
  _ ← (fun m => if negb (m_defer_stamp m) then ensure_stamp draws m else (m, Ok tt));
  let signature := ed25519_sign signing_key signed_part in
  _ ← st_modify (fun m => set_identity (Some signature) (m_message_id m) m);
  encode_with_signature.

(** * Decoding *)

(** The message a payload array stands for. *)
Definition decode_payload (destination_hash source_hash : arr 16) (signature : arr 64)
    (payload_array : list Value) : result LXMFError t :=
  match payload_array with
  | v0 :: v1 :: v2 :: fields :: more =>
      timestamp ← value_to_f64 v0;
      title ← value_to_bytes v1;
      content ← value_to_bytes v2;
      stamp ← match more with
              | [] => Ok None
              | v4 :: _ => s ← value_to_bytes v4; Ok (Some s)
              end;
      payload_without_stamp ← pack_payload_values [v0; v1; v2; fields];
      let message_id := compute_message_id destination_hash source_hash payload_without_stamp in
      Ok (set_identity (Some signature) (Some message_id)
            (set_stamp_fields stamp None false false
               (with_content destination_hash source_hash timestamp title content fields)))
  | _ => Err InvalidPayload
  end.

Definition decode (bytes : list byte) : result LXMFError t :=
  if Nat.ltb (length bytes) (DESTINATION_LENGTH * 2 + SIGNATURE_LENGTH + 1)
  then Err InvalidLength
  else
    destination_hash ← ok_or (mk_arr (take 16 bytes)) InvalidLength;
    source_hash ← ok_or (mk_arr (take 16 (drop 16 bytes))) InvalidLength;
    signature ← ok_or (mk_arr (take 64 (drop 32 bytes))) InvalidLength;
    let packed_payload := drop 96 bytes in
    payload_value ← read_msgpack packed_payload;
    match payload_value with
    | VArray payload_array => decode_payload destination_hash source_hash signature payload_array
    | _ => Err InvalidPayload
    end.

Definition verify (verifying_key : VerifyingKey) (m : t) : result LXMFError bool :=
  signature ← ok_or (m_signature m) MissingSignature;
  payload_without_stamp ← pack_payload false m;
  Ok (ed25519_verify verifying_key (signed_part_of m payload_without_stamp) signature).

(** * Checking a stamp *)

Definition ticket_matches (ticket : option (list byte)) (message_id : arr 32) (stamp : list byte) :
    bool :=
  match ticket with
  | Some ticket =>
      Nat.eqb (length ticket) TICKET_LENGTH && Nat.eqb (length stamp) TICKET_LENGTH
      && bool_decide (arr_list (ticket_stamp ticket message_id) = stamp)
  | None => false
  end.

(** The value of the stamp by proof of work, when it is valid for the cost. *)
Definition work_value (stamp_cost : option Z) (message_id : arr 32) (stamp : list byte) :
    result LXMFError (option Z) :=
  match stamp_cost with
  | Some cost =>
      workblock ← stamp_workblock message_id WORKBLOCK_EXPAND_ROUNDS;
      if stamp_valid workblock stamp cost then Ok (Some (stamp_value workblock stamp)) else Ok None
  | None => Ok None
  end.

Definition set_check (value : option Z) (valid : bool) (m : t) : t :=
  set_stamp_fields (m_stamp m) value valid (m_stamp_checked m) m.

(** The body after [self.stamp_checked = true]. *)
Definition check_stamp (stamp_cost : option Z) (ticket : option (list byte)) :
    stres t LXMFError bool := fun m =>
  match m_stamp m with
  | None => (set_check (m_stamp_value m) false m, Ok false)
  | Some stamp =>
      match pack_payload false m with
      | Err e => (m, Err e)
      | Ok payload =>
          let message_id := message_id_of m payload in
          let m := set_identity (m_signature m) (Some message_id) m in
          if ticket_matches ticket message_id stamp
          then (set_check (Some COST_TICKET) true m, Ok true)
          else match work_value stamp_cost message_id stamp with
               | Err e => (m, Err e)
               | Ok (Some value) => (set_check (Some value) true m, Ok true)
               | Ok None => (set_check (m_stamp_value m) false m, Ok false)
               end
      end
  end.

Definition validate_stamp (stamp_cost : option Z) (ticket : option (list byte)) :
    stres t LXMFError bool :=
  _ ← st_modify (fun m => set_stamp_fields (m_stamp m) (m_stamp_value m) (m_stamp_valid m) true m);
  check_stamp stamp_cost ticket.

(** * Paper and propagation forms *)

Definition paper_packed_from_encrypted (encrypted_payload : list byte) (m : t) : list byte :=
  m_destination_hash m ++ encrypted_payload.

Definition propagation_packed_from_encrypted (encrypted_payload : list byte) (timestamp : f64)
    (propagation_stamp : option (list byte)) (m : t) : result LXMFError (list byte) :=
  let lxm_data := m_destination_hash m ++ encrypted_payload ++ default [] propagation_stamp in
  write_msgpack (VArray [F64 timestamp; VArray [Binary lxm_data]]).

Definition transient_id_from_encrypted (encrypted_payload : list byte) (m : t) : arr 32 :=
  full_hash (m_destination_hash m ++ encrypted_payload).

Definition generate_propagation_stamp (draws : Z -> arr 32) (encrypted_payload : list byte)
    (target_cost : Z) (m : t) : result LXMFError (arr 32 * arr 32 * Z) :=
  let transient_id := transient_id_from_encrypted encrypted_payload m in
  let '(stamp, value) := generate_stamp draws transient_id target_cost WORKBLOCK_EXPAND_ROUNDS_PN in
  stamp ← ok_or stamp InvalidPayload;
  Ok (transient_id, stamp, value).

Definition as_uri_from_paper (paper_packed : list byte) : string :=
  String.append "lxm://" (base64url paper_packed).

(** * Containers *)

Definition opt_entry {A} (key : string) (f : A -> Value) (o : option A) : list (Value * Value) :=
  match o with Some a => [(VString key, f a)] | None => [] end.

Definition container_entries (lxmf_bytes : list byte) (m : t) : list (Value * Value) :=
  [(VString "lxmf_bytes", Binary lxmf_bytes); (VString "state", Integer (m_state m))]
  ++ opt_entry "method" Integer (m_method m)
  ++ opt_entry "transport_encrypted" Boolean (m_transport_encrypted m)
  ++ opt_entry "transport_encryption" VString (m_transport_encryption m).

Definition packed_container : stres t LXMFError (list byte) :=
  lxmf_bytes ← encode_with_signature;
  st_get (fun m => write_msgpack (VMap (container_entries lxmf_bytes m))).

(** The accumulators of the loop over the container's entries. *)
Record container : Type := mkContainer {
  c_lxmf_bytes : option (list byte);
  c_state : option Z;
  c_method : option Z;
  c_transport_encrypted : option bool;
  c_transport_encryption : option string
}.

Definition entry_u8 (i : Z) : option Z := integer_as_u64 i ≫= try_u8.

Definition container_step (c : container) (kv : Value * Value) : container :=
  match value_as_str kv.1 with
  | None => c
  | Some key =>
      if bool_decide (key = "lxmf_bytes") then
        match kv.2 with
        | Binary b => mkContainer (Some b) (c_state c) (c_method c) (c_transport_encrypted c)
                        (c_transport_encryption c)
        | _ => c
        end
      else if bool_decide (key = "state") then
        match kv.2 with
        | Integer i => mkContainer (c_lxmf_bytes c) (entry_u8 i) (c_method c)
                         (c_transport_encrypted c) (c_transport_encryption c)
        | _ => c
        end
      else if bool_decide (key = "method") then
        match kv.2 with
        | Integer i => mkContainer (c_lxmf_bytes c) (c_state c) (entry_u8 i)
                         (c_transport_encrypted c) (c_transport_encryption c)
        | _ => c
        end
      else if bool_decide (key = "transport_encrypted") then
        match kv.2 with
        | Boolean b => mkContainer (c_lxmf_bytes c) (c_state c) (c_method c) (Some b)
                         (c_transport_encryption c)
        | _ => c
        end
      else if bool_decide (key = "transport_encryption") then
        match kv.2 with
        | VString s => mkContainer (c_lxmf_bytes c) (c_state c) (c_method c)
                         (c_transport_encrypted c) (utf8_as_str s)
        | _ => c
        end
      else c
  end.

Definition unpack_from_container (bytes : list byte) : result LXMFError t :=
  value ← read_msgpack bytes;
  match value with
  | VMap entries =>
      let c := foldl container_step (mkContainer None None None None None) entries in
      lxmf_bytes ← ok_or (c_lxmf_bytes c) InvalidPayload;
      msg ← decode lxmf_bytes;
      Ok (set_transfer (default STATE_GENERATING (c_state c)) (c_method c)
            (c_transport_encrypted c) (c_transport_encryption c) msg)
  | _ => Err InvalidPayload
  end.

End Operations.
End LXMessage.

(** * Messages MessagePack can carry *)

Definition stamp_ok (o : option (list byte)) : bool :=
  match o with Some s => fits_u32 s | None => true end.

Definition message_ok (m : LXMessage.t) : bool :=
  f64_valid (LXMessage.m_timestamp m) && fits_u32 (LXMessage.m_title m)
  && fits_u32 (LXMessage.m_content m) && value_ok (LXMessage.m_fields m)
  && Nat.leb (value_depth (LXMessage.m_fields m)) 1023 && stamp_ok (LXMessage.m_stamp m).

(** What a receiver reconstructs: the content, the stamp and the identity, with
    the sender's local bookkeeping reset. *)
Definition received (m : LXMessage.t) : LXMessage.t :=
  LXMessage.set_identity (LXMessage.m_signature m) (LXMessage.m_message_id m)
    (LXMessage.set_stamp_fields (LXMessage.m_stamp m) None false false
       (LXMessage.with_content (LXMessage.m_destination_hash m) (LXMessage.m_source_hash m)
          (LXMessage.m_timestamp m) (LXMessage.m_title m) (LXMessage.m_content m)
          (LXMessage.m_fields m))).

Section Encoding.
Context `{C : Crypto} `{M : Msgpack} `{ML : !MsgpackLaws}.
Implicit Types m : LXMessage.t.

Definition stamp_values (include_stamp : bool) m : list Value :=
  if include_stamp then match LXMessage.m_stamp m with Some s => [Binary s] | None => [] end else [].

Lemma payload_representable b m :
  message_ok m = true ->
  representable (VArray (LXMessage.payload_values m ++ stamp_values b m)) = true.
Proof.
  unfold message_ok, representable, LXMessage.payload_values, stamp_values.
  intros Hm. repeat (apply andb_prop in Hm as [Hm ?]). apply Nat.leb_le in H0.
  destruct b, (LXMessage.m_stamp m) as [s|]; simpl in *; rewrite ?Hm, ?H, ?H1, ?H2, ?H3; simpl;
    apply Nat.leb_le; unfold MAX_DEPTH; lia.
Qed.

Lemma pack_payload_ok b m :
  message_ok m = true ->
  exists bs, LXMessage.pack_payload b m = Ok bs /\ (1 <= length bs)%nat /\
    forall rest, read_msgpack (bs ++ rest) =
      Ok (VArray (LXMessage.payload_values m ++ stamp_values b m)).
Proof.
  intros Hm. pose proof (payload_representable b m Hm) as Hr.
  destruct (write_value_ok _ Hr) as [bs Hw]. exists bs.
  split; [|split; [by eapply write_value_nonempty|]].
  - unfold LXMessage.pack_payload, LXMessage.pack_payload_values, write_msgpack.
    fold (stamp_values b m). by rewrite Hw.
  - intros rest. unfold read_msgpack. by rewrite (read_write_app _ _ _ Hr Hw).
Qed.

(** The payload only depends on the content. *)
Lemma pack_payload_identity b sg id m :
  LXMessage.pack_payload b (LXMessage.set_identity sg id m) = LXMessage.pack_payload b m.
Proof. done. Qed.
Lemma pack_payload_stamp s v ok ck m :
  LXMessage.pack_payload false (LXMessage.set_stamp_fields s v ok ck m) =
  LXMessage.pack_payload false m.
Proof. done. Qed.
Lemma pack_payload_received b m :
  LXMessage.pack_payload b (received m) = LXMessage.pack_payload b m.
Proof. done. Qed.

(** * Decoding what was encoded *)

Lemma split_message (d s : arr 16) (sg : arr 64) (payload : list byte) :
  let bytes := d ++ s ++ sg ++ payload in
  length bytes = (96 + length payload)%nat /\
  take 16 bytes = d /\ take 16 (drop 16 bytes) = s /\ take 64 (drop 32 bytes) = sg /\
  drop 96 bytes = payload.
Proof.
  intros bytes. subst bytes.
  pose proof (arr_length d) as Hd. pose proof (arr_length s) as Hs. pose proof (arr_length sg) as Hg.
  rewrite !length_app. split; [lia|]. split; [by rewrite take_app_length'|].
  split; [by rewrite drop_app_length', take_app_length'|]. split.
  - rewrite (app_assoc d), drop_app_length' by (rewrite length_app; lia).
    by rewrite take_app_length'.
  - rewrite !app_assoc, drop_app_length'; [done|]. rewrite !length_app. lia.
Qed.

(** Decoding splits the three fixed fields off and reads the payload. *)
Lemma decode_split (d s : arr 16) (sg : arr 64) (payload : list byte) :
  (1 <= length payload)%nat ->
  LXMessage.decode (d ++ s ++ sg ++ payload) =
  (v ← read_msgpack payload;
   match v with VArray l => LXMessage.decode_payload d s sg l | _ => Err InvalidPayload end).
Proof.
  intros Hp. destruct (split_message d s sg payload) as (Hl & H1 & H2 & H3 & H4).
  unfold LXMessage.decode. rewrite Hl, H1, H2, H3, H4.
  rewrite (proj2 (Nat.ltb_ge _ _)) by (unfold DESTINATION_LENGTH, SIGNATURE_LENGTH; lia).
  by rewrite !mk_arr_list.
Qed.

Lemma decode_payload_received sg m bs :
  LXMessage.pack_payload false m = Ok bs ->
  LXMessage.decode_payload (LXMessage.m_destination_hash m) (LXMessage.m_source_hash m) sg
    (LXMessage.payload_values m ++ stamp_values (bool_decide (is_Some (LXMessage.m_stamp m))) m) =
  Ok (received (LXMessage.set_identity (Some sg) (Some (LXMessage.message_id_of m bs)) m)).
Proof.
  intros Hp. unfold LXMessage.decode_payload, LXMessage.payload_values, stamp_values.
  assert (LXMessage.pack_payload_values (LXMessage.payload_values m) = Ok bs) as Hp'
    by (unfold LXMessage.pack_payload in Hp; by rewrite app_nil_r in Hp).
  unfold LXMessage.payload_values in Hp'. simpl app. cbn [LXMessage.value_to_f64 LXMessage.value_to_bytes].
  unfold received. destruct (LXMessage.m_stamp m) as [st|] eqn:Hst; simpl; rewrite Hp'; simpl;
    by rewrite Hst.
Qed.

(** Encoding with a signature succeeds, and decoding the bytes, whatever follows
    them, gives the received message. *)
Lemma decode_encode_with_signature m sg :
  message_ok m = true -> LXMessage.m_signature m = Some sg ->
  exists bytes bs, LXMessage.encode_with_signature m = (m, Ok bytes) /\
    LXMessage.pack_payload false m = Ok bs /\
    forall rest, LXMessage.decode (bytes ++ rest) =
      Ok (received (LXMessage.set_identity (Some sg) (Some (LXMessage.message_id_of m bs)) m)).
Proof.
  intros Hm Hsg. destruct (pack_payload_ok false m Hm) as (bs & Hbs & _).
  destruct (pack_payload_ok (bool_decide (is_Some (LXMessage.m_stamp m))) m Hm)
    as (bs' & Hbs' & Hl & Hr).
  eexists. exists bs. split; [|split; [done|]].
  - unfold LXMessage.encode_with_signature, st_get. by rewrite Hsg, Hbs'.
  - intros rest. rewrite <- !app_assoc, decode_split by (rewrite length_app; lia).
    rewrite Hr. by apply decode_payload_received.
Qed.

(** * Stamping *)

Lemma length_fits_u32 {A} (l : list A) n : length l = n -> Z.of_nat n <= u32_max -> fits_u32 l = true.
Proof. unfold fits_u32. intros -> H. by apply Z.leb_le. Qed.

Lemma set_stamp_fields_id m :
  LXMessage.set_stamp_fields (LXMessage.m_stamp m) (LXMessage.m_stamp_value m)
    (LXMessage.m_stamp_valid m) (LXMessage.m_stamp_checked m) m = m.
Proof. by destruct m. Qed.

Lemma ensure_stamp_fields draws m id :
  LXMessage.m_message_id m = Some id -> stamp_ok (LXMessage.m_stamp m) = true ->
  exists s v ok ck, stamp_ok s = true /\
    LXMessage.ensure_stamp draws m = (LXMessage.set_stamp_fields s v ok ck m, Ok tt).
Proof.
  intros Hid Hs.
  assert (exists s v ok ck, stamp_ok s = true /\
            (m, Ok tt) = (LXMessage.set_stamp_fields s v ok ck m, @Ok LXMFError unit tt)) as Hsame.
  { eexists _, _, _, _. rewrite set_stamp_fields_id. done. }
  unfold LXMessage.ensure_stamp. rewrite Hid.
  destruct (LXMessage.m_stamp m) as [st|] eqn:Hst; [done|].
  unfold LXMessage.stamp_with_ticket, LXMessage.stamp_with_work.
  destruct (LXMessage.m_outbound_ticket m) as [tk|]; simpl;
    [destruct (Nat.eqb (length tk) TICKET_LENGTH);
       [eexists _, _, _, _; split; [|done]; by apply (length_fits_u32 _ 16 (arr_length _))|]|];
    (destruct (LXMessage.m_stamp_cost m) as [c|]; [|done];
     destruct (generate_stamp _ _ _ _) as [[st|] v]; [|done];
     eexists _, _, _, _; split; [|done]; by apply (length_fits_u32 _ 32 (arr_length _))).
Qed.

(** The message [encode_signed] leaves behind. *)
Definition signed_message (k : SigningKey) (bs : list byte) (s : option (list byte)) (v : option Z)
    (ok ck : bool) m : LXMessage.t :=
  LXMessage.set_identity (Some (ed25519_sign k (LXMessage.signed_part_of m bs)))
    (Some (LXMessage.message_id_of m bs)) (LXMessage.set_stamp_fields s v ok ck m).

Lemma encode_signed_steps draws k m bs :
  message_ok m = true -> LXMessage.pack_payload false m = Ok bs ->
  exists s v ok ck, message_ok (signed_message k bs s v ok ck m) = true /\
    (LXMessage.m_defer_stamp m = true ->
       s = LXMessage.m_stamp m /\ v = LXMessage.m_stamp_value m) /\
    (LXMessage.m_defer_stamp m = false ->
       LXMessage.ensure_stamp draws
         (LXMessage.set_identity (LXMessage.m_signature m) (Some (LXMessage.message_id_of m bs)) m) =
       (LXMessage.set_stamp_fields s v ok ck
          (LXMessage.set_identity (LXMessage.m_signature m)
             (Some (LXMessage.message_id_of m bs)) m), Ok tt)) /\
    LXMessage.encode_signed draws k m =
    LXMessage.encode_with_signature (signed_message k bs s v ok ck m).
Proof.
  intros Hm Hbs. pose proof Hm as Hm'. unfold message_ok in Hm'.
  apply andb_prop in Hm' as [Hrest Hs].
  assert (forall s v ok ck, stamp_ok s = true ->
            message_ok (signed_message k bs s v ok ck m) = true) as Hok.
  { intros s v ok ck Hs'. unfold message_ok. simpl. by rewrite Hrest, Hs'. }
  unfold LXMessage.encode_signed, mbind, stres_bind, st_get, st_modify, result_bind.
  rewrite Hbs. cbv beta iota.
  change (LXMessage.m_defer_stamp (LXMessage.set_identity (LXMessage.m_signature m)
            (Some (LXMessage.message_id_of m bs)) m)) with (LXMessage.m_defer_stamp m).
  destruct (LXMessage.m_defer_stamp m) eqn:Hd; cbn [negb].
  - exists (LXMessage.m_stamp m), (LXMessage.m_stamp_value m), (LXMessage.m_stamp_valid m),
      (LXMessage.m_stamp_checked m). split; [by apply Hok|]. split; [done|]. split; [done|].
    unfold signed_message. by rewrite set_stamp_fields_id.
  - destruct (ensure_stamp_fields draws
      (LXMessage.set_identity (LXMessage.m_signature m) (Some (LXMessage.message_id_of m bs)) m)
      (LXMessage.message_id_of m bs)) as (s & v & ok & ck & Hs' & He); [done|done|].
    exists s, v, ok, ck. split; [by apply Hok|]. split; [done|]. split; [by intros _|].
    by rewrite He.
Qed.

(** Encoding succeeds, keeps what it carries, starts with the destination, and
    is read back and verified by the receiver. *)
Lemma encode_signed_received `{CL : !CryptoLaws} draws k m :
  message_ok m = true ->
  exists m' bytes,
    LXMessage.encode_signed draws k m = (m', Ok bytes) /\
    (LXMessage.m_destination_hash m' = LXMessage.m_destination_hash m /\
     LXMessage.m_source_hash m' = LXMessage.m_source_hash m /\
     LXMessage.payload_values m' = LXMessage.payload_values m /\
     is_Some (LXMessage.m_signature m') /\ is_Some (LXMessage.m_message_id m')) /\
    (exists tail, bytes = LXMessage.m_destination_hash m ++ tail) /\
    (forall rest, LXMessage.decode (bytes ++ rest) = Ok (received m')) /\
    LXMessage.verify (verifying_key k) (received m') = Ok true.
Proof.
  intros Hm. destruct (pack_payload_ok false m Hm) as (bs & Hbs & _).
  destruct (encode_signed_steps draws k m bs Hm Hbs) as (s & v & ok & ck & Hok & _ & _ & He).
  set (m' := signed_message k bs s v ok ck m) in *.
  destruct (decode_encode_with_signature m' _ Hok eq_refl) as (bytes & bs' & Henc & Hp & Hdec).
  assert (bs' = bs) as -> by (change (LXMessage.pack_payload false m = Ok bs') in Hp; congruence).
  exists m', bytes. rewrite He. split; [done|]. split; [done|]. split.
  - unfold LXMessage.encode_with_signature, st_get, mbind, result_bind in Henc. simpl in Henc.
    destruct (LXMessage.pack_payload (bool_decide (is_Some s)) m'); [|done].
    injection Henc as <-. by eexists.
  - split; [done|]. unfold LXMessage.verify. rewrite pack_payload_received, Hp. simpl. f_equal.
    apply verify_sign.
Qed.

End Encoding.

(** C2. Sign, send, receive, verify.  For every message MessagePack can carry,
    [encode_signed] succeeds; decoding the bytes it produced, even with other
    bytes after them, gives exactly the receiver's view of the message it left
    behind (same addresses, timestamp, title, content, fields, stamp, signature
    and message id); and that view verifies under the sender's key. *)
Theorem message_roundtrip `{Crypto} `{Msgpack} `{!CryptoLaws} `{!MsgpackLaws}
  (draws : Z -> arr 32) (k : SigningKey) (m : LXMessage.t) (Hm : message_ok m = true) :
  exists m' bytes,
    LXMessage.encode_signed draws k m = (m', Ok bytes) /\
    LXMessage.m_destination_hash m' = LXMessage.m_destination_hash m /\
    LXMessage.m_source_hash m' = LXMessage.m_source_hash m /\
    LXMessage.payload_values m' = LXMessage.payload_values m /\
    is_Some (LXMessage.m_signature m') /\ is_Some (LXMessage.m_message_id m') /\
    (forall rest, LXMessage.decode (bytes ++ rest) = Ok (received m')) /\
    LXMessage.verify (verifying_key k) (received m') = Ok true.
Proof.
  destruct (encode_signed_received draws k m Hm) as (m' & bytes & He & (? & ? & ? & ? & ?) & _ & ? & ?).
  exists m', bytes. by split_and!.
Qed.

Definition sample_message : LXMessage.t :=
  LXMessage.with_strings (arr_zero 16) (arr_of 16 [x01]) (f64_of_Z 1700000000) "title" "hello"
    (VMap [(Integer 1, VString "x")]).

Lemma message_roundtrip_witness :
  exists m' bytes,
    LXMessage.encode_signed (C := toy_crypto) (M := bit_codec) (fun _ => arr_zero 32) x07
      sample_message = (m', Ok bytes) /\
    LXMessage.decode (C := toy_crypto) (M := bit_codec) bytes = Ok (received m') /\
    LXMessage.verify (C := toy_crypto) (M := bit_codec) x07 (received m') = Ok true.
Proof.
  destruct (@message_roundtrip toy_crypto bit_codec toy_crypto_laws bit_codec_laws
    (fun _ => arr_zero 32) x07 sample_message eq_refl)
    as (m' & bytes & He & _ & _ & _ & _ & _ & Hd & Hv).
  exists m', bytes. split; [exact He|]. split; [|exact Hv].
  rewrite <- (Hd []), app_nil_r. reflexivity.
Defined.

(** * Checking stamps *)

Section StampChecks.
Context `{C : Crypto} `{M : Msgpack} `{CL : !CryptoLaws} `{ML : !MsgpackLaws}.

(** The rule a stamp is judged by. *)
Definition stamp_accepts (cost : option Z) (ticket : option (list byte)) (id : arr 32)
    (stamp : list byte) : Prop :=
  LXMessage.ticket_matches ticket id stamp = true \/
  exists c wb, cost = Some c /\ stamp_workblock id WORKBLOCK_EXPAND_ROUNDS = Ok wb /\
    stamp_valid wb stamp c = true.

Lemma work_value_ok cost id stamp :
  exists r, LXMessage.work_value cost id stamp = Ok r /\
    (is_Some r <-> exists c wb, cost = Some c /\
      stamp_workblock id WORKBLOCK_EXPAND_ROUNDS = Ok wb /\ stamp_valid wb stamp c = true).
Proof.
  destruct cost as [c|]; simpl.
  - destruct (stamp_workblock_ok id WORKBLOCK_EXPAND_ROUNDS) as (wb & Hwb & _).
    { unfold WORKBLOCK_EXPAND_ROUNDS. lia. }
    rewrite Hwb. cbn [mbind result_bind]. destruct (stamp_valid wb stamp c) eqn:Hv.
    + eexists. split; [reflexivity|]. split; [intros _; by exists c, wb|by intros _; eexists].
    + eexists. split; [reflexivity|]. split; [by intros [? ?]|].
      intros (c' & wb' & Hc & Hwb' & Hv'). simplify_eq. congruence.
  - eexists. split; [reflexivity|]. split; [by intros [? ?]|]. by intros (c & wb & ? & _).
Qed.

Lemma check_stamp_exact cost ticket m bs :
  LXMessage.pack_payload false m = Ok bs ->
  exists m' b, LXMessage.check_stamp cost ticket m = (m', Ok b) /\
    LXMessage.m_stamp_checked m' = LXMessage.m_stamp_checked m /\
    LXMessage.m_stamp_valid m' = b /\ LXMessage.m_stamp m' = LXMessage.m_stamp m /\
    (b = true <-> exists stamp, LXMessage.m_stamp m = Some stamp /\
       stamp_accepts cost ticket (LXMessage.message_id_of m bs) stamp).
Proof.
  intros Hbs. unfold LXMessage.check_stamp.
  destruct (LXMessage.m_stamp m) as [stamp|] eqn:Hs.
  - rewrite Hbs. cbv zeta.
    destruct (LXMessage.ticket_matches ticket _ stamp) eqn:Ht.
    + eexists _, true. split_and!; try reflexivity; [by simpl|].
      split; [intros _|done]. exists stamp. split; [done|]. by left.
    + destruct (work_value_ok cost (LXMessage.message_id_of m bs) stamp) as (r & -> & Hr).
      destruct r as [v|].
      * eexists _, true. split_and!; try reflexivity; [by simpl|].
        split; [intros _|done]. exists stamp. split; [done|]. right. by apply Hr.
      * eexists _, false. split_and!; try reflexivity; [by simpl|].
        split; [done|]. intros (st & Hst & [Ha|Ha]); simplify_eq; [congruence|].
        apply Hr in Ha. by destruct Ha.
  - eexists _, false. split_and!; try reflexivity; [by simpl|].
    split; [done|]. by intros (st & Hst & _).
Qed.

(** The value recorded when a ticket stamp is accepted, and when a work stamp is. *)
Lemma check_stamp_ticket cost ticket m bs stamp :
  LXMessage.pack_payload false m = Ok bs -> LXMessage.m_stamp m = Some stamp ->
  LXMessage.ticket_matches ticket (LXMessage.message_id_of m bs) stamp = true ->
  exists m', LXMessage.check_stamp cost ticket m = (m', Ok true) /\
    LXMessage.m_stamp_value m' = Some COST_TICKET.
Proof.
  intros Hbs Hs Ht. unfold LXMessage.check_stamp. rewrite Hs, Hbs. cbv zeta. rewrite Ht.
  eexists. split; reflexivity.
Qed.

Lemma check_stamp_work c ticket m bs stamp wb :
  LXMessage.pack_payload false m = Ok bs -> LXMessage.m_stamp m = Some stamp ->
  length stamp <> TICKET_LENGTH ->
  stamp_workblock (LXMessage.message_id_of m bs) WORKBLOCK_EXPAND_ROUNDS = Ok wb ->
  stamp_valid wb stamp c = true ->
  exists m', LXMessage.check_stamp (Some c) ticket m = (m', Ok true) /\
    LXMessage.m_stamp_value m' = Some (stamp_value wb stamp).
Proof.
  intros Hbs Hs Hl Hwb Hv. unfold LXMessage.check_stamp. rewrite Hs, Hbs. cbv zeta.
  assert (LXMessage.ticket_matches ticket (LXMessage.message_id_of m bs) stamp = false) as ->.
  { destruct ticket as [tk|]; [|done]. unfold LXMessage.ticket_matches.
    rewrite (proj2 (Nat.eqb_neq (length stamp) _)) by done. by rewrite andb_false_r. }
  unfold LXMessage.work_value. rewrite Hwb. cbn [mbind result_bind]. rewrite Hv.
  eexists. split; reflexivity.
Qed.

Lemma ticket_stamp_matches (tk : list byte) id :
  length tk = TICKET_LENGTH ->
  LXMessage.ticket_matches (Some tk) id (LXMessage.ticket_stamp tk id) = true.
Proof.
  intros Hl. unfold LXMessage.ticket_matches. rewrite Hl, arr_length.
  rewrite (bool_decide_true _ eq_refl). done.
Qed.

End StampChecks.



(** C32. The sender's stamp satisfies the receiver.  When an unstamped message is
    encoded without deferring its stamp, the receiver's view of it passes
    [validate_stamp]: with the ticket the sender used, at the ticket's value,
    whatever cost is asked; or, without a usable ticket and when the search
    succeeds, at the cost the sender used, with the value the search found. *)
Theorem stamped_message_accepted `{Crypto} `{Msgpack} `{!CryptoLaws} `{!MsgpackLaws}
  (draws : Z -> arr 32) (k : SigningKey) (m : LXMessage.t) (bs : list byte)
  (Hm : message_ok m = true) (Hnone : LXMessage.m_stamp m = None)
  (Hdefer : LXMessage.m_defer_stamp m = false) (Hbs : LXMessage.pack_payload false m = Ok bs) :
  exists m' bytes, LXMessage.encode_signed draws k m = (m', Ok bytes) /\
    (forall ticket cost, LXMessage.m_outbound_ticket m = Some ticket ->
       length ticket = TICKET_LENGTH ->
       exists r, LXMessage.validate_stamp cost (Some ticket) (received m') = (r, Ok true) /\
         LXMessage.m_stamp_value r = Some COST_TICKET) /\
    (forall cost stamp value ticket, LXMessage.m_outbound_ticket m = None ->
       LXMessage.m_stamp_cost m = Some cost ->
       generate_stamp draws (LXMessage.message_id_of m bs) cost WORKBLOCK_EXPAND_ROUNDS =
         (Some stamp, value) ->
       exists r, LXMessage.validate_stamp (Some cost) ticket (received m') = (r, Ok true) /\
         LXMessage.m_stamp_value r = Some value).
Proof.
  destruct (encode_signed_steps draws k m bs Hm Hbs) as (s & v & ok & ck & Hok & _ & Hen & He).
  specialize (Hen Hdefer).
  destruct (decode_encode_with_signature _ _ Hok eq_refl) as (bytes & _ & Henc & _).
  eexists _, bytes. split; [by rewrite He|]. split.
  - intros ticket cost Htk Hl. unfold LXMessage.ensure_stamp in Hen. cbn in Hen.
    rewrite Hnone in Hen. unfold LXMessage.stamp_with_ticket in Hen. cbn in Hen.
    rewrite Htk in Hen. cbn in Hen. rewrite Hl in Hen. cbn in Hen.
    injection Hen as <- _ _ _.
    eapply check_stamp_ticket; [exact Hbs|reflexivity|]. by apply ticket_stamp_matches.
  - intros cost stamp value ticket Htk Hc Hg. unfold LXMessage.ensure_stamp in Hen. cbn in Hen.
    rewrite Hnone in Hen. unfold LXMessage.stamp_with_ticket, LXMessage.stamp_with_work in Hen.
    cbn in Hen. rewrite Htk, Hc in Hen. cbn in Hen. rewrite Hg in Hen. cbn in Hen.
    injection Hen as <- _ _ _.
    destruct (generate_stamp_Some _ _ _ _ _ _ Hg) as (wb & Hwb & Hv & ->).
    eapply check_stamp_work; [exact Hbs|reflexivity| |exact Hwb|exact Hv].
    rewrite arr_length. done.
Qed.

Definition ticketed_message : LXMessage.t :=
  LXMessage.set_defer_stamp false
    (LXMessage.set_outbound_ticket (replicate 16 x09) sample_message).

Lemma stamped_message_accepted_witness :
  exists m' bytes r,
    LXMessage.encode_signed (C := toy_crypto) (M := bit_codec) (fun _ => arr_zero 32) x07
      ticketed_message = (m', Ok bytes) /\
    LXMessage.validate_stamp (C := toy_crypto) (M := bit_codec) (Some 8) (Some (replicate 16 x09))
      (received m') = (r, Ok true).
Proof.
  destruct (pack_payload_ok (M := bit_codec) (ML := bit_codec_laws) false
    ticketed_message eq_refl) as (bs & Hbs & _).
  destruct (@stamped_message_accepted toy_crypto bit_codec toy_crypto_laws bit_codec_laws
    (fun _ => arr_zero 32) x07 ticketed_message bs eq_refl eq_refl eq_refl Hbs)
    as (m' & bytes & He & Ht & _).
  destruct (Ht (replicate 16 x09) (Some 8) eq_refl eq_refl) as (r & Hr & _).
  exists m', bytes, r. split; [exact He|exact Hr].
Defined.

(** * Containers *)

Definition transfer_ok (m : LXMessage.t) : bool :=
  is_u8 (LXMessage.m_state m)
  && match LXMessage.m_method m with Some x => is_u8 x | None => true end
  && match LXMessage.m_transport_encryption m with
     | Some s => utf8_string s && fits_u32 (bytes_of_string s)
     | None => true
     end.

Lemma u8_integer_ok z : is_u8 z = true -> value_ok (Integer z) = true.
Proof. unfold is_u8, u8_max. simpl. unfold u64_max. lia. Qed.

Lemma entry_u8_ok z : is_u8 z = true -> LXMessage.entry_u8 z = Some z.
Proof.
  intros Hz. unfold LXMessage.entry_u8, integer_as_u64, try_u8.
  assert (is_u64 z = true) as -> by (unfold is_u8, u8_max, is_u64, u64_max in *; lia).
  simpl. by rewrite Hz.
Qed.

Section Containers.
Context `{C : Crypto} `{M : Msgpack} `{ML : !MsgpackLaws}.

Lemma container_representable bytes m :
  transfer_ok m = true -> fits_u32 bytes = true ->
  representable (VMap (LXMessage.container_entries bytes m)) = true.
Proof.
  intros Ht Hb. unfold transfer_ok in Ht. apply andb_prop in Ht as [Ht He].
  apply andb_prop in Ht as [Hs Hme]. apply u8_integer_ok in Hs.
  unfold representable, LXMessage.container_entries, LXMessage.opt_entry.
  destruct (LXMessage.m_method m) as [me|];
    destruct (LXMessage.m_transport_encrypted m);
    destruct (LXMessage.m_transport_encryption m) as [te|];
    try apply u8_integer_ok in Hme;
    cbn [app forallb value_ok fst snd] in *; rewrite Hb, ?Hs, ?Hme, ?He; reflexivity.
Qed.

(** One entry of each kind. *)
Lemma step_lxmf_bytes c b :
  LXMessage.container_step c (VString "lxmf_bytes", Binary b) =
  LXMessage.mkContainer (Some b) (LXMessage.c_state c) (LXMessage.c_method c)
    (LXMessage.c_transport_encrypted c) (LXMessage.c_transport_encryption c).
Proof. reflexivity. Qed.
Lemma step_state c i :
  LXMessage.container_step c (VString "state", Integer i) =
  LXMessage.mkContainer (LXMessage.c_lxmf_bytes c) (LXMessage.entry_u8 i) (LXMessage.c_method c)
    (LXMessage.c_transport_encrypted c) (LXMessage.c_transport_encryption c).
Proof. reflexivity. Qed.
Lemma step_method c i :
  LXMessage.container_step c (VString "method", Integer i) =
  LXMessage.mkContainer (LXMessage.c_lxmf_bytes c) (LXMessage.c_state c) (LXMessage.entry_u8 i)
    (LXMessage.c_transport_encrypted c) (LXMessage.c_transport_encryption c).
Proof. reflexivity. Qed.
Lemma step_encrypted c b :
  LXMessage.container_step c (VString "transport_encrypted", Boolean b) =
  LXMessage.mkContainer (LXMessage.c_lxmf_bytes c) (LXMessage.c_state c) (LXMessage.c_method c)
    (Some b) (LXMessage.c_transport_encryption c).
Proof. reflexivity. Qed.
Lemma step_encryption c s :
  LXMessage.container_step c (VString "transport_encryption", VString s) =
  LXMessage.mkContainer (LXMessage.c_lxmf_bytes c) (LXMessage.c_state c) (LXMessage.c_method c)
    (LXMessage.c_transport_encrypted c) (utf8_as_str s).
Proof. reflexivity. Qed.

Lemma container_fold bytes m :
  transfer_ok m = true ->
  foldl LXMessage.container_step (LXMessage.mkContainer None None None None None)
    (LXMessage.container_entries bytes m) =
  LXMessage.mkContainer (Some bytes) (Some (LXMessage.m_state m)) (LXMessage.m_method m)
    (LXMessage.m_transport_encrypted m) (LXMessage.m_transport_encryption m).
Proof.
  intros Ht. unfold transfer_ok in Ht. apply andb_prop in Ht as [Ht He].
  apply andb_prop in Ht as [Hs Hme].
  unfold LXMessage.container_entries, LXMessage.opt_entry.
  destruct (LXMessage.m_method m) as [me|];
    destruct (LXMessage.m_transport_encrypted m);
    destruct (LXMessage.m_transport_encryption m) as [te|];
    cbn [app foldl];
    rewrite ?step_lxmf_bytes, ?step_state, ?step_method, ?step_encrypted, ?step_encryption;
    cbn [LXMessage.c_lxmf_bytes LXMessage.c_state LXMessage.c_method
         LXMessage.c_transport_encrypted LXMessage.c_transport_encryption];
    rewrite ?(entry_u8_ok _ Hs), ?(entry_u8_ok _ Hme); try reflexivity;
    apply andb_prop in He as [He _]; unfold utf8_as_str; by rewrite He.
Qed.

End Containers.

(** Storage round trip.  A signed message packed into its container (the
    message bytes with the delivery state, method and encryption notes) is
    unpacked to the same message with the same state, method and notes. *)
Theorem container_roundtrip `{Crypto} `{Msgpack} `{!MsgpackLaws}
  (m : LXMessage.t) (sg : arr 64) (bs bytes : list byte)
  (Hm : message_ok m = true) (Hsg : LXMessage.m_signature m = Some sg)
  (Hbs : LXMessage.pack_payload false m = Ok bs)
  (Hid : LXMessage.m_message_id m = Some (LXMessage.message_id_of m bs))
  (Henc : LXMessage.encode_with_signature m = (m, Ok bytes)) (Hfit : fits_u32 bytes = true)
  (Ht : transfer_ok m = true) :
  exists packed, LXMessage.packed_container m = (m, Ok packed) /\
    LXMessage.unpack_from_container packed =
    Ok (LXMessage.set_transfer (LXMessage.m_state m) (LXMessage.m_method m)
          (LXMessage.m_transport_encrypted m) (LXMessage.m_transport_encryption m) (received m)).
Proof.
  pose proof (container_representable bytes m Ht Hfit) as Hr.
  destruct (write_value_ok _ Hr) as [packed Hw]. exists packed.
  unfold LXMessage.packed_container. rewrite (stres_bind_Ok _ _ _ _ _ Henc).
  unfold st_get, write_msgpack. rewrite Hw. split; [done|].
  unfold LXMessage.unpack_from_container, read_msgpack. rewrite (read_write_eq _ _ Hr Hw).
  cbn [map_err mbind result_bind]. cbv zeta. rewrite container_fold by done.
  cbn [LXMessage.c_lxmf_bytes ok_or mbind result_bind].
  destruct (decode_encode_with_signature m sg Hm Hsg) as (bytes' & bs' & Henc' & Hbs' & Hdec).
  assert (bytes' = bytes) as -> by congruence. assert (bs' = bs) as -> by congruence.
  specialize (Hdec []). rewrite app_nil_r in Hdec. rewrite Hdec. simpl. do 2 f_equal.
  unfold received. simpl. by rewrite Hsg, Hid.
Qed.

Lemma container_roundtrip_witness :
  exists m' packed,
    LXMessage.packed_container (M := bit_codec) m' = (m', Ok packed) /\
    is_Some (res_ok (LXMessage.unpack_from_container (C := toy_crypto) (M := bit_codec) packed)).
Proof.
  set (run := LXMessage.encode_signed (C := toy_crypto) (M := bit_codec) (fun _ => arr_zero 32)
                x07 sample_message).
  destruct (LXMessage.pack_payload (M := bit_codec) false (fst run)) as [bs|] eqn:Hbs;
    [|vm_compute in Hbs; discriminate Hbs].
  destruct (snd (LXMessage.encode_with_signature (M := bit_codec) (fst run))) as [bytes|] eqn:Hb;
    [|vm_compute in Hb; discriminate Hb].
  destruct (@container_roundtrip toy_crypto bit_codec bit_codec_laws (fst run)
    (default (arr_zero 64) (LXMessage.m_signature (fst run))) bs bytes) as (packed & Hp & Hu).
  - vm_compute. reflexivity.
  - vm_compute. reflexivity.
  - exact Hbs.
  - vm_compute in Hbs. injection Hbs as <-. vm_compute. reflexivity.
  - rewrite <- Hb. reflexivity.
  - vm_compute in Hb. injection Hb as <-. vm_compute. reflexivity.
  - vm_compute. reflexivity.
  - exists (fst run), packed. split; [exact Hp|]. rewrite Hu. by eexists.
Defined.

(** The message id of a decoded message is computed over the payload values
    as they were received, while [verify] and [validate_stamp] recompute it over
    the normalised ones (a binary title and content, a double timestamp).  The
    two byte strings are equal exactly when the payload was already in normal
    form: a payload with a text title or an integer timestamp, which [decode]
    accepts, is signed and stamped over bytes the receiver does not check. *)
Theorem decode_id_normal_form `{Crypto} `{Msgpack} `{!MsgpackLaws}
  (d s : arr 16) (sg : arr 64) (raw : list Value) (m : LXMessage.t) (p : list byte)
  (Hlen : length raw = 4%nat) (Hraw : representable (VArray raw) = true)
  (Hdec : LXMessage.decode_payload d s sg raw = Ok m) (Hm : message_ok m = true)
  (Hp : LXMessage.pack_payload false m = Ok p) :
  exists p', LXMessage.pack_payload_values raw = Ok p' /\
    LXMessage.m_message_id m = Some (LXMessage.compute_message_id d s p') /\
    (p' = p <-> raw = LXMessage.payload_values m).
Proof.
  destruct (write_value_ok _ Hraw) as [p' Hw'].
  assert (LXMessage.pack_payload_values raw = Ok p') as Hp'
    by (unfold LXMessage.pack_payload_values, write_msgpack; by rewrite Hw').
  exists p'. split; [done|]. split.
  - destruct raw as [|v0 [|v1 [|v2 [|v3 [|]]]]]; try discriminate Hlen.
    unfold LXMessage.decode_payload in Hdec. rewrite Hp' in Hdec.
    destruct (LXMessage.value_to_f64 v0); [|done].
    destruct (LXMessage.value_to_bytes v1); [|done].
    destruct (LXMessage.value_to_bytes v2); [|done].
    cbn in Hdec. inv_ok. done.
  - pose proof (payload_representable false m Hm) as Hr. simpl stamp_values in Hr.
    rewrite app_nil_r in Hr.
    unfold LXMessage.pack_payload in Hp. simpl stamp_values in Hp. rewrite app_nil_r in Hp.
    split; [intros ->|intros ->; congruence].
    unfold LXMessage.pack_payload_values, write_msgpack in Hp.
    destruct (write_value (VArray (LXMessage.payload_values m))) as [q|] eqn:Hw; [|done].
    simpl in Hp. inv_ok.
    pose proof (read_write_eq _ _ Hr Hw) as R1. pose proof (read_write_eq _ _ Hraw Hw') as R2.
    congruence.
Qed.

Lemma decode_id_normal_form_witness :
  exists m p p', LXMessage.decode_payload (C := toy_crypto) (M := bit_codec) (arr_zero 16)
      (arr_zero 16) (arr_zero 64) [Integer 7; Binary []; Binary []; VMap []] = Ok m /\
    LXMessage.pack_payload (M := bit_codec) false m = Ok p /\
    LXMessage.m_message_id m = Some (LXMessage.compute_message_id (C := toy_crypto) (arr_zero 16)
                                       (arr_zero 16) p') /\ p' <> p.
Proof.
  set (raw := [Integer 7; Binary []; Binary []; VMap []]).
  destruct (LXMessage.decode_payload (C := toy_crypto) (M := bit_codec) (arr_zero 16)
      (arr_zero 16) (arr_zero 64) raw) as [m|] eqn:Hd; [|vm_compute in Hd; discriminate Hd].
  destruct (LXMessage.pack_payload (M := bit_codec) false m) as [p|] eqn:Hp;
    [|vm_compute in Hd; injection Hd as <-; vm_compute in Hp; discriminate Hp].
  destruct (@decode_id_normal_form toy_crypto bit_codec bit_codec_laws (arr_zero 16) (arr_zero 16)
    (arr_zero 64) raw m p eq_refl eq_refl Hd) as (p' & _ & Hid & Hiff); [|exact Hp|].
  - vm_compute in Hd. injection Hd as <-. reflexivity.
  - exists m, p, p'. split; [reflexivity|]. split; [exact Hp|]. split; [exact Hid|].
    intros He. apply Hiff in He. vm_compute in Hd. injection Hd as <-. discriminate He.
Defined.
