(* ===== verification/Rns.v ===== *)
(** [lxmf-rs/src/rns/mod.rs]: delivery modes, the error type of the [rns]
    modules, and the conversions from MessagePack values they share. *)

From Stdlib Require Import ZArith Lia.
From Stdlib Require Import Strings.Byte.
From stdpp Require Import base list strings numbers.
From S2P Require Import Prelude Float Msgpack Stamp.

Local Open Scope Z_scope.

Inductive DeliveryMode : Type := Opportunistic | Direct | Propagated | Paper.
Inductive RnsCryptoPolicy : Type := AllowPlaintext | EnforceRatchets.

#[export] Instance DeliveryMode_eq_dec : EqDecision DeliveryMode.
Proof. solve_decision. Defined.
#[export] Instance RnsCryptoPolicy_eq_dec : EqDecision RnsCryptoPolicy.
Proof. solve_decision. Defined.

Inductive RnsError : Type :=
| RnsReticulum (e : string)
| RnsIo (e : string)
| RnsInvalidDestinationHash
| RnsCryptoPolicyViolation (policy : RnsCryptoPolicy) (mode : DeliveryMode) (reason : string)
| RnsLxmf (e : LXMFError)
| RnsMsgpack (e : string).

(** * Texts

    The [Display] texts of the errors and the [Debug] names in them. *)

Definition LXMFError_display (e : LXMFError) : string :=
  match e with
  | InvalidLength => "invalid LXMF message length"
  | InvalidPayload => "invalid payload structure"
  | InvalidBytes => "invalid bytes field"
  | InvalidTimestamp => "invalid timestamp"
  | MissingSignature => "missing signature"
  | Qr e => "qr error: " +:+ e
  | MsgpackDecode e => "msgpack decode error: " +:+ e
  | MsgpackEncode e => "msgpack encode error: " +:+ e
  | Io e => "io error: " +:+ e
  end.

Definition RnsCryptoPolicy_debug (policy : RnsCryptoPolicy) : string :=
  match policy with AllowPlaintext => "AllowPlaintext" | EnforceRatchets => "EnforceRatchets" end.

Definition DeliveryMode_debug (mode : DeliveryMode) : string :=
  match mode with
  | Opportunistic => "Opportunistic" | Direct => "Direct"
  | Propagated => "Propagated" | Paper => "Paper"
  end.

Definition RnsError_display (e : RnsError) : string :=
  match e with
  | RnsReticulum e => "reticulum error: " +:+ e
  | RnsIo e => "io error: " +:+ e
  | RnsInvalidDestinationHash => "invalid destination hash length"
  | RnsCryptoPolicyViolation policy mode reason =>
      "crypto policy violation (" +:+ RnsCryptoPolicy_debug policy +:+ ", " +:+ DeliveryMode_debug mode
        +:+ "): " +:+ reason
  | RnsLxmf e => "lxmf error: " +:+ LXMFError_display e
  | RnsMsgpack e => "msgpack decode error: " +:+ e
  end.

(** * Conversions from values *)

Definition value_to_bytes (v : Value) : option (list byte) :=
  match v with Binary bytes => Some bytes | _ => None end.

Definition value_to_opt_bytes (v : Value) : option (list byte) :=
  match v with Nil => None | _ => value_to_bytes v end.

Definition value_to_opt_u32 (v : Value) : option Z := as_u32 <$> value_as_i64 v.

Definition value_to_opt_u64 (v : Value) : option Z := value_as_i64 v ≫= try_u64.

Definition value_to_opt_u8 (v : Value) : option Z := as_u8 <$> value_as_i64 v.

Definition value_to_opt_bool (v : Value) : option bool :=
  match v with Boolean b => Some b | _ => None end.

Definition value_to_opt_string (v : Value) : option string :=
  match v with VString s => utf8_as_str s | _ => None end.

Definition value_to_f64 (v : Value) : option f64 :=
  match v with
  | F64 x => Some x
  | F32 x => Some (f64_of_f32 x)
  | Integer i => f64_of_Z <$> integer_as_i64 i
  | _ => None
  end.

Definition value_to_fixed_bytes (n : nat) (v : Value) : option (arr n) :=
  bytes ← value_to_bytes v;
  if negb (Nat.eqb (length bytes) n) then None else Some (arr_of n bytes).

Lemma value_to_fixed_bytes_arr {n} (a : arr n) : value_to_fixed_bytes n (Binary a) = Some a.
Proof. unfold value_to_fixed_bytes. simpl. by rewrite arr_length, Nat.eqb_refl, arr_of_arr. Qed.

Lemma value_to_fixed_bytes_Some n v a :
  value_to_fixed_bytes n v = Some a -> v = Binary (arr_list a).
Proof.
  unfold value_to_fixed_bytes. destruct v; simpl; try done.
  destruct (Nat.eqb_spec (length l) n); simpl; [|done]. intros H. inv_ok. by rewrite arr_of_list.
Qed.

Lemma value_as_i64_int z : is_i64 z = true -> value_as_i64 (Integer z) = Some z.
Proof. intros Hz. unfold value_as_i64, integer_as_i64. by rewrite Hz. Qed.

Lemma value_to_opt_u64_int z :
  0 <= z < 2 ^ 63 -> value_to_opt_u64 (Integer z) = Some z.
Proof.
  intros Hz. unfold value_to_opt_u64. rewrite value_as_i64_int by (unfold is_i64; lia).
  simpl. unfold try_u64. assert (is_u64 z = true) as -> by (unfold is_u64, u64_max; lia). done.
Qed.

Lemma value_to_opt_u32_int z :
  is_u32 z = true -> value_to_opt_u32 (Integer z) = Some z.
Proof.
  unfold is_u32, u32_max. intros Hz. unfold value_to_opt_u32.
  rewrite value_as_i64_int by (unfold is_i64; lia).
  simpl. unfold as_u32. by rewrite Z.mod_small by lia.
Qed.

Lemma value_to_opt_u8_int z :
  is_u8 z = true -> value_to_opt_u8 (Integer z) = Some z.
Proof.
  unfold is_u8, u8_max. intros Hz. unfold value_to_opt_u8.
  rewrite value_as_i64_int by (unfold is_i64; lia).
  simpl. unfold as_u8. by rewrite Z.mod_small by lia.
Qed.

#[export] Hint Rewrite @value_to_fixed_bytes_arr : lxmf.

Section RnsCodec.
Context `{M : Msgpack}.

(** [rmpv] calls under [?] in functions that return [RnsError]. *)
Definition rns_write (v : Value) : result RnsError (list byte) := map_err RnsMsgpack (write_value v).
Definition rns_read (bs : list byte) : result RnsError Value := map_err RnsMsgpack (read_value bs).

Lemma rns_write_read `{!MsgpackLaws} v :
  representable v = true ->
  exists bs, rns_write v = Ok bs /\ forall rest, rns_read (bs ++ rest) = Ok v.
Proof.
  intros Hv. destruct (read_write v Hv) as (bs & Hw & _ & Hr). exists bs.
  unfold rns_write, rns_read. rewrite Hw. split; [done|]. intros rest. by rewrite Hr.
Qed.

(** A codec that writes [enc x] and reads it back with [dec]. *)
Lemma codec_roundtrip `{!MsgpackLaws} {A} (enc : A -> Value) (dec : Value -> result RnsError A)
    (x : A) :
  representable (enc x) = true -> dec (enc x) = Ok x ->
  exists bs, rns_write (enc x) = Ok bs /\ forall rest, (rns_read (bs ++ rest) ≫= dec) = Ok x.
Proof.
  intros Hr Hd. destruct (rns_write_read _ Hr) as (bs & Hw & Hrd).
  exists bs. split; [done|]. intros rest. by rewrite Hrd.
Qed.

End RnsCodec.
