(* ===== verification/Delivery.v ===== *)
(** [lxmf-rs/src/rns/transport.rs], the part that turns messages into packets
    and packets into messages: delivery in the four modes under the
    cryptographic policy, decoding of received packets, and the requests and
    responses with their identifiers.  The asynchronous node around it is not
    modelled here. *)

From Stdlib Require Import ZArith Lia.
From Stdlib Require Import Strings.Byte.
From stdpp Require Import base strings numbers list.
From coqutil Require Import Datatypes.RecordSetters.
From S2P Require Import Prelude Float Msgpack Crypto Buffer Hdlc Packet Iface Identity Destination.
From S2P Require Import Stamp Message Rns.
Import DoubleBraceUpdate.

Local Open Scope Z_scope.

(** * Data *)

Definition METHOD_OPPORTUNISTIC : Z := 0x01.
Definition METHOD_DIRECT : Z := 0x02.
Definition METHOD_PROPAGATED : Z := 0x03.
Definition METHOD_PAPER : Z := 0x05.

Inductive DeliveryOutput : Type :=
| OutPacket (packet : Packet)
| OutResource (destination : AddressHash) (context : PacketContext) (data : list byte)
| OutPaperUri (uri : string).

Record RnsRequest : Type := mkRequest {
  req_request_id : arr 16;
  req_requested_at : f64;
  req_path_hash : arr 16;
  req_data : Value
}.

Record RnsResponse : Type := mkResponse {
  resp_request_id : arr 16;
  resp_data : Value
}.

Inductive Received : Type :=
| RcvMessage (m : LXMessage.t)
| RcvPropagated (timestamp : f64) (lxm_data : list byte) (transient_id : arr 32)
    (source_hash : option (arr 16)) (count_client_receive : bool)
| RcvPropagationResource (payload : list byte) (source_hash : option (arr 16))
| RcvRequest (request : RnsRequest) (source_hash : option (arr 16))
| RcvResponse (response : RnsResponse) (source_hash : option (arr 16))
| RcvControlRequest (request : RnsRequest) (source_hash : option (arr 16)).

(** [{:?}] of a Reticulum error, which [From] puts in the error's text. *)
Definition RetError_debug (e : RetError) : string :=
  match e with
  | OutOfMemory => "OutOfMemory"
  | InvalidArgument => "InvalidArgument"
  | IncorrectSignature => "IncorrectSignature"
  | IncorrectHash => "IncorrectHash"
  | CryptoError => "CryptoError"
  | PacketError => "PacketError"
  | ConnectionError => "ConnectionError"
  end.
Definition rns_of_ret (e : RetError) : RnsError := RnsReticulum (RetError_debug e).

Definition fault_map {E E'} (f : E -> E') (e : fault E) : fault E' :=
  match e with Fails e => Fails (f e) | Panics => Panics end.

(** * Encryption hooks *)

(** The [EncryptHook] trait. *)
Record EncryptHook `{IC : IdentityCrypto} : Type := mkHook {
  hook_encrypt : SingleOutputDestination -> list byte -> result (fault RnsError) (list byte);
  provides_encryption : bool
}.

(** The secret, the ephemeral key and the vector are what [OsRng] yields. *)
Definition ReticulumEncryptor `{F : Features} `{IC : IdentityCrypto} (secret ephemeral : arr 32)
    (iv : arr 16) : EncryptHook :=
  mkHook _ _ (fun dest plaintext =>
    let salt := Some (arr_list (d_address_hash (out_desc dest))) in
    let derived := Identity.derive_key (out_identity dest) secret salt in
    map_err (fault_map rns_of_ret)
      (Identity.encrypt ephemeral iv plaintext derived (length plaintext + 512)))
    true.

Definition NullEncryptor `{IC : IdentityCrypto} : EncryptHook :=
  mkHook _ _ (fun _ plaintext => Ok plaintext) false.

(** * Packets from payloads *)

Definition data_header (destination_type : DestinationType) : Header :=
  mkHeader Open Type1 Broadcast destination_type Data x00.

(** [packet_from_payload_hash_with_context]; the two variants below differ in
    where the address and the context come from. *)
Definition packet_from_payload_hash_with_context (destination_hash : arr 16) (payload : list byte)
    (destination_type : DestinationType) (context : PacketContext) : result RnsError Packet :=
  match StaticBuffer.write payload (StaticBuffer.new PACKET_MDU) with
  | (data, Ok _) => Ok (mkPacket (data_header destination_type) None destination_hash None context data)
  | (_, Err e) => Err (rns_of_ret e)
  end.

Definition packet_from_payload_with_context `{IC : IdentityCrypto}
    (destination : SingleOutputDestination) (payload : list byte)
    (destination_type : DestinationType) (context : PacketContext) : result RnsError Packet :=
  packet_from_payload_hash_with_context (d_address_hash (out_desc destination)) payload
    destination_type context.

Definition packet_from_payload `{IC : IdentityCrypto} (destination : SingleOutputDestination)
    (payload : list byte) (destination_type : DestinationType) : result RnsError Packet :=
  packet_from_payload_hash_with_context (d_address_hash (out_desc destination)) payload
    destination_type CtxNone.

(** * Outbound delivery *)

Module RnsOutbound.

Record t `{IC : IdentityCrypto} : Type := mk {
  source : SingleInputDestination;
  o_destination : SingleOutputDestination;
  encryptor : EncryptHook;
  crypto_policy : RnsCryptoPolicy
}.

Section Operations.
Context `{F : Features} `{IC : IdentityCrypto} `{M : Msgpack}.

Definition delivery_name : Hash :=
  DestinationName.new (bytes_of_string "lxmf") (bytes_of_string "delivery").

Definition with_encryptor (source : PrivateIdentity.t) (destination : Identity.t)
    (encryptor : EncryptHook) : t :=
  mk _ _ (SingleInput_new source delivery_name) (SingleOutput_new destination delivery_name)
    encryptor AllowPlaintext.

(** [secret], [ephemeral] and [iv] are what [OsRng] will yield to the encryptor. *)
Definition new (secret ephemeral : arr 32) (iv : arr 16) (source : PrivateIdentity.t) (destination : Identity.t) : t :=
  mk _ _ (SingleInput_new source delivery_name) (SingleOutput_new destination delivery_name)
    (ReticulumEncryptor secret ephemeral iv) AllowPlaintext.

Definition set_crypto_policy (policy : RnsCryptoPolicy) (o : t) : t :=
  mk _ _ (source o) (o_destination o) (encryptor o) policy.

Definition with_crypto_policy (policy : RnsCryptoPolicy) (o : t) : t := set_crypto_policy policy o.

Definition prepare_message (o : t) (m : LXMessage.t) : LXMessage.t :=
  m {{ LXMessage.m_destination_hash := d_address_hash (out_desc (o_destination o));
       LXMessage.m_source_hash := d_address_hash (in_desc (source o)) }}.

Definition check_outbound (policy : RnsCryptoPolicy) (mode : DeliveryMode) (encryptor : EncryptHook) :
    result RnsError unit :=
  match policy with
  | AllowPlaintext => Ok tt
  | EnforceRatchets =>
      match mode with
      | Opportunistic | Direct =>
          Err (RnsCryptoPolicyViolation policy mode
                 "delivery mode does not apply LXMF-layer encryption yet")
      | Propagated | Paper =>
          if provides_encryption encryptor then Ok tt
          else Err (RnsCryptoPolicyViolation policy mode
                      "encryptor does not provide encryption (NullEncryptor?)")
      end
  end.

Definition deliver_as_packet_or_resource (destination : SingleOutputDestination)
    (payload : list byte) (destination_type : DestinationType) :
    stres LXMessage.t (fault RnsError) DeliveryOutput := fun m =>
  if Nat.leb (length payload) PACKET_MDU then
    (m {{ LXMessage.m_representation := REPR_PACKET }},
     map_err Fails (OutPacket <$> packet_from_payload destination payload destination_type))
  else
    (m {{ LXMessage.m_representation := REPR_RESOURCE }},
     Ok (OutResource (d_address_hash (out_desc destination)) CtxResource payload)).

(** [msg.encode_signed(...)?] *)
Definition encode_for (o : t) (draws : Z -> arr 32) :
    stres LXMessage.t (fault RnsError) (list byte) := fun m =>
  let '(m', r) := LXMessage.encode_signed draws (PrivateIdentity.sign_key (in_identity (source o))) m in
  (m', map_err (fun e => Fails (RnsLxmf e)) r).

Definition set_method (method : Z) : stres LXMessage.t (fault RnsError) unit :=
  st_modify (fun m => m {{ LXMessage.m_method := Some method }}).

Definition deliver (o : t) (draws : Z -> arr 32) (mode : DeliveryMode) :
    stres LXMessage.t (fault RnsError) DeliveryOutput :=
  _ ← st_lift (map_err Fails (check_outbound (crypto_policy o) mode (encryptor o)));
  _ ← st_modify (prepare_message o);
  packed ← encode_for o draws;
  let payload := drop DESTINATION_LENGTH packed in
  match mode with
  | Opportunistic =>
      _ ← set_method METHOD_OPPORTUNISTIC;
      deliver_as_packet_or_resource (o_destination o) payload Single
  | Direct =>
      _ ← set_method METHOD_DIRECT;
      deliver_as_packet_or_resource (o_destination o) packed Single
  | Propagated =>
      _ ← set_method METHOD_PROPAGATED;
      encrypted ← st_lift (hook_encrypt (encryptor o) (o_destination o) payload);
      propagation ← st_get (fun m => map_err (fun e => Fails (RnsLxmf e))
        (LXMessage.propagation_packed_from_encrypted encrypted (LXMessage.m_timestamp m) None m));
      deliver_as_packet_or_resource (o_destination o) propagation Single
  | Paper =>
      _ ← set_method METHOD_PAPER;
      encrypted ← st_lift (hook_encrypt (encryptor o) (o_destination o) payload);
      st_get (fun m => Ok (OutPaperUri (LXMessage.as_uri_from_paper
        (LXMessage.paper_packed_from_encrypted encrypted m))))
  end.

End Operations.
End RnsOutbound.

(** * Decoding *)

Section Decoding.
Context `{C : Crypto} `{M : Msgpack}.

Definition invalid_payload : RnsError := RnsLxmf InvalidPayload.

Definition binary_item (item : Value) : result RnsError (list byte) :=
  match item with Binary bytes => Ok bytes | _ => Err invalid_payload end.

Definition decode_propagation_resource_payload (payload : list byte) :
    result RnsError (list (list byte)) :=
  value ← rns_read payload;
  match value with
  | VArray (_ :: VArray messages :: _) => res_mapM binary_item messages
  | _ => Err invalid_payload
  end.

Definition decode_propagated_payload (payload : list byte) (source_hash : option (arr 16))
    (count_client_receive : bool) : result RnsError Received :=
  value ← rns_read payload;
  match value with
  | VArray (F64 timestamp :: VArray [Binary lxm_data] :: _) =>
      Ok (RcvPropagated timestamp lxm_data (full_hash lxm_data) source_hash count_client_receive)
  | _ => Err invalid_payload
  end.

Definition decode_packet_with_source (packet : Packet) (mode : DeliveryMode)
    (source_hash : option (arr 16)) : result RnsError Received :=
  match mode with
  | Opportunistic =>
      let buf := destination packet ++ StaticBuffer.as_slice (data packet) in
      RcvMessage <$> map_err RnsLxmf (LXMessage.decode buf)
  | Direct => RcvMessage <$> map_err RnsLxmf (LXMessage.decode (StaticBuffer.as_slice (data packet)))
  | Propagated => decode_propagated_payload (StaticBuffer.as_slice (data packet)) source_hash true
  | Paper => Err invalid_payload
  end.

Definition decode_packet (packet : Packet) (mode : DeliveryMode) : result RnsError Received :=
  decode_packet_with_source packet mode None.

(** * Requests and responses *)

Definition truncate_sha256_bytes (input : list byte) : arr 16 := arr_of 16 (take 16 (sha256 input)).

Definition request_path_hash (path : string) : arr 16 := truncate_sha256_bytes (bytes_of_string path).

Definition request_id_from_payload (payload : list byte) : arr 16 := truncate_sha256_bytes payload.

Definition request_id_from_packet (packet : Packet) : arr 16 := arr_of 16 (take 16 (packet_hash packet)).

Definition request_id_from_packet_parts (destination_hash : arr 16) (context : PacketContext)
    (destination_type : DestinationType) (packet_type : PacketType) (payload : list byte) : arr 16 :=
  let header := mkHeader Open Type1 Broadcast destination_type packet_type x00 in
  truncate_sha256_bytes ([byte_of_Z (Z.land (to_meta header) 0x0F)] ++ arr_list destination_hash
    ++ [byte_of_Z (PacketContext_u8 context)] ++ payload).

Definition request_id_for_destination (destination_hash : arr 16) (payload : list byte) : arr 16 :=
  request_id_from_packet_parts destination_hash Request Single Data payload.

Definition encode_request_bytes (req : RnsRequest) : result RnsError (list byte) :=
  rns_write (VArray [F64 (req_requested_at req); Binary (req_path_hash req); req_data req]).

Definition decode_request_bytes_with_request_id (bytes : list byte) (request_id : arr 16) :
    result RnsError RnsRequest :=
  value ← rns_read bytes;
  match value with
  | VArray (v0 :: v1 :: data :: _) =>
      requested_at ← ok_or (value_to_f64 v0) (RnsMsgpack "invalid requested_at");
      path_hash ← ok_or (value_to_fixed_bytes 16 v1) (RnsMsgpack "invalid request path hash");
      Ok (mkRequest request_id requested_at path_hash data)
  | VArray _ => Err (RnsMsgpack "request missing fields")
  | _ => Err (RnsMsgpack "request must be array")
  end.

Definition decode_request_bytes (bytes : list byte) : result RnsError RnsRequest :=
  decode_request_bytes_with_request_id bytes (request_id_from_payload bytes).

Definition decode_request_bytes_for_destination (destination_hash : arr 16) (bytes : list byte) :
    result RnsError RnsRequest :=
  decode_request_bytes_with_request_id bytes (request_id_for_destination destination_hash bytes).

Definition encode_response_bytes (resp : RnsResponse) : result RnsError (list byte) :=
  rns_write (VArray [Binary (resp_request_id resp); resp_data resp]).

Definition decode_response_bytes (bytes : list byte) : result RnsError RnsResponse :=
  value ← rns_read bytes;
  match value with
  | VArray (v0 :: data :: _) =>
      request_id ← ok_or (value_to_fixed_bytes 16 v0) (RnsMsgpack "invalid response id");
      Ok (mkResponse request_id data)
  | VArray _ => Err (RnsMsgpack "response missing fields")
  | _ => Err (RnsMsgpack "response must be array")
  end.

Definition decode_request_packet (packet : Packet) : result RnsError RnsRequest :=
  if negb (bool_decide (context packet = Request)) then Err (RnsMsgpack "packet is not request")
  else
    req ← decode_request_bytes (StaticBuffer.as_slice (data packet));
    Ok (req {{ req_request_id := request_id_from_packet packet }}).

Definition decode_response_packet (packet : Packet) : result RnsError RnsResponse :=
  if negb (bool_decide (context packet = Response)) then Err (RnsMsgpack "packet is not response")
  else decode_response_bytes (StaticBuffer.as_slice (data packet)).

(** The packet, and the request with its identifier filled in. *)
Definition build_request_packet_for_hash (destination_hash : arr 16) (req : RnsRequest) :
    result RnsError (RnsRequest * Packet) :=
  payload ← encode_request_bytes req;
  packet ← packet_from_payload_hash_with_context destination_hash payload Single Request;
  Ok (req {{ req_request_id := request_id_for_destination destination_hash payload }}, packet).

Definition build_response_packet_for_hash (destination_hash : arr 16) (response : RnsResponse) :
    result RnsError Packet :=
  payload ← encode_response_bytes response;
  packet_from_payload_hash_with_context destination_hash payload Single Response.

End Decoding.

(** * Packets carry their payload *)

Lemma packet_of_payload (h : arr 16) payload ty ctx :
  (length payload <= PACKET_MDU)%nat ->
  exists p, packet_from_payload_hash_with_context h payload ty ctx = Ok p /\
    header p = data_header ty /\ destination p = h /\ context p = ctx /\
    StaticBuffer.as_slice (data p) = payload /\ wire_ok p.
Proof.
  intros Hfit. unfold packet_from_payload_hash_with_context.
  pose proof (static_write_cases payload (StaticBuffer.new PACKET_MDU) (static_new_wf _)) as Hw.
  change (StaticBuffer.as_slice (StaticBuffer.new PACKET_MDU)) with (@nil byte) in Hw.
  simpl length in Hw. rewrite Nat.add_0_l, (proj2 (Nat.leb_le _ _)) in Hw by done.
  destruct Hw as (b & -> & Hwf & Ha). rewrite app_nil_l in Ha.
  eexists. split; [reflexivity|]. split; [done|]. split; [done|]. split; [done|].
  split; [done|]. split; [done|]. split; [|done]. split; [done|]. by intros [? ?].
Qed.

Lemma decode_packet_equiv `{C : Crypto} `{M : Msgpack} p q mode src :
  q ≡ p -> decode_packet_with_source q mode src = decode_packet_with_source p mode src.
Proof.
  intros (_ & _ & Hd & _ & _ & Ha). unfold decode_packet_with_source. by rewrite Hd, Ha.
Qed.

Lemma length_frame_le data : (length (frame data) <= 2 * length data + 2)%nat.
Proof.
  assert (Hs : (length (stuffed data) <= 2 * length data)%nat).
  { unfold stuffed. induction data as [|b l IH]; simpl; [lia|].
    rewrite length_app. unfold stuff at 1. destruct (_ || _); simpl; lia. }
  unfold frame. rewrite !length_app. simpl. lia.
Qed.

(** A packet made from a payload crosses a TCP connection, whatever the reads. *)
Lemma payload_packet_received (B : nat) p ty cuts :
  wire_ok p -> header p = data_header ty -> (4136 <= B)%nat ->
  exists bytes, TcpClient.tx B p = Some bytes /\
    (concat cuts = bytes -> Forall (.≠ []) cuts -> exists buf q,
       TcpClient.rx_reads B cuts (TcpClient.rx_new B) = Ok (buf, [q]) /\ q ≡ p).
Proof.
  intros Hp Hh HB. assert (Hfit : (length (frame (wire p)) <= B)%nat).
  { pose proof (length_frame_le (wire p)) as Hl. enough (length (wire p) <= 2067)%nat by lia.
    unfold wire, wire_transport. rewrite Hh. simpl header_type. cbn iota.
    rewrite !length_app, !arr_length, length_as_slice by apply Hp. simpl.
    assert (Hlen : (StaticBuffer.len (data p) <= 2048)%nat) by apply Hp. lia. }
  eexists. split; [by apply tx_frame|]. intros Hc Hne. rewrite rx_reads_concat, Hc by done.
  destruct (rx_bytes_frame B p (TcpClient.rx_new B) Hp Hfit) as (buf & q & Hr & Hq & _);
    [apply rx_new_at; lia|]. eauto.
Qed.

(** * Delivery *)

Section DeliveryFacts.
Context `{F : Features} `{IC : IdentityCrypto} `{M : Msgpack}.
Context `{CL : !CryptoLaws} `{ML : !MsgpackLaws}.

(** The bytes a receiver decodes in the two direct modes. *)
Definition receiver_bytes (mode : DeliveryMode) (address : arr 16) (payload : list byte) : list byte :=
  match mode with Opportunistic => address ++ payload | _ => payload end.

Lemma packet_or_resource dest payload m :
  exists m' out, RnsOutbound.deliver_as_packet_or_resource dest payload Single m = (m', Ok out) /\
    received m' = received m /\
    match out with
    | OutPacket p => header p = data_header Single /\ wire_ok p /\
        destination p = d_address_hash (out_desc dest) /\ StaticBuffer.as_slice (data p) = payload
    | OutResource d ctx bytes => d = d_address_hash (out_desc dest) /\ ctx = CtxResource /\
        bytes = payload /\ (PACKET_MDU < length payload)%nat
    | OutPaperUri _ => False
    end.
Proof.
  unfold RnsOutbound.deliver_as_packet_or_resource.
  destruct (Nat.leb_spec (length payload) PACKET_MDU) as [Hfit|Hlong].
  - destruct (packet_of_payload (d_address_hash (out_desc dest)) payload Single CtxNone Hfit)
      as (p & Hp & Hh & Hd & _ & Ha & Hw).
    unfold packet_from_payload. rewrite Hp. eexists _, _. split; [done|]. by destruct m.
  - eexists _, _. split; [done|]. by destruct m.
Qed.

(** What the direct modes do once the policy has let them through. *)
Lemma deliver_direct (o : RnsOutbound.t) draws mode m :
  mode = Opportunistic \/ mode = Direct ->
  RnsOutbound.check_outbound (RnsOutbound.crypto_policy o) mode (RnsOutbound.encryptor o) = Ok tt ->
  message_ok (RnsOutbound.prepare_message o m) = true ->
  exists m' out payload, RnsOutbound.deliver o draws mode m = (m', Ok out) /\
    let r := received m' in
    let address := d_address_hash (out_desc (RnsOutbound.o_destination o)) in
    LXMessage.m_destination_hash r = address /\
    LXMessage.m_source_hash r = d_address_hash (in_desc (RnsOutbound.source o)) /\
    LXMessage.payload_values r = LXMessage.payload_values m /\
    LXMessage.verify (verifying_key (PrivateIdentity.sign_key (in_identity (RnsOutbound.source o)))) r
      = Ok true /\
    LXMessage.decode (receiver_bytes mode address payload) = Ok r /\
    match out with
    | OutPacket p => header p = data_header Single /\ wire_ok p /\ destination p = address /\
        StaticBuffer.as_slice (data p) = payload
    | OutResource d ctx bytes => d = address /\ ctx = CtxResource /\ bytes = payload /\
        (PACKET_MDU < length payload)%nat
    | OutPaperUri _ => False
    end.
Proof.
  intros Hmode Hpol Hm.
  destruct (encode_signed_received draws (PrivateIdentity.sign_key (in_identity (RnsOutbound.source o)))
    (RnsOutbound.prepare_message o m) Hm)
    as (m1 & bytes & Henc & (Hd & Hs & Hv & _) & (tail & Htail) & Hdec & Hver).
  set (dest := RnsOutbound.o_destination o). set (address := d_address_hash (out_desc dest)).
  assert (Hadr : LXMessage.m_destination_hash (RnsOutbound.prepare_message o m) = address)
    by (by destruct m).
  set (payload := match mode with Opportunistic => tail | _ => bytes end).
  set (method := match mode with Opportunistic => METHOD_OPPORTUNISTIC | _ => METHOD_DIRECT end).
  destruct (packet_or_resource dest payload (m1 {{ LXMessage.m_method := Some method }}))
    as (m' & out & Hout & Hr & Hcase).
  assert (Hr1 : received m' = received m1) by (rewrite Hr; by destruct m1).
  exists m', out, payload. split.
  - unfold RnsOutbound.deliver. rewrite Hpol.
    unfold mbind, stres_bind, st_lift, st_modify, RnsOutbound.encode_for, RnsOutbound.set_method.
    cbn [map_err]. rewrite Henc. cbn [map_err].
    assert (Hdrop : drop DESTINATION_LENGTH bytes = tail)
      by (rewrite Htail; apply drop_app_length'; by rewrite arr_length).
    rewrite Hdrop. destruct Hmode as [-> | ->]; exact Hout.
  - cbv zeta. rewrite Hr1.
    split; [by rewrite <- Hadr|]. split; [etrans; [exact Hs|by destruct m]|].
    split; [change (LXMessage.payload_values m1 = LXMessage.payload_values m); rewrite Hv; by destruct m|].
    split; [done|]. split; [|done]. rewrite <- (Hdec []), app_nil_r, Htail, Hadr. f_equal.
    subst payload. rewrite Hadr in Htail. by destruct Hmode as [-> | ->].
Qed.

(** What the propagation mode does once the policy has let it through. *)
Lemma deliver_propagated (o : RnsOutbound.t) draws m :
  RnsOutbound.check_outbound (RnsOutbound.crypto_policy o) Propagated (RnsOutbound.encryptor o) = Ok tt ->
  message_ok (RnsOutbound.prepare_message o m) = true ->
  let address := d_address_hash (out_desc (RnsOutbound.o_destination o)) in
  exists plain, forall cipher,
  hook_encrypt (RnsOutbound.encryptor o) (RnsOutbound.o_destination o) plain = Ok cipher ->
  Z.of_nat (16 + length cipher) <= u32_max ->
  exists m' out payload, RnsOutbound.deliver o draws Propagated m = (m', Ok out) /\
    LXMessage.decode (address ++ plain) = Ok (received m') /\
    rns_read payload =
      Ok (VArray [F64 (LXMessage.m_timestamp m); VArray [Binary (address ++ cipher)]]) /\
    match out with
    | OutPacket p => StaticBuffer.as_slice (data p) = payload
    | OutResource _ _ bytes => bytes = payload
    | OutPaperUri _ => False
    end.
Proof.
  intros Hpol Hm address.
  destruct (encode_signed_received draws (PrivateIdentity.sign_key (in_identity (RnsOutbound.source o)))
    (RnsOutbound.prepare_message o m) Hm)
    as (m1 & bytes & He & (Hd & _ & Hv & _) & (tail & Htail) & Hdec & _).
  assert (Hadr : LXMessage.m_destination_hash (RnsOutbound.prepare_message o m) = address)
    by (by destruct m).
  rewrite Hadr in Hd, Htail.
  assert (Hts : LXMessage.m_timestamp m1 = LXMessage.m_timestamp m)
    by (injection Hv as Ht _ _ _; rewrite Ht; by destruct m).
  exists tail. intros cipher Henc Hshort.
  set (v := VArray [F64 (LXMessage.m_timestamp m); VArray [Binary (address ++ cipher)]]).
  assert (Hrep : representable v = true).
  { assert (Hf : f64_valid (LXMessage.m_timestamp m) = true)
      by (unfold message_ok in Hm; repeat apply andb_prop in Hm as [Hm _]; by destruct m).
    apply (rep_representable 3); [subst v; solve_rep|unfold MAX_DEPTH; lia].
    apply fits_u32_length. by rewrite length_app, arr_length. }
  destruct (read_write v Hrep) as (payload & Hw & _ & Hr).
  destruct (packet_or_resource (RnsOutbound.o_destination o) payload
    (m1 {{ LXMessage.m_method := Some METHOD_PROPAGATED }})) as (m' & out & Hout & Hrm & Hcase).
  exists m', out, payload. split; [|split; [|split]].
  - unfold RnsOutbound.deliver. rewrite Hpol.
    unfold mbind, stres_bind, st_lift, st_modify, st_get, RnsOutbound.encode_for, RnsOutbound.set_method.
    cbn [map_err]. rewrite He. cbn [map_err].
    assert (Hdrop : drop DESTINATION_LENGTH bytes = tail)
      by (rewrite Htail; apply drop_app_length'; by rewrite arr_length).
    rewrite Hdrop, Henc.
    assert (Hp : LXMessage.propagation_packed_from_encrypted cipher
      (LXMessage.m_timestamp (m1 {{ LXMessage.m_method := Some METHOD_PROPAGATED }})) None
      (m1 {{ LXMessage.m_method := Some METHOD_PROPAGATED }}) = Ok payload).
    { destruct m1. simpl in Hd, Hts. unfold LXMessage.propagation_packed_from_encrypted, write_msgpack.
      cbn [LXMessage.m_timestamp LXMessage.m_destination_hash default]. rewrite Hd, Hts, app_nil_r.
      change (map_err MsgpackEncode (write_value v) = Ok payload). by rewrite Hw. }
    unfold st_modify. cbv beta iota. rewrite Hp. exact Hout.
  - rewrite Hrm, <- Htail, <- (app_nil_r bytes), (Hdec []). by destruct m1.
  - unfold rns_read. by rewrite <- (app_nil_r payload), Hr.
  - by destruct out as [p|d ctx bs|uri]; [destruct Hcase as (_ & _ & _ & ?)|destruct Hcase as (_ & _ & ? & _)|].
Qed.

End DeliveryFacts.

#[local] Existing Instance toy_features.
#[local] Existing Instance toy_crypto.
#[local] Existing Instance toy_identity.
#[local] Existing Instance bit_codec.
#[local] Existing Instance toy_crypto_laws.
#[local] Existing Instance bit_codec_laws.

(** C1. A message sent in a direct mode arrives.  Under a policy that allows the
    mode, [deliver] succeeds; when the encoded message fits a packet, that packet
    sent over a TCP connection, however its reads are cut, decodes at the receiver to
    the message with its addresses, timestamp, title, content and fields, and
    its signature verifies under the sender's key; when it does not fit, the
    resource to be sent carries those bytes instead. *)
Theorem message_over_the_wire `{Features} `{IdentityCrypto} `{Msgpack} `{!CryptoLaws} `{!MsgpackLaws}
  (o : RnsOutbound.t) (draws : Z -> arr 32) (mode : DeliveryMode) (m : LXMessage.t) (B : nat)
  (Hmode : mode = Opportunistic \/ mode = Direct)
  (Hpol : RnsOutbound.crypto_policy o = AllowPlaintext)
  (Hm : message_ok (RnsOutbound.prepare_message o m) = true) (HB : (4136 <= B)%nat) :
  exists m' out, RnsOutbound.deliver o draws mode m = (m', Ok out) /\
    let r := received m' in
    let address := d_address_hash (out_desc (RnsOutbound.o_destination o)) in
    LXMessage.m_destination_hash r = address /\
    LXMessage.m_source_hash r = d_address_hash (in_desc (RnsOutbound.source o)) /\
    LXMessage.payload_values r = LXMessage.payload_values m /\
    LXMessage.verify (verifying_key (PrivateIdentity.sign_key (in_identity (RnsOutbound.source o)))) r
      = Ok true /\
    match out with
    | OutPacket p => forall cuts, exists bytes, TcpClient.tx B p = Some bytes /\
        (concat cuts = bytes -> Forall (.≠ []) cuts -> exists buf q,
           TcpClient.rx_reads B cuts (TcpClient.rx_new B) = Ok (buf, [q]) /\
           decode_packet q mode = Ok (RcvMessage r))
    | OutResource d ctx payload => d = address /\ ctx = CtxResource /\
        (PACKET_MDU < length payload)%nat /\
        LXMessage.decode (receiver_bytes mode address payload) = Ok r
    | OutPaperUri _ => False
    end.
Proof.
  destruct (deliver_direct o draws mode m Hmode) as (m' & out & payload & Hdel & Hd & Hs & Hv & Hver &
    Hdec & Hout); [by rewrite Hpol|done|].
  exists m', out. split; [done|]. cbv zeta. split_and!; try done.
  destruct out as [p|d ctx bytes|uri]; [|destruct Hout as (-> & -> & -> & Hlong); done|done].
  destruct Hout as (Hh & Hw & Hdst & Ha). intros cuts.
  destruct (payload_packet_received B p Single cuts Hw Hh HB) as (bytes & Htx & Hrx).
  exists bytes. split; [done|]. intros Hc Hne. destruct (Hrx Hc Hne) as (buf & q & Hr & Hq).
  exists buf, q. split; [done|]. unfold decode_packet. rewrite (decode_packet_equiv p) by done.
  unfold decode_packet_with_source. rewrite Ha, Hdst.
  destruct Hmode as [-> | ->]; cbn [receiver_bytes] in Hdec; by rewrite Hdec.
Qed.

Definition sample_outbound : RnsOutbound.t :=
  RnsOutbound.with_encryptor (PrivateIdentity.new (arr_zero 32) (toy_secret x07)) Identity.default_
    NullEncryptor.

Lemma message_over_the_wire_witness :
  exists m' out, RnsOutbound.deliver sample_outbound (fun _ => arr_zero 32) Direct sample_message =
      (m', Ok out) /\
    LXMessage.verify (toy_secret x07) (received m') = Ok true.
Proof.
  destruct (message_over_the_wire sample_outbound (fun _ => arr_zero 32) Direct sample_message 4136
    ltac:(by right) eq_refl ltac:(vm_compute; reflexivity) ltac:(lia))
    as (m' & out & Hd & _ & _ & _ & Hv & _).
  exists m', out. split; [exact Hd|exact Hv].
Defined.


(** Propagation.  A message sent for propagation through an encryptor that
    succeeds reaches the node as data whose first 16 bytes are the destination's
    address, followed by the ciphertext, with the message's timestamp and the
    hash of the data as its identifier; a resource carries the same payload
    when it is too long.  Under [EnforceRatchets] the direct modes, and the
    others with an encryptor that does not encrypt, are refused, and a refused
    message is left as it was. *)
Theorem propagated_delivery `{Features} `{IdentityCrypto} `{Msgpack} `{!CryptoLaws} `{!MsgpackLaws}
  (o : RnsOutbound.t) (draws : Z -> arr 32) (m : LXMessage.t)
  (Hpol : RnsOutbound.check_outbound (RnsOutbound.crypto_policy o) Propagated
            (RnsOutbound.encryptor o) = Ok tt)
  (Hm : message_ok (RnsOutbound.prepare_message o m) = true) :
  let address := d_address_hash (out_desc (RnsOutbound.o_destination o)) in
  (exists plain, forall cipher,
     hook_encrypt (RnsOutbound.encryptor o) (RnsOutbound.o_destination o) plain = Ok cipher ->
     Z.of_nat (16 + length cipher) <= u32_max ->
     exists m' out, RnsOutbound.deliver o draws Propagated m = (m', Ok out) /\
     LXMessage.decode (address ++ plain) = Ok (received m') /\
     let node_gets payload := forall src count,
       decode_propagated_payload payload src count =
         Ok (RcvPropagated (LXMessage.m_timestamp m) (address ++ cipher)
               (full_hash (address ++ cipher)) src count) in
     match out with
     | OutPacket p => node_gets (StaticBuffer.as_slice (data p))
     | OutResource _ _ payload => node_gets payload
     | OutPaperUri _ => False
     end) /\
  (forall mode, RnsOutbound.check_outbound EnforceRatchets mode (RnsOutbound.encryptor o) <> Ok tt <->
     mode = Opportunistic \/ mode = Direct \/ provides_encryption (RnsOutbound.encryptor o) = false) /\
  (forall mode e, RnsOutbound.check_outbound (RnsOutbound.crypto_policy o) mode
                    (RnsOutbound.encryptor o) = Err e ->
     RnsOutbound.deliver o draws mode m = (m, Err (Fails e))).
Proof.
  intros address. split; [|split].
  - destruct (deliver_propagated o draws m Hpol Hm) as (plain & Hplain). exists plain.
    intros cipher Henc Hshort.
    destruct (Hplain cipher Henc Hshort) as (m' & out & payload & Hd & Hdec & Hr & Hout).
    exists m', out. split; [done|]. split; [done|]. cbv zeta.
    assert (Hgets : forall src count, decode_propagated_payload payload src count =
      Ok (RcvPropagated (LXMessage.m_timestamp m) (address ++ cipher)
            (full_hash (address ++ cipher)) src count))
      by (intros src count; unfold decode_propagated_payload; by rewrite Hr).
    destruct out; by subst.
  - intros mode. unfold RnsOutbound.check_outbound.
    destruct mode, (provides_encryption (RnsOutbound.encryptor o)); naive_solver.
  - intros mode e Hp. unfold RnsOutbound.deliver. by rewrite Hp.
Qed.

(** C37. The outbound the library makes cannot encrypt.  Built without the AES-128
    feature, which is not a default one, the outbound that [RnsOutbound::new] makes,
    whatever its policy, panics on every message it is to send for propagation or
    as paper, instead of sending it or failing. *)
Theorem new_outbound_panics `{Features} `{IdentityCrypto} `{Msgpack} `{!CryptoLaws} `{!MsgpackLaws} `{!IdentityLaws}
  (secret ephemeral : arr 32) (iv : arr 16) (source : PrivateIdentity.t) (destination : Identity.t)
  (policy : RnsCryptoPolicy) (draws : Z -> arr 32) (mode : DeliveryMode) (m : LXMessage.t)
  (Hf : fernet_aes128 = false) (Hmode : mode = Propagated \/ mode = Paper)
  (Hm : message_ok (RnsOutbound.prepare_message (RnsOutbound.new secret ephemeral iv source destination) m) = true) :
  (RnsOutbound.deliver (RnsOutbound.with_crypto_policy policy (RnsOutbound.new secret ephemeral iv source destination))
     draws mode m).2 = Err Panics.
Proof.
  set (o := RnsOutbound.with_crypto_policy _ _).
  destruct (encode_signed_received draws (PrivateIdentity.sign_key (in_identity (RnsOutbound.source o)))
    (RnsOutbound.prepare_message o m) Hm) as (m1 & bytes & He & _).
  assert (Henc : hook_encrypt (RnsOutbound.encryptor o) (RnsOutbound.o_destination o) (drop DESTINATION_LENGTH bytes) = Err Panics).
  { change (hook_encrypt (ReticulumEncryptor secret ephemeral iv) (SingleOutput_new destination RnsOutbound.delivery_name)
      (drop DESTINATION_LENGTH bytes) = Err Panics). unfold ReticulumEncryptor. cbn [hook_encrypt].
    set (text := drop DESTINATION_LENGTH bytes). set (dest := SingleOutput_new _ _).
    pose proof (identity_encrypt_unusable (out_identity dest) secret ephemeral (Some (arr_list (d_address_hash (out_desc dest)))) iv text
      (length text + 512)) as Hu. rewrite Hf in Hu. rewrite Hu; [done|].
    unfold token_length, FERNET_OVERHEAD_SIZE, PUBLIC_KEY_LENGTH, IV_KEY_SIZE, HMAC_OUT_SIZE.
    pose proof (Nat.div_mod (length text) 16 ltac:(lia)). lia. }
  unfold RnsOutbound.deliver.
  replace (RnsOutbound.check_outbound (RnsOutbound.crypto_policy o) mode (RnsOutbound.encryptor o)) with (Ok (E := RnsError) tt)
    by (by destruct policy, Hmode as [-> | ->]).
  unfold mbind, stres_bind, st_lift, st_modify, RnsOutbound.encode_for, RnsOutbound.set_method.
  cbn [map_err]. rewrite He. cbn [map_err].
  destruct Hmode as [-> | ->]; unfold st_modify; cbv beta iota zeta; by rewrite Henc.
Qed.

#[local] Existing Instance toy_identity_laws.

Lemma new_outbound_panics_witness :
  (RnsOutbound.deliver (RnsOutbound.with_crypto_policy AllowPlaintext
     (RnsOutbound.new (arr_zero 32) (arr_zero 32) (arr_zero 16) (PrivateIdentity.new (arr_zero 32) (toy_secret x07)) Identity.default_))
     (fun _ => arr_zero 32) Propagated sample_message).2 = Err Panics.
Proof.
  apply (new_outbound_panics (arr_zero 32) (arr_zero 32) (arr_zero 16) (PrivateIdentity.new (arr_zero 32) (toy_secret x07))
    Identity.default_ AllowPlaintext (fun _ => arr_zero 32) Propagated sample_message eq_refl ltac:(by left)
    ltac:(vm_compute; reflexivity)).
Defined.

(** An encryptor that cuts the plaintext, to keep lengths bounded. *)
Definition sample_hook : EncryptHook := mkHook _ _ (fun _ plain => Ok (take 100 plain)) true.

Lemma propagated_delivery_witness :
  exists m' out, RnsOutbound.deliver (RnsOutbound.with_encryptor
      (PrivateIdentity.new (arr_zero 32) (toy_secret x07)) Identity.default_ sample_hook)
      (fun _ => arr_zero 32) Propagated sample_message = (m', Ok out).
Proof.
  destruct (propagated_delivery (RnsOutbound.with_encryptor
      (PrivateIdentity.new (arr_zero 32) (toy_secret x07)) Identity.default_ sample_hook)
    (fun _ => arr_zero 32) sample_message eq_refl ltac:(vm_compute; reflexivity))
    as [(plain & Hplain) _].
  destruct (Hplain (take 100 plain) eq_refl ltac:(rewrite length_take; unfold u32_max; lia))
    as (m' & out & Hd & _).
  exists m', out. exact Hd.
Defined.

(** The two ends of a request agree on its identifier: the identifier the
    requester files the request under is the one the responder reads from the
    packet, with the time, path and data intact, and the response that quotes it
    brings it back to the requester with its data. *)
Theorem request_ids_agree `{Crypto} `{Msgpack} `{!MsgpackLaws} (d reply_to : arr 16) (req : RnsRequest)
  (answer : Value) (bs bs' : list byte)
  (Hreq : encode_request_bytes req = Ok bs) (Hfit : (length bs <= PACKET_MDU)%nat)
  (Hrep : representable (VArray [F64 (req_requested_at req); Binary (req_path_hash req); req_data req])
            = true)
  (Hresp : encode_response_bytes (mkResponse (request_id_for_destination d bs) answer) = Ok bs')
  (Hfit' : (length bs' <= PACKET_MDU)%nat)
  (Hrep' : representable (VArray [Binary (request_id_for_destination d bs); answer]) = true) :
  exists req' p p', build_request_packet_for_hash d req = Ok (req', p) /\
    req_request_id req' = request_id_for_destination d bs /\
    (forall q, q ≡ p -> decode_request_packet q = Ok req') /\
    build_response_packet_for_hash reply_to (mkResponse (req_request_id req') answer) = Ok p' /\
    (forall q, q ≡ p' -> decode_response_packet q = Ok (mkResponse (req_request_id req') answer)).
Proof.
  destruct (packet_of_payload d bs Single Request Hfit) as (p & Hp & Hh & Hd & Hc & Ha & _).
  destruct (packet_of_payload reply_to bs' Single Response Hfit') as (p' & Hp' & _ & _ & Hc' & Ha' & _).
  exists (req {{ req_request_id := request_id_for_destination d bs }}), p, p'.
  unfold build_request_packet_for_hash, build_response_packet_for_hash. rewrite Hreq.
  cbn [mbind result_bind]. rewrite Hp. cbn [mbind result_bind].
  assert (Hid : req_request_id (req {{ req_request_id := request_id_for_destination d bs }}) =
    request_id_for_destination d bs) by (by destruct req).
  rewrite Hid, Hresp. cbn [mbind result_bind]. rewrite Hp'.
  split; [done|]. split; [done|]. split; [|split; [done|]].
  - intros q Hq. pose proof Hq as (Hqh & _ & Hqd & _ & Hqc & Hqa). unfold decode_request_packet.
    rewrite Hqc, Hc, bool_decide_true by done. cbn [negb].
    assert (Hqid : request_id_from_packet q = request_id_for_destination d bs).
    { unfold request_id_from_packet, packet_hash. by rewrite Hqh, Hqd, Hqc, Hqa, Hh, Hd, Hc, Ha. }
    unfold decode_request_bytes, decode_request_bytes_with_request_id.
    rewrite Hqa, Ha. unfold encode_request_bytes in Hreq. destruct (rns_write_read _ Hrep) as (bs1 & Hw & Hr).
    rewrite Hw in Hreq. injection Hreq as ->. specialize (Hr []). rewrite app_nil_r in Hr. rewrite Hr.
    cbn [mbind result_bind].
    cbn [value_to_f64 ok_or]. rewrite value_to_fixed_bytes_arr. cbn [ok_or mbind result_bind].
    rewrite Hqid. by destruct req.
  - intros q (_ & _ & _ & _ & Hqc & Hqa). unfold decode_response_packet.
    rewrite Hqc, Hc', bool_decide_true by done. cbn [negb]. unfold decode_response_bytes.
    unfold encode_response_bytes in Hresp. cbn [resp_request_id resp_data] in Hresp.
    destruct (rns_write_read _ Hrep') as (bs1 & Hw & Hr). rewrite Hw in Hresp. injection Hresp as ->.
    specialize (Hr []). rewrite app_nil_r in Hr. rewrite Hqa, Ha', Hr. cbn [mbind result_bind].
    by rewrite value_to_fixed_bytes_arr.
Qed.

Definition sample_request : RnsRequest :=
  mkRequest (arr_zero 16) (f64_of_Z 1700000000) (arr_of 16 (replicate 16 x03)) (Integer 5).
Definition sample_request_bytes : list byte :=
  Eval vm_compute in match encode_request_bytes sample_request with Ok bs => bs | Err _ => [] end.
Definition sample_response_bytes : list byte :=
  Eval vm_compute in
    match encode_response_bytes
            (mkResponse (request_id_for_destination (arr_zero 16) sample_request_bytes) Nil) with
    | Ok bs => bs | Err _ => [] end.

Lemma request_ids_agree_witness :
  exists req' p p', build_request_packet_for_hash (arr_zero 16) sample_request = Ok (req', p) /\
    build_response_packet_for_hash (arr_zero 16) (mkResponse (req_request_id req') Nil) = Ok p'.
Proof.
  destruct (@request_ids_agree toy_crypto bit_codec bit_codec_laws (arr_zero 16) (arr_zero 16) sample_request Nil sample_request_bytes
    sample_response_bytes ltac:(vm_compute; reflexivity) ltac:(apply Nat.leb_le; vm_compute; reflexivity)
    ltac:(vm_compute; reflexivity) ltac:(vm_compute; reflexivity)
    ltac:(apply Nat.leb_le; vm_compute; reflexivity) ltac:(vm_compute; reflexivity))
    as (req' & p & p' & Hp & _ & _ & Hp' & _).
  exists req', p, p'. split; [exact Hp|exact Hp'].
Defined.
