(* ===== verification/Node.v ===== *)
(** [RnsNodeRouter] of [lxmf-rs/src/rns/transport.rs]: the node that joins the
    LXMF layer to a Reticulum transport.  It turns the events of its links into
    received messages, requests and responses, puts resources together and
    sends them, and keeps the receipts of its requests.

    The channels of link events are read to their end by [poll_inbound]: what
    they hold is an argument.  [Instant::now()] is the argument [now]; vectors
    drawn for encryption are arguments. *)

From Stdlib Require Import ZArith Lia Permutation.
From Stdlib Require Import Strings.Byte.
From stdpp Require Import base gmap strings numbers relations list.
From coqutil Require Import Datatypes.RecordSetters.
From S2P Require Import Prelude Float Msgpack Crypto Buffer Packet Resource ReqTracker Identity Destination Link.
From S2P Require Import Transport Stamp Message Rns Delivery.
Import DoubleBraceUpdate.

Local Open Scope Z_scope.

Definition RESOURCE_TIMEOUT : Z := 30000.
Definition RESOURCE_PROOF_TIMEOUT : Z := 10000.
Definition CONTROL_STATS_PATH : string := "/pn/get/stats".
Definition CONTROL_SYNC_PATH : string := "/pn/peer/sync".
Definition CONTROL_UNPEER_PATH : string := "/pn/peer/unpeer".

Record ResourceControlAction : Type := mkAction {
  act_link_id : AddressHash;
  act_context : PacketContext;
  act_payload : list byte
}.

(** What an event handler reads and writes. *)
Record Inner : Type := mkInner {
  out : list Received;
  actions : list ResourceControlAction;
  requests : RequestTracker.t;
  resources : ResourceTracker.t;
  outgoing : gmap (arr 16) ResourceSendState.t
}.

Section Events.
Context `{F : Features} `{IC : IdentityCrypto} `{M : Msgpack} `{R : Rmp} `{HI : HashIter}.

Definition source_hash_from_event (event : LinkEventData) : option (arr 16) :=
  match ev_peer_identity_hash event with
  | Some hash => if forallb (fun b => bool_decide (b = x00)) (arr_list hash) then None else Some hash
  | None => None
  end.

Definition request_path_for_hash (hash : arr 16) : option string :=
  if bool_decide (hash = request_path_hash CONTROL_STATS_PATH) then Some CONTROL_STATS_PATH
  else if bool_decide (hash = request_path_hash CONTROL_SYNC_PATH) then Some CONTROL_SYNC_PATH
  else if bool_decide (hash = request_path_hash CONTROL_UNPEER_PATH) then Some CONTROL_UNPEER_PATH
  else None.

Definition push (r : Received) (s : Inner) : Inner := s {{ out := out s ++ [r] }}.
Definition act (a : ResourceControlAction) (s : Inner) : Inner := s {{ actions := actions s ++ [a] }}.
Definition with_requests (f : RequestTracker.t -> RequestTracker.t) (s : Inner) : Inner :=
  s {{ requests := f (requests s) }}.

(** A request is a control request when its path is one of the control paths. *)
Definition received_request (request : RnsRequest) (source_hash : option (arr 16)) : Received :=
  match request_path_for_hash (req_path_hash request) with
  | Some path =>
      if bool_decide (path ∈ [CONTROL_STATS_PATH; CONTROL_SYNC_PATH; CONTROL_UNPEER_PATH])
      then RcvControlRequest request source_hash else RcvRequest request source_hash
  | None => RcvRequest request source_hash
  end.

Definition push_response (response : RnsResponse) (bytes : list byte) (source_hash : option (arr 16))
    (now : Z) (s : Inner) : Inner :=
  with_requests (fun r => (RequestTracker.record_response (resp_request_id response) bytes now r).1)
    (push (RcvResponse response source_hash) s).

(** Data without a context: a message, a propagated message, a propagation
    resource, a request or a response, whichever it decodes as first. *)
Definition on_plain (event : LinkEventData) (payload : list byte) (now : Z) (s : Inner) : Inner :=
  let source_hash := source_hash_from_event event in
  let count_client_receive := negb (bool_decide (is_Some source_hash)) in
  match LXMessage.decode payload with
  | Ok msg => push (RcvMessage msg) s
  | Err _ =>
  match decode_propagated_payload payload source_hash count_client_receive with
  | Ok received => push received s
  | Err _ =>
  match decode_propagation_resource_payload payload with
  | Ok _ => push (RcvPropagationResource payload source_hash) s
  | Err _ =>
  match decode_request_bytes_for_destination (ev_address_hash event) payload with
  | Ok request => push (received_request request source_hash) s
  | Err _ =>
  match decode_response_bytes payload with
  | Ok response => push_response response payload source_hash now s
  | Err _ => s
  end end end end end.

Definition on_request (event : LinkEventData) (payload : list byte) (s : Inner) : Inner :=
  match decode_request_bytes_for_destination (ev_address_hash event) payload with
  | Ok request => push (received_request request (source_hash_from_event event)) s
  | Err _ => s
  end.

Definition on_response (event : LinkEventData) (payload : list byte) (now : Z) (s : Inner) : Inner :=
  match decode_response_bytes payload with
  | Ok response => push_response response payload (source_hash_from_event event) now s
  | Err _ => s
  end.

(** [ResourceProof { resource_id, status }] for a link. *)
Definition proof_action (link_id : AddressHash) (resource_id : arr 16) (status : byte) :
    ResourceControlAction :=
  mkAction link_id CtxResourceProof (ResourceProof.encode (ResourceProof.mk resource_id status)).

Definition on_advertisement (event : LinkEventData) (payload : list byte) (now : Z) (s : Inner) : Inner :=
  match ResourceAdvertisement.decode payload with
  | Err _ => s
  | Ok advert =>
      let '(tracker, result) := ResourceTracker.handle_advertisement advert (ev_id event) now (resources s) in
      let s := s {{ resources := tracker }} in
      match result with
      | Err _ => s
      | Ok AlreadyCompleted =>
          act (proof_action (ev_id event) (ResourceAdvertisement.resource_id advert) RESOURCE_PROOF_STATUS_OK) s
      | Ok Accepted =>
          match ResourceAdvertisement.request_id advert with
          | Some request_id =>
              if ResourceAdvertisement.is_response advert
              then with_requests (RequestTracker.mark_receiving request_id (f32_of_Z 0)) s else s
          | None => s
          end
      end
  end.

Definition on_hash_update (payload : list byte) (now : Z) (s : Inner) : Inner :=
  match ResourceHashUpdate.decode payload with
  | Ok update => s {{ resources := (ResourceTracker.handle_hash_update update now (resources s)).1 }}
  | Err _ => s
  end.

Definition fail_request (request_id : option (arr 16)) (now : Z) (s : Inner) : Inner :=
  match request_id with
  | Some request_id => with_requests (RequestTracker.mark_failed request_id now) s
  | None => s
  end.

Definition on_cancel (payload : list byte) (now : Z) (s : Inner) : Inner :=
  match ResourceCancel.decode payload with
  | Err _ => s
  | Ok resource_id =>
      let '(tracker, cancelled) := ResourceTracker.handle_cancel resource_id (resources s) in
      let s := s {{ resources := tracker }} in
      let s := match cancelled with
               | Some c => if ce_is_response c then fail_request (ce_request_id c) now s else s
               | None => s
               end in
      match outgoing s !! resource_id with
      | Some state =>
          let s := s {{ outgoing := <[resource_id := ResourceSendState.mark_failed now state]> (outgoing s) }} in
          if ResourceSendState.is_request state then fail_request (ResourceSendState.request_id state) now s else s
      | None => s
      end
  end.

Definition on_proof (payload : list byte) (now : Z) (s : Inner) : Inner :=
  match ResourceProof.decode payload with
  | Err _ => s
  | Ok proof =>
      match outgoing s !! ResourceProof.resource_id proof with
      | None => s
      | Some state =>
          let '(state', handled) := ResourceSendState.handle_proof proof now state in
          let s := s {{ outgoing := <[ResourceProof.resource_id proof := state']> (outgoing s) }} in
          if handled && ResourceSendState.is_request state then
            match ResourceSendState.request_id state with
            | Some request_id =>
                if bool_decide (ResourceProof.status proof = RESOURCE_PROOF_STATUS_OK)
                then with_requests (RequestTracker.mark_delivered request_id) s
                else with_requests (RequestTracker.mark_failed request_id now) s
            | None => s
            end
          else s
      end
  end.

(** The index after the first part with the hash, or 0. *)
Fixpoint start_index (last_hash : arr 4) (idx : nat) (parts : list ResourcePart.t) : nat :=
  match parts with
  | [] => 0
  | part :: parts =>
      if bool_decide (compute_map_hash (ResourcePart.data part) = last_hash) then S idx
      else start_index last_hash (S idx) parts
  end.

(** The hashes after [last_hash], sent as segment 0. *)
Definition hash_update_for (request : ResourceRequest.t) (last_hash : arr 4) (parts : list ResourcePart.t) :
    ResourceHashUpdate.t :=
  ResourceHashUpdate.mk (ResourceRequest.resource_id request) 0
    (concat (map (fun part => arr_list (compute_map_hash (ResourcePart.data part)))
       (drop (start_index last_hash 0 parts) parts))).

Definition on_resource_request (event : LinkEventData) (payload : list byte) (now : Z) (s : Inner) : Inner :=
  match ResourceRequest.decode payload with
  | Err _ => s
  | Ok request =>
      match outgoing s !! ResourceRequest.resource_id request with
      | None => s
      | Some state =>
          let parts := ResourceSendState.handle_request request state in
          let s := foldl (fun s part => act (mkAction (ev_id event) CtxResource (ResourcePart.encode part)) s)
                     s parts in
          let s := match ResourceRequest.hashmap_exhausted request, ResourceRequest.last_map_hash request with
                   | true, Some last_hash =>
                       act (mkAction (ev_id event) CtxResourceHashUpdate
                              (ResourceHashUpdate.encode
                                 (hash_update_for request last_hash (ResourceSendState.parts state)))) s
                   | _, _ => s
                   end in
          if negb (bool_decide (parts = []))
          then s {{ outgoing := <[ResourceRequest.resource_id request :=
                                    ResourceSendState.mark_sent now state]> (outgoing s) }}
          else s
      end
  end.

(** A complete resource: a response, a request, a message or data for
    propagation. *)
Definition on_completion (event : LinkEventData) (completion : ResourceCompletion) (now : Z) (s : Inner) :
    Inner :=
  let source_hash := source_hash_from_event event in
  let data := rc_data completion in
  let s := act (proof_action (ev_id event) (rc_resource_id completion) RESOURCE_PROOF_STATUS_OK) s in
  match rc_request_id completion with
  | Some request_id =>
      if rc_is_response completion then
        match decode_response_bytes data with
        | Ok response => push_response response data source_hash now s
        | Err _ => s
        end
      else
        match decode_request_bytes data with
        | Ok request => push (received_request (request {{ req_request_id := request_id }}) source_hash) s
        | Err _ => s
        end
  | None =>
      match LXMessage.decode data with
      | Ok msg => push (RcvMessage msg) s
      | Err _ =>
      match decode_propagated_payload data source_hash (negb (bool_decide (is_Some source_hash))) with
      | Ok received => push received s
      | Err _ =>
      match decode_propagation_resource_payload data with
      | Ok _ => push (RcvPropagationResource data source_hash) s
      | Err _ => s
      end end end
  end.

Definition on_part (event : LinkEventData) (payload : list byte) (now : Z) (s : Inner) :
    result (fault RetError) Inner :=
  let otherwise (s : Inner) :=
    match decode_propagation_resource_payload payload with
    | Ok _ => push (RcvPropagationResource payload (source_hash_from_event event)) s
    | Err _ => s
    end in
  match ResourcePart.decode payload with
  | Err _ => Ok (otherwise s)
  | Ok part =>
      let '(tracker, result) := ResourceTracker.handle_part now part (resources s) in
      let s := s {{ resources := tracker }} in
      match result with
      | Err Panics => Err Panics
      | Ok (Some (RProgress progress)) =>
          if rp_is_response progress then
            match rp_request_id progress with
            | Some request_id =>
                Ok (with_requests (RequestTracker.mark_receiving request_id (rp_progress progress)) s)
            | None => Ok s
            end
          else Ok s
      | Ok (Some (RComplete completion)) => Ok (on_completion event completion now s)
      | Ok None | Err (Fails _) => Ok (otherwise s)
      end
  end.

Definition handle_link_event_inner (event : LinkEventData) (now : Z) (s : Inner) :
    result (fault RetError) Inner :=
  match ev_event event with
  | EvData payload context =>
      payload ← LinkPayload.as_slice payload;
      match context with
      | CtxNone => Ok (on_plain event payload now s)
      | Request => Ok (on_request event payload s)
      | Response => Ok (on_response event payload now s)
      | ResourceAdvrtisement => Ok (on_advertisement event payload now s)
      | CtxResourceHashUpdate => Ok (on_hash_update payload now s)
      | ResourceInitiatorCancel | ResourceReceiverCancel => Ok (on_cancel payload now s)
      | CtxResourceProof => Ok (on_proof payload now s)
      | CtxResourceRequest => Ok (on_resource_request event payload now s)
      | CtxResource => on_part event payload now s
      | _ => Ok s
      end
  | _ => Ok s
  end.

(** [while let Ok(event) = self.in_events.try_recv() { ... }] *)
Fixpoint handle_events (events : list LinkEventData) (now : Z) (s : Inner) : result (fault RetError) Inner :=
  match events with
  | [] => Ok s
  | event :: events => s ← handle_link_event_inner event now s; handle_events events now s
  end.

(** What [poll_inbound] does with a resource that timed out. *)
Definition on_timeout (now : Z) (s : Inner) (timeout : ResourceTimeout) : Inner :=
  let s := if rt_failed timeout then fail_request (rt_request_id timeout) now s else s in
  let s := if rt_failed timeout
           then act (proof_action (rt_link_id timeout) (rt_resource_id timeout) RESOURCE_PROOF_STATUS_FAILED) s
           else s in
  if negb (rt_failed timeout)
     && (negb (bool_decide (rt_requested_hashes timeout = [])) || rt_hashmap_exhausted timeout)
  then act (mkAction (rt_link_id timeout) CtxResourceRequest
              (ResourceRequest.encode (ResourceRequest.mk (rt_resource_id timeout)
                 (rt_hashmap_exhausted timeout) (rt_last_map_hash timeout) (rt_requested_hashes timeout)))) s
  else s.

End Events.

(** * The node *)

Module RnsNodeRouter.

Record t `{IC : IdentityCrypto} : Type := mk {
  identity : PrivateIdentity.t;
  transport : TransportHandler;
  request_tracker : RequestTracker.t;
  resource_tracker : ResourceTracker.t;
  resource_outgoing : gmap (arr 16) ResourceSendState.t
}.

Section Operations.
Context `{F : Features} `{IC : IdentityCrypto} `{M : Msgpack} `{R : Rmp} `{HI : HashIter}.

(** The error is the node's own, or a panic of the transport. *)
Definition effect (A : Type) : Type := result (fault RnsError) (A * list Output).

(** [transport.send_to_out_links_with_context(...).await], which has no error. *)
Definition send_out (destination : AddressHash) (ivs : AddressHash -> arr 16) (payload : list byte)
    (context : PacketContext) (now : Z) (h : TransportHandler) : effect TransportHandler :=
  map_err (fault_map rns_of_ret)
    (Transport.send_to_out_links_with_context destination ivs payload context now h).

(** The advertisement and the parts, one after the other; [ivs] by the number of
    the frame. *)
Fixpoint send_frames (destination : AddressHash) (ivs : nat -> AddressHash -> arr 16) (n : nat)
    (frames : list (list byte * PacketContext)) (now : Z) (h : TransportHandler) : effect TransportHandler :=
  match frames with
  | [] => Ok (h, [])
  | (payload, context) :: frames =>
      '(h, outs) ← send_out destination (ivs n) payload context now h;
      '(h, outs') ← send_frames destination ivs (S n) frames now h;
      Ok (h, outs ++ outs')
  end.

Definition frames_of (state : ResourceSendState.t) : list (list byte * PacketContext) :=
  (ResourceAdvertisement.encode (ResourceSendState.advert state), ResourceAdvrtisement)
  :: map (fun part => (ResourcePart.encode part, CtxResource)) (ResourceSendState.parts state).

Definition send_resource_frames (destination : AddressHash) (payload : list byte)
    (request_id : option (arr 16)) (is_response is_request : bool) (ivs : nat -> AddressHash -> arr 16)
    (now : Z) (n : t) : effect t :=
  let part_size := (PACKET_MDU - RESOURCE_PART_HEADER_LEN)%nat in
  if Nat.eqb part_size 0 then Err (Fails (RnsMsgpack "invalid resource payload"))
  else
    state ← map_err (fun _ => Fails (RnsMsgpack "invalid resource payload"))
      (ResourceSendState.new destination payload part_size request_id is_response is_request
         RESOURCE_PROOF_TIMEOUT RESOURCE_DEFAULT_MAX_RETRIES now);
    '(h, outs) ← send_frames destination ivs 0 (frames_of state) now (transport n);
    let state := ResourceSendState.mark_sent now state in
    Ok (n {{ transport := h;
             resource_outgoing := <[ResourceSendState.resource_id state := state]> (resource_outgoing n) }},
        outs).

(** [encryptor] and [draws] are what the delivery draws at random. *)
Definition send_message (destination : Identity.t) (msg : LXMessage.t) (mode : DeliveryMode)
    (encryptor : EncryptHook) (draws : Z -> arr 32) (ivs : nat -> AddressHash -> arr 16) (now : Z) (n : t) :
    LXMessage.t * effect t :=
  let outbound := RnsOutbound.with_encryptor (identity n) destination encryptor in
  match RnsOutbound.deliver outbound draws mode msg with
  | (msg, Err e) => (msg, Err e)
  | (msg, Ok (OutPacket packet)) =>
      let '(h, outs) := Transport.send_packet now packet (transport n) in
      (msg, Ok (n {{ transport := h }}, outs))
  | (msg, Ok (OutResource destination _ data)) =>
      (msg, send_resource_frames destination data None false false ivs now n)
  | (msg, Ok (OutPaperUri _)) => (msg, Ok (n, []))
  end.

Definition send_resource_payload (destination : AddressHash) (payload : list byte)
    (ivs : nat -> AddressHash -> arr 16) (now : Z) (n : t) : effect t :=
  send_resource_frames destination payload None false false ivs now n.

Definition ensure_request_id (req : RnsRequest) (payload : list byte) : RnsRequest :=
  if forallb (fun b => bool_decide (b = x00)) (arr_list (req_request_id req))
  then req {{ req_request_id := request_id_from_payload payload }} else req.

Definition send_request_to_hash (destination_hash : arr 16) (req : RnsRequest)
    (ivs : nat -> AddressHash -> arr 16) (now : Z) (n : t) : RnsRequest * effect t :=
  match encode_request_bytes req with
  | Err e => (req, Err (Fails e))
  | Ok payload =>
      if Nat.leb (length payload) PACKET_MDU then
        match build_request_packet_for_hash destination_hash req with
        | Ok (req, packet) => let '(h, outs) := Transport.send_packet now packet (transport n) in
                              (req, Ok (n {{ transport := h }}, outs))
        | Err e => (req, Err (Fails e))
        end
      else
        let req := ensure_request_id req payload in
        (req, send_resource_frames destination_hash payload (Some (req_request_id req)) false true ivs now n)
  end.

Definition send_response_to_hash (destination_hash : arr 16) (resp : RnsResponse)
    (ivs : nat -> AddressHash -> arr 16) (now : Z) (n : t) : effect t :=
  match encode_response_bytes resp with
  | Err e => Err (Fails e)
  | Ok payload =>
      if Nat.leb (length payload) PACKET_MDU then
        match build_response_packet_for_hash destination_hash resp with
        | Ok packet => let '(h, outs) := Transport.send_packet now packet (transport n) in
                       Ok (n {{ transport := h }}, outs)
        | Err e => Err (Fails e)
        end
      else send_resource_frames destination_hash payload (Some (resp_request_id resp)) true false ivs now n
  end.

(** A request with a receipt: it is registered before it is sent, and marked as
    delivered once it has been. *)
Definition send_request_with_receipt_to_hash (destination_hash : arr 16) (req : RnsRequest) (timeout : Z)
    (ivs : nat -> AddressHash -> arr 16) (now : Z) (n : t) :
    RnsRequest * t * result (fault RnsError) (nat * list Output) :=
  let register (req : RnsRequest) := RequestTracker.register_request (req_request_id req) timeout no_callbacks now
                    (request_tracker n) in
  let delivered (req : RnsRequest) (n : t) :=
    n {{ request_tracker := RequestTracker.mark_delivered (req_request_id req) (request_tracker n) }} in
  match encode_request_bytes req with
  | Err e => (req, n, Err (Fails e))
  | Ok payload =>
      if Nat.leb (length payload) PACKET_MDU then
        match build_request_packet_for_hash destination_hash req with
        | Err e => (req, n, Err (Fails e))
        | Ok (req, packet) =>
            let '(tracker, handle) := register req in
            let '(h, outs) := Transport.send_packet now packet (transport n) in
            (req, delivered req (n {{ transport := h; request_tracker := tracker }}), Ok (handle, outs))
        end
      else
        let req := ensure_request_id req payload in
        let '(tracker, handle) := register req in
        let n := n {{ request_tracker := tracker }} in
        match send_resource_frames destination_hash payload (Some (req_request_id req)) false true ivs now n with
        | Ok (n, outs) => (req, delivered req n, Ok (handle, outs))
        | Err e => (req, n, Err e)
        end
  end.

(** One outgoing resource of [retry_outgoing_resources]: what happens to it, and
    whether it is removed. *)
Definition retry_one (ivs : nat -> AddressHash -> arr 16) (now : Z) (state : ResourceSendState.t)
    (requests : RequestTracker.t) (h : TransportHandler) :
    effect (ResourceSendState.t * bool * RequestTracker.t * TransportHandler) :=
  let mark f := if ResourceSendState.is_request state then
                  match ResourceSendState.request_id state with Some id => f id requests | None => requests end
                else requests in
  match ResourceSendState.status state with
  | ReceiptCompleted => Ok (state, true, mark RequestTracker.mark_delivered, h, [])
  | ReceiptFailed => Ok (state, true, mark (fun id => RequestTracker.mark_failed id now), h, [])
  | ReceiptSent =>
      match ResourceSendState.poll_retry now state with
      | (state, Some _) =>
          '(h, outs) ← send_frames (ResourceSendState.destination state) ivs 0 (frames_of state) now h;
          Ok (ResourceSendState.mark_sent now state, false, requests, h, outs)
      | (state, None) => Ok (state, false, requests, h, [])
      end
  end.

Fixpoint retry_all (ivs : arr 16 -> nat -> AddressHash -> arr 16) (now : Z)
    (states : list (arr 16 * ResourceSendState.t)) (outgoing : gmap (arr 16) ResourceSendState.t)
    (requests : RequestTracker.t) (h : TransportHandler) :
    effect (gmap (arr 16) ResourceSendState.t * RequestTracker.t * TransportHandler) :=
  match states with
  | [] => Ok (outgoing, requests, h, [])
  | (resource_id, state) :: states =>
      match retry_one (ivs resource_id) now state requests h with
      | Err e => Err e
      | Ok (state, remove, requests, h, outs) =>
          let outgoing := if remove then delete resource_id outgoing else <[resource_id := state]> outgoing in
          '(outgoing, requests, h, outs') ← retry_all ivs now states outgoing requests h;
          Ok (outgoing, requests, h, outs ++ outs')
      end
  end.

Definition retry_outgoing_resources (ivs : arr 16 -> nat -> AddressHash -> arr 16) (now : Z) (n : t) : effect t :=
  '(outgoing, requests, h, outs) ← retry_all ivs now (hash_iter (resource_outgoing n)) (resource_outgoing n)
    (request_tracker n) (transport n);
  Ok (n {{ transport := h; request_tracker := requests; resource_outgoing := outgoing }}, outs).

Fixpoint run_actions (ivs : nat -> AddressHash -> arr 16) (i : nat) (acts : list ResourceControlAction)
    (now : Z) (h : TransportHandler) : effect TransportHandler :=
  match acts with
  | [] => Ok (h, [])
  | a :: acts =>
      match Transport.send_to_link_id_with_context (act_link_id a) (ivs i) (act_payload a) (act_context a) now h with
      | Ok (h, outs, _) => '(h, outs') ← run_actions ivs (S i) acts now h; Ok (h, outs ++ outs')
      | Err e => Err (fault_map rns_of_ret e)
      end
  end.

(** [in_events] and [out_events] are what the two channels hold. *)
Definition poll_inbound (in_events out_events : list LinkEventData)
    (ivs : arr 16 -> nat -> AddressHash -> arr 16) (action_ivs : nat -> AddressHash -> arr 16) (now : Z)
    (n : t) : effect (t * list Received) :=
  let start := mkInner [] [] (request_tracker n) (resource_tracker n) (resource_outgoing n) in
  s ← map_err (fault_map rns_of_ret) (handle_events (in_events ++ out_events) now start);
  let s := with_requests (RequestTracker.poll_timeouts now) s in
  let '(tracker, timeouts) := ResourceTracker.poll_timeouts now (resources s) in
  let s := foldl (on_timeout now) (s {{ resources := tracker }}) timeouts in
  '(n, outs) ← retry_outgoing_resources ivs now
    (n {{ request_tracker := requests s; resource_tracker := resources s; resource_outgoing := outgoing s }});
  '(h, outs') ← run_actions action_ivs 0 (actions s) now (transport n);
  Ok (n {{ transport := h }}, out s, outs ++ outs').

(** ** Setting up *)

(** The address of the [counter]-th interface of a manager. *)
Definition interface_address (counter : Z) : AddressHash :=
  AddressHash.new_from_hash (sha256 (reverse (be_bytes 8 counter))).

Definition delivery_destination (identity : PrivateIdentity.t) : SingleInputDestination :=
  SingleInput_new identity RnsOutbound.delivery_name.

(** A broadcasting transport with one interface and the delivery destination. *)
Definition new_udp (identity : PrivateIdentity.t) : t :=
  let h := Transport.new true [mkIface (interface_address 1) false] in
  let '(h, _) := Transport.add_destination identity RnsOutbound.delivery_name h in
  mk _ _ identity h RequestTracker.new (ResourceTracker.new RESOURCE_TIMEOUT) ∅.

Definition announce (rand : arr 32) (now : Z) (n : t) : effect t :=
  '(h, outs) ← map_err (fault_map rns_of_ret)
    (Transport.send_announce rand None (delivery_destination (identity n)) now (transport n));
  Ok (n {{ transport := h }}, outs).

End Operations.
End RnsNodeRouter.

(** * Sending a resource *)

Section Sending.
Context `{F : Features} `{IC : IdentityCrypto} `{M : Msgpack} `{R : Rmp} `{HI : HashIter}.
Context `{CL : !CryptoLaws} `{IL : !IdentityLaws}.

(** A text whose token does not fit a packet cannot be sent over any link. *)
Lemma data_packet_long ctx iv text (l : Link.t) : key_ok l -> (2000 <= length text)%nat -> ctx <> KeepAlive ->
  Link.data_packet_with_context ctx iv text l = Err Panics.
Proof.
  intros Hk Hlen Hctx. pose proof (link_transfer l l ctx iv text 0 eq_refl eq_refl Hk Hctx) as Ht.
  destruct (Nat.leb_spec (token_length (length text)) PACKET_MDU) as [Hle|]; [|done]. exfalso.
  unfold token_length, FERNET_OVERHEAD_SIZE, IV_KEY_SIZE, HMAC_OUT_SIZE, PACKET_MDU in Hle.
  pose proof (Nat.div_le_mono 2000 (length text) 16 ltac:(lia) Hlen) as Hd. change (2000 / 16)%nat with 125%nat in Hd.
  lia.
Qed.

Lemma link_packets_long select ctx ivs text (entries : list (AddressHash * Link.t)) k l :
  (2000 <= length text)%nat -> ctx <> KeepAlive -> (forall k l, (k, l) ∈ entries -> key_ok l) ->
  (k, l) ∈ entries -> select l = true -> Link.status l = Active ->
  Transport.link_packets select ctx ivs text entries = Err Panics.
Proof.
  intros Hlen Hctx. induction entries as [|[k1 l1] entries IH]; intros Hk Hin Hsel Hst.
  { by apply not_elem_of_nil in Hin. }
  cbn [Transport.link_packets]. destruct (select l1 && bool_decide (Link.status l1 = Active)) eqn:Hs.
  - rewrite data_packet_long; [done|apply (Hk k1); by left|done|done].
  - apply IH; [intros k2 l2 H2; apply (Hk k2); by right| |done|done].
    apply elem_of_cons in Hin as [[= -> ->]|Hin]; [|done]. by rewrite Hsel, bool_decide_true in Hs.
Qed.

(** The first part of a payload longer than a packet. *)
Lemma first_part_long destination payload request_id is_response is_request timeout retries now state :
  (PACKET_MDU < length payload)%nat ->
  ResourceSendState.new destination payload (PACKET_MDU - RESOURCE_PART_HEADER_LEN) request_id is_response is_request
    timeout retries now = Ok state ->
  exists part parts, ResourceSendState.parts state = part :: parts /\
    length (ResourcePart.encode part) = PACKET_MDU.
Proof.
  intros Hlen Hnew. set (size := (PACKET_MDU - RESOURCE_PART_HEADER_LEN)%nat) in Hnew.
  assert (Hsize : size = 2027%nat) by done. clearbody size.
  unfold ResourceSendState.new, ResourceSender.split in Hnew.
  rewrite (proj2 (Nat.eqb_neq size 0)) in Hnew by lia. cbn [mbind result_bind] in Hnew.
  injection Hnew as <-. cbn [ResourceSendState.parts].
  assert (Hc : exists fuel rest, chunks size payload = take size payload :: chunks_from fuel size rest).
  { unfold chunks. destruct payload as [|b payload]; [cbn in Hlen; lia|]. cbn [length chunks_from]. by eexists _, _. }
  destruct Hc as (fuel & rest & ->). eexists _, _. split; [done|].
  unfold ResourcePart.encode. cbn [ResourcePart.resource_id ResourcePart.part_index ResourcePart.data length].
  rewrite !length_app, arr_length, length_be_bytes, length_take. unfold PACKET_MDU in *. lia.
Qed.

End Sending.


(** * Receiving a resource *)

Section Receiving.
Context `{F : Features} `{IC : IdentityCrypto} `{M : Msgpack} `{R : Rmp} `{HI : HashIter}.

(** The event of a frame that arrived over a link. *)
Definition frame_event (link address : AddressHash) (peer : option AddressHash) (payload : list byte)
    (context : PacketContext) : LinkEventData :=
  mkEvent link address (EvData (LinkPayload.new_from_slice payload) context) peer.

Definition part_event (link address : AddressHash) (peer : option AddressHash) (part : ResourcePart.t) :
    LinkEventData := frame_event link address peer (ResourcePart.encode part) CtxResource.

(** What a complete message adds. *)
Definition delivered (link : AddressHash) (id : arr 16) (m : LXMessage.t) (tracker : ResourceTracker.t)
    (s : Inner) : Inner :=
  mkInner (out s ++ [RcvMessage m]) (actions s ++ [proof_action link id RESOURCE_PROOF_STATUS_OK])
    (requests s) tracker (outgoing s).

(** The parts still to come: each is a part of [cs], none is in [S], and no two
    have the same index. *)
Definition to_come (id : arr 16) (cs : list (list byte)) (S : gset nat) (rest : list ResourcePart.t) : Prop :=
  Forall (part_at id cs) rest /\ NoDup (map (fun p => Z.to_nat (ResourcePart.part_index p)) rest) /\
  Forall (fun p => Z.to_nat (ResourcePart.part_index p) ∉ S) rest /\
  all_of cs ⊆ list_to_set (map (fun p => Z.to_nat (ResourcePart.part_index p)) rest) ∪ S.

Lemma parts_delivered id cs link address peer now m rest : forall s a S,
  (forall p, p ∈ rest -> (length (ResourcePart.encode p) <= PACKET_MDU)%nat) ->
  Z.of_nat (length cs) <= u32_max -> LXMessage.decode (concat cs) = Ok m ->
  tracker_ok (resources s) -> ResourceTracker.incoming (resources s) !! id = Some a ->
  receiving cs (Z.of_nat (length (concat cs))) None false S a -> to_come id cs S rest -> rest <> [] ->
  exists tracker, handle_events (map (part_event link address peer) rest) now s = Ok (delivered link id m tracker s) /\
    tracker_ok tracker /\ ResourceTracker.incoming tracker !! id = None.
Proof.
  induction rest as [|p rest IH]; intros s a S Hfit Hcs Hdec Hok Ha Hrcv (Hat & Hnd & Hnew & Hall) Hne; [done|].
  apply Forall_cons in Hat as [(i & c & Hc & ->) Hat]. cbn [map handle_events] in *.
  apply Forall_cons in Hnew as [Hi Hnew]. cbn [ResourcePart.part_index] in *. rewrite Nat2Z.id in *.
  apply NoDup_cons in Hnd as [Hir Hnd]. set (part := ResourcePart.mk id (Z.of_nat i) c) in *.
  pose proof (handle_part_receiving now i c cs _ None false S a _ id Hok Ha Hrcv Hc eq_refl) as Hs.
  pose proof (handle_part_ok now part _ Hok) as [Hok1 _]. cbv zeta in Hs. fold part in Hs.
  assert (Hu : is_u32 (Z.of_nat i) = true).
  { apply lookup_lt_Some in Hc. unfold is_u32, u32_max in *. lia. }
  unfold handle_link_event_inner at 1. cbn [part_event frame_event ev_event].
  rewrite payload_slice by (apply Hfit; by left). cbn [mbind result_bind].
  unfold on_part at 1. rewrite part_roundtrip by done. cbv zeta.
  destruct (ResourceTracker.handle_part now part (resources s)) as [tracker result]. cbn [fst snd] in *.
  destruct rest as [|q rest].
  - rewrite decide_True in Hs by set_solver. destruct Hs as [Hgone ->]. exists tracker. split; [|done].
    cbn [map handle_events mbind result_bind]. f_equal. unfold on_completion, delivered, act, push.
    cbn [rc_request_id rc_data rc_resource_id rc_is_response ev_id frame_event]. rewrite Hdec.
    destruct s. cbn. unfold constant. done.
  - rewrite decide_False in Hs; cycle 1.
    { apply Forall_cons in Hat as [(j & d & Hd & Hq) _]. apply Forall_cons in Hnew as [Hj _]. subst q.
      cbn [map ResourcePart.part_index] in *. rewrite Nat2Z.id in *. intros Hsub.
      assert (Hj' : j ∈ all_of cs) by (apply elem_of_set_seq; apply lookup_lt_Some in Hd; lia).
      apply Hsub in Hj'. apply Hir. set_solver. }
    destruct Hs as (a' & progress & -> & Ha' & Hrcv'). cbn [rp_is_response].
    set (s1 := s {{ resources := tracker }}).
    destruct (IH s1 a' ({[i]} ∪ S)) as (tracker2 & E & H2).
    + intros p Hp. apply Hfit. by right.
    + done.
    + done.
    + by destruct s.
    + by destruct s.
    + done.
    + split; [done|]. split; [done|]. split; [|set_solver].
      apply Forall_forall. intros p Hp. rewrite Forall_forall in Hnew. specialize (Hnew p Hp).
      assert (Hpi : Z.to_nat (ResourcePart.part_index p) <> i).
      { intros He. apply Hir. rewrite <- He. apply list_elem_of_fmap. by exists p. }
      set_solver.
    + done.
    + exists tracker2. cbn [mbind result_bind]. rewrite E. split; [|done]. by destruct s.
Qed.


Lemma to_come_all data part_size order :
  let id := ResourceSender.resource_id_of data in
  let cs := chunks part_size data in
  order ≡ₚ imap (fun i c => ResourcePart.mk id (Z.of_nat i) c) cs -> to_come id cs ∅ order.
Proof.
  intros id cs Hperm. unfold to_come.
  assert (Hidx : map (fun p => Z.to_nat (ResourcePart.part_index p)) order ≡ₚ seq 0 (length cs)).
  { rewrite Hperm. clear Hperm.
    assert (Hg : forall start, map (fun p => Z.to_nat (ResourcePart.part_index p))
      (imap (fun i c => ResourcePart.mk id (Z.of_nat (start + i)) c) cs) = seq start (length cs)).
    { induction cs as [|c cs IH]; intros start; [done|]. cbn. rewrite Nat.add_0_r, Nat2Z.id. f_equal.
      rewrite <- IH. f_equal. apply imap_ext. intros i d _. cbn. do 2 f_equal. lia. }
    rewrite <- (Hg 0%nat). reflexivity. }
  split; [|split; [|split]].
  - rewrite Hperm. apply Forall_forall. intros p Hp. apply elem_of_lookup_imap in Hp as (i & c & -> & Hc).
    by exists i, c.
  - rewrite Hidx. apply NoDup_seq.
  - apply Forall_forall. intros p _. apply not_elem_of_empty.
  - intros i Hi. apply elem_of_set_seq in Hi. apply elem_of_union_l, elem_of_list_to_set.
    rewrite Hidx. apply elem_of_seq. lia.
Qed.

(** The events that begin and end a transfer. *)
Lemma advertisement_event link address peer advert tracker now s : advert_ok advert = true ->
  ResourceAdvertisement.request_id advert = None ->
  ResourceTracker.handle_advertisement advert link now (resources s) = (tracker, Ok Accepted) ->
  handle_link_event_inner (frame_event link address peer (ResourceAdvertisement.encode advert)
    ResourceAdvrtisement) now s = Ok (s {{ resources := tracker }}).
Proof.
  intros Hok Hreq Hadv. unfold handle_link_event_inner, frame_event. cbn [ev_event].
  rewrite payload_slice; cycle 1.
  { unfold ResourceAdvertisement.encode. rewrite Hreq. cbn [length].
    rewrite !length_app, arr_length, !length_be_bytes, length_replicate. unfold PACKET_MDU, RESOURCE_ID_LEN. lia. }
  cbn [mbind result_bind]. unfold on_advertisement. rewrite advert_roundtrip by done. cbn [ev_id].
  by rewrite Hadv, Hreq.
Qed.

Lemma proof_event link address peer id state later s : outgoing s !! id = Some state ->
  ResourceSendState.resource_id state = id -> ResourceSendState.is_request state = false ->
  exists s', handle_events [frame_event link address peer
      (act_payload (proof_action link id RESOURCE_PROOF_STATUS_OK)) CtxResourceProof] later s = Ok s' /\
    ResourceSendState.status <$> outgoing s' !! id = Some ReceiptCompleted.
Proof.
  intros Hs Hid Hreq. cbn [handle_events]. unfold handle_link_event_inner, frame_event. cbn [ev_event].
  rewrite payload_slice by (cbn; rewrite length_app, arr_length; cbn; unfold PACKET_MDU; lia).
  cbn [mbind result_bind act_payload proof_action]. unfold on_proof. rewrite proof_roundtrip.
  cbn [ResourceProof.resource_id]. rewrite Hs. unfold ResourceSendState.handle_proof.
  rewrite bool_decide_true by done. cbn [negb andb]. rewrite Hreq. eexists. split; [done|].
  destruct s. cbn -[lookup insert]. unfold constant. rewrite lookup_insert_eq. by destruct state.
Qed.

End Receiving.

(** C11. A message sent as a resource is received once.  When the advertisement
    and then the parts of an encoded message, in whatever order, arrive as events of
    a link, a node whose tracker has not completed that resource receives
    exactly the message, answers with one proof, and leaves its requests and
    outgoing resources alone; and the sender that gets the proof has its
    resource completed. *)
Theorem node_receives_message `{Features} `{IdentityCrypto} `{Msgpack} `{Rmp} `{HashIter}
  (timeout : Z) (s sender : Inner) (data : list byte) (m : LXMessage.t) (part_size : nat)
  (target : AddressHash) (proof_timeout retries sent_at now later : Z) (state : ResourceSendState.t)
  (link address : AddressHash) (peer : option AddressHash) (order : list ResourcePart.t)
  (Hrun : rtc tracker_step (ResourceTracker.new timeout) (resources s))
  (Hstate : ResourceSendState.new target data part_size None false false proof_timeout retries sent_at = Ok state)
  (Hdec : LXMessage.decode data = Ok m) (Hdata : 1 <= Z.of_nat (length data) <= u32_max)
  (Hsize : (part_size + RESOURCE_PART_HEADER_LEN <= PACKET_MDU)%nat)
  (Hnew : CacheSet.contains (ResourceSender.resource_id_of data) (ResourceTracker.completed (resources s)) = false)
  (Horder : order ≡ₚ ResourceSendState.parts state)
  (Hsender : outgoing sender !! ResourceSendState.resource_id state = Some state) :
  let id := ResourceSendState.resource_id state in
  let advert := frame_event link address peer (ResourceAdvertisement.encode (ResourceSendState.advert state))
                  ResourceAdvrtisement in
  exists s' sender', handle_events (advert :: map (part_event link address peer) order) now s = Ok s' /\
    out s' = out s ++ [RcvMessage m] /\
    actions s' = actions s ++ [proof_action link id RESOURCE_PROOF_STATUS_OK] /\
    requests s' = requests s /\ outgoing s' = outgoing s /\
    handle_events [frame_event link address peer
      (act_payload (proof_action link id RESOURCE_PROOF_STATUS_OK)) CtxResourceProof] later sender = Ok sender' /\
    ResourceSendState.status <$> outgoing sender' !! id = Some ReceiptCompleted.
Proof.
  pose proof (tracker_run_ok _ _ Hrun) as Hok. unfold ResourceSendState.new in Hstate.
  destruct (ResourceSender.split _ _ _ _ _) as [[advert parts]|] eqn:Hsplit; [|done]. cbn in Hstate.
  injection Hstate as <-. cbn [ResourceSendState.parts ResourceSendState.resource_id ResourceSendState.advert] in *.
  assert (Hne : data <> []) by (destruct data; [cbn in Hdata; lia|done]).
  assert (Hps : Z.of_nat part_size <= u32_max) by (unfold PACKET_MDU, u32_max in *; lia).
  destruct (split_spec _ _ _ _ _ _ _ Hsplit Hne (proj2 Hdata) Hps) as (-> & -> & Hcat & Hshort & Hpos & Hmax).
  set (cs := chunks part_size data) in *. set (id := ResourceSender.resource_id_of data) in *.
  cbn [ResourceAdvertisement.resource_id] in *. set (advert := ResourceAdvertisement.mk _ _ _ _ _ _ _) in *.
  assert (Hadv : advert_ok advert = true) by (unfold advert_ok, is_u32; cbn; unfold u32_max in *; lia).
  set (fresh := fresh_assembly advert link now).
  set (r1 := ResourceTracker.mk (<[id := fresh]> (ResourceTracker.incoming (resources s)))
    (ResourceTracker.timeout (resources s)) (ResourceTracker.completed (resources s))).
  assert (Hfirst : ResourceTracker.handle_advertisement advert link now (resources s) = (r1, Ok Accepted)).
  { unfold ResourceTracker.handle_advertisement. change (ResourceAdvertisement.resource_id advert) with id.
    cbv zeta. rewrite Hnew, (proj2 (Z.eqb_neq _ _)) by (cbn; lia). by destruct (resources s). }
  pose proof (tracker_step_ok _ _ Hok (step_advert _ advert link now Hadv)) as Hok1. rewrite Hfirst in Hok1.
  assert (Hrcv : receiving cs (Z.of_nat (length (concat cs))) None false ∅ fresh).
  { rewrite Hcat. constructor; try done; cbn.
    - by rewrite masked_empty, Nat2Z.id.
    - eapply Forall_impl; [exact Hshort|]. cbn. lia. }
  assert (Hfit : forall p, p ∈ order -> (length (ResourcePart.encode p) <= PACKET_MDU)%nat).
  { intros p Hp. rewrite Horder in Hp. apply elem_of_lookup_imap in Hp as (i & c & -> & Hc).
    unfold ResourcePart.encode. cbn [ResourcePart.resource_id ResourcePart.part_index ResourcePart.data length].
    rewrite !length_app, arr_length, length_be_bytes. pose proof (Forall_lookup_1 _ _ _ _ Hshort Hc) as Hl.
    cbn in Hl. unfold RESOURCE_PART_HEADER_LEN, RESOURCE_ID_LEN in Hsize. lia. }
  assert (Hord : order <> []).
  { intros ->. apply Permutation_nil_l in Horder. destruct cs; [cbn in Hpos; lia|done]. }
  destruct (parts_delivered id cs link address peer now m order (s {{ resources := r1 }}) fresh ∅)
    as (tracker & Hparts & _); try done.
  { by rewrite Hcat. } { destruct s. apply lookup_insert_eq. } { by apply to_come_all. }
  destruct (proof_event link address peer id _ later sender Hsender eq_refl eq_refl) as (sender' & Hback & Hdone).
  exists (delivered link id m tracker (s {{ resources := r1 }})), sender'. split; [|by destruct s].
  cbn [handle_events]. rewrite (advertisement_event link address peer advert r1) by done. exact Hparts.
Qed.

(** * A lost part *)

Section LostParts.
Context `{C : Crypto}.

Lemma start_index_spec (parts : list ResourcePart.t) k p : forall idx, parts !! k = Some p ->
  (forall i q, (i < k)%nat -> parts !! i = Some q ->
     compute_map_hash (ResourcePart.data q) <> compute_map_hash (ResourcePart.data p)) ->
  start_index (compute_map_hash (ResourcePart.data p)) idx parts = (idx + k + 1)%nat.
Proof.
  revert k. induction parts as [|q parts IH]; intros [|k] idx Hk Hdiff; cbn in *; try done.
  - injection Hk as ->. rewrite bool_decide_true by done. lia.
  - rewrite bool_decide_false; [|apply (Hdiff 0%nat); [lia|done]].
    rewrite (IH k); [lia|done|]. intros i r Hi. apply (Hdiff (S i)). lia.
Qed.

Lemma set_hashes_lookup (hs : list (arr 4)) : forall (start j : nat) (table : list (option (arr 4))),
  ResourceTracker.set_hashes (Z.of_nat start) hs table !! j =
    if decide (start <= j < length table)%nat then
      match hs !! (j - start)%nat with Some h => Some (Some h) | None => table !! j end
    else table !! j.
Proof.
  induction hs as [|h hs IH]; intros start j table; cbn [ResourceTracker.set_hashes].
  { rewrite lookup_nil. by case_decide. }
  destruct (Z.leb_spec (Z.of_nat (length table)) (Z.of_nat start)) as [Hle|Hlt].
  { by rewrite decide_False by lia. }
  rewrite Nat2Z.id. replace (Z.of_nat start + 1) with (Z.of_nat (S start)) by lia. rewrite IH, length_insert.
  destruct (decide (j = start)) as [->|Hj].
  - rewrite decide_False, decide_True, Nat.sub_diag by lia. cbn. apply list_lookup_insert_eq. lia.
  - rewrite list_lookup_insert_ne by done. destruct (decide (S start <= j < length table)%nat).
    + rewrite decide_True by lia. by replace (j - start)%nat with (S (j - S start)) by lia.
    + by rewrite decide_False by lia.
Qed.

Lemma update_hashes_concat (hs : list (arr 4)) : ResourceTracker.update_hashes (concat (map arr_list hs)) = hs.
Proof. unfold ResourceTracker.update_hashes. by rewrite read_hashes_concat. Qed.

Lemma length_concat_hashes (hs : list (arr 4)) : length (concat (map arr_list hs)) = (4 * length hs)%nat.
Proof. induction hs as [|h hs IH]; [done|]. cbn [map concat length]. rewrite length_app, arr_length, IH. lia. Qed.

End LostParts.

(** Lost parts are not asked for.  When a receiver that knows the hashes up
    to part [k] asks for more, the sender answers with the hashes after [k], but
    numbered as the first ones: the receiver files the hash of part [j + k + 1]
    as that of part [j], for every [j].  So a missing part among the first ones
    is not requested by its own hash, and only a retransmission of the whole
    resource brings it. *)
Theorem hash_update_misplaced `{Crypto} (r : ResourceTracker.t) (a : ResourceAssembly)
  (request : ResourceRequest.t) (parts : list ResourcePart.t) (k : nat) (p : ResourcePart.t) (now : Z)
  (Ha : ResourceTracker.incoming r !! ResourceRequest.resource_id request = Some a)
  (Hn : length (as_hashmap a) = length parts) (Hk : parts !! k = Some p)
  (Hdiff : forall i q, (i < k)%nat -> parts !! i = Some q ->
     compute_map_hash (ResourcePart.data q) <> compute_map_hash (ResourcePart.data p)) :
  let update := hash_update_for request (compute_map_hash (ResourcePart.data p)) parts in
  let '(r', known) := ResourceTracker.handle_hash_update update now r in
  known = true /\ exists a', ResourceTracker.incoming r' !! ResourceRequest.resource_id request = Some a' /\
    Resource.received a' = Resource.received a /\
    forall j, as_hashmap a' !! j =
      match parts !! (j + k + 1)%nat with
      | Some q => Some (Some (compute_map_hash (ResourcePart.data q)))
      | None => as_hashmap a !! j
      end.
Proof.
  cbv zeta. set (hash := fun q => compute_map_hash (ResourcePart.data q)).
  set (hs := map hash (drop (k + 1) parts)).
  assert (Hu : hash_update_for request (compute_map_hash (ResourcePart.data p)) parts =
    ResourceHashUpdate.mk (ResourceRequest.resource_id request) 0 (concat (map arr_list hs))).
  { unfold hash_update_for. rewrite (start_index_spec parts k p 0 Hk Hdiff). subst hs. by rewrite map_map. }
  rewrite Hu. unfold ResourceTracker.handle_hash_update. cbn [ResourceHashUpdate.resource_id
    ResourceHashUpdate.hashmap ResourceHashUpdate.segment]. rewrite Ha, length_concat_hashes, update_hashes_concat.
  unfold RESOURCE_MAPHASH_LEN. rewrite (Nat.mul_comm 4), Nat.Div0.mod_mul. cbn [Nat.eqb negb].
  split; [done|]. eexists. split; [destruct r; apply lookup_insert_eq|]. split; [by destruct a|].
  intros j. rewrite Z.mul_0_l. pose proof (set_hashes_lookup hs 0 j (as_hashmap a)) as Hset. change (Z.of_nat 0) with 0 in Hset.
  transitivity (ResourceTracker.set_hashes 0 hs (as_hashmap a) !! j); [by destruct a|]. rewrite Hset. subst hs.
  rewrite Nat.sub_0_r, list_lookup_fmap, lookup_drop. replace (j + k + 1)%nat with (k + 1 + j)%nat by lia.
  destruct (parts !! (k + 1 + j)%nat) as [q|] eqn:Hq; cbn [fmap option_fmap option_map]; [|by case_decide].
  rewrite decide_True; [done|]. apply lookup_lt_Some in Hq. lia.
Qed.

(** One small codec with the laws: fixed-width headers. *)
Definition read_be (n : nat) (l : list byte) : option (Z * list byte) :=
  if Nat.ltb (length l) n then None else Some (be_val (take n l), drop n l).

Definition toy_rmp : Rmp := {|
  write_array_len := be_bytes 4;
  write_uint := be_bytes 8;
  write_bin := fun data => be_bytes 4 (Z.of_nat (length data)) ++ data;
  read_array_len := read_be 4;
  read_int := read_be 8;
  read_bin_len := read_be 4
|}.

Lemma read_be_bytes n z rest : 0 <= z < 256 ^ Z.of_nat n -> read_be n (be_bytes n z ++ rest) = Some (z, rest).
Proof.
  intros Hz. unfold read_be. rewrite length_app, length_be_bytes, (proj2 (Nat.ltb_ge _ _)) by lia.
  rewrite take_length_app, drop_length_app by apply length_be_bytes. by rewrite be_val_bytes, Z.mod_small.
Qed.

Lemma toy_rmp_laws : @RmpLaws toy_rmp.
Proof.
  constructor; intros; unfold is_u32, is_u64, u32_max, u64_max in *; cbn -[be_bytes read_be Z.of_nat Z.pow].
  - apply read_be_bytes. change (256 ^ Z.of_nat 4) with (2 ^ 32). lia.
  - apply read_be_bytes. change (256 ^ Z.of_nat 8) with (2 ^ 64). lia.
  - rewrite <- app_assoc. apply read_be_bytes. change (256 ^ Z.of_nat 4) with (2 ^ 32). lia.
Qed.

#[local] Existing Instance toy_features.
#[local] Existing Instance toy_crypto.
#[local] Existing Instance toy_identity.
#[local] Existing Instance bit_codec.
#[local] Existing Instance toy_rmp.
#[local] Existing Instance key_order.
#[local] Existing Instance toy_crypto_laws.
#[local] Existing Instance toy_identity_laws.

(** A client whose link to a node became active. *)
Definition client_identity : PrivateIdentity.t := PrivateIdentity.new (arr_zero 32) (toy_secret x01).
Definition node_desc : DestinationDesc := in_desc (SingleInput_new sample_server (arr_zero 32)).
Definition asked : TransportHandler := (Transport.link client_identity node_desc 1 sample_client).1.1.
Definition asked_packet : Packet := (Link.request 1 (Link.new client_identity node_desc 1)).2.
Definition proof_packet : Packet :=
  match Link.new_from_request asked_packet (PrivateIdentity.sign_key sample_server) (arr_of 32 (replicate 32 x05))
          node_desc 2 with
  | Ok l => (Link.prove l).1.2
  | Err _ => asked_packet
  end.
Definition linked : TransportHandler :=
  match Transport.receive sample_rtt (arr_zero 32) (fun _ => arr_zero 16) 3 (mkRx (arr_zero 16) proof_packet) asked with
  | Ok (h, _) => h
  | Err _ => asked
  end.

Definition linked_node : RnsNodeRouter.t :=
  RnsNodeRouter.mk _ _ client_identity linked RequestTracker.new (ResourceTracker.new 60) ∅.

Lemma linked_reachable : rtc (transport_step sample_rtt) (Transport.new false [mkIface (arr_zero 16) false]) linked.
Proof.
  eapply rtc_l; [apply (tr_link _ _ client_identity node_desc 1)|]. apply rtc_once. fold sample_client. fold asked.
  unfold linked. destruct (Transport.receive _ _ _ _ _ asked) as [[h outs]|e] eqn:E.
  - apply (tr_receive _ _ (arr_zero 32) (fun _ => arr_zero 16) 3 (mkRx (arr_zero 16) proof_packet) h outs); [|exact E].
    split; [vm_compute; reflexivity|]. apply Nat.leb_le. vm_compute. reflexivity.
  - assert (Hok : match Transport.receive sample_rtt (arr_zero 32) (fun _ => arr_zero 16) 3
      (mkRx (arr_zero 16) proof_packet) asked with Ok _ => true | Err _ => false end = true)
      by (vm_compute; reflexivity).
    by rewrite E in Hok.
Qed.


Definition message_bytes : list byte :=
  Eval vm_compute in match (LXMessage.encode_signed (fun _ => arr_zero 32) x07 sample_message).2 with
                     | Ok bytes => bytes
                     | Err _ => []
                     end.
Definition message_read : LXMessage.t :=
  match LXMessage.decode message_bytes with Ok m => m | Err _ => sample_message end.
Definition message_state : result RetError ResourceSendState.t :=
  ResourceSendState.new (arr_zero 16) message_bytes 64 None false false 30 3 0.

Definition empty_inner : Inner := mkInner [] [] RequestTracker.new (ResourceTracker.new 60) ∅.

Lemma node_receives_message_witness :
  exists state s' sender', message_state = Ok state /\
    handle_events (frame_event (arr_zero 16) (arr_zero 16) None
                     (ResourceAdvertisement.encode (ResourceSendState.advert state)) ResourceAdvrtisement
                   :: map (part_event (arr_zero 16) (arr_zero 16) None) (rev (ResourceSendState.parts state)))
      5 empty_inner = Ok s' /\
    out s' = [RcvMessage message_read] /\
    ResourceSendState.status <$> outgoing sender' !! ResourceSendState.resource_id state = Some ReceiptCompleted.
Proof.
  destruct message_state as [state|e] eqn:Hs; [|exfalso; vm_compute in Hs; discriminate].
  destruct (node_receives_message 60 empty_inner
    (empty_inner {{ outgoing := {[ResourceSendState.resource_id state := state]} }}) message_bytes message_read 64
    (arr_zero 16) 30 3 0 5 6 state (arr_zero 16) (arr_zero 16) None (rev (ResourceSendState.parts state)))
    as (s' & sender' & H1 & H2 & _ & _ & _ & _ & H3).
  - apply rtc_refl.
  - exact Hs.
  - vm_compute. reflexivity.
  - vm_compute. split; discriminate.
  - apply Nat.leb_le. vm_compute. reflexivity.
  - vm_compute. reflexivity.
  - symmetry. apply Permutation_rev.
  - apply lookup_insert_eq.
  - exists state, s', sender'. split; [reflexivity|]. split; [exact H1|]. split; [exact H2|exact H3].
Defined.

Lemma hash_update_misplaced_witness :
  let r := (ResourceTracker.handle_advertisement sample_advert (arr_zero 16) 0 (ResourceTracker.new 10)).1 in
  let update := hash_update_for (ResourceRequest.mk sample_id true (Some (compute_map_hash [x01; x02])) [])
                  (compute_map_hash [x01; x02]) sample_parts in
  exists a, ResourceTracker.incoming (ResourceTracker.handle_hash_update update 5 r).1 !! sample_id = Some a /\
    as_hashmap a !! 0%nat = Some (Some (compute_map_hash [x03; x04])).
Proof.
  intros r update. set (request := ResourceRequest.mk sample_id true (Some (compute_map_hash [x01; x02])) []) in *.
  destruct (ResourceTracker.incoming r !! sample_id) as [a|] eqn:Ha; [|exfalso; vm_compute in Ha; discriminate].
  pose proof (hash_update_misplaced r a request sample_parts 0 (sample_part 0 [x01; x02]) 5 Ha
    ltac:(vm_compute in Ha; injection Ha as <-; reflexivity) eq_refl ltac:(intros i q Hi; lia)) as Hm.
  cbv zeta in Hm. change (hash_update_for request _ sample_parts) with update in Hm.
  destruct (ResourceTracker.handle_hash_update update 5 r) as [r' known].
  destruct Hm as (_ & a' & Ha' & _ & Hj). exists a'. split; [exact Ha'|exact (Hj 0%nat)].
Defined.
