(* ===== verification/Requests.v ===== *)
(** Two tables of [lxmf-rs/src/rns/router.rs]: [DeliveredCache], the window of
    message identifiers that suppresses duplicates, and [RnsRequestManager], the
    requests waiting for a response. *)

From Stdlib Require Import ZArith Lia.
From Stdlib Require Import Strings.Byte.
From stdpp Require Import base gmap strings numbers list.
From coqutil Require Import Datatypes.RecordSetters.
From S2P Require Import Prelude Float Msgpack Crypto Buffer Packet Stamp Message Rns Delivery.
Import DoubleBraceUpdate.

Local Open Scope Z_scope.

Definition DELIVERED_CACHE_MAX : nat := 2048.

(** * Delivered messages *)

Module DeliveredCache.

Record t : Type := mk {
  max_entries : nat;
  order : list (arr 32);
  seen : gset (arr 32)
}.

Definition new (max_entries : nat) : t := mk max_entries [] ∅.

Definition seen_before (id : arr 32) (c : t) : bool := bool_decide (id ∈ seen c).

(** [while self.order.len() > self.max_entries { ... }] *)
Fixpoint evict (max_entries : nat) (order : list (arr 32)) (seen : gset (arr 32)) :
    list (arr 32) * gset (arr 32) :=
  match order with
  | [] => ([], seen)
  | oldest :: rest =>
      if Nat.ltb max_entries (length order) then evict max_entries rest (seen ∖ {[oldest]})
      else (order, seen)
  end.

Definition mark_delivered (id : arr 32) (c : t) : t * bool :=
  if bool_decide (id ∈ seen c) then (c, false)
  else
    let '(order', seen') := evict (max_entries c) (order c ++ [id]) ({[id]} ∪ seen c) in
    (mk (max_entries c) order' seen', true).

Definition len (c : t) : nat := size (seen c).

(** The identifiers of a sequence of marks that were new. *)
Fixpoint mark_all (ids : list (arr 32)) (c : t) : t * list (arr 32) :=
  match ids with
  | [] => (c, [])
  | id :: ids =>
      let '(c1, fresh) := mark_delivered id c in
      let '(c2, news) := mark_all ids c1 in
      (c2, if fresh then id :: news else news)
  end.

End DeliveredCache.

(** * Pending requests *)

Record PendingRequest : Type := mkPending {
  pr_request_id : arr 16;
  pr_path_hash : arr 16;
  pr_sent_at_ms : Z;
  pr_timeout_ms : Z
}.

Module RnsRequestManager.

Record t : Type := mk {
  pending : gmap (arr 16) PendingRequest;
  responses : gmap (arr 16) RnsResponse
}.

Definition new : t := mk ∅ ∅.

Section Operations.
Context `{C : Crypto} `{M : Msgpack} `{HI : HashIter}.

(** [expect] on the encoder's result panics. *)
Definition register_request (destination_hash : arr 16) (path : option string) (data : Value)
    (now_ms timeout_ms : Z) (m : t) : t * result (fault RnsError) RnsRequest :=
  let path_hash := default (arr_zero 16) (request_path_hash <$> path) in
  let requested_at := f64_div (f64_of_Z now_ms) (f64_of_Z 1000) in
  let req := mkRequest (arr_zero 16) requested_at path_hash data in
  match encode_request_bytes req with
  | Err _ => (m, Err Panics)
  | Ok payload =>
      let req := mkRequest (request_id_for_destination destination_hash payload)
                   requested_at path_hash data in
      (mk (<[req_request_id req := mkPending (req_request_id req) path_hash now_ms timeout_ms]> (pending m))
         (responses m), Ok req)
  end.

Definition record_response (response : RnsResponse) (m : t) : t * bool :=
  let id := resp_request_id response in
  match pending m !! id with
  | Some _ => (mk (delete id (pending m)) (<[id := response]> (responses m)), true)
  | None => (m, false)
  end.

Definition take_response (request_id : arr 16) (m : t) : t * option RnsResponse :=
  (mk (pending m) (delete request_id (responses m)), responses m !! request_id).

Definition is_pending (request_id : arr 16) (m : t) : bool :=
  bool_decide (is_Some (pending m !! request_id)).

Definition timed_out (now_ms : Z) (p : PendingRequest) : bool :=
  pr_timeout_ms p <=? sat_sub now_ms (pr_sent_at_ms p).

Definition poll_timeouts (now_ms : Z) (m : t) : t * list (arr 16) :=
  let timed_out := (filter (fun kv => timed_out now_ms kv.2 = true) (hash_iter (pending m))).*1 in
  (mk (foldl (fun p id => delete id p) (pending m) timed_out) (responses m), timed_out).

End Operations.
End RnsRequestManager.

(** * The window of delivered messages *)

(** The set is the list, the list has no duplicates and at most [max_entries]
    elements. *)
Definition cache_ok (c : DeliveredCache.t) : Prop :=
  DeliveredCache.seen c = list_to_set (DeliveredCache.order c) /\
  NoDup (DeliveredCache.order c) /\
  (length (DeliveredCache.order c) <= DeliveredCache.max_entries c)%nat.

(** The last [n] elements. *)
Definition last_n {A} (n : nat) (l : list A) : list A := drop (length l - n) l.

Lemma cache_new_ok n : cache_ok (DeliveredCache.new n).
Proof. split; [done|]. split; [constructor|simpl; lia]. Qed.

Lemma evict_last_n n order : forall seen, NoDup order -> seen = list_to_set order ->
  DeliveredCache.evict n order seen = (last_n n order, list_to_set (last_n n order)).
Proof.
  induction order as [|id rest IH]; intros seen Hnd ->; [done|].
  apply NoDup_cons in Hnd as [Hid Hnd]. cbn [DeliveredCache.evict].
  destruct (Nat.ltb_spec n (length (id :: rest))) as [Hlt|Hge]; simpl length in *.
  - rewrite IH; [|done|].
    + unfold last_n. simpl length.
      replace (S (length rest) - n)%nat with (S (length rest - n)) by lia. done.
    + apply set_eq. intros x. rewrite list_to_set_cons. set_solver.
  - unfold last_n. simpl length. by replace (S (length rest) - n)%nat with 0%nat by lia.
Qed.

Lemma mark_delivered_cases id c : cache_ok c ->
  DeliveredCache.mark_delivered id c =
    if bool_decide (id ∈ DeliveredCache.order c) then (c, false)
    else let l := last_n (DeliveredCache.max_entries c) (DeliveredCache.order c ++ [id]) in
         (DeliveredCache.mk (DeliveredCache.max_entries c) l (list_to_set l), true).
Proof.
  intros (Hs & Hnd & _). unfold DeliveredCache.mark_delivered. rewrite Hs.
  rewrite (bool_decide_ext (id ∈ (list_to_set (DeliveredCache.order c) : gset (arr 32)))
    (id ∈ DeliveredCache.order c)) by apply elem_of_list_to_set.
  case_bool_decide as Hin; [done|].
  rewrite evict_last_n; [done| |].
  - apply NoDup_app. split; [done|]. split; [|apply NoDup_singleton]. set_solver.
  - apply set_eq. intros x. rewrite list_to_set_app. set_solver.
Qed.

Lemma length_last_n {A} n (l : list A) : (length (last_n n l) <= n)%nat.
Proof. unfold last_n. rewrite length_drop. lia. Qed.

Lemma last_n_app {A} n (l m : list A) : last_n n (last_n n l ++ m) = last_n n (l ++ m).
Proof.
  unfold last_n. rewrite !length_app, length_drop.
  destruct (decide (length l <= n)%nat) as [Hl|Hl].
  - replace (length l - n)%nat with 0%nat by lia. rewrite drop_0. by rewrite Nat.sub_0_r.
  - rewrite <- (drop_app_le l m) by lia. rewrite drop_drop. f_equal. lia.
Qed.

Lemma last_n_all {A} n (l : list A) : (length l <= n)%nat -> last_n n l = l.
Proof. intros Hl. unfold last_n. by replace (length l - n)%nat with 0%nat by lia. Qed.

Lemma mark_delivered_ok id c : cache_ok c -> cache_ok (DeliveredCache.mark_delivered id c).1.
Proof.
  intros Hc. rewrite mark_delivered_cases by done. destruct Hc as (Hs & Hnd & Hl).
  case_bool_decide as Hin; [done|]. split; [done|]. split; [|apply length_last_n].
  simpl. eapply sublist_NoDup; [|apply sublist_drop].
  apply NoDup_app. split; [done|]. split; [set_solver|apply NoDup_singleton].
Qed.

Lemma mark_delivered_max id c :
  DeliveredCache.max_entries (DeliveredCache.mark_delivered id c).1 = DeliveredCache.max_entries c.
Proof.
  unfold DeliveredCache.mark_delivered. case_bool_decide; [done|]. by destruct (DeliveredCache.evict _ _ _).
Qed.

(** A sequence of marks keeps the last [max_entries] of the identifiers it
    found new. *)
Lemma mark_all_order ids : forall c, cache_ok c ->
  let '(c', news) := DeliveredCache.mark_all ids c in
  cache_ok c' /\ DeliveredCache.max_entries c' = DeliveredCache.max_entries c /\
  DeliveredCache.order c' = last_n (DeliveredCache.max_entries c) (DeliveredCache.order c ++ news) /\
  news `sublist_of` ids.
Proof.
  induction ids as [|id ids IH]; intros c Hc; cbn [DeliveredCache.mark_all].
  - split; [done|]. split; [done|]. split; [|done].
    rewrite app_nil_r, last_n_all; [done|]. apply Hc.
  - pose proof (mark_delivered_ok id c Hc) as Hc1. pose proof (mark_delivered_max id c) as Hm1.
    rewrite mark_delivered_cases in * by done. case_bool_decide as Hin.
    + specialize (IH c Hc). destruct (DeliveredCache.mark_all ids c) as [c' news].
      destruct IH as (H1 & H2 & H3 & H4). refine (conj H1 (conj H2 (conj H3 _))). by apply sublist_cons.
    + cbv beta iota zeta in Hc1 |- *. simpl in Hc1, Hm1. specialize (IH _ Hc1).
      destruct (DeliveredCache.mark_all ids _) as [c' news]. simpl in IH.
      destruct IH as (H1 & H2 & Ho & H4).
      refine (conj H1 (conj H2 (conj _ (sublist_skip id _ _ H4)))). by rewrite Ho, last_n_app, <- app_assoc.
Qed.

Lemma elem_of_last_n {A} n (l m : list A) x : x ∉ l -> x ∉ m ->
  x ∈ last_n n (l ++ [x] ++ m) <-> (length m < n)%nat.
Proof.
  intros Hl Hm. unfold last_n. rewrite !length_app. simpl length. split.
  - intros Hin. destruct (decide (length m < n)%nat) as [|Hge]; [done|]. destruct Hm.
    replace (length l + (1 + length m) - n)%nat with (length (l ++ [x]) + (length m - n))%nat in Hin
      by (rewrite length_app; simpl; lia).
    rewrite app_assoc, drop_app_add in Hin. by eapply elem_of_sublist, sublist_drop.
  - intros Hlt. rewrite drop_app_le by lia. apply elem_of_app. right. simpl. left.
Qed.

(** The duplicate filter is an exact window.  A cache that has recorded any
    sequence of identifiers holds at most [max_entries] of them; marking an
    identifier says whether it was new, and from then on it is recognised
    until exactly [max_entries] other identifiers have been accepted as new:
    one fewer and a second copy is refused, one more and it is forgotten. *)
Theorem delivered_cache_window (n : nat) (before after : list (arr 32)) (id : arr 32)
  (Hn : (0 < n)%nat) (Hid : id ∉ after) :
  let c := (DeliveredCache.mark_all before (DeliveredCache.new n)).1 in
  let marked := DeliveredCache.mark_delivered id c in
  let later := DeliveredCache.mark_all after marked.1 in
  (DeliveredCache.len later.1 <= n)%nat /\ marked.2 = negb (DeliveredCache.seen_before id c) /\
  DeliveredCache.seen_before id marked.1 = true /\
  (marked.2 = true ->
     DeliveredCache.seen_before id later.1 = bool_decide (length later.2 < n)%nat).
Proof.
  cbv zeta.
  pose proof (mark_all_order before _ (cache_new_ok n)) as Hc.
  destruct (DeliveredCache.mark_all before _) as [c olds]. cbn [fst snd] in Hc |- *.
  change (DeliveredCache.max_entries (DeliveredCache.new n)) with n in Hc.
  destruct Hc as (Hc & Hm & _). pose proof (mark_delivered_ok id c Hc) as Hc1.
  pose proof (mark_delivered_max id c) as Hm1. pose proof Hc as (Hs & Hnd & Hl).
  assert (Hseen : DeliveredCache.seen_before id c = bool_decide (id ∈ DeliveredCache.order c)).
  { apply bool_decide_ext. by rewrite Hs, elem_of_list_to_set. }
  rewrite Hseen, mark_delivered_cases in * by done.
  destruct (bool_decide (id ∈ DeliveredCache.order c)) eqn:Hin; cbn [fst snd] in *.
  - pose proof (mark_all_order after c Hc) as Ha.
    destruct (DeliveredCache.mark_all after c) as [c2 news]. destruct Ha as ((Hs2 & Hn2 & Hl2) & Hm2 & _).
    cbn [fst snd]. split; [|split; [done|split; [done|done]]].
    unfold DeliveredCache.len. rewrite Hs2, size_list_to_set by done. simpl in *. lia.
  - set (l := last_n _ _) in *. pose proof (mark_all_order after _ Hc1) as Ha.
    destruct (DeliveredCache.mark_all after _) as [c2 news]. cbn [fst snd] in *.
    cbn [DeliveredCache.order DeliveredCache.max_entries] in Ha.
    destruct Ha as ((Hs2 & Hn2 & Hl2) & Hm2 & Ho & Hsub). apply bool_decide_eq_false in Hin.
    split; [|split; [done|split]].
    + unfold DeliveredCache.len. rewrite Hs2, size_list_to_set by done. simpl in *. lia.
    + apply bool_decide_true. simpl. rewrite elem_of_list_to_set. subst l.
      replace (DeliveredCache.order c ++ [id]) with (DeliveredCache.order c ++ [id] ++ []) by done.
      apply elem_of_last_n; [done|apply not_elem_of_nil|simpl; lia].
    + intros _. apply bool_decide_ext. rewrite Hs2, elem_of_list_to_set, Ho. subst l.
      rewrite last_n_app, <- app_assoc, Hm. apply elem_of_last_n; [done|].
      intros Hnews. by eapply Hid, elem_of_sublist.
Qed.

Definition sample_cache : DeliveredCache.t * bool :=
  DeliveredCache.mark_delivered (arr_zero 32)
    (DeliveredCache.mark_all [arr_of 32 [x02]] (DeliveredCache.new 2)).1.

Lemma delivered_cache_window_witness :
  DeliveredCache.seen_before (arr_zero 32)
    (DeliveredCache.mark_all [arr_of 32 [x01]; arr_of 32 [x01]] sample_cache.1).1 = true.
Proof.
  destruct (delivered_cache_window 2 [arr_of 32 [x02]] [arr_of 32 [x01]; arr_of 32 [x01]] (arr_zero 32)
    ltac:(lia) ltac:(apply (bool_decide_unpack _); vm_compute; exact I)) as (_ & _ & _ & Hw).
  unfold sample_cache. rewrite Hw by (vm_compute; reflexivity). vm_compute. reflexivity.
Defined.

(** * Requests and their responses *)

Section Requests.
Context `{C : Crypto} `{M : Msgpack} `{HI : HashIter}.
Implicit Types m : RnsRequestManager.t.

Lemma lookup_foldl_delete {K V} `{Countable K} (ids : list K) (p : gmap K V) k :
  foldl (fun p id => delete id p) p ids !! k = if bool_decide (k ∈ ids) then None else p !! k.
Proof.
  revert p. induction ids as [|id ids IH]; intros p; cbn [foldl].
  - by rewrite bool_decide_false by apply not_elem_of_nil.
  - rewrite IH. destruct (decide (k = id)) as [->|Hne].
    + rewrite lookup_delete_eq, (bool_decide_true (id ∈ id :: ids)) by left. by case_bool_decide.
    + rewrite lookup_delete_ne by done. rewrite (bool_decide_ext (k ∈ ids) (k ∈ id :: ids)); [done|].
      rewrite elem_of_cons. tauto.
Qed.

Lemma elem_of_timed_out now m id :
  id ∈ (RnsRequestManager.poll_timeouts now m).2 <->
  exists p, RnsRequestManager.pending m !! id = Some p /\ pr_timeout_ms p <= sat_sub now (pr_sent_at_ms p).
Proof.
  unfold RnsRequestManager.poll_timeouts. cbn [snd]. rewrite list_elem_of_fmap. split.
  - intros ([k p] & -> & [Ht Hin]%list_elem_of_filter). apply elem_of_hash_iter in Hin.
    exists p. split; [done|]. by apply Z.leb_le.
  - intros (p & Hp & Ht). exists (id, p). split; [done|]. apply list_elem_of_filter.
    split; [by apply Z.leb_le|by apply elem_of_hash_iter].
Qed.

Lemma NoDup_timed_out now m : NoDup (RnsRequestManager.poll_timeouts now m).2.
Proof.
  unfold RnsRequestManager.poll_timeouts. cbn [snd].
  eapply sublist_NoDup; [apply (NoDup_hash_keys (RnsRequestManager.pending m))|].
  unfold hash_keys. generalize (hash_iter (RnsRequestManager.pending m)). intros l.
  induction l as [|[k p] l IH]; [done|]. cbn [filter list_filter].
  destruct (decide _); simpl; [by apply sublist_skip|by apply sublist_cons].
Qed.

Lemma pending_after_poll now m id :
  RnsRequestManager.pending (RnsRequestManager.poll_timeouts now m).1 !! id =
  match RnsRequestManager.pending m !! id with
  | Some p => if RnsRequestManager.timed_out now p then None else Some p
  | None => None
  end.
Proof.
  pose proof (elem_of_timed_out now m id) as Hel.
  unfold RnsRequestManager.poll_timeouts in *. cbn [fst snd RnsRequestManager.pending] in *.
  rewrite lookup_foldl_delete. case_bool_decide as Hin.
  - apply Hel in Hin as (p & -> & Ht). unfold RnsRequestManager.timed_out.
    by rewrite (proj2 (Z.leb_le _ _) Ht).
  - destruct (RnsRequestManager.pending m !! id) as [p|] eqn:Hp; [|done].
    destruct (RnsRequestManager.timed_out now p) eqn:Ht; [|done]. destruct Hin. apply Hel.
    exists p. split; [done|]. by apply Z.leb_le.
Qed.

End Requests.

(** The life of a request.  A registered request is pending under the
    identifier the responder will compute; a poll reports each request whose time is up once
    and forgets exactly those; a response is accepted exactly
    when its request is pending, and then the request is settled: a second
    response, like one for a request that timed out, is refused, and the response can be
    taken once. *)
Theorem request_lifecycle `{Crypto} `{Msgpack} `{HashIter} (m : RnsRequestManager.t) (d : arr 16)
  (path : option string) (data : Value) (now timeout later : Z) (req : RnsRequest) (resp : RnsResponse)
  (m1 : RnsRequestManager.t)
  (Hreg : RnsRequestManager.register_request d path data now timeout m = (m1, Ok req))
  (Hresp : resp_request_id resp = req_request_id req) :
  let id := req_request_id req in
  let '(m2, expired) := RnsRequestManager.poll_timeouts later m1 in
  let '(m3, accepted) := RnsRequestManager.record_response resp m2 in
  (exists bs, encode_request_bytes req = Ok bs /\ id = request_id_for_destination d bs) /\
  RnsRequestManager.is_pending id m1 = true /\
  NoDup expired /\ (id ∈ expired <-> timeout <= sat_sub later now) /\
  (forall k, k <> id -> (k ∈ expired <-> k ∈ (RnsRequestManager.poll_timeouts later m).2)) /\
  accepted = (sat_sub later now <? timeout) /\
  RnsRequestManager.is_pending id m3 = false /\
  (RnsRequestManager.record_response resp m3).2 = false /\
  (accepted = true ->
     let '(m4, first) := RnsRequestManager.take_response id m3 in
     first = Some resp /\ (RnsRequestManager.take_response id m4).2 = None).
Proof.
  unfold RnsRequestManager.register_request in Hreg.
  set (path_hash := default _ _) in Hreg. set (at_ := f64_div _ _) in Hreg.
  destruct (encode_request_bytes _) as [bs|e] eqn:Henc; [|done]. injection Hreg as <- <-.
  cbn [req_request_id] in *. set (id := request_id_for_destination d bs) in *.
  set (m1 := RnsRequestManager.mk _ _).
  assert (Hp1 : RnsRequestManager.pending m1 !! id = Some (mkPending id path_hash now timeout))
    by apply lookup_insert_eq.
  pose proof (elem_of_timed_out later m1) as Hel. pose proof (NoDup_timed_out later m1) as Hnd.
  pose proof (pending_after_poll later m1 id) as Hp2. rewrite Hp1 in Hp2.
  destruct (RnsRequestManager.poll_timeouts later m1) as [m2 expired]. cbn [fst snd] in *.
  assert (Hexp : forall k, k <> id -> (k ∈ expired <-> k ∈ (RnsRequestManager.poll_timeouts later m).2)).
  { intros k Hk. rewrite Hel, elem_of_timed_out. unfold m1. cbn [RnsRequestManager.pending].
    by rewrite lookup_insert_ne. }
  assert (Hid : id ∈ expired <-> timeout <= sat_sub later now).
  { rewrite Hel, Hp1. split; [by intros (p & [= <-] & Hle)|]. intros Hle. by eexists. }
  assert (Hout : RnsRequestManager.timed_out later (mkPending id path_hash now timeout) =
    negb (sat_sub later now <? timeout)) by (unfold RnsRequestManager.timed_out; simpl; lia).
  rewrite Hout in Hp2. unfold RnsRequestManager.record_response. rewrite Hresp, Hp2.
  destruct (sat_sub later now <? timeout); cbn [negb fst snd].
  - split_and!; try done; [by exists bs|apply bool_decide_true; rewrite Hp1; by eexists| | |].
    + apply bool_decide_false. simpl. rewrite lookup_delete_eq. by intros [? ?].
    + simpl. by rewrite lookup_delete_eq.
    + intros _. simpl. by rewrite lookup_insert_eq, lookup_delete_eq.
  - split_and!; try done; [by exists bs|apply bool_decide_true; rewrite Hp1; by eexists| |].
    + apply bool_decide_false. rewrite Hp2. by intros [? ?].
    + by rewrite Hp2.
Qed.

#[local] Existing Instance toy_crypto.
#[local] Existing Instance bit_codec.
#[local] Existing Instance key_order.

Definition sample_registered : RnsRequestManager.t * result (fault RnsError) RnsRequest :=
  RnsRequestManager.register_request (arr_zero 16) (Some "/pn/get/stats") Nil 1000 500
    RnsRequestManager.new.
Definition sample_registered_request : RnsRequest :=
  Eval vm_compute in match sample_registered.2 with
                     | Ok req => req
                     | Err _ => mkRequest (arr_zero 16) f64_zero (arr_zero 16) Nil
                     end.

Lemma request_lifecycle_witness :
  (RnsRequestManager.record_response (mkResponse (req_request_id sample_registered_request) Nil)
     (RnsRequestManager.poll_timeouts 1200 sample_registered.1).1).2 = true.
Proof.
  pose proof (@request_lifecycle toy_crypto bit_codec key_order RnsRequestManager.new (arr_zero 16) (Some "/pn/get/stats") Nil 1000 500 1200
    sample_registered_request (mkResponse (req_request_id sample_registered_request) Nil)
    sample_registered.1 ltac:(vm_compute; reflexivity) eq_refl) as Hl.
  destruct (RnsRequestManager.poll_timeouts _ _) as [m2 expired]. cbn [fst snd] in Hl |- *.
  destruct (RnsRequestManager.record_response _ _) as [m3 accepted].
  destruct Hl as (_ & _ & _ & _ & _ & Ha & _). exact Ha.
Defined.
