(* ===== verification/PnDirectory.v ===== *)
(** The directory of propagation nodes: [lxmf-rs/src/pn.rs] (announce data and
    the directory) and [lxmf-rs/src/rns/pn.rs] (the directory service and its
    request and response formats). *)

From Stdlib Require Import ZArith Lia Permutation Sorted.
From Stdlib Require Import Strings.Byte.
From stdpp Require Import base gmap strings numbers list.
From S2P Require Import Prelude Float Msgpack Stamp Rns Crypto Buffer Packet.

Local Open Scope Z_scope.

Definition PN_META_NAME : Z := 0x01.

(** * Announce data *)

Definition is_integer (v : Value) : bool := match v with Integer _ => true | _ => false end.
Definition is_boolean (v : Value) : bool := match v with Boolean _ => true | _ => false end.
Definition is_map (v : Value) : bool := match v with VMap _ => true | _ => false end.

Section AnnounceData.
Context `{M : Msgpack}.

Definition is_msgpack_list (app_data : list byte) : bool :=
  match app_data with
  | b :: _ => in_range 0x90 0x9f b || (u8 b =? 0xdc)
  | [] => false
  end.

Definition read_array (app_data : list byte) : option (list Value) :=
  match read_value app_data with Ok (VArray l) => Some l | _ => None end.

(** A name held as bytes or as text. *)
Definition name_value (v : Value) : option string :=
  match v with
  | Binary b => string_from_utf8 b
  | VString s => utf8_as_str s
  | _ => None
  end.

Definition display_name_from_app_data (app_data : list byte) : option string :=
  match app_data with
  | [] => None
  | _ => if is_msgpack_list app_data
         then data ← read_array app_data; dn ← data !! 0%nat; name_value dn
         else string_from_utf8 app_data
  end.

Definition integer_u64_value (v : Value) : option Z :=
  match v with Integer i => integer_as_u64 i | _ => None end.

Definition stamp_cost_from_app_data (app_data : list byte) : option Z :=
  match app_data with
  | [] => None
  | _ => if is_msgpack_list app_data
         then data ← read_array app_data; cost ← data !! 1%nat; integer_u64_value cost
         else None
  end.

Definition pn_announce_data_is_valid (app_data : list byte) : bool :=
  match read_array app_data with
  | Some (_ :: v1 :: v2 :: v3 :: v4 :: v5 :: v6 :: _) =>
      if negb (is_integer v1) then false
      else if negb (is_boolean v2) then false
      else if negb (is_integer v3) then false
      else if negb (is_integer v4) then false
      else match v5 with
           | VArray (c0 :: c1 :: c2 :: _) =>
               if negb (is_integer c0) || negb (is_integer c1) || negb (is_integer c2) then false
               else is_map v6
           | _ => false
           end
  | _ => false
  end.

(** The loop over the metadata: the first entry with the name key decides. *)
Fixpoint metadata_name (metadata : list (Value * Value)) : option string :=
  match metadata with
  | [] => None
  | (key, val) :: rest =>
      if bool_decide (integer_u64_value key = Some PN_META_NAME) then name_value val
      else metadata_name rest
  end.

Definition pn_name_from_app_data (app_data : list byte) : option string :=
  if negb (pn_announce_data_is_valid app_data) then None
  else data ← read_array app_data;
       match data !! 6%nat with Some (VMap metadata) => metadata_name metadata | _ => None end.

Definition pn_stamp_cost_from_app_data (app_data : list byte) : option Z :=
  data ← read_array app_data;
  if Nat.ltb (length data) 7 then None
  else match data !! 5%nat with
       | Some (VArray stamp_costs) => first ← stamp_costs !! 0%nat; integer_u64_value first
       | _ => None
       end.

End AnnounceData.

(** * The directory *)

Record PnDirectoryEntry : Type := mkEntry {
  e_destination_hash : arr 16;
  e_app_data : list byte;
  e_name : option string;
  e_stamp_cost : option Z;
  e_last_seen_ms : Z;
  e_acked : bool
}.

Abbreviation PnDirectory := (gmap (arr 16) PnDirectoryEntry).

Inductive PnDirectoryError : Type := InvalidAnnounce.

Definition set_acked (e : PnDirectoryEntry) : PnDirectoryEntry :=
  mkEntry (e_destination_hash e) (e_app_data e) (e_name e) (e_stamp_cost e) (e_last_seen_ms e) true.

(** [sort_by_key(|entry| entry.last_seen_ms)] *)
Definition seen_leb (a b : PnDirectoryEntry) : bool := e_last_seen_ms a <=? e_last_seen_ms b.

Module PnDir.
Section Operations.
Context `{M : Msgpack} `{HI : HashIter}.

Definition new : PnDirectory := ∅.

Definition upsert_announce (destination_hash : arr 16) (app_data : list byte) (now_ms : Z) :
    stres PnDirectory PnDirectoryError unit := fun dir =>
  if negb (pn_announce_data_is_valid app_data) then (dir, Err InvalidAnnounce)
  else
    let existing_acked := default false (e_acked <$> dir !! destination_hash) in
    let entry := mkEntry destination_hash app_data (pn_name_from_app_data app_data)
                   (pn_stamp_cost_from_app_data app_data) now_ms existing_acked in
    (<[destination_hash := entry]> dir, Ok tt).

Definition list (dir : PnDirectory) : list PnDirectoryEntry := sort_by seen_leb (hash_values dir).

Definition get (dir : PnDirectory) (destination_hash : arr 16) : option PnDirectoryEntry :=
  dir !! destination_hash.

Definition stamp_cost (dir : PnDirectory) (destination_hash : arr 16) : option Z :=
  dir !! destination_hash ≫= e_stamp_cost.

Definition acknowledge (destination_hash : arr 16) (dir : PnDirectory) : PnDirectory * bool :=
  match dir !! destination_hash with
  | Some entry => (<[destination_hash := set_acked entry]> dir, true)
  | None => (dir, false)
  end.

Definition delete (destination_hash : arr 16) (dir : PnDirectory) :
    PnDirectory * option PnDirectoryEntry :=
  (base.delete destination_hash dir, dir !! destination_hash).

Definition list_unacked (dir : PnDirectory) : Datatypes.list PnDirectoryEntry :=
  sort_by seen_leb (filter (fun e => e_acked e = false) (hash_values dir)).

End Operations.
End PnDir.

(** * Requests and responses *)

Record PnDirEntryWire : Type := mkWire {
  w_destination_hash : arr 16;
  w_app_data : list byte;
  w_last_seen_ms : Z;
  w_acked : bool
}.

Inductive PnDirRequest : Type :=
| ReqList
| ReqGet (hash : arr 16)
| ReqAck (hashes : list (arr 16)).

Inductive PnDirResponse : Type :=
| RespList (entries : list PnDirEntryWire)
| RespGet (entry : option PnDirEntryWire)
| RespAck (hashes : list (arr 16)).

Inductive PnDirPacket : Type :=
| PnRequest (r : PnDirRequest)
| PnResponse (r : PnDirResponse).

(** [PnDirOp as i64] *)
Definition OP_LIST : Z := 1.
Definition OP_GET : Z := 2.
Definition OP_ACK : Z := 3.

Definition entry_to_wire (e : PnDirectoryEntry) : PnDirEntryWire :=
  mkWire (e_destination_hash e) (e_app_data e) (e_last_seen_ms e) (e_acked e).

Module PnDirService.
Section Service.
Context `{M : Msgpack} `{HI : HashIter}.

(** The loop that acknowledges each hash and collects the known ones. *)
Fixpoint ack_all (hashes : list (arr 16)) (dir : PnDirectory) : PnDirectory * list (arr 16) :=
  match hashes with
  | [] => (dir, [])
  | hash :: rest =>
      let '(dir1, known) := PnDir.acknowledge hash dir in
      let '(dir2, acked) := ack_all rest dir1 in
      (dir2, if known then hash :: acked else acked)
  end.

Definition handle_request (req : PnDirRequest) (now_ms : Z) (dir : PnDirectory) :
    PnDirectory * PnDirResponse :=
  match req with
  | ReqList => (dir, RespList (map entry_to_wire (PnDir.list dir)))
  | ReqGet hash => (dir, RespGet (entry_to_wire <$> PnDir.get dir hash))
  | ReqAck hashes => let '(dir', acked) := ack_all hashes dir in (dir', RespAck acked)
  end.

(** What a response entry does to the local directory. *)
Definition apply_entry (now_ms : Z) (dir : PnDirectory) (entry : PnDirEntryWire) : PnDirectory :=
  let dir1 := fst (PnDir.upsert_announce (w_destination_hash entry) (w_app_data entry)
                     (Z.max (w_last_seen_ms entry) now_ms) dir) in
  if w_acked entry then fst (PnDir.acknowledge (w_destination_hash entry) dir1) else dir1.

Definition apply_response (response : PnDirResponse) (now_ms : Z) (dir : PnDirectory) :
    PnDirectory :=
  match response with
  | RespList entries => foldl (apply_entry now_ms) dir entries
  | RespGet (Some entry) => apply_entry now_ms dir entry
  | RespGet None => dir
  | RespAck hashes => foldl (fun d hash => fst (PnDir.acknowledge hash d)) dir hashes
  end.

End Service.
End PnDirService.

Definition entry_to_value (entry : PnDirEntryWire) : Value :=
  VArray [Binary (w_destination_hash entry); Binary (w_app_data entry);
          Integer (as_i64 (w_last_seen_ms entry)); Boolean (w_acked entry)].

Definition entry_from_value (value : Value) : result RnsError PnDirEntryWire :=
  match value with
  | VArray (v0 :: v1 :: v2 :: v3 :: _) =>
      destination_hash ← ok_or (value_to_fixed_bytes 16 v0) (RnsMsgpack "invalid entry hash");
      app_data ← ok_or (value_to_bytes v1) (RnsMsgpack "invalid app data");
      last_seen_raw ← ok_or (value_as_i64 v2) (RnsMsgpack "invalid last_seen");
      if last_seen_raw <? 0 then Err (RnsMsgpack "negative last_seen")
      else match v3 with
           | Boolean acked => Ok (mkWire destination_hash app_data last_seen_raw acked)
           | _ => Err (RnsMsgpack "invalid ack flag")
           end
  | VArray _ => Err (RnsMsgpack "entry missing fields")
  | _ => Err (RnsMsgpack "entry must be array")
  end.

Definition hashes_to_value (hashes : list (arr 16)) : Value :=
  VArray (map (fun h => Binary (arr_list h)) hashes).

Definition hashes_from_values (values : list Value) : result RnsError (list (arr 16)) :=
  res_mapM (fun v => ok_or (value_to_fixed_bytes 16 v) (RnsMsgpack "invalid hash")) values.

Definition request_to_value (req : PnDirRequest) : Value :=
  match req with
  | ReqList => VArray [Integer OP_LIST]
  | ReqGet hash => VArray [Integer OP_GET; Binary hash]
  | ReqAck hashes => VArray [Integer OP_ACK; hashes_to_value hashes]
  end.

Definition request_from_value (value : Value) : result RnsError PnDirRequest :=
  match value with
  | VArray [] => Err (RnsMsgpack "pn dir request missing op")
  | VArray ((v0 :: _) as arr) =>
      op ← ok_or (value_as_i64 v0) (RnsMsgpack "pn dir op invalid");
      if op =? OP_LIST then Ok ReqList
      else if op =? OP_GET then
        hash ← ok_or (arr !! 1%nat) (RnsMsgpack "missing hash");
        hash ← ok_or (value_to_fixed_bytes 16 hash) (RnsMsgpack "invalid hash");
        Ok (ReqGet hash)
      else if op =? OP_ACK then
        list ← ok_or (arr !! 1%nat) (RnsMsgpack "missing ack list");
        match list with
        | VArray values => hashes ← hashes_from_values values; Ok (ReqAck hashes)
        | _ => Err (RnsMsgpack "ack list must be array")
        end
      else Err (RnsMsgpack "unknown pn dir op")
  | _ => Err (RnsMsgpack "pn dir request must be array")
  end.

Definition response_to_value (resp : PnDirResponse) : Value :=
  match resp with
  | RespList entries => VArray [Integer OP_LIST; VArray (map entry_to_value entries)]
  | RespGet entry => VArray [Integer OP_GET; match entry with
                                             | Some entry => entry_to_value entry
                                             | None => Nil
                                             end]
  | RespAck hashes => VArray [Integer OP_ACK; hashes_to_value hashes]
  end.

Definition response_from_value (value : Value) : result RnsError PnDirResponse :=
  match value with
  | VArray [] => Err (RnsMsgpack "pn dir response missing op")
  | VArray ((v0 :: _) as arr) =>
      op ← ok_or (value_as_i64 v0) (RnsMsgpack "pn dir op invalid");
      if op =? OP_LIST then
        list ← ok_or (arr !! 1%nat) (RnsMsgpack "missing list");
        match list with
        | VArray values => entries ← res_mapM entry_from_value values; Ok (RespList entries)
        | _ => Err (RnsMsgpack "list must be array")
        end
      else if op =? OP_GET then
        entry_val ← ok_or (arr !! 1%nat) (RnsMsgpack "missing entry");
        match entry_val with
        | Nil => Ok (RespGet None)
        | _ => entry ← entry_from_value entry_val; Ok (RespGet (Some entry))
        end
      else if op =? OP_ACK then
        list ← ok_or (arr !! 1%nat) (RnsMsgpack "missing ack list");
        match list with
        | VArray values => hashes ← hashes_from_values values; Ok (RespAck hashes)
        | _ => Err (RnsMsgpack "ack list must be array")
        end
      else Err (RnsMsgpack "unknown pn dir op")
  | _ => Err (RnsMsgpack "pn dir response must be array")
  end.

Section DirCodec.
Context `{M : Msgpack}.
Definition encode_pn_dir_request (req : PnDirRequest) : result RnsError (list byte) :=
  rns_write (request_to_value req).
Definition decode_pn_dir_request (bytes : list byte) : result RnsError PnDirRequest :=
  rns_read bytes ≫= request_from_value.
Definition encode_pn_dir_response (resp : PnDirResponse) : result RnsError (list byte) :=
  rns_write (response_to_value resp).
Definition decode_pn_dir_response (bytes : list byte) : result RnsError PnDirResponse :=
  rns_read bytes ≫= response_from_value.

Definition decode_pn_dir_packet (packet : Packet) : result RnsError PnDirPacket :=
  let data := StaticBuffer.as_slice (data packet) in
  match context packet with
  | Request => PnRequest <$> decode_pn_dir_request data
  | Response => PnResponse <$> decode_pn_dir_response data
  | _ => Err (RnsMsgpack "unsupported pn dir packet context")
  end.
End DirCodec.

(** * The directory's invariant *)

Section Invariant.
Context `{M : Msgpack} `{HI : HashIter}.
Implicit Types dir : PnDirectory.

(** Every entry is filed under its own hash, holds a valid announce, and its
    name and stamp cost are the ones the announce states. *)
Definition entry_ok (h : arr 16) (e : PnDirectoryEntry) : Prop :=
  e_destination_hash e = h /\ pn_announce_data_is_valid (e_app_data e) = true /\
  e_name e = pn_name_from_app_data (e_app_data e) /\
  e_stamp_cost e = pn_stamp_cost_from_app_data (e_app_data e).

Definition dir_ok dir : Prop := map_Forall entry_ok dir.

(** One operation on a directory, directly or through the service. *)
Inductive dir_step : PnDirectory -> PnDirectory -> Prop :=
| step_upsert dir h d now : dir_step dir (fst (PnDir.upsert_announce h d now dir))
| step_ack dir h : dir_step dir (fst (PnDir.acknowledge h dir))
| step_delete dir h : dir_step dir (fst (PnDir.delete h dir))
| step_request dir req now : dir_step dir (fst (PnDirService.handle_request req now dir))
| step_response dir resp now : dir_step dir (PnDirService.apply_response resp now dir).

Lemma upsert_ok h d now dir : dir_ok dir -> dir_ok (fst (PnDir.upsert_announce h d now dir)).
Proof.
  intros Hd. unfold PnDir.upsert_announce. destruct (pn_announce_data_is_valid d) eqn:Hv; simpl; [|done].
  apply map_Forall_insert_2; [|done]. by split_and!.
Qed.

Lemma acknowledge_ok h dir : dir_ok dir -> dir_ok (fst (PnDir.acknowledge h dir)).
Proof.
  intros Hd. unfold PnDir.acknowledge. destruct (dir !! h) as [e|] eqn:He; simpl; [|done].
  apply map_Forall_insert_2; [|done]. apply (Hd h e He).
Qed.

Lemma ack_all_ok hs dir : dir_ok dir -> dir_ok (fst (PnDirService.ack_all hs dir)).
Proof.
  revert dir. induction hs as [|h hs IH]; intros dir Hd; simpl; [done|].
  pose proof (acknowledge_ok h dir Hd) as Ha. destruct (PnDir.acknowledge h dir) as [d1 b].
  specialize (IH d1 Ha). by destruct (PnDirService.ack_all hs d1).
Qed.

Lemma apply_entry_ok now dir w : dir_ok dir -> dir_ok (PnDirService.apply_entry now dir w).
Proof.
  intros Hd. unfold PnDirService.apply_entry. destruct (w_acked w);
    [apply acknowledge_ok|]; by apply upsert_ok.
Qed.

Lemma foldl_ok {A} (f : PnDirectory -> A -> PnDirectory) l dir :
  (forall d a, dir_ok d -> dir_ok (f d a)) -> dir_ok dir -> dir_ok (foldl f dir l).
Proof. intros Hf. revert dir. induction l as [|a l IH]; intros dir Hd; simpl; [done|]. by apply IH, Hf. Qed.

Lemma dir_step_ok dir dir' : dir_step dir dir' -> dir_ok dir -> dir_ok dir'.
Proof.
  intros Hstep Hd. destruct Hstep as [dir h d now|dir h|dir h|dir req now|dir resp now].
  - by apply upsert_ok.
  - by apply acknowledge_ok.
  - by apply map_Forall_delete.
  - destruct req as [|h|hs]; simpl; [done|done|].
    pose proof (ack_all_ok hs dir Hd). by destruct (PnDirService.ack_all hs dir).
  - destruct resp as [es|[e|]|hs]; simpl.
    + apply foldl_ok; [|done]. intros. by apply apply_entry_ok.
    + by apply apply_entry_ok.
    + done.
    + apply foldl_ok; [|done]. intros. by apply acknowledge_ok.
Qed.

Lemma seen_leb_total x y : seen_leb x y = false -> seen_leb y x = true.
Proof. unfold seen_leb. lia. Qed.
Lemma seen_leb_trans x y z : seen_leb x y = true -> seen_leb y z = true -> seen_leb x z = true.
Proof. unfold seen_leb. lia. Qed.

(** * Replication *)

(** What a listed entry becomes at a directory that may know the node. *)
Definition merge_entry (now_ms : Z) (e : PnDirectoryEntry) (known : option PnDirectoryEntry) :
    PnDirectoryEntry :=
  mkEntry (e_destination_hash e) (e_app_data e) (pn_name_from_app_data (e_app_data e))
    (pn_stamp_cost_from_app_data (e_app_data e)) (Z.max (e_last_seen_ms e) now_ms)
    (e_acked e || default false (e_acked <$> known)).

Lemma upsert_lookup k d now dir h :
  pn_announce_data_is_valid d = true ->
  fst (PnDir.upsert_announce k d now dir) !! h =
  if decide (h = k)
  then Some (mkEntry k d (pn_name_from_app_data d) (pn_stamp_cost_from_app_data d) now
               (default false (e_acked <$> dir !! k)))
  else dir !! h.
Proof.
  intros Hv. unfold PnDir.upsert_announce. rewrite Hv. cbn [negb fst].
  destruct (decide (h = k)) as [->|Hne]; [apply lookup_insert_eq|by apply lookup_insert_ne].
Qed.

Lemma acknowledge_lookup k dir h :
  fst (PnDir.acknowledge k dir) !! h = if decide (h = k) then set_acked <$> dir !! h else dir !! h.
Proof.
  unfold PnDir.acknowledge. destruct (dir !! k) as [e|] eqn:He; cbn [fst].
  - destruct (decide (h = k)) as [->|Hne]; [by rewrite lookup_insert_eq, He|by apply lookup_insert_ne].
  - destruct (decide (h = k)) as [->|Hne]; [by rewrite He|done].
Qed.

Lemma apply_entry_lookup now dir e h :
  pn_announce_data_is_valid (e_app_data e) = true ->
  PnDirService.apply_entry now dir (entry_to_wire e) !! h =
  if decide (h = e_destination_hash e) then Some (merge_entry now e (dir !! h)) else dir !! h.
Proof.
  intros Hv. unfold PnDirService.apply_entry, merge_entry.
  cbn [entry_to_wire w_destination_hash w_app_data w_last_seen_ms w_acked].
  destruct (e_acked e); rewrite ?acknowledge_lookup, ?upsert_lookup by done;
    by destruct (decide (h = e_destination_hash e)) as [->|Hne].
Qed.

Lemma apply_entries_lookup now es dir h :
  NoDup (map e_destination_hash es) ->
  Forall (fun e => pn_announce_data_is_valid (e_app_data e) = true) es ->
  (forall e, e ∈ es -> e_destination_hash e = h ->
     foldl (PnDirService.apply_entry now) dir (map entry_to_wire es) !! h =
     Some (merge_entry now e (dir !! h))) /\
  (h ∉ map e_destination_hash es ->
     foldl (PnDirService.apply_entry now) dir (map entry_to_wire es) !! h = dir !! h).
Proof.
  revert dir. induction es as [|x es IH]; intros dir Hnd Hv; simpl.
  { split; [|done]. intros e He. by apply elem_of_nil in He. }
  simpl in Hnd. apply NoDup_cons in Hnd as [Hx Hnd].
  apply Forall_cons in Hv as [Hvx Hv].
  destruct (IH (PnDirService.apply_entry now dir (entry_to_wire x)) Hnd Hv) as [IH1 IH2]. split.
  - intros e [->|He]%elem_of_cons Heh.
    + subst h. rewrite IH2 by done. rewrite apply_entry_lookup by done. by rewrite decide_True.
    + rewrite (IH1 e He Heh). rewrite apply_entry_lookup by done.
      rewrite decide_False; [done|]. intros ->. apply Hx.
      rewrite <- Heh. apply list_elem_of_fmap. by exists e.
  - intros [Hne Hin]%not_elem_of_cons. rewrite IH2, apply_entry_lookup by done.
    by rewrite decide_False.
Qed.

Lemma dir_list_keys dir :
  dir_ok dir -> NoDup (map e_destination_hash (PnDir.list dir)).
Proof.
  intros Hd. unfold PnDir.list, hash_values. rewrite (sort_by_perm seen_leb).
  pose proof (NoDup_hash_keys dir) as Hk. unfold hash_keys in Hk.
  assert (map e_destination_hash (hash_iter dir).*2 = (hash_iter dir).*1) as ->; [|done].
  rewrite map_map. apply map_ext_in. intros [h e] Hin. simpl.
  apply list_elem_of_In, elem_of_hash_iter in Hin. by apply (Hd h e).
Qed.

Lemma elem_of_dir_list dir e : e ∈ PnDir.list dir <-> exists h, dir !! h = Some e.
Proof. unfold PnDir.list. rewrite (sort_by_perm seen_leb). apply elem_of_hash_values. Qed.

End Invariant.

(** Every directory reached from the empty one by announces,
    acknowledgements, deletions, served requests and applied responses files
    each entry under its own hash, holds only valid announces, and shows the
    name and stamp cost its announce states. *)
Theorem pn_directory_invariant `{Msgpack} `{HashIter} (dir : PnDirectory)
  (Hreach : rtc dir_step PnDir.new dir) : dir_ok dir.
Proof.
  assert (dir_ok PnDir.new) as Hnew by apply map_Forall_empty. revert Hnew.
  induction Hreach as [|d1 d2 d3 Hs _ IH]; [done|]. intros Hd. apply IH. by eapply dir_step_ok.
Qed.

(** The announce of a sample node. *)
Definition sample_announce : Value :=
  VArray [Nil; Integer 1700000000; Boolean true; Integer 256; Integer 10240;
          VArray [Integer 16; Integer 3; Integer 18];
          VMap [(Integer 1, VString "node")]].
Definition sample_app_data : list byte :=
  default [] (res_ok (write_value (Msgpack := bit_codec) sample_announce)).

Lemma pn_directory_invariant_witness :
  exists dir, dir_ok (M := bit_codec) dir /\ PnDir.stamp_cost dir (arr_zero 16) = Some 16.
Proof.
  exists (fst (PnDir.upsert_announce (M := bit_codec) (arr_zero 16) sample_app_data 5 PnDir.new)).
  split; [|vm_compute; reflexivity].
  apply (@pn_directory_invariant bit_codec key_order).
  apply rtc_once, step_upsert.
Defined.

(** [list] shows every entry once, oldest first; [list_unacked] shows the
    unacknowledged ones, oldest first. *)
Theorem pn_directory_lists `{HashIter} (dir : PnDirectory) :
  PnDir.list dir ≡ₚ (map_to_list dir).*2 /\
  StronglySorted (fun a b => seen_leb a b = true) (PnDir.list dir) /\
  PnDir.list_unacked dir ≡ₚ filter (fun e => e_acked e = false) (PnDir.list dir) /\
  StronglySorted (fun a b => seen_leb a b = true) (PnDir.list_unacked dir).
Proof.
  unfold PnDir.list, PnDir.list_unacked, hash_values. split_and!.
  - by rewrite (sort_by_perm seen_leb), hash_iter_perm.
  - apply sort_by_sorted; [exact seen_leb_total|exact seen_leb_trans].
  - by rewrite !(sort_by_perm seen_leb).
  - apply sort_by_sorted; [exact seen_leb_total|exact seen_leb_trans].
Qed.

(** Replication.  Applying the [List] response of one directory at another
    gives every node the first one knows, with its announce, its name and cost,
    a last-seen time not before now, and acknowledged if either side had it so;
    nodes only the second one knows keep their entries. *)
Theorem pn_directory_replicates `{Msgpack} `{HashIter} (src dst : PnDirectory) (now : Z)
  (h : arr 16) (Hsrc : dir_ok src) :
  PnDirService.apply_response (snd (PnDirService.handle_request ReqList now src)) now dst !! h =
  match src !! h with
  | Some e => Some (merge_entry now e (dst !! h))
  | None => dst !! h
  end.
Proof.
  simpl. destruct (apply_entries_lookup now (PnDir.list src) dst h) as [Hin Hout].
  - by apply dir_list_keys.
  - apply Forall_forall. intros e [k Hk]%elem_of_dir_list. by apply (Hsrc k e).
  - destruct (src !! h) as [e|] eqn:He.
    + apply Hin; [apply elem_of_dir_list; eauto|by apply (Hsrc h e)].
    + apply Hout. rewrite list_elem_of_fmap. intros (e & -> & [k Hk]%elem_of_dir_list).
      destruct (Hsrc k e Hk) as [Heq _]. congruence.
Qed.

Lemma pn_directory_replicates_witness :
  is_Some (PnDirService.apply_response (M := bit_codec)
    (snd (PnDirService.handle_request (HI := key_order) ReqList 9
       (fst (PnDir.upsert_announce (M := bit_codec) (arr_zero 16) sample_app_data 5 PnDir.new))))
    9 PnDir.new !! arr_zero 16).
Proof.
  rewrite (@pn_directory_replicates bit_codec key_order).
  - vm_compute. by eexists.
  - apply upsert_ok, map_Forall_empty.
Defined.

(** * Wire formats *)

Definition wire_entry_ok (w : PnDirEntryWire) : Prop :=
  fits_u32 (w_app_data w) = true /\ 0 <= w_last_seen_ms w < 2 ^ 63.

Definition request_ok (req : PnDirRequest) : Prop :=
  match req with ReqAck hashes => fits_u32 hashes = true | _ => True end.

Definition response_ok (resp : PnDirResponse) : Prop :=
  match resp with
  | RespList entries => fits_u32 entries = true /\ Forall wire_entry_ok entries
  | RespGet (Some entry) => wire_entry_ok entry
  | RespGet None => True
  | RespAck hashes => fits_u32 hashes = true
  end.

Lemma entry_value_roundtrip w :
  wire_entry_ok w -> entry_from_value (entry_to_value w) = Ok w.
Proof.
  intros [_ Hs]. unfold entry_from_value, entry_to_value.
  rewrite value_to_fixed_bytes_arr. cbn [ok_or mbind result_bind value_to_bytes].
  rewrite (as_i64_small _ Hs), value_as_i64_int by (unfold is_i64; lia).
  cbn [ok_or mbind result_bind]. rewrite (proj2 (Z.ltb_ge _ _)) by lia. by destruct w.
Qed.

Lemma hashes_roundtrip hashes :
  hashes_from_values (map (fun h => Binary (arr_list h)) hashes) = Ok hashes.
Proof.
  unfold hashes_from_values. rewrite (res_mapM_map _ _ id); [by rewrite map_id|].
  intros h. by rewrite value_to_fixed_bytes_arr.
Qed.

Lemma rep_hashes d (hashes : list (arr 16)) :
  fits_u32 hashes = true -> rep (S (S d)) (hashes_to_value hashes).
Proof.
  intros Hf. apply rep_array; [by rewrite fits_u32_map|].
  apply List.Forall_map, Forall_true. intros h. apply rep_arr. unfold u32_max. lia.
Qed.

Lemma rep_wire_entry d w : wire_entry_ok w -> rep (S (S d)) (entry_to_value w).
Proof. intros [Hf _]. unfold entry_to_value. solve_rep. Qed.

Lemma request_rep req : request_ok req -> rep 4 (request_to_value req).
Proof.
  destruct req as [|h|hs]; simpl; intros Hok; unfold OP_LIST, OP_GET, OP_ACK; solve_rep.
  by apply rep_hashes.
Qed.

Lemma response_rep resp : response_ok resp -> rep 4 (response_to_value resp).
Proof.
  destruct resp as [es|[e|]|hs]; simpl; unfold OP_LIST, OP_GET, OP_ACK.
  - intros [Hf He]. solve_rep. by apply rep_wire_entry.
  - intros He. solve_rep. by apply rep_wire_entry.
  - intros _. solve_rep.
  - intros Hf. solve_rep. by apply rep_hashes.
Qed.

Lemma request_value_roundtrip req : request_from_value (request_to_value req) = Ok req.
Proof.
  destruct req as [|h|hs]; simpl; [done|by rewrite value_to_fixed_bytes_arr|].
  by rewrite hashes_roundtrip.
Qed.

Lemma response_value_roundtrip resp :
  response_ok resp -> response_from_value (response_to_value resp) = Ok resp.
Proof.
  destruct resp as [es|[e|]|hs]; cbn -[entry_from_value entry_to_value]; intros Hok.
  - destruct Hok as [_ He].
    rewrite (res_mapM_map_Forall _ _ id); [by rewrite map_id|].
    eapply List.Forall_impl; [|exact He]. intros w Hw. by apply entry_value_roundtrip.
  - pose proof (entry_value_roundtrip e Hok) as He. unfold entry_to_value in *.
    cbn -[entry_from_value]. by rewrite He.
  - done.
  - by rewrite hashes_roundtrip.
Qed.

(** Directory requests and responses survive the wire: what
    [encode_pn_dir_request] and [encode_pn_dir_response] write,
    the decoders read back, bytes after it included.  A last-seen time of
    [2^63] milliseconds or more, which a [u64] can hold, is written as a
    negative number and rejected by the receiver. *)
Theorem pn_dir_codec_roundtrip `{Msgpack} `{!MsgpackLaws} (req : PnDirRequest)
  (resp : PnDirResponse) (late : PnDirEntryWire)
  (Hreq : request_ok req) (Hresp : response_ok resp)
  (Hlate : 2 ^ 63 <= w_last_seen_ms late <= u64_max) :
  (exists bs, encode_pn_dir_request req = Ok bs /\
     forall rest, decode_pn_dir_request (bs ++ rest) = Ok req) /\
  (exists bs, encode_pn_dir_response resp = Ok bs /\
     forall rest, decode_pn_dir_response (bs ++ rest) = Ok resp) /\
  entry_from_value (entry_to_value late) = Err (RnsMsgpack "negative last_seen").
Proof.
  split_and!.
  - apply (codec_roundtrip request_to_value request_from_value);
      [|apply request_value_roundtrip].
    eapply rep_representable; [by apply request_rep|unfold MAX_DEPTH; lia].
  - apply (codec_roundtrip response_to_value response_from_value);
      [|by apply response_value_roundtrip].
    eapply rep_representable; [by apply response_rep|unfold MAX_DEPTH; lia].
  - unfold entry_from_value, entry_to_value. rewrite value_to_fixed_bytes_arr.
    rewrite value_as_i64_int by apply as_i64_range. cbn [ok_or mbind result_bind value_to_bytes].
    unfold as_i64, u64_max in *. rewrite Z.mod_small by lia.
    destruct (Z.ltb_spec (w_last_seen_ms late) (2 ^ 63)); [lia|].
    by rewrite (proj2 (Z.ltb_lt _ _)) by lia.
Qed.

Lemma pn_dir_codec_roundtrip_witness :
  exists bs, encode_pn_dir_response (M := bit_codec)
      (RespList [mkWire (arr_zero 16) [x01] 12345 true]) = Ok bs /\
    decode_pn_dir_response (M := bit_codec) bs =
      Ok (RespList [mkWire (arr_zero 16) [x01] 12345 true]).
Proof.
  destruct (@pn_dir_codec_roundtrip bit_codec bit_codec_laws (ReqAck [arr_zero 16])
    (RespList [mkWire (arr_zero 16) [x01] 12345 true]) (mkWire (arr_zero 16) [] (2 ^ 63) false))
    as (_ & (bs & He & Hd) & _).
  - reflexivity.
  - split; [reflexivity|]. repeat constructor; simpl; lia.
  - unfold u64_max. simpl. lia.
  - exists bs. split; [exact He|]. rewrite <- (Hd []), app_nil_r. reflexivity.
Defined.
