(* ===== verification/PropStore.v ===== *)
(** [PropagationStore] of [lxmf-rs/src/rns/storage.rs]: the messages a
    propagation node holds, with their stamp values, file names, and the peers
    that have (handled) or still lack (unhandled) each message. *)

From Stdlib Require Import ZArith Lia Permutation.
From Stdlib Require Import Strings.Byte.
From stdpp Require Import base gmap strings pretty numbers list.
From S2P Require Import Prelude Float Msgpack Crypto Buffer Packet Stamp.

Local Open Scope Z_scope.

Record PropagationEntry : Type := mkPropEntry {
  pe_transient_id : arr 32;
  pe_lxm_data : list byte;
  pe_timestamp : f64;
  pe_destination_hash : option (arr 16);
  pe_filepath : option string;
  pe_msg_size : option Z
}.

(** [hex::encode] *)
Definition hex_encode (l : list byte) : string :=
  string_of_bytes (concat (map AddressHash.hex_byte l)).

(** [{}] of a double: no theorem depends on the digits it prints. *)
Class F64Display : Type := f64_display : f64 -> string.

Abbreviation TransientId := (arr 32).
Abbreviation PeerId := (arr 16).
Abbreviation PeerMarks := (gmap TransientId (gset PeerId)).

(** [HashMap<id, HashSet<peer>>] with the insert and remove of the source: a set
    that becomes empty is dropped. *)
Definition mark (id : TransientId) (p : PeerId) (marks : PeerMarks) : PeerMarks :=
  <[id := {[p]} ∪ default ∅ (marks !! id)]> marks.

Definition unmark (id : TransientId) (p : PeerId) (marks : PeerMarks) : PeerMarks :=
  match marks !! id with
  | Some peers =>
      let peers := peers ∖ {[p]} in
      if decide (peers = ∅) then delete id marks else <[id := peers]> marks
  | None => marks
  end.

Definition marked (id : TransientId) (p : PeerId) (marks : PeerMarks) : bool :=
  match marks !! id with Some peers => bool_decide (p ∈ peers) | None => false end.

Module PropagationStore.

Record t : Type := mk {
  entries : gmap TransientId PropagationEntry;
  stamp_values : gmap TransientId Z;
  filenames : gmap TransientId string;
  handled_peers : PeerMarks;
  unhandled_peers : PeerMarks
}.

Definition new : t := mk ∅ ∅ ∅ ∅ ∅.

Definition set_handled (h : PeerMarks) (s : t) : t :=
  mk (entries s) (stamp_values s) (filenames s) h (unhandled_peers s).
Definition set_unhandled (u : PeerMarks) (s : t) : t :=
  mk (entries s) (stamp_values s) (filenames s) (handled_peers s) u.

Section Operations.
Context `{C : Crypto} `{M : Msgpack} `{D : F64Display} `{HI : HashIter}.

Definition propagation_entry_filename (transient_id : TransientId) (timestamp : f64)
    (stamp_value : Z) : string :=
  hex_encode transient_id +:+ "_" +:+ f64_display timestamp +:+ "_" +:+ pretty stamp_value.

Definition insert_with_stamp_value_and_filename (entry : PropagationEntry) (stamp_value : Z)
    (filename : string) (s : t) : t :=
  mk (<[pe_transient_id entry := entry]> (entries s))
    (<[pe_transient_id entry := stamp_value]> (stamp_values s))
    (<[pe_transient_id entry := filename]> (filenames s))
    (handled_peers s) (unhandled_peers s).

Definition insert_with_stamp_value (entry : PropagationEntry) (stamp_value : Z) (s : t) : t :=
  let filename :=
    propagation_entry_filename (pe_transient_id entry) (pe_timestamp entry) stamp_value in
  insert_with_stamp_value_and_filename entry stamp_value filename s.

(** The stamp value of data that is accepted at no cost; 0 when there is none. *)
Definition data_stamp_value (lxm_data : list byte) : Z :=
  match validate_pn_stamp lxm_data 0 with Some (_, _, value, _) => value | None => 0 end.

Definition insert (entry : PropagationEntry) (s : t) : t :=
  insert_with_stamp_value entry (data_stamp_value (pe_lxm_data entry)) s.

Definition has (s : t) (transient_id : TransientId) : bool :=
  bool_decide (is_Some (entries s !! transient_id)).

Definition get (s : t) (transient_id : TransientId) : option PropagationEntry :=
  entries s !! transient_id.

Definition remove (transient_id : TransientId) (s : t) : t * option PropagationEntry :=
  (mk (delete transient_id (entries s)) (delete transient_id (stamp_values s))
     (delete transient_id (filenames s)) (handled_peers s) (unhandled_peers s),
   entries s !! transient_id).

Definition list_ids (s : t) : list TransientId := hash_keys (entries s).

Definition stamp_value (s : t) (transient_id : TransientId) : option Z :=
  stamp_values s !! transient_id.

Definition filename (s : t) (transient_id : TransientId) : option string :=
  filenames s !! transient_id.

Definition total_size_bytes (s : t) : nat :=
  sum_list (map (fun e => length (pe_lxm_data e)) (hash_values (entries s))).

(** [(entry.timestamp.max(0.0) * 1000.0) as u64] *)
Definition timestamp_ms (e : PropagationEntry) : Z :=
  f64_to_u64 (f64_mul (f64_max (pe_timestamp e) f64_zero) (f64_of_Z 1000)).

(** Dropping one identifier from all five maps. *)
Definition purge (s : t) (id : TransientId) : t :=
  mk (delete id (entries s)) (delete id (stamp_values s)) (delete id (filenames s))
    (delete id (handled_peers s)) (delete id (unhandled_peers s)).

Definition expired_ids (cutoff : Z) (s : t) : list TransientId :=
  (filter (fun kv => (timestamp_ms kv.2 <=? cutoff) = true) (hash_iter (entries s))).*1.

Definition remove_older_than (now_ms max_age_ms : Z) (s : t) : t * nat :=
  let cutoff := sat_sub now_ms max_age_ms in
  let remove := expired_ids cutoff s in
  (foldl purge s remove, length remove).

Definition add_handled_peer (transient_id : TransientId) (peer_id : PeerId) (s : t) : t * bool :=
  if has s transient_id
  then (set_handled (mark transient_id peer_id (handled_peers s)) s,
        negb (marked transient_id peer_id (handled_peers s)))
  else (s, false).

Definition remove_handled_peer (transient_id : TransientId) (peer_id : PeerId) (s : t) : t :=
  if has s transient_id
  then set_handled (unmark transient_id peer_id (handled_peers s)) s
  else s.

Definition is_peer_handled (s : t) (transient_id : TransientId) (peer_id : PeerId) : bool :=
  marked transient_id peer_id (handled_peers s).

Definition add_unhandled_peer (transient_id : TransientId) (peer_id : PeerId) (s : t) : t * bool :=
  if has s transient_id
  then (set_unhandled (mark transient_id peer_id (unhandled_peers s)) s,
        negb (marked transient_id peer_id (unhandled_peers s)))
  else (s, false).

Definition remove_unhandled_peer (transient_id : TransientId) (peer_id : PeerId) (s : t) : t :=
  if has s transient_id
  then set_unhandled (unmark transient_id peer_id (unhandled_peers s)) s
  else s.

Definition is_peer_unhandled (s : t) (transient_id : TransientId) (peer_id : PeerId) : bool :=
  marked transient_id peer_id (unhandled_peers s).

Definition messages_for_peer (marks : PeerMarks) (peer_id : PeerId) : list TransientId :=
  (filter (fun kv => peer_id ∈ kv.2) (hash_iter marks)).*1.

Definition handled_messages_for_peer (s : t) (peer_id : PeerId) : list TransientId :=
  messages_for_peer (handled_peers s) peer_id.
Definition unhandled_messages_for_peer (s : t) (peer_id : PeerId) : list TransientId :=
  messages_for_peer (unhandled_peers s) peer_id.

End Operations.
End PropagationStore.

(** * Peer marks *)

Lemma marked_mark id p marks id' p' :
  marked id' p' (mark id p marks) = (bool_decide (id' = id) && bool_decide (p' = p)) || marked id' p' marks.
Proof.
  unfold marked, mark. destruct (decide (id' = id)) as [->|Hne].
  - rewrite lookup_insert_eq, (bool_decide_true (id = id)) by done. simpl.
    destruct (marks !! id) as [ps|]; simpl; repeat case_bool_decide; set_solver.
  - by rewrite lookup_insert_ne, (bool_decide_false (id' = id)) by done.
Qed.

Lemma marked_unmark id p marks id' p' :
  marked id' p' (unmark id p marks) =
  negb (bool_decide (id' = id) && bool_decide (p' = p)) && marked id' p' marks.
Proof.
  unfold marked, unmark. destruct (decide (id' = id)) as [->|Hne].
  - rewrite (bool_decide_true (id = id)) by done. simpl.
    destruct (marks !! id) as [ps|] eqn:E; [|by rewrite E, andb_false_r].
    destruct (decide (ps ∖ {[p]} = ∅)) as [He|He].
    + rewrite lookup_delete_eq. repeat case_bool_decide; set_solver.
    + rewrite lookup_insert_eq. repeat case_bool_decide; set_solver.
  - rewrite (bool_decide_false (id' = id)) by done. simpl.
    destruct (marks !! id) as [ps|]; [|done].
    destruct (decide _); [by rewrite lookup_delete_ne|by rewrite lookup_insert_ne].
Qed.

Lemma elem_of_messages_for_peer `{HashIter} marks p id :
  id ∈ PropagationStore.messages_for_peer marks p <-> marked id p marks = true.
Proof.
  unfold PropagationStore.messages_for_peer, marked. rewrite list_elem_of_fmap. split.
  - intros ([id' ps] & -> & [Hp Hin]%list_elem_of_filter). apply elem_of_hash_iter in Hin.
    simpl. rewrite Hin. by apply bool_decide_eq_true.
  - destruct (marks !! id) as [ps|] eqn:E; [|done]. intros Hp%bool_decide_eq_true.
    exists (id, ps). split; [done|]. apply list_elem_of_filter. split; [done|].
    by apply elem_of_hash_iter.
Qed.

(** * The invariant *)

Section Invariant.
Context `{C : Crypto} `{M : Msgpack} `{D : F64Display} `{HI : HashIter}.
Implicit Types s : PropagationStore.t.

(** Entries are filed under their own id; every entry, and nothing else, has a
    stamp value and a file name; and no peer set is empty. *)
Record store_ok s : Prop := {
  ok_keyed : map_Forall (fun id e => pe_transient_id e = id) (PropagationStore.entries s);
  ok_stamps : dom (PropagationStore.stamp_values s) = dom (PropagationStore.entries s);
  ok_names : dom (PropagationStore.filenames s) = dom (PropagationStore.entries s);
  ok_handled : map_Forall (fun _ ps => ps <> ∅) (PropagationStore.handled_peers s);
  ok_unhandled : map_Forall (fun _ ps => ps <> ∅) (PropagationStore.unhandled_peers s)
}.

Inductive store_step : PropagationStore.t -> PropagationStore.t -> Prop :=
| st_insert s e : store_step s (PropagationStore.insert e s)
| st_insert_value s e v : store_step s (PropagationStore.insert_with_stamp_value e v s)
| st_insert_name s e v n :
    store_step s (PropagationStore.insert_with_stamp_value_and_filename e v n s)
| st_remove s id : store_step s (fst (PropagationStore.remove id s))
| st_expire s now age : store_step s (fst (PropagationStore.remove_older_than now age s))
| st_add_handled s id p : store_step s (fst (PropagationStore.add_handled_peer id p s))
| st_remove_handled s id p : store_step s (PropagationStore.remove_handled_peer id p s)
| st_add_unhandled s id p : store_step s (fst (PropagationStore.add_unhandled_peer id p s))
| st_remove_unhandled s id p : store_step s (PropagationStore.remove_unhandled_peer id p s).

Lemma mark_nonempty id p (marks : PeerMarks) :
  map_Forall (fun _ ps => ps <> ∅) marks -> map_Forall (fun _ ps => ps <> ∅) (mark id p marks).
Proof. intros Hm. unfold mark. apply map_Forall_insert_2; [set_solver|done]. Qed.

Lemma unmark_nonempty id p (marks : PeerMarks) :
  map_Forall (fun _ ps => ps <> ∅) marks -> map_Forall (fun _ ps => ps <> ∅) (unmark id p marks).
Proof.
  intros Hm. unfold unmark. destruct (marks !! id); [|done].
  destruct (decide _); [by apply map_Forall_delete|by apply map_Forall_insert_2].
Qed.

Lemma insert_named_ok e v n s :
  store_ok s -> store_ok (PropagationStore.insert_with_stamp_value_and_filename e v n s).
Proof.
  intros [Hk Hs Hn Hh Hu]. split; simpl; try done.
  - by apply map_Forall_insert_2.
  - by rewrite !dom_insert_L, Hs.
  - by rewrite !dom_insert_L, Hn.
Qed.

Lemma purge_ok s id : store_ok s -> store_ok (PropagationStore.purge s id).
Proof.
  intros [Hk Hs Hn Hh Hu]. split; simpl; try by apply map_Forall_delete.
  - by rewrite !dom_delete_L, Hs.
  - by rewrite !dom_delete_L, Hn.
Qed.

Lemma purge_all_ok ids s : store_ok s -> store_ok (foldl PropagationStore.purge s ids).
Proof. revert s. induction ids as [|id ids IH]; intros s Hs; simpl; [done|]. by apply IH, purge_ok. Qed.

Lemma remove_ok id s : store_ok s -> store_ok (fst (PropagationStore.remove id s)).
Proof.
  intros [Hk Hs Hn Hh Hu]. split; simpl; try done.
  - by apply map_Forall_delete.
  - by rewrite !dom_delete_L, Hs.
  - by rewrite !dom_delete_L, Hn.
Qed.

Lemma marks_ok h u s :
  store_ok s -> map_Forall (fun _ ps => ps <> ∅) h -> map_Forall (fun _ ps => ps <> ∅) u ->
  store_ok (PropagationStore.set_handled h (PropagationStore.set_unhandled u s)).
Proof. intros [Hk Hs Hn _ _] Hh Hu. by split. Qed.

Lemma store_step_ok s s' : store_step s s' -> store_ok s -> store_ok s'.
Proof.
  intros Hstep Hs. pose proof Hs as [Hk Hv Hn Hh Hu].
  destruct Hstep as [s e|s e v|s e v n|s id|s now age|s id p|s id p|s id p|s id p].
  - by apply insert_named_ok.
  - by apply insert_named_ok.
  - by apply insert_named_ok.
  - by apply remove_ok.
  - by apply purge_all_ok.
  - unfold PropagationStore.add_handled_peer. destruct (PropagationStore.has s id); [|done].
    split; try done. by apply mark_nonempty.
  - unfold PropagationStore.remove_handled_peer. destruct (PropagationStore.has s id); [|done].
    split; try done. by apply unmark_nonempty.
  - unfold PropagationStore.add_unhandled_peer. destruct (PropagationStore.has s id); [|done].
    split; try done. by apply mark_nonempty.
  - unfold PropagationStore.remove_unhandled_peer. destruct (PropagationStore.has s id); [|done].
    split; try done. by apply unmark_nonempty.
Qed.

Lemma store_new_ok : store_ok PropagationStore.new.
Proof.
  split; cbn [PropagationStore.new PropagationStore.entries PropagationStore.stamp_values
    PropagationStore.filenames PropagationStore.handled_peers PropagationStore.unhandled_peers];
    [apply map_Forall_empty|by rewrite !dom_empty_L..|apply map_Forall_empty|apply map_Forall_empty].
Qed.

(** * Expiry *)

Lemma purge_all_lookup ids s id :
  let s' := foldl PropagationStore.purge s ids in
  PropagationStore.entries s' !! id = (if decide (id ∈ ids) then None else PropagationStore.entries s !! id) /\
  PropagationStore.stamp_values s' !! id = (if decide (id ∈ ids) then None else PropagationStore.stamp_values s !! id) /\
  PropagationStore.filenames s' !! id = (if decide (id ∈ ids) then None else PropagationStore.filenames s !! id) /\
  PropagationStore.handled_peers s' !! id = (if decide (id ∈ ids) then None else PropagationStore.handled_peers s !! id) /\
  PropagationStore.unhandled_peers s' !! id = (if decide (id ∈ ids) then None else PropagationStore.unhandled_peers s !! id).
Proof.
  revert s. induction ids as [|x ids IH]; intros s; cbn [foldl].
  { destruct (decide (id ∈ [])) as [Hin|]; [by apply elem_of_nil in Hin|done]. }
  destruct (IH (PropagationStore.purge s x)) as (-> & -> & -> & -> & ->).
  cbn [PropagationStore.purge PropagationStore.entries PropagationStore.stamp_values
    PropagationStore.filenames PropagationStore.handled_peers PropagationStore.unhandled_peers].
  destruct (decide (id ∈ x :: ids)) as [Hc|Hc]; rewrite elem_of_cons in Hc;
    destruct (decide (id ∈ ids)) as [Hin|Hin]; try tauto.
  - destruct Hc as [->|Hc]; [by rewrite !lookup_delete_eq|done].
  - rewrite !lookup_delete_ne by naive_solver. done.
Qed.

Lemma elem_of_expired_ids cutoff s id :
  id ∈ PropagationStore.expired_ids cutoff s <->
  exists e, PropagationStore.entries s !! id = Some e /\ PropagationStore.timestamp_ms e <= cutoff.
Proof.
  unfold PropagationStore.expired_ids. rewrite list_elem_of_fmap. split.
  - intros ([id' e] & -> & [Ht Hin]%list_elem_of_filter). apply elem_of_hash_iter in Hin.
    exists e. split; [done|]. by apply Z.leb_le.
  - intros (e & He & Ht). exists (id, e). split; [done|]. apply list_elem_of_filter.
    split; [by apply Z.leb_le|]. by apply elem_of_hash_iter.
Qed.

End Invariant.

(** In every store reached by the store's operations, entries are filed
    under their own id, exactly the stored messages have a stamp value and a
    file name, and no message has an empty peer set. *)
Theorem propagation_store_invariant `{Crypto} `{Msgpack} `{F64Display} `{HashIter}
  (s : PropagationStore.t) (Hreach : rtc store_step PropagationStore.new s) : store_ok s.
Proof.
  pose proof store_new_ok as Hnew. revert Hnew.
  induction Hreach as [|s1 s2 s3 Hs _ IH]; [done|]. intros H1'. apply IH. by eapply store_step_ok.
Qed.

Definition sample_entry : PropagationEntry :=
  mkPropEntry (arr_of 32 [x01]) [x02; x03] (f64_of_Z 100) None None None.

Lemma propagation_store_invariant_witness :
  exists s, store_ok s /\ PropagationStore.stamp_value s (arr_of 32 [x01]) = Some 7.
Proof.
  exists (PropagationStore.insert_with_stamp_value (D := fun _ => "100") sample_entry 7
            PropagationStore.new).
  split; [|vm_compute; reflexivity].
  apply (@propagation_store_invariant toy_crypto bit_codec (fun _ => "100") key_order).
  apply rtc_once, (st_insert_value (D := fun _ => "100")).
Defined.

(** Expiry is exact: [remove_older_than] drops, from all five maps, the
    messages whose timestamp in milliseconds is at or before the cutoff, keeps
    every other message as it was, and returns how many it dropped. *)
Theorem remove_older_than_exact `{HashIter} (now_ms max_age_ms : Z) (s : PropagationStore.t)
  (id : TransientId) :
  let cutoff := sat_sub now_ms max_age_ms in
  let '(s', n) := PropagationStore.remove_older_than now_ms max_age_ms s in
  n = length (PropagationStore.expired_ids cutoff s) /\ NoDup (PropagationStore.expired_ids cutoff s) /\
  (PropagationStore.has s id = true /\ PropagationStore.has s' id = false <->
     exists e, PropagationStore.get s id = Some e /\ PropagationStore.timestamp_ms e <= cutoff) /\
  (PropagationStore.has s' id = true ->
     PropagationStore.get s' id = PropagationStore.get s id /\
     PropagationStore.stamp_value s' id = PropagationStore.stamp_value s id /\
     PropagationStore.filename s' id = PropagationStore.filename s id /\
     PropagationStore.handled_peers s' !! id = PropagationStore.handled_peers s !! id /\
     PropagationStore.unhandled_peers s' !! id = PropagationStore.unhandled_peers s !! id) /\
  (forall p, PropagationStore.has s id = true -> PropagationStore.has s' id = false ->
     PropagationStore.is_peer_handled s' id p = false /\
     PropagationStore.is_peer_unhandled s' id p = false).
Proof.
  intros cutoff. unfold PropagationStore.remove_older_than. fold cutoff. cbv zeta.
  set (ids := PropagationStore.expired_ids cutoff s).
  destruct (purge_all_lookup ids s id) as (He & Hv & Hf & Hh & Hu).
  pose proof (elem_of_expired_ids cutoff s id) as Hin. fold ids in Hin.
  unfold PropagationStore.has, PropagationStore.get, PropagationStore.stamp_value,
    PropagationStore.filename, PropagationStore.is_peer_handled, PropagationStore.is_peer_unhandled,
    marked.
  rewrite He, Hv, Hf, Hh, Hu, !bool_decide_eq_true, !bool_decide_eq_false.
  split_and!; [done| | |by destruct (decide (id ∈ ids)) as [Hi|Hi]; [intros [? ?]|]|].
  - apply (sublist_NoDup _ (hash_keys (PropagationStore.entries s))); [apply NoDup_hash_keys|].
    apply fmap_sublist, sublist_filter.
  - destruct (decide (id ∈ ids)) as [Hi|Hi].
    + split; [intros _; by apply Hin|]. intros (e & Hes & _). rewrite Hes. split; [by eexists|].
      by intros [? ?].
    + split; [tauto|]. intros Hex. by apply Hin in Hex.
  - intros p Hs Hs'. destruct (decide (id ∈ ids)); [done|]. congruence.
Qed.

(** [remove] forgets the message, its stamp value and its file name, but
    not which peers have handled it: when the same message is stored again,
    every peer that had it marked before still has it marked, so it is not
    offered to those peers any more.  [remove_older_than] clears the marks. *)
Theorem remove_keeps_peer_marks `{F64Display} (id : TransientId) (e : PropagationEntry) (v : Z)
  (p : PeerId) (s : PropagationStore.t) :
  let s1 := fst (PropagationStore.remove id s) in
  let s2 := PropagationStore.insert_with_stamp_value e v s1 in
  PropagationStore.has s1 id = false /\ PropagationStore.stamp_value s1 id = None /\
  PropagationStore.filename s1 id = None /\
  PropagationStore.is_peer_handled s1 id p = PropagationStore.is_peer_handled s id p /\
  PropagationStore.is_peer_handled s2 id p = PropagationStore.is_peer_handled s id p /\
  PropagationStore.is_peer_unhandled s2 id p = PropagationStore.is_peer_unhandled s id p.
Proof.
  cbv zeta. split_and!; try done.
  - unfold PropagationStore.has. simpl. rewrite lookup_delete_eq. done.
  - unfold PropagationStore.stamp_value. simpl. apply lookup_delete_eq.
  - unfold PropagationStore.filename. simpl. apply lookup_delete_eq.
Qed.
