(* ===== verification/Peer.v ===== *)
(** [lxmf-rs/src/rns/peer.rs]: propagation peers.  [Peer] holds a peer's
    synchronisation state, counters, keys and queues; [PeerTable] the known
    peers; [PeerSyncSession] one side of a synchronisation; and the functions
    at the end the messages peers exchange. *)

From Stdlib Require Import ZArith Lia Permutation.
From Stdlib Require Import Strings.Byte.
From stdpp Require Import base gmap strings numbers list.
From coqutil Require Import Datatypes.RecordSetters.
From S2P Require Import Prelude Float Msgpack Crypto Stamp Rns PropStore.
Import DoubleBraceUpdate.

Local Open Scope Z_scope.

(** * Requests, responses, states *)

Inductive PeerSyncRequest : Type :=
| Offer (peering_key : list byte) (available : list (arr 32))
| MessageGetList
| MessageGet (wants haves : list (arr 32)) (transfer_limit_kb : option f64)
| MessageAck (delivered : list (arr 32)).

Inductive PeerSyncResponse : Type :=
| RError (code : Z)
| RBool (flag : bool)
| RIdList (ids : list (arr 32))
| RPayload (items : list (list byte)).

Inductive PeerSyncState : Type := SIdle | SOffering | SAwaitingPayload | SCompleted | SFailed.

Definition PEER_ERROR_INVALID_KEY : Z := 0xf3.
Definition DEFAULT_PEERING_COST : Z := 18.
Definition DEFAULT_PROPAGATION_STAMP_COST : Z := 16.
Definition DEFAULT_PROPAGATION_STAMP_FLEX : Z := 3.
Definition PROPAGATION_INVALID_STAMP_THROTTLE_MS : Z := 180000.
Definition STRATEGY_LAZY : Z := 0x01.
Definition STRATEGY_PERSISTENT : Z := 0x02.
Definition DEFAULT_SYNC_STRATEGY : Z := STRATEGY_PERSISTENT.
Definition PEER_BACKOFF_STEP_MS : Z := 12 * 60 * 1000.
Definition PEER_BACKOFF_MAX_MS : Z := 14 * 24 * 60 * 60 * 1000.

Module PeerSyncSession.

Record t : Type := mk {
  state : PeerSyncState;
  available : list (arr 32);
  last_offer : list (arr 32)
}.

Definition new : t := mk SIdle [] [].

Definition offer (peering_key : list byte) (available : list (arr 32)) (s : t) :
    t * PeerSyncRequest :=
  (mk SOffering available available, Offer peering_key available).

Definition on_offer_response (response : PeerSyncResponse) (s : t) : t * PeerSyncState :=
  let st := match response with
            | RBool true | RIdList _ => SAwaitingPayload
            | RBool false | RPayload _ => SCompleted
            | RError _ => SFailed
            end in
  (mk st (available s) (last_offer s), st).

End PeerSyncSession.

(** * A peer *)

Inductive PeerState : Type := Idle | OfferSent | AwaitingPayload | Backoff.

#[export] Instance PeerState_eq_dec : EqDecision PeerState.
Proof. solve_decision. Defined.

Record Peer : Type := mkPeer {
  p_id : PeerId;
  p_state : PeerState;
  last_sync_ms : Z;
  last_attempt_ms : Z;
  next_sync_ms : Z;
  backoff_ms : Z;
  failures : Z;
  last_heard_ms : Z;
  rx_bytes : Z;
  tx_bytes : Z;
  messages_offered : Z;
  messages_outgoing : Z;
  messages_incoming : Z;
  messages_unhandled : Z;
  peering_key : option (list byte);
  peering_key_value : option Z;
  sync_transfer_rate : f64;
  handled_messages_queue : list TransientId;
  unhandled_messages_queue : list TransientId;
  sync_strategy : Z;
  peering_cost : option Z;
  metadata : option (gmap string (list byte));
  peering_timebase : Z;
  link_establishment_rate : f64;
  propagation_transfer_limit : option f64;
  propagation_sync_limit : option Z;
  propagation_stamp_cost : option Z;
  propagation_stamp_cost_flexibility : option Z;
  currently_transferring_messages : option (list TransientId);
  current_sync_transfer_started : option Z
}.

Module Peer.

Definition new (id : PeerId) (now_ms : Z) : Peer :=
  mkPeer id Idle 0 0 now_ms 0 0 0 0 0 0 0 0 0 None None f64_zero [] [] DEFAULT_SYNC_STRATEGY
    None None 0 f64_zero None None None None None None.

Definition set_sync_transfer_rate (rate : f64) (p : Peer) : Peer :=
  p {{ sync_transfer_rate := rate }}.

Definition is_alive (p : Peer) : bool := negb (bool_decide (p_state p = Backoff)).

Definition set_alive (alive : bool) (p : Peer) : Peer :=
  if negb alive && bool_decide (p_state p = Idle) then p {{ p_state := Backoff }}
  else if alive && bool_decide (p_state p = Backoff) then p {{ p_state := Idle }}
  else p.

Definition set_last_heard_ms (ms : Z) (p : Peer) : Peer := p {{ last_heard_ms := ms }}.
Definition set_next_sync_attempt_ms (ms : Z) (p : Peer) : Peer := p {{ next_sync_ms := ms }}.
Definition set_sync_strategy (strategy : Z) (p : Peer) : Peer := p {{ sync_strategy := strategy }}.
Definition set_peering_cost (cost : option Z) (p : Peer) : Peer := p {{ peering_cost := cost }}.
Definition set_metadata (m : option (gmap string (list byte))) (p : Peer) : Peer :=
  p {{ metadata := m }}.
Definition set_peering_timebase (timebase : Z) (p : Peer) : Peer :=
  p {{ peering_timebase := timebase }}.
Definition set_link_establishment_rate (rate : f64) (p : Peer) : Peer :=
  p {{ link_establishment_rate := rate }}.
Definition set_propagation_transfer_limit (limit : option f64) (p : Peer) : Peer :=
  p {{ propagation_transfer_limit := limit }}.
Definition set_propagation_sync_limit (limit : option Z) (p : Peer) : Peer :=
  p {{ propagation_sync_limit := limit }}.
Definition set_propagation_stamp_cost (cost : option Z) (p : Peer) : Peer :=
  p {{ propagation_stamp_cost := cost }}.
Definition set_propagation_stamp_cost_flexibility (flex : option Z) (p : Peer) : Peer :=
  p {{ propagation_stamp_cost_flexibility := flex }}.
Definition set_currently_transferring_messages (ms : option (list TransientId)) (p : Peer) : Peer :=
  p {{ currently_transferring_messages := ms }}.
Definition set_current_sync_transfer_started (started : option Z) (p : Peer) : Peer :=
  p {{ current_sync_transfer_started := started }}.

Definition unhandled_messages_count (p : Peer) : nat := length (unhandled_messages_queue p).
Definition queue_unhandled_message (transient_id : TransientId) (p : Peer) : Peer :=
  p {{ unhandled_messages_queue := unhandled_messages_queue p ++ [transient_id] }}.
Definition queue_handled_message (transient_id : TransientId) (p : Peer) : Peer :=
  p {{ handled_messages_queue := handled_messages_queue p ++ [transient_id] }}.
Definition queued_items (p : Peer) : bool :=
  negb (bool_decide (handled_messages_queue p = []))
  || negb (bool_decide (unhandled_messages_queue p = [])).

Section Queues.
Context `{HI : HashIter}.

(** One turn of each [while let] loop of [process_queues]. *)
Definition drain_handled (id : PeerId) (handled unhandled : gset TransientId)
    (store : PropagationStore.t) (transient_id : TransientId) : PropagationStore.t :=
  let store := if bool_decide (transient_id ∉ handled)
               then fst (PropagationStore.add_handled_peer transient_id id store) else store in
  if bool_decide (transient_id ∈ unhandled)
  then PropagationStore.remove_unhandled_peer transient_id id store else store.

Definition drain_unhandled (id : PeerId) (handled unhandled : gset TransientId)
    (store : PropagationStore.t) (transient_id : TransientId) : PropagationStore.t :=
  if bool_decide (transient_id ∉ handled) && bool_decide (transient_id ∉ unhandled)
  then fst (PropagationStore.add_unhandled_peer transient_id id store) else store.

Definition process_queues (p : Peer) (store : PropagationStore.t) : Peer * PropagationStore.t :=
  let handled := list_to_set (PropagationStore.handled_messages_for_peer store (p_id p)) in
  let unhandled := list_to_set (PropagationStore.unhandled_messages_for_peer store (p_id p)) in
  let store := foldl (drain_handled (p_id p) handled unhandled) store (handled_messages_queue p) in
  let store := foldl (drain_unhandled (p_id p) handled unhandled) store
                 (unhandled_messages_queue p) in
  (p {{ handled_messages_queue := []; unhandled_messages_queue := [] }}, store).

Definition handled_messages (p : Peer) (store : PropagationStore.t) : list TransientId :=
  PropagationStore.handled_messages_for_peer store (p_id p).
Definition unhandled_messages (p : Peer) (store : PropagationStore.t) : list TransientId :=
  PropagationStore.unhandled_messages_for_peer store (p_id p).
End Queues.

Definition peering_key_ready (p : Peer) : bool :=
  match peering_cost p with
  | None => false
  | Some cost => match peering_key_value p with Some value => cost <=? value | None => false end
  end.

Definition acceptance_rate (p : Peer) : f64 :=
  if 0 <? messages_offered p
  then f64_div (f64_of_Z (messages_outgoing p)) (f64_of_Z (messages_offered p))
  else f64_zero.

(** * The synchronisation state machine *)

Definition should_sync (p : Peer) (now_ms : Z) : bool :=
  (bool_decide (p_state p = Idle) || bool_decide (p_state p = Backoff))
  && (next_sync_ms p <=? now_ms).

Definition on_offer_sent (now_ms : Z) (p : Peer) : Peer * PeerState :=
  (p {{ p_state := OfferSent; last_attempt_ms := now_ms }}, OfferSent).

Definition on_sync_complete (now_ms : Z) (p : Peer) : Peer :=
  p {{ last_sync_ms := now_ms; last_attempt_ms := now_ms; failures := 0; backoff_ms := 0;
       next_sync_ms := now_ms; p_state := Idle }}.

Definition on_failure (now_ms : Z) (p : Peer) : Peer * PeerState :=
  let next := if backoff_ms p =? 0 then PEER_BACKOFF_STEP_MS
              else sat_add64 (backoff_ms p) PEER_BACKOFF_STEP_MS in
  let backoff := Z.min next PEER_BACKOFF_MAX_MS in
  (p {{ failures := sat_add32 (failures p) 1; backoff_ms := backoff;
        next_sync_ms := sat_add64 now_ms backoff; p_state := Backoff }}, Backoff).

Definition on_offer_response (response : PeerSyncResponse) (now_ms : Z) (p : Peer) :
    Peer * PeerState :=
  match response with
  | RBool true | RIdList _ => (p {{ p_state := AwaitingPayload }}, AwaitingPayload)
  | RBool false | RPayload _ => ((on_sync_complete now_ms p) {{ p_state := Idle }}, Idle)
  | RError _ => ((fst (on_failure now_ms p)) {{ p_state := Backoff }}, Backoff)
  end.

Definition mark_heard (now_ms : Z) (p : Peer) : Peer := p {{ last_heard_ms := now_ms }}.

Definition on_payload_complete (now_ms : Z) (p : Peer) : Peer * PeerState :=
  let p := on_sync_complete now_ms p in (p, p_state p).

Definition on_timeout (now_ms : Z) (p : Peer) : Peer * PeerState := on_failure now_ms p.

Definition throttle (now_ms throttle_ms : Z) (p : Peer) : Peer :=
  p {{ failures := sat_add32 (failures p) 1; backoff_ms := throttle_ms;
       next_sync_ms := sat_add64 now_ms throttle_ms; p_state := Backoff }}.

End Peer.

(** * The peer table *)

Module PeerTable.
Section Table.
Context `{HI : HashIter}.

Definition new : gmap PeerId Peer := ∅.

(** [upsert] hands out the peer for the caller to change. *)
Definition upsert (id : PeerId) (now_ms : Z) (peers : gmap PeerId Peer) : gmap PeerId Peer * Peer :=
  match peers !! id with
  | Some p => (peers, p)
  | None => let p := Peer.new id now_ms in (<[id := p]> peers, p)
  end.

Definition get (id : PeerId) (peers : gmap PeerId Peer) : option Peer := peers !! id.

(** [if let Some(peer) = table.get_mut(id) { f(peer) }] *)
Definition update (f : Peer -> Peer) (id : PeerId) (peers : gmap PeerId Peer) : gmap PeerId Peer :=
  alter f id peers.

(** [min_by_key]: the first of the smallest. *)
Fixpoint min_by_key {A} (key : A -> Z) (l : list A) : option A :=
  match l with
  | [] => None
  | x :: l' => match min_by_key key l' with
               | Some y => if key y <? key x then Some y else Some x
               | None => Some x
               end
  end.

Definition next_ready (now_ms : Z) (peers : gmap PeerId Peer) : option PeerId :=
  p_id <$> min_by_key next_sync_ms
             (filter (fun p => Peer.should_sync p now_ms = true) (hash_values peers)).

Definition len (peers : gmap PeerId Peer) : nat := size peers.

End Table.
End PeerTable.

Record PeeringValidation : Type := mkPeeringValidation {
  local_identity_hash : arr 16;
  pv_target_cost : Z
}.

Record PropagationValidation : Type := mkPropagationValidation {
  prop_stamp_cost : Z;
  prop_stamp_cost_flex : Z
}.

(** * Processing the queues *)

Section QueueLemmas.
Context `{HI : HashIter}.
Implicit Types s : PropagationStore.t.

(** What a mark becomes when some identifiers are added or removed for one
    peer, provided the store has the message. *)
Definition hit (pid : PeerId) (ids : list TransientId) s (id : TransientId) (q : PeerId) : bool :=
  bool_decide (id ∈ ids) && bool_decide (q = pid) && PropagationStore.has s id.

Lemma hit_nil pid s id q : hit pid [] s id q = false.
Proof. unfold hit. rewrite bool_decide_false; [done|]. apply not_elem_of_nil. Qed.

Lemma hit_cons pid x ids s id q :
  hit pid (x :: ids) s id q = hit pid [x] s id q || hit pid ids s id q.
Proof.
  unfold hit. rewrite (bool_decide_ext (id ∈ x :: ids) (id ∈ [x] \/ id ∈ ids)) by set_solver.
  rewrite bool_decide_or. destruct (bool_decide (id ∈ [x])), (bool_decide (id ∈ ids)), (bool_decide _),
    (PropagationStore.has s id); done.
Qed.

Lemma hit_one pid x s id q :
  hit pid [x] s id q =
  bool_decide (id = x) && bool_decide (q = pid) && PropagationStore.has s x.
Proof.
  unfold hit. rewrite (bool_decide_ext (id ∈ [x]) (id = x)) by set_solver.
  destruct (decide (id = x)) as [->|Hne]; [done|]. by rewrite !(bool_decide_false (id = x)).
Qed.

(** A store that differs only in its marks. *)
Definition same_messages s s' : Prop :=
  PropagationStore.entries s' = PropagationStore.entries s /\
  PropagationStore.stamp_values s' = PropagationStore.stamp_values s /\
  PropagationStore.filenames s' = PropagationStore.filenames s.

Lemma same_messages_has s s' id :
  same_messages s s' -> PropagationStore.has s' id = PropagationStore.has s id.
Proof. intros [He _]. unfold PropagationStore.has. by rewrite He. Qed.

Lemma same_messages_trans s1 s2 s3 :
  same_messages s1 s2 -> same_messages s2 s3 -> same_messages s1 s3.
Proof. unfold same_messages. intuition congruence. Qed.

Lemma add_handled_spec x pid s :
  let s' := fst (PropagationStore.add_handled_peer x pid s) in
  same_messages s s' /\ PropagationStore.unhandled_peers s' = PropagationStore.unhandled_peers s /\
  forall id q, PropagationStore.is_peer_handled s' id q =
               PropagationStore.is_peer_handled s id q || hit pid [x] s id q.
Proof.
  intros s'. subst s'. unfold PropagationStore.add_handled_peer, PropagationStore.is_peer_handled.
  setoid_rewrite hit_one. destruct (PropagationStore.has s x); simpl; split_and!; try done.
  - intros id q. rewrite marked_mark, andb_true_r. apply orb_comm.
  - intros id q. by rewrite andb_false_r, orb_false_r.
Qed.

Lemma add_unhandled_spec x pid s :
  let s' := fst (PropagationStore.add_unhandled_peer x pid s) in
  same_messages s s' /\ PropagationStore.handled_peers s' = PropagationStore.handled_peers s /\
  forall id q, PropagationStore.is_peer_unhandled s' id q =
               PropagationStore.is_peer_unhandled s id q || hit pid [x] s id q.
Proof.
  intros s'. subst s'. unfold PropagationStore.add_unhandled_peer, PropagationStore.is_peer_unhandled.
  setoid_rewrite hit_one. destruct (PropagationStore.has s x); simpl; split_and!; try done.
  - intros id q. rewrite marked_mark, andb_true_r. apply orb_comm.
  - intros id q. by rewrite andb_false_r, orb_false_r.
Qed.

Lemma remove_unhandled_spec x pid s :
  let s' := PropagationStore.remove_unhandled_peer x pid s in
  same_messages s s' /\ PropagationStore.handled_peers s' = PropagationStore.handled_peers s /\
  forall id q, PropagationStore.is_peer_unhandled s' id q =
               PropagationStore.is_peer_unhandled s id q && negb (hit pid [x] s id q).
Proof.
  intros s'. subst s'. unfold PropagationStore.remove_unhandled_peer, PropagationStore.is_peer_unhandled.
  setoid_rewrite hit_one. destruct (PropagationStore.has s x); simpl; split_and!; try done.
  - intros id q. rewrite marked_unmark, andb_true_r. apply andb_comm.
  - intros id q. by rewrite andb_false_r, andb_true_r.
Qed.

(** Guarded by membership of the message in a set, a change that only concerns
    one message can be read as guarded for every message. *)
Lemma hit_guard (b : TransientId -> bool) pid x s id q :
  b id && hit pid [x] s id q = (if b x then hit pid [x] s id q else false).
Proof.
  rewrite hit_one. destruct (decide (id = x)) as [->|Hne]; [by destruct (b x)|].
  rewrite (bool_decide_false (id = x)) by done. rewrite andb_false_r. by destruct (b x).
Qed.

Lemma drain_handled_step pid (H U : gset TransientId) s x :
  let s' := Peer.drain_handled pid H U s x in
  same_messages s s' /\
  forall id q,
    PropagationStore.is_peer_handled s' id q =
      PropagationStore.is_peer_handled s id q || (bool_decide (id ∉ H) && hit pid [x] s id q) /\
    PropagationStore.is_peer_unhandled s' id q =
      PropagationStore.is_peer_unhandled s id q && negb (bool_decide (id ∈ U) && hit pid [x] s id q).
Proof.
  unfold Peer.drain_handled. cbv zeta.
  set (s1 := if bool_decide (x ∉ H) then _ else s).
  assert (same_messages s s1 /\ PropagationStore.unhandled_peers s1 = PropagationStore.unhandled_peers s /\
          forall id q, PropagationStore.is_peer_handled s1 id q =
            PropagationStore.is_peer_handled s id q || (bool_decide (id ∉ H) && hit pid [x] s id q))
    as (Hm1 & Hu1 & Hh1).
  { setoid_rewrite (hit_guard (fun id => bool_decide (id ∉ H))). subst s1.
    destruct (bool_decide (x ∉ H)); [apply add_handled_spec|].
    split_and!; [done..|]. intros id q. by rewrite orb_false_r. }
  assert (forall id q, hit pid [x] s1 id q = hit pid [x] s id q) as Hhit.
  { intros id q. unfold hit. by rewrite (same_messages_has s s1). }
  setoid_rewrite (hit_guard (fun id => bool_decide (id ∈ U))).
  destruct (bool_decide (x ∈ U)).
  - destruct (remove_unhandled_spec x pid s1) as (Hm2 & Hh2 & Hu2).
    split; [by eapply same_messages_trans|]. intros id q. split.
    + rewrite <- Hh1. unfold PropagationStore.is_peer_handled. by rewrite Hh2.
    + rewrite Hu2, Hhit. unfold PropagationStore.is_peer_unhandled. by rewrite Hu1.
  - split; [done|]. intros id q. split; [apply Hh1|].
    unfold PropagationStore.is_peer_unhandled. by rewrite Hu1, andb_true_r.
Qed.

Lemma drain_handled_all pid (H U : gset TransientId) ids s :
  let s' := foldl (Peer.drain_handled pid H U) s ids in
  same_messages s s' /\
  forall id q,
    PropagationStore.is_peer_handled s' id q =
      PropagationStore.is_peer_handled s id q || (bool_decide (id ∉ H) && hit pid ids s id q) /\
    PropagationStore.is_peer_unhandled s' id q =
      PropagationStore.is_peer_unhandled s id q && negb (bool_decide (id ∈ U) && hit pid ids s id q).
Proof.
  revert s. induction ids as [|x ids IH]; intros s; cbn [foldl].
  { split; [done|]. intros id q. rewrite hit_nil, !andb_false_r, orb_false_r, andb_true_r. done. }
  destruct (drain_handled_step pid H U s x) as [Hm1 H1].
  destruct (IH (Peer.drain_handled pid H U s x)) as [Hm2 H2].
  split; [by eapply same_messages_trans|]. intros id q.
  destruct (H1 id q) as [H1h H1u]. destruct (H2 id q) as [H2h H2u].
  assert (hit pid ids (Peer.drain_handled pid H U s x) id q = hit pid ids s id q) as Heq.
  { unfold hit. by rewrite (same_messages_has s). }
  rewrite hit_cons, H2h, H2u, H1h, H1u, Heq.
  destruct (hit pid [x] s id q), (hit pid ids s id q), (bool_decide (id ∉ H)), (bool_decide (id ∈ U)),
    (PropagationStore.is_peer_handled s id q), (PropagationStore.is_peer_unhandled s id q); done.
Qed.

Lemma drain_unhandled_step pid (H U : gset TransientId) s x :
  let s' := Peer.drain_unhandled pid H U s x in
  same_messages s s' /\ PropagationStore.handled_peers s' = PropagationStore.handled_peers s /\
  forall id q,
    PropagationStore.is_peer_unhandled s' id q =
      PropagationStore.is_peer_unhandled s id q ||
      (bool_decide (id ∉ H) && bool_decide (id ∉ U) && hit pid [x] s id q).
Proof.
  unfold Peer.drain_unhandled. cbv zeta.
  setoid_rewrite (hit_guard (fun id => bool_decide (id ∉ H) && bool_decide (id ∉ U))).
  destruct (bool_decide (x ∉ H) && bool_decide (x ∉ U)); [apply add_unhandled_spec|].
  split_and!; [done..|]. intros id q. by rewrite orb_false_r.
Qed.

Lemma drain_unhandled_all pid (H U : gset TransientId) ids s :
  let s' := foldl (Peer.drain_unhandled pid H U) s ids in
  same_messages s s' /\ PropagationStore.handled_peers s' = PropagationStore.handled_peers s /\
  forall id q,
    PropagationStore.is_peer_unhandled s' id q =
      PropagationStore.is_peer_unhandled s id q ||
      (bool_decide (id ∉ H) && bool_decide (id ∉ U) && hit pid ids s id q).
Proof.
  revert s. induction ids as [|x ids IH]; intros s; cbn [foldl].
  { split_and!; [done..|]. intros id q. by rewrite hit_nil, andb_false_r, orb_false_r. }
  destruct (drain_unhandled_step pid H U s x) as (Hm1 & Hh1 & Hu1).
  destruct (IH (Peer.drain_unhandled pid H U s x)) as (Hm2 & Hh2 & Hu2).
  split_and!; [by eapply same_messages_trans|congruence|]. intros id q.
  assert (hit pid ids (Peer.drain_unhandled pid H U s x) id q = hit pid ids s id q) as Heq.
  { unfold hit. by rewrite (same_messages_has s). }
  rewrite Hu2, Hu1, Heq, (hit_cons pid x ids).
  destruct (hit pid [x] s id q), (hit pid ids s id q), (bool_decide (id ∉ H)), (bool_decide (id ∉ U)),
    (PropagationStore.is_peer_unhandled s id q); done.
Qed.

End QueueLemmas.

(** [process_queues] empties both queues and is exact on the store.  For
    the messages the store holds: each queued as handled becomes handled and is
    no longer unhandled if it was; each queued as unhandled becomes unhandled
    unless it already was handled or unhandled before the call.  Marks of other
    peers, and the messages themselves, are untouched. *)
Theorem process_queues_exact `{HashIter} (p : Peer) (s : PropagationStore.t)
  (id : TransientId) (q : PeerId) :
  let '(p', s') := Peer.process_queues p s in
  handled_messages_queue p' = [] /\ unhandled_messages_queue p' = [] /\ same_messages s s' /\
  PropagationStore.is_peer_handled s' id q =
    PropagationStore.is_peer_handled s id q || hit (p_id p) (handled_messages_queue p) s id q /\
  PropagationStore.is_peer_unhandled s' id q =
    (PropagationStore.is_peer_unhandled s id q
     && negb (hit (p_id p) (handled_messages_queue p) s id q))
    || (negb (PropagationStore.is_peer_handled s id q)
        && negb (PropagationStore.is_peer_unhandled s id q)
        && hit (p_id p) (unhandled_messages_queue p) s id q).
Proof.
  unfold Peer.process_queues.
  set (Hs := list_to_set (PropagationStore.handled_messages_for_peer s (p_id p)) : gset TransientId).
  set (Us := list_to_set (PropagationStore.unhandled_messages_for_peer s (p_id p)) : gset TransientId).
  cbv zeta. destruct (drain_handled_all (p_id p) Hs Us (handled_messages_queue p) s) as [Hm1 H1].
  set (s1 := foldl (Peer.drain_handled _ _ _) s _) in *.
  destruct (drain_unhandled_all (p_id p) Hs Us (unhandled_messages_queue p) s1) as (Hm2 & Hh2 & Hu2).
  set (s2 := foldl _ s1 _) in *. destruct (H1 id q) as [H1h H1u].
  assert (forall id, bool_decide (id ∈ Hs) = PropagationStore.is_peer_handled s id (p_id p)) as EH.
  { intros x. apply bool_decide_is. unfold Hs. rewrite elem_of_list_to_set. apply elem_of_messages_for_peer. }
  assert (forall id, bool_decide (id ∈ Us) = PropagationStore.is_peer_unhandled s id (p_id p)) as EU.
  { intros x. apply bool_decide_is. unfold Us. rewrite elem_of_list_to_set. apply elem_of_messages_for_peer. }
  split_and!; [done..|by eapply same_messages_trans| |].
  - unfold PropagationStore.is_peer_handled at 1. rewrite Hh2.
    change (PropagationStore.is_peer_handled s1 id q = PropagationStore.is_peer_handled s id q ||
      hit (p_id p) (handled_messages_queue p) s id q).
    rewrite H1h, bool_decide_not, EH. unfold hit. destruct (decide (q = p_id p)) as [->|Hq].
    + destruct (PropagationStore.is_peer_handled s id (p_id p)); done.
    + rewrite (bool_decide_false (q = p_id p)) by done. by rewrite !andb_false_r.
  - assert (hit (p_id p) (unhandled_messages_queue p) s1 id q =
            hit (p_id p) (unhandled_messages_queue p) s id q) as Heq.
    { unfold hit. by rewrite (same_messages_has s s1). }
    rewrite Hu2, H1u, Heq, !bool_decide_not, EH, EU. unfold hit.
    destruct (decide (q = p_id p)) as [->|Hq].
    + destruct (PropagationStore.is_peer_handled s id (p_id p)),
        (PropagationStore.is_peer_unhandled s id (p_id p)),
        (bool_decide (id ∈ handled_messages_queue p)), (bool_decide (id ∈ unhandled_messages_queue p)),
        (bool_decide (p_id p = p_id p)), (PropagationStore.has s id); done.
    + rewrite (bool_decide_false (q = p_id p)) by done. by rewrite !andb_false_r, !orb_false_r.
Qed.

(** * Backoff *)

(** A run of failures at the given times. *)
Definition fail_at (nows : list Z) (p : Peer) : Peer :=
  foldl (fun p now => fst (Peer.on_failure now p)) p nows.

Lemma fail_at_spec nows p k :
  0 <= k -> backoff_ms p = Z.min (k * PEER_BACKOFF_STEP_MS) PEER_BACKOFF_MAX_MS ->
  0 <= failures p <= u32_max ->
  backoff_ms (fail_at nows p) =
    Z.min ((k + Z.of_nat (length nows)) * PEER_BACKOFF_STEP_MS) PEER_BACKOFF_MAX_MS /\
  failures (fail_at nows p) = Z.min (failures p + Z.of_nat (length nows)) u32_max.
Proof.
  revert p k. induction nows as [|now nows IH]; intros p k Hk Hb Hf; cbn [fail_at foldl].
  { rewrite Z.add_0_r. simpl length. split; [done|lia]. }
  assert (backoff_ms (fst (Peer.on_failure now p)) =
          Z.min ((k + 1) * PEER_BACKOFF_STEP_MS) PEER_BACKOFF_MAX_MS) as Hb1.
  { destruct p. unfold Peer.on_failure. simpl in *. unfold constant, sat_add64, u64_max.
    unfold PEER_BACKOFF_STEP_MS, PEER_BACKOFF_MAX_MS in *.
    destruct (Z.eqb_spec backoff_ms0 0); lia. }
  assert (failures (fst (Peer.on_failure now p)) = Z.min (failures p + 1) u32_max) as Hf1
    by (by destruct p).
  destruct (IH (fst (Peer.on_failure now p)) (k + 1)) as [IHb IHf]; [lia|done|lia|].
  unfold fail_at in IHb, IHf. rewrite IHb, IHf, Hf1, length_cons. split; [f_equal; f_equal; lia|lia].
Qed.

Lemma fail_at_last nows now p :
  let p' := fail_at (nows ++ [now]) p in
  p_state p' = Backoff /\ next_sync_ms p' = sat_add64 now (backoff_ms p').
Proof. unfold fail_at. rewrite foldl_app. simpl. by destruct (foldl _ p nows). Qed.

(** Backoff grows linearly and is capped.  After [n] failures in a row a
    peer that had no backoff waits [min(n * 12 minutes, 14 days)] from the last
    one: it is in [Backoff], counts [n] more failures (saturating), and is not
    due for synchronisation before that time and is due from it on. *)
Theorem peer_backoff_closed_form (p : Peer) (nows : list Z) (now t : Z)
  (Hb : backoff_ms p = 0) (Hf : is_u32 (failures p) = true) :
  let p' := fail_at (nows ++ [now]) p in
  let n := Z.of_nat (length nows) + 1 in
  let wait := Z.min (n * PEER_BACKOFF_STEP_MS) PEER_BACKOFF_MAX_MS in
  p_state p' = Backoff /\ backoff_ms p' = wait /\
  failures p' = Z.min (failures p + n) u32_max /\
  Peer.should_sync p' t = (Z.min (now + wait) u64_max <=? t).
Proof.
  cbv zeta. destruct (fail_at_last nows now p) as [Hs Hn].
  unfold is_u32 in Hf.
  destruct (fail_at_spec (nows ++ [now]) p 0) as [Hb' Hf']; [lia| |lia|].
  { rewrite Hb. unfold PEER_BACKOFF_STEP_MS, PEER_BACKOFF_MAX_MS. lia. }
  rewrite length_app in Hb', Hf'. simpl length in Hb', Hf'.
  replace (0 + Z.of_nat (length nows + 1)) with (Z.of_nat (length nows) + 1) in Hb' by lia.
  replace (Z.of_nat (length nows + 1)) with (Z.of_nat (length nows) + 1) in Hf' by lia.
  split_and!; [done..|]. unfold Peer.should_sync. rewrite Hs, Hn, Hb'. done.
Qed.

Lemma peer_backoff_closed_form_witness :
  backoff_ms (fail_at [10; 20; 30] (Peer.new (arr_zero 16) 0)) = 2160000.
Proof.
  destruct (peer_backoff_closed_form (Peer.new (arr_zero 16) 0) [10; 20] 30 0) as (_ & H & _).
  - reflexivity.
  - reflexivity.
  - exact H.
Defined.

(** * The state machine's invariant *)

Inductive peer_step : Peer -> Peer -> Prop :=
| ps_offer p now : peer_step p (fst (Peer.on_offer_sent now p))
| ps_response p r now : peer_step p (fst (Peer.on_offer_response r now p))
| ps_payload p now : peer_step p (fst (Peer.on_payload_complete now p))
| ps_timeout p now : peer_step p (fst (Peer.on_timeout now p))
| ps_throttle p now : peer_step p (Peer.throttle now PROPAGATION_INVALID_STAMP_THROTTLE_MS p)
| ps_heard p now : peer_step p (Peer.mark_heard now p).

(** The backoff is bounded, a peer backs off exactly when it has failed since
    its last synchronisation, and only then can it be in [Backoff]. *)
Definition peer_inv (p : Peer) : Prop :=
  0 <= backoff_ms p <= PEER_BACKOFF_MAX_MS /\ 0 <= failures p <= u32_max /\
  (failures p = 0 <-> backoff_ms p = 0) /\ (p_state p = Backoff -> 0 < failures p).

Lemma on_failure_inv now p : peer_inv p -> peer_inv (fst (Peer.on_failure now p)).
Proof.
  destruct p. unfold peer_inv, Peer.on_failure. simpl. unfold constant, sat_add32, sat_add64.
  unfold u32_max, u64_max, PEER_BACKOFF_STEP_MS, PEER_BACKOFF_MAX_MS.
  intros (Hb & Hf & Hiff & Hs). destruct (Z.eqb_spec backoff_ms0 0); split_and!; lia.
Qed.

Lemma peer_step_inv p p' : peer_step p p' -> peer_inv p -> peer_inv p'.
Proof.
  intros Hstep Hp. destruct Hstep as [p now|p r now|p now|p now|p now|p now].
  - destruct p. unfold peer_inv in *. simpl in *. unfold constant. naive_solver.
  - assert (peer_inv (fst (Peer.on_failure now p))) as Hfail by by apply on_failure_inv.
    destruct r as [c|[]|ids|items].
    + replace (fst (Peer.on_offer_response (RError c) now p)) with (fst (Peer.on_failure now p));
        [done|by destruct p].
    + destruct p. unfold peer_inv in *. simpl in *. unfold constant. naive_solver.
    + destruct p. unfold peer_inv. simpl. unfold constant, PEER_BACKOFF_MAX_MS, u32_max. naive_solver lia.
    + destruct p. unfold peer_inv in *. simpl in *. unfold constant. naive_solver.
    + destruct p. unfold peer_inv. simpl. unfold constant, PEER_BACKOFF_MAX_MS, u32_max. naive_solver lia.
  - destruct p. unfold peer_inv. simpl. unfold constant, PEER_BACKOFF_MAX_MS, u32_max. naive_solver lia.
  - by apply on_failure_inv.
  - destruct p. unfold peer_inv in *. simpl in *.
    unfold constant, sat_add32, PROPAGATION_INVALID_STAMP_THROTTLE_MS, PEER_BACKOFF_MAX_MS, u32_max in *.
    destruct Hp as (? & ? & ? & ?). split_and!; lia.
  - destruct p. unfold peer_inv in *. simpl in *. unfold constant. naive_solver.
Qed.

(** C36. Along every run of offers, responses, completed payloads, timeouts and
    throttles from a new peer, the backoff stays within 14 days, is zero exactly
    when there was no failure since the last completed synchronisation, and the
    peer is in [Backoff] only after a failure. *)
Theorem peer_machine_invariant (id : PeerId) (now : Z) (p : Peer)
  (Hreach : rtc peer_step (Peer.new id now) p) : peer_inv p.
Proof.
  assert (peer_inv (Peer.new id now)) as Hnew.
  { unfold peer_inv. simpl. unfold PEER_BACKOFF_MAX_MS, u32_max. split_and!; try lia; done. }
  revert Hnew. induction Hreach as [|p1 p2 p3 Hs _ IH]; [done|]. intros H1. apply IH.
  by eapply peer_step_inv.
Qed.

Lemma peer_machine_invariant_witness :
  peer_inv (fst (Peer.on_timeout 5 (fst (Peer.on_offer_sent 1 (Peer.new (arr_zero 16) 0))))).
Proof.
  apply (peer_machine_invariant (arr_zero 16) 0).
  eapply rtc_l; [apply (ps_offer _ 1)|]. apply rtc_once, ps_timeout.
Defined.

(** * Choosing the next peer *)

Lemma min_by_key_spec {A} (key : A -> Z) l :
  match PeerTable.min_by_key key l with
  | Some x => x ∈ l /\ forall y, y ∈ l -> key x <= key y
  | None => l = []
  end.
Proof.
  induction l as [|a l IH]; simpl; [done|].
  destruct (PeerTable.min_by_key key l) as [y|].
  - destruct IH as [Hin Hmin]. destruct (Z.ltb_spec (key y) (key a)); (split; [set_solver|]).
    + intros z [->|Hz]%elem_of_cons; [lia|auto].
    + intros z [->|Hz]%elem_of_cons; [lia|]. specialize (Hmin z Hz). lia.
  - subst l. split; [set_solver|]. intros z [->|Hz]%elem_of_cons; [lia|]. by apply elem_of_nil in Hz.
Qed.

(** Peers are filed under their own id. *)
Definition table_ok (peers : gmap PeerId Peer) : Prop := map_Forall (fun id p => p_id p = id) peers.

Lemma table_upsert_ok id now peers : table_ok peers -> table_ok (fst (PeerTable.upsert id now peers)).
Proof.
  intros Ht. unfold PeerTable.upsert. destruct (peers !! id); simpl; [done|].
  by apply map_Forall_insert_2.
Qed.

(** [next_ready] answers a peer that is due whenever one is, and one whose
    due time is the earliest of all peers that are due. *)
Theorem next_ready_earliest `{HashIter} (now_ms : Z) (peers : gmap PeerId Peer)
  (Ht : table_ok peers) :
  match PeerTable.next_ready now_ms peers with
  | Some id => exists p, peers !! id = Some p /\ Peer.should_sync p now_ms = true /\
      forall id' p', peers !! id' = Some p' -> Peer.should_sync p' now_ms = true ->
        next_sync_ms p <= next_sync_ms p'
  | None => forall id p, peers !! id = Some p -> Peer.should_sync p now_ms = false
  end.
Proof.
  unfold PeerTable.next_ready.
  pose proof (min_by_key_spec next_sync_ms
    (filter (fun p => Peer.should_sync p now_ms = true) (hash_values peers))) as Hm.
  destruct (PeerTable.min_by_key _ _) as [p|]; simpl.
  - destruct Hm as [[Hs Hin]%list_elem_of_filter Hmin].
    apply elem_of_hash_values in Hin as [id Hid]. rewrite (Ht id p Hid).
    exists p. split_and!; [done..|]. intros id' p' Hp' Hs'. apply Hmin, list_elem_of_filter.
    split; [done|]. apply elem_of_hash_values. eauto.
  - intros id p Hp. destruct (Peer.should_sync p now_ms) eqn:E; [|done].
    assert (p ∈ filter (fun p => Peer.should_sync p now_ms = true) (hash_values peers)) as Hin.
    { apply list_elem_of_filter. split; [done|]. apply elem_of_hash_values. eauto. }
    rewrite Hm in Hin. by apply elem_of_nil in Hin.
Qed.

Lemma next_ready_earliest_witness :
  PeerTable.next_ready (HI := key_order) 7
    (fst (PeerTable.upsert (arr_zero 16) 5 PeerTable.new)) <> None.
Proof.
  pose proof (@next_ready_earliest key_order 7
    (fst (PeerTable.upsert (arr_zero 16) 5 PeerTable.new))
    (table_upsert_ok _ _ _ (map_Forall_empty _))) as H.
  destruct (PeerTable.next_ready _ _); [discriminate|].
  specialize (H (arr_zero 16) (Peer.new (arr_zero 16) 5) ltac:(vm_compute; reflexivity)).
  vm_compute in H. discriminate H.
Defined.
