(* ===== verification/PeerCodec.v ===== *)
(** The byte formats of [lxmf-rs/src/rns/peer.rs]: a saved peer
    ([to_bytes], [from_bytes]) and the synchronisation requests and responses. *)

From Stdlib Require Import ZArith Lia Permutation.
From Stdlib Require Import Strings.Byte.
From stdpp Require Import base gmap strings numbers list.
From coqutil Require Import Datatypes.RecordSetters.
From S2P Require Import Prelude Float Msgpack Crypto Stamp Rns PropStore Peer.
Import DoubleBraceUpdate.

Local Open Scope Z_scope.

(** * Saved peers *)

Abbreviation Dict := (list (Value * Value)).

(** [if let Some(x) = o { dict.push((key, f(x))) }] *)
Definition opt_pair {A} (key : string) (f : A -> Value) (o : option A) : Dict :=
  match o with Some a => [(VString key, f a)] | None => [] end.

Section PeerBytes.
Context `{M : Msgpack} `{HI : HashIter}.

Definition metadata_to_value (m : gmap string (list byte)) : Value :=
  VMap (map (fun kv => (VString kv.1, Binary kv.2)) (hash_iter m)).

Definition peer_to_dict (p : Peer) : Dict :=
  [(VString "destination_hash", Binary (p_id p));
   (VString "peering_timebase", Integer (as_i64 (peering_timebase p)));
   (VString "alive", Boolean (Peer.is_alive p));
   (VString "last_heard", Integer (as_i64 (last_heard_ms p)));
   (VString "sync_strategy", Integer (sync_strategy p))]
  ++ opt_pair "peering_key" Binary (peering_key p)
  ++ opt_pair "peering_key_value" Integer (peering_key_value p)
  ++ opt_pair "peering_cost" Integer (peering_cost p)
  ++ opt_pair "metadata" metadata_to_value (metadata p)
  ++ [(VString "link_establishment_rate", F64 (link_establishment_rate p));
      (VString "sync_transfer_rate", F64 (sync_transfer_rate p))]
  ++ opt_pair "propagation_transfer_limit" F64 (propagation_transfer_limit p)
  ++ opt_pair "propagation_sync_limit" (fun l => Integer (as_i64 l)) (propagation_sync_limit p)
  ++ opt_pair "propagation_stamp_cost" Integer (propagation_stamp_cost p)
  ++ opt_pair "propagation_stamp_cost_flexibility" Integer (propagation_stamp_cost_flexibility p)
  ++ [(VString "offered", Integer (as_i64 (messages_offered p)));
      (VString "outgoing", Integer (as_i64 (messages_outgoing p)));
      (VString "incoming", Integer (as_i64 (messages_incoming p)));
      (VString "rx_bytes", Integer (as_i64 (rx_bytes p)));
      (VString "tx_bytes", Integer (as_i64 (tx_bytes p)));
      (VString "last_sync_attempt", Integer (as_i64 (last_attempt_ms p)));
      (VString "handled_ids", VArray []);
      (VString "unhandled_ids", VArray [])].

Definition to_bytes (p : Peer) : result RnsError (list byte) := rns_write (VMap (peer_to_dict p)).

(** The closure [get_value]: the first entry under the key. *)
Fixpoint get_value (key : string) (dict : Dict) : option Value :=
  match dict with
  | [] => None
  | (k, v) :: rest => if bool_decide (k = VString key) then Some v else get_value key rest
  end.

(** [if let Some(v) = get_value(key) { if let Some(x) = v.as_i64() { set(x) } }] *)
Definition with_int (key : string) (dict : Dict) (set : Z -> Peer -> Peer) (p : Peer) : Peer :=
  match get_value key dict ≫= value_as_i64 with Some x => set x p | None => p end.

(** The loop over the metadata map. *)
Definition metadata_step (m : gmap string (list byte)) (kv : Value * Value) :
    gmap string (list byte) :=
  match value_as_str kv.1, value_to_bytes kv.2 with
  | Some key_str, Some value_bytes => <[key_str := value_bytes]> m
  | _, _ => m
  end.

Definition read_metadata (dict : Dict) (p : Peer) : Peer :=
  match get_value "metadata" dict with
  | Some (VMap meta_map) => Peer.set_metadata (Some (foldl metadata_step ∅ meta_map)) p
  | _ => p
  end.

(** The transfer limits: a missing or unreadable sync limit falls back to the
    transfer limit. *)
Definition read_limits (dict : Dict) (p : Peer) : Peer :=
  let p := match get_value "propagation_transfer_limit" dict with
           | Some v => Peer.set_propagation_transfer_limit (value_to_f64 v) p
           | None => p
           end in
  let fallback := f64_to_u64 <$> propagation_transfer_limit p in
  match get_value "propagation_sync_limit" dict with
  | Some v => match value_as_i64 v with
              | Some limit => Peer.set_propagation_sync_limit (Some (as_u64 limit)) p
              | None => Peer.set_propagation_sync_limit fallback p
              end
  | None => Peer.set_propagation_sync_limit fallback p
  end.

Definition read_rates (dict : Dict) (p : Peer) : Peer :=
  let p := match get_value "sync_strategy" dict with
           | Some v => match value_as_i64 v with
                       | Some strategy => Peer.set_sync_strategy (as_u8 strategy) p
                       | None => Peer.set_sync_strategy DEFAULT_SYNC_STRATEGY p
                       end
           | None => p
           end in
  let p := match get_value "link_establishment_rate" dict with
           | Some v => Peer.set_link_establishment_rate (default f64_zero (value_to_f64 v)) p
           | None => p
           end in
  match get_value "sync_transfer_rate" dict with
  | Some v => Peer.set_sync_transfer_rate (default f64_zero (value_to_f64 v)) p
  | None => p
  end.

Definition read_costs (dict : Dict) (p : Peer) : Peer :=
  let p := with_int "propagation_stamp_cost" dict
             (fun c => Peer.set_propagation_stamp_cost (Some (as_u32 c))) p in
  let p := with_int "propagation_stamp_cost_flexibility" dict
             (fun c => Peer.set_propagation_stamp_cost_flexibility (Some (as_u32 c))) p in
  let p := with_int "peering_cost" dict (fun c => Peer.set_peering_cost (Some (as_u32 c))) p in
  let p := match get_value "peering_key" dict with
           | Some v => p {{ peering_key := value_to_bytes v }}
           | None => p
           end in
  with_int "peering_key_value" dict (fun v p => p {{ peering_key_value := Some (as_u32 v) }}) p.

Definition read_counts (dict : Dict) (p : Peer) : Peer :=
  let p := with_int "offered" dict (fun c p => p {{ messages_offered := as_u64 c }}) p in
  let p := with_int "outgoing" dict (fun c p => p {{ messages_outgoing := as_u64 c }}) p in
  let p := with_int "incoming" dict (fun c p => p {{ messages_incoming := as_u64 c }}) p in
  let p := with_int "rx_bytes" dict (fun c p => p {{ rx_bytes := as_u64 c }}) p in
  let p := with_int "tx_bytes" dict (fun c p => p {{ tx_bytes := as_u64 c }}) p in
  with_int "last_sync_attempt" dict (fun c p => p {{ last_attempt_ms := as_u64 c }}) p.

Definition peer_from_dict (dict : Dict) (now_ms : Z) : result RnsError Peer :=
  id_value ← ok_or (get_value "destination_hash" dict) (RnsMsgpack "missing destination_hash");
  id ← ok_or (value_to_fixed_bytes 16 id_value) (RnsMsgpack "invalid destination_hash");
  let timebase := as_u64 (default 0 (get_value "peering_timebase" dict ≫= value_as_i64)) in
  let alive := default false (get_value "alive" dict ≫= value_to_opt_bool) in
  let last_heard := as_u64 (default 0 (get_value "last_heard" dict ≫= value_as_i64)) in
  let p := Peer.new id now_ms in
  let p := Peer.set_peering_timebase timebase p in
  let p := Peer.set_last_heard_ms last_heard p in
  let p := Peer.set_alive alive p in
  Ok (read_counts dict (read_metadata dict (read_costs dict (read_limits dict (read_rates dict p))))).

Definition from_bytes (bytes : list byte) (now_ms : Z) : result RnsError Peer :=
  value ← rns_read bytes;
  match value with
  | VMap dict => peer_from_dict dict now_ms
  | _ => Err (RnsMsgpack "peer data must be a map")
  end.

End PeerBytes.

(** * Synchronisation messages *)

Definition ids_to_value (ids : list (arr 32)) : Value :=
  VArray (map (fun id => Binary (arr_list id)) ids).

Definition ids_from_values (values : list Value) : result RnsError (list (arr 32)) :=
  res_mapM (fun v => ok_or (value_to_fixed_bytes 32 v) (RnsMsgpack "invalid id")) values.

Definition sync_request_to_value (req : PeerSyncRequest) : Value :=
  match req with
  | Offer peering_key available => VArray [Binary peering_key; ids_to_value available]
  | MessageGetList => VArray [Nil; Nil]
  | MessageGet wants haves transfer_limit_kb =>
      VArray ([ids_to_value wants; ids_to_value haves]
              ++ match transfer_limit_kb with Some limit => [F64 limit] | None => [] end)
  | MessageAck delivered => VArray [Nil; ids_to_value delivered]
  end.

(** [wants] and [haves]: absent, or a list of identifiers. *)
Definition opt_ids (v : Value) (err : string) : result RnsError (option (list (arr 32))) :=
  match v with
  | Nil => Ok None
  | VArray vals => ids ← ids_from_values vals; Ok (Some ids)
  | _ => Err (RnsMsgpack err)
  end.

Definition sync_request_from_value (value : Value) : result RnsError PeerSyncRequest :=
  match value with
  | VArray [] => Err (RnsMsgpack "peer sync req missing op")
  | VArray (Binary key :: rest) =>
      list ← ok_or (rest !! 0%nat) (RnsMsgpack "missing list");
      match list with
      | VArray vals => ids ← ids_from_values vals; Ok (Offer key ids)
      | _ => Err (RnsMsgpack "list must be array")
      end
  | VArray (wants_val :: rest) =>
      haves_val ← ok_or (rest !! 0%nat) (RnsMsgpack "missing haves");
      wants ← opt_ids wants_val "invalid wants";
      haves ← opt_ids haves_val "invalid haves";
      transfer_limit_kb ← match rest !! 1%nat with
                          | Some val => limit ← ok_or (value_to_f64 val)
                                                  (RnsMsgpack "invalid transfer limit");
                                        Ok (Some limit)
                          | None => Ok None
                          end;
      match wants, haves with
      | None, None => Ok MessageGetList
      | None, Some delivered => Ok (MessageAck delivered)
      | Some wants, Some haves => Ok (MessageGet wants haves transfer_limit_kb)
      | Some wants, None => Ok (MessageGet wants [] transfer_limit_kb)
      end
  | _ => Err (RnsMsgpack "peer sync req must be array")
  end.

Definition sync_response_to_value (resp : PeerSyncResponse) : Value :=
  match resp with
  | RError code => Integer code
  | RBool flag => Boolean flag
  | RIdList list => ids_to_value list
  | RPayload items => VArray (map Binary items)
  end.

Definition sync_response_from_value (value : Value) : result RnsError PeerSyncResponse :=
  match value with
  | Boolean flag => Ok (RBool flag)
  | Integer int =>
      code ← ok_or (integer_as_i64 int) (RnsMsgpack "invalid error code");
      if negb ((0 <=? code) && (code <=? u8_max)) then Err (RnsMsgpack "error code out of range")
      else Ok (RError code)
  | VArray list =>
      binaries ← res_mapM (fun v => ok_or (value_to_bytes v) (RnsMsgpack "payload must be binary")) list;
      if forallb (fun d => Nat.eqb (length d) 32) binaries
      then Ok (RIdList (map (arr_of 32) binaries))
      else Ok (RPayload binaries)
  | _ => Err (RnsMsgpack "invalid peer sync response")
  end.

Section SyncCodec.
Context `{M : Msgpack}.
Definition encode_peer_sync_request (req : PeerSyncRequest) : result RnsError (list byte) :=
  rns_write (sync_request_to_value req).
Definition decode_peer_sync_request (bytes : list byte) : result RnsError PeerSyncRequest :=
  rns_read bytes ≫= sync_request_from_value.
Definition encode_peer_sync_response (resp : PeerSyncResponse) : result RnsError (list byte) :=
  rns_write (sync_response_to_value resp).
Definition decode_peer_sync_response (bytes : list byte) : result RnsError PeerSyncResponse :=
  rns_read bytes ≫= sync_response_from_value.
End SyncCodec.

(** * Reading a saved peer back *)

Lemma get_value_str key k v (rest : Dict) :
  get_value key ((VString k, v) :: rest) = if String.eqb k key then Some v else get_value key rest.
Proof.
  cbn [get_value]. destruct (String.eqb_spec k key) as [->|Hne]; [by rewrite bool_decide_true|].
  rewrite bool_decide_false; [done|]. congruence.
Qed.

(** Walking down a dictionary given entry by entry. *)
Lemma get_value_here key k v (rest : Dict) :
  String.eqb k key = true -> get_value key ((VString k, v) :: rest) = Some v.
Proof. intros Hk. by rewrite get_value_str, Hk. Qed.
Lemma get_value_skip key k v (rest : Dict) r :
  String.eqb k key = false -> get_value key rest = r -> get_value key ((VString k, v) :: rest) = r.
Proof. intros Hk Hr. by rewrite get_value_str, Hk. Qed.
Lemma get_value_opt_here {A} key k (f : A -> Value) o (rest : Dict) :
  String.eqb k key = true -> get_value key rest = None ->
  get_value key (opt_pair k f o ++ rest) = f <$> o.
Proof. intros Hk Hr. destruct o; [by apply get_value_here|done]. Qed.
Lemma get_value_opt_skip {A} key k (f : A -> Value) o (rest : Dict) r :
  String.eqb k key = false -> get_value key rest = r ->
  get_value key (opt_pair k f o ++ rest) = r.
Proof. intros Hk Hr. destruct o; [by apply get_value_skip|done]. Qed.

Ltac lookup_keys :=
  unfold peer_to_dict; cbn [app];
  repeat first
    [ apply get_value_here; reflexivity
    | apply get_value_skip; [reflexivity|]
    | apply get_value_opt_skip; [reflexivity|]
    | apply get_value_opt_here; [reflexivity|]
    | reflexivity ].

Ltac destruct_peer q :=
  destruct q as [f1 f2 f3 f4 f5 f6 f7 f8 f9 f10 f11 f12 f13 f14 f15 f16 f17 f18 f19 f20 f21 f22
                 f23 f24 f25 f26 f27 f28 f29 f30].

Section PeerRoundTrip.
Context `{HI : HashIter}.

Definition opt_all {A} (P : A -> bool) (o : option A) : bool :=
  match o with Some a => P a | None => true end.

(** A peer whose fields are in their types' ranges, with data MessagePack can
    carry. *)
Record peer_ok (p : Peer) : Prop := {
  pk_strategy : is_u8 (sync_strategy p) = true;
  pk_timebase : is_u64 (peering_timebase p) = true;
  pk_heard : is_u64 (last_heard_ms p) = true;
  pk_attempt : is_u64 (last_attempt_ms p) = true;
  pk_offered : is_u64 (messages_offered p) = true;
  pk_outgoing : is_u64 (messages_outgoing p) = true;
  pk_incoming : is_u64 (messages_incoming p) = true;
  pk_rx : is_u64 (rx_bytes p) = true;
  pk_tx : is_u64 (tx_bytes p) = true;
  pk_key : opt_all fits_u32 (peering_key p) = true;
  pk_key_value : opt_all is_u32 (peering_key_value p) = true;
  pk_cost : opt_all is_u32 (peering_cost p) = true;
  pk_stamp : opt_all is_u32 (propagation_stamp_cost p) = true;
  pk_flex : opt_all is_u32 (propagation_stamp_cost_flexibility p) = true;
  pk_sync_limit : opt_all is_u64 (propagation_sync_limit p) = true;
  pk_link_rate : f64_valid (link_establishment_rate p) = true;
  pk_rate : f64_valid (sync_transfer_rate p) = true;
  pk_limit : opt_all f64_valid (propagation_transfer_limit p) = true;
  pk_metadata : forall m, metadata p = Some m ->
    Z.of_nat (size m) <= u32_max /\
    map_Forall (fun k v => utf8_string k = true /\ fits_u32 (bytes_of_string k) = true /\
                           fits_u32 v = true) m
}.

(** What is restored: identity, keys, costs, limits, rates, metadata and
    counters; the synchronisation state is [Idle] or, for a dead peer,
    [Backoff], due now; a missing sync limit becomes the transfer limit. *)
Definition restored (p : Peer) (now_ms : Z) : Peer :=
  mkPeer (p_id p) (if Peer.is_alive p then Idle else Backoff) 0 (last_attempt_ms p) now_ms 0 0
    (last_heard_ms p) (rx_bytes p) (tx_bytes p) (messages_offered p) (messages_outgoing p)
    (messages_incoming p) 0 (peering_key p) (peering_key_value p) (sync_transfer_rate p) [] []
    (sync_strategy p) (peering_cost p) (metadata p) (peering_timebase p)
    (link_establishment_rate p) (propagation_transfer_limit p)
    (match propagation_sync_limit p with
     | Some l => Some l
     | None => f64_to_u64 <$> propagation_transfer_limit p
     end)
    (propagation_stamp_cost p) (propagation_stamp_cost_flexibility p) None None.

Lemma metadata_fold (l : list (string * list byte)) acc :
  Forall (fun kv => utf8_string kv.1 = true) l ->
  foldl metadata_step acc (map (fun kv => (VString kv.1, Binary kv.2)) l) =
  foldl (fun m kv => <[kv.1 := kv.2]> m) acc l.
Proof.
  intros Hl. revert acc. induction Hl as [|[k v] l Hk _ IH]; intros acc; [done|].
  cbn [map foldl]. rewrite IH. f_equal. unfold metadata_step, value_as_str, utf8_as_str.
  simpl in *. by rewrite Hk.
Qed.

Lemma metadata_roundtrip (m : gmap string (list byte)) :
  map_Forall (fun k v => utf8_string k = true) m ->
  foldl metadata_step ∅ (map (fun kv => (VString kv.1, Binary kv.2)) (hash_iter m)) = m.
Proof.
  intros Hm. rewrite metadata_fold.
  - apply foldl_insert_hash_iter.
  - apply Forall_forall. intros [k v] Hin. apply elem_of_hash_iter in Hin. by apply (Hm k v).
Qed.

Lemma with_int_u64 key dict z (set : Z -> Peer -> Peer) p :
  get_value key dict = Some (Integer (as_i64 z)) ->
  with_int key dict set p = set (as_i64 z) p.
Proof.
  intros Hg. unfold with_int. rewrite Hg. cbn [mbind option_bind].
  by rewrite value_as_i64_int by apply as_i64_range.
Qed.

Lemma with_int_opt_u32 key dict o (set : option Z -> Peer -> Peer) p :
  get_value key dict = Integer <$> o -> opt_all is_u32 o = true -> set None p = p ->
  with_int key dict (fun c => set (Some (as_u32 c))) p = set o p.
Proof.
  intros Hg Ho Hn. unfold with_int. rewrite Hg. destruct o as [z|]; cbn [fmap option_fmap option_map mbind option_bind];
    [|done].
  simpl in Ho. unfold is_u32, u32_max in Ho.
  rewrite value_as_i64_int by (unfold is_i64; lia). unfold as_u32. by rewrite Z.mod_small by lia.
Qed.

Section Reading.
Context (p : Peer) (Hp : peer_ok p).
#[local] Notation dict := (peer_to_dict p).

Lemma read_rates_dict q :
  read_rates dict q =
  q {{ sync_strategy := sync_strategy p; link_establishment_rate := link_establishment_rate p;
       sync_transfer_rate := sync_transfer_rate p }}.
Proof.
  unfold read_rates.
  assert (get_value "sync_strategy" dict = Some (Integer (sync_strategy p))) as -> by lookup_keys.
  assert (get_value "link_establishment_rate" dict = Some (F64 (link_establishment_rate p))) as ->
    by lookup_keys.
  assert (get_value "sync_transfer_rate" dict = Some (F64 (sync_transfer_rate p))) as ->
    by lookup_keys.
  pose proof (pk_strategy p Hp) as Hs. unfold is_u8, u8_max in Hs.
  rewrite value_as_i64_int by (unfold is_i64; lia). unfold as_u8. rewrite Z.mod_small by lia. done.
Qed.

Lemma read_limits_dict q :
  propagation_transfer_limit q = None ->
  read_limits dict q =
  q {{ propagation_transfer_limit := propagation_transfer_limit p;
       propagation_sync_limit := match propagation_sync_limit p with
                                 | Some l => Some l
                                 | None => f64_to_u64 <$> propagation_transfer_limit p
                                 end }}.
Proof.
  intros Hq. unfold read_limits.
  assert (get_value "propagation_transfer_limit" dict = F64 <$> propagation_transfer_limit p) as ->
    by lookup_keys.
  assert (get_value "propagation_sync_limit" dict =
          (fun l => Integer (as_i64 l)) <$> propagation_sync_limit p) as ->
    by lookup_keys.
  pose proof (pk_sync_limit p Hp) as Hl.
  destruct_peer q. simpl in Hq. subst.
  destruct (propagation_sync_limit p) as [l|]; cbn [fmap option_fmap option_map].
  - rewrite value_as_i64_int by apply as_i64_range. rewrite as_u64_i64 by done.
    by destruct (propagation_transfer_limit p).
  - by destruct (propagation_transfer_limit p).
Qed.

Lemma read_costs_dict q :
  propagation_stamp_cost q = None -> propagation_stamp_cost_flexibility q = None ->
  peering_cost q = None -> peering_key q = None -> peering_key_value q = None ->
  read_costs dict q =
  q {{ propagation_stamp_cost := propagation_stamp_cost p;
       propagation_stamp_cost_flexibility := propagation_stamp_cost_flexibility p;
       peering_cost := peering_cost p; peering_key := peering_key p;
       peering_key_value := peering_key_value p }}.
Proof.
  intros H1 H2 H3 H4 H5. destruct_peer q. simpl in H1, H2, H3, H4, H5. subst. unfold read_costs.
  rewrite (with_int_opt_u32 _ _ (propagation_stamp_cost p) Peer.set_propagation_stamp_cost);
    [|lookup_keys|apply Hp|done].
  rewrite (with_int_opt_u32 _ _ (propagation_stamp_cost_flexibility p)
             Peer.set_propagation_stamp_cost_flexibility);
    [|lookup_keys|apply Hp|done].
  rewrite (with_int_opt_u32 _ _ (peering_cost p) Peer.set_peering_cost);
    [|lookup_keys|apply Hp|done].
  assert (get_value "peering_key" dict = Binary <$> peering_key p) as ->
    by lookup_keys.
  rewrite (with_int_opt_u32 _ _ (peering_key_value p) (fun v q => q {{ peering_key_value := v }}));
    [|lookup_keys|apply Hp|by destruct (peering_key p)].
  by destruct (peering_key p).
Qed.

Lemma read_metadata_dict q :
  metadata q = None -> read_metadata dict q = q {{ metadata := metadata p }}.
Proof.
  intros Hq. unfold read_metadata.
  assert (get_value "metadata" dict = metadata_to_value <$> metadata p) as ->
    by lookup_keys.
  destruct_peer q. simpl in Hq. subst. destruct (metadata p) as [m|] eqn:Hm; [|done].
  cbn [fmap option_fmap option_map metadata_to_value]. rewrite metadata_roundtrip; [done|].
  destruct (pk_metadata p Hp m Hm) as [_ Hall]. intros k v Hkv. by apply (Hall k v).
Qed.

Lemma read_counts_dict q :
  read_counts dict q =
  q {{ messages_offered := messages_offered p; messages_outgoing := messages_outgoing p;
       messages_incoming := messages_incoming p; rx_bytes := rx_bytes p; tx_bytes := tx_bytes p;
       last_attempt_ms := last_attempt_ms p }}.
Proof.
  unfold read_counts. cbv zeta.
  rewrite (with_int_u64 "offered" _ (messages_offered p)) by lookup_keys.
  rewrite (with_int_u64 "outgoing" _ (messages_outgoing p)) by lookup_keys.
  rewrite (with_int_u64 "incoming" _ (messages_incoming p)) by lookup_keys.
  rewrite (with_int_u64 "rx_bytes" _ (rx_bytes p)) by lookup_keys.
  rewrite (with_int_u64 "tx_bytes" _ (tx_bytes p)) by lookup_keys.
  rewrite (with_int_u64 "last_sync_attempt" _ (last_attempt_ms p)) by lookup_keys.
  by rewrite !as_u64_i64 by apply Hp.
Qed.

Lemma peer_dict_roundtrip now : peer_from_dict dict now = Ok (restored p now).
Proof.
  unfold peer_from_dict.
  assert (get_value "destination_hash" dict = Some (Binary (p_id p))) as -> by lookup_keys.
  assert (get_value "peering_timebase" dict = Some (Integer (as_i64 (peering_timebase p)))) as ->
    by lookup_keys.
  assert (get_value "alive" dict = Some (Boolean (Peer.is_alive p))) as -> by lookup_keys.
  assert (get_value "last_heard" dict = Some (Integer (as_i64 (last_heard_ms p)))) as ->
    by lookup_keys.
  cbn [ok_or mbind result_bind option_bind]. rewrite value_to_fixed_bytes_arr.
  cbn [ok_or mbind result_bind option_bind].
  rewrite !value_as_i64_int by apply as_i64_range. cbn [from_option id option_bind value_to_opt_bool].
  rewrite !as_u64_i64 by apply Hp. unfold restored.
  rewrite read_rates_dict. destruct (Peer.is_alive p);
    (rewrite read_limits_dict by done; rewrite read_costs_dict by done;
     rewrite read_metadata_dict by done; by rewrite read_counts_dict).
Qed.

Lemma rep_opt_pair {A} d key (f : A -> Value) (o : option A) (P : A -> bool) :
  utf8_string key = true -> fits_u32 (bytes_of_string key) = true -> opt_all P o = true ->
  (forall a, P a = true -> rep (S d) (f a)) ->
  Forall (fun kv => rep (S d) kv.1 /\ rep (S d) kv.2) (opt_pair key f o).
Proof.
  intros Hu Hk Ho Hf. destruct o as [a|]; cbn [opt_pair]; [|constructor].
  constructor; [|constructor]. split; [by apply rep_string|by apply Hf].
Qed.

Lemma rep_metadata m :
  metadata p = Some m -> rep 2 (metadata_to_value m).
Proof.
  intros Hm. destruct (pk_metadata p Hp m Hm) as [Hsz Hall]. unfold metadata_to_value.
  apply rep_map; [apply fits_u32_length; rewrite length_map, length_hash_iter; done|].
  apply List.Forall_map, Forall_forall. intros [k v] Hin. apply elem_of_hash_iter in Hin.
  destruct (Hall k v Hin) as (Hu & Hk & Hv). split; [by apply rep_string|by apply rep_binary].
Qed.

Lemma length_opt_pair {A} key (f : A -> Value) o : (length (opt_pair key f o) <= 1)%nat.
Proof. destruct o; simpl; lia. Qed.

Lemma peer_dict_rep : rep 3 (VMap dict).
Proof.
  apply rep_map.
  - apply fits_u32_length. unfold peer_to_dict. rewrite !length_app. simpl length.
    repeat match goal with |- context [length (opt_pair ?k ?f ?o)] =>
      pose proof (length_opt_pair k f o); generalize dependent (length (opt_pair k f o)); intros end.
    unfold u32_max. lia.
  - unfold peer_to_dict. rewrite !Forall_app.
    pose proof (pk_strategy p Hp) as Hs. unfold is_u8, u8_max in Hs.
    split_and!; try (eapply rep_opt_pair; [reflexivity..|apply Hp|]).
    + solve_rep.
    + apply rep_binary.
    + apply rep_u32.
    + apply rep_u32.
    + destruct (metadata p) as [m|] eqn:Hm; [|constructor]. constructor; [|constructor].
      split; [by apply rep_string|by apply rep_metadata].
    + solve_rep; apply Hp.
    + apply rep_f64.
    + intros. apply rep_i64.
    + apply rep_u32.
    + apply rep_u32.
    + solve_rep.
Qed.

End Reading.
End PeerRoundTrip.

(** A saved peer comes back: [from_bytes] reads what [to_bytes] wrote, for
    every peer with fields in range, and restores its identity, keys, costs,
    limits, rates, metadata, counters and whether it was alive; the transient
    synchronisation state is reset. *)
Theorem peer_bytes_roundtrip `{Msgpack} `{!MsgpackLaws} `{HashIter} (p : Peer) (now_ms : Z)
  (Hp : peer_ok p) :
  exists bs, to_bytes p = Ok bs /\ forall rest, from_bytes (bs ++ rest) now_ms = Ok (restored p now_ms).
Proof.
  destruct (rns_write_read (VMap (peer_to_dict p))) as (bs & Hw & Hr).
  { eapply rep_representable; [by apply peer_dict_rep|]. unfold MAX_DEPTH. lia. }
  exists bs. split; [done|]. intros rest. unfold from_bytes. rewrite Hr.
  cbn [mbind result_bind]. by apply peer_dict_roundtrip.
Qed.

Lemma peer_new_ok id : peer_ok (Peer.new id 0).
Proof. split; try reflexivity. discriminate. Qed.

Lemma peer_bytes_roundtrip_witness :
  exists bs, to_bytes (M := bit_codec) (HI := key_order) (Peer.new (arr_zero 16) 0) = Ok bs /\
    from_bytes (M := bit_codec) bs 9 = Ok (restored (Peer.new (arr_zero 16) 0) 9).
Proof.
  destruct (@peer_bytes_roundtrip bit_codec bit_codec_laws key_order (Peer.new (arr_zero 16) 0) 9
    (peer_new_ok _)) as (bs & Hw & Hr).
  exists bs. split; [exact Hw|]. rewrite <- (Hr []), app_nil_r. reflexivity.
Defined.

(** * Synchronisation messages *)

Definition sync_request_ok (req : PeerSyncRequest) : Prop :=
  match req with
  | Offer key available => fits_u32 key = true /\ fits_u32 available = true
  | MessageGetList => True
  | MessageGet wants haves limit =>
      fits_u32 wants = true /\ fits_u32 haves = true /\ opt_all f64_valid limit = true
  | MessageAck delivered => fits_u32 delivered = true
  end.

Definition sync_response_ok (resp : PeerSyncResponse) : Prop :=
  match resp with
  | RError code => is_u8 code = true
  | RBool _ => True
  | RIdList ids => fits_u32 ids = true
  | RPayload items => fits_u32 items = true /\ Forall (fun d => fits_u32 d = true) items
  end.

(** A payload of items that all look like identifiers. *)
Definition id_shaped (items : list (list byte)) : bool :=
  forallb (fun d => Nat.eqb (length d) 32) items.

(** What a response is read back as. *)
Definition response_read (resp : PeerSyncResponse) : PeerSyncResponse :=
  match resp with
  | RPayload items => if id_shaped items then RIdList (map (arr_of 32) items) else resp
  | _ => resp
  end.

Lemma ids_roundtrip ids :
  ids_from_values (map (fun id => Binary (arr_list id)) ids) = Ok ids.
Proof.
  unfold ids_from_values. rewrite (res_mapM_map _ _ id); [by rewrite map_id|].
  intros h. by rewrite value_to_fixed_bytes_arr.
Qed.

Lemma rep_ids d (ids : list (arr 32)) : fits_u32 ids = true -> rep (S (S d)) (ids_to_value ids).
Proof.
  intros Hf. apply rep_array; [by rewrite fits_u32_map|].
  apply List.Forall_map, Forall_true. intros h. apply rep_arr. unfold u32_max. lia.
Qed.

Lemma sync_request_rep req : sync_request_ok req -> rep 3 (sync_request_to_value req).
Proof.
  destruct req as [key ids| |wants haves [limit|]|ids];
    cbn [sync_request_to_value sync_request_ok app opt_all]; intros Hok;
    destruct_and?; repeat first [done | apply rep_ids | progress solve_rep].
Qed.

Lemma sync_request_value_roundtrip req :
  sync_request_from_value (sync_request_to_value req) = Ok req.
Proof.
  destruct req as [key ids| |wants haves [limit|]|ids]; simpl; unfold opt_ids;
    by rewrite ?ids_roundtrip.
Qed.

Lemma sync_response_rep resp : sync_response_ok resp -> rep 3 (sync_response_to_value resp).
Proof.
  destruct resp as [code|flag|ids|items]; simpl.
  - intros Hc. unfold is_u8, u8_max in Hc. apply rep_int. unfold u64_max. lia.
  - intros _. apply rep_bool.
  - intros Hf. by apply rep_ids.
  - intros [Hf Hi]. solve_rep.
Qed.

Lemma payload_read items :
  res_mapM (fun v => ok_or (value_to_bytes v) (RnsMsgpack "payload must be binary"))
    (map Binary items) = Ok items.
Proof. rewrite (res_mapM_map _ _ id); [by rewrite map_id|done]. Qed.

Lemma sync_response_value_roundtrip resp :
  sync_response_ok resp ->
  sync_response_from_value (sync_response_to_value resp) = Ok (response_read resp).
Proof.
  destruct resp as [code|flag|ids|items]; simpl; intros Hok.
  - unfold is_u8 in Hok. unfold integer_as_i64.
    assert (is_i64 code = true) as -> by (unfold is_i64, u8_max in *; lia). simpl. by rewrite Hok.
  - done.
  - unfold ids_to_value.
    replace (map (fun id => Binary (arr_list id)) ids) with (map Binary (map arr_list ids))
      by by rewrite map_map.
    rewrite payload_read. simpl.
    assert (forallb (fun d => Nat.eqb (length d) 32) (map arr_list ids) = true) as ->.
    { apply forallb_forall. intros d Hd. apply in_map_iff in Hd as (a & <- & _). apply arr_ok. }
    rewrite map_map. f_equal. f_equal. rewrite <- (map_id ids) at 2. apply map_ext.
    intros a. apply arr_of_arr.
  - rewrite payload_read. simpl. unfold id_shaped. by destruct (forallb _ items).
Qed.

Lemma sync_request_codec `{Msgpack} `{!MsgpackLaws} req : sync_request_ok req ->
  exists bs, encode_peer_sync_request req = Ok bs /\
    forall rest, decode_peer_sync_request (bs ++ rest) = Ok req.
Proof.
  intros Hreq. apply (codec_roundtrip sync_request_to_value sync_request_from_value);
    [|apply sync_request_value_roundtrip].
  eapply rep_representable; [by apply sync_request_rep|unfold MAX_DEPTH; lia].
Qed.

Lemma sync_response_codec `{Msgpack} `{!MsgpackLaws} resp : sync_response_ok resp ->
  exists bs, encode_peer_sync_response resp = Ok bs /\
    forall rest, decode_peer_sync_response (bs ++ rest) = Ok (response_read resp).
Proof.
  intros Hresp. destruct (rns_write_read (sync_response_to_value resp)) as (bs & Hw & Hr).
  { eapply rep_representable; [by apply sync_response_rep|unfold MAX_DEPTH; lia]. }
  exists bs. split; [done|]. intros rest. unfold decode_peer_sync_response. rewrite Hr.
  by apply sync_response_value_roundtrip.
Qed.

(** Synchronisation requests survive the wire, and so do responses except
    for one ambiguity of the format: a payload whose items are all 32 bytes
    long, the empty payload included, is read back as a list of identifiers. A
    peer answered with such a payload then waits for a payload instead of
    completing. *)
Theorem peer_sync_codec `{Msgpack} `{!MsgpackLaws} (req : PeerSyncRequest)
  (resp : PeerSyncResponse) (p : Peer) (now : Z)
  (Hreq : sync_request_ok req) (Hresp : sync_response_ok resp) :
  (exists bs, encode_peer_sync_request req = Ok bs /\
     forall rest, decode_peer_sync_request (bs ++ rest) = Ok req) /\
  (exists bs, encode_peer_sync_response resp = Ok bs /\
     forall rest, decode_peer_sync_response (bs ++ rest) = Ok (response_read resp)) /\
  snd (Peer.on_offer_response (response_read (RPayload [])) now p) = AwaitingPayload /\
  snd (Peer.on_offer_response (RPayload []) now p) = Idle.
Proof.
  split; [by apply sync_request_codec|]. split; [by apply sync_response_codec|by split].
Qed.

Lemma peer_sync_codec_witness :
  exists bs, encode_peer_sync_response (M := bit_codec) (RPayload [replicate 32 x05]) = Ok bs /\
    decode_peer_sync_response (M := bit_codec) bs = Ok (RIdList [arr_of 32 (replicate 32 x05)]).
Proof.
  destruct (@peer_sync_codec bit_codec bit_codec_laws (MessageGet [arr_zero 32] [] (Some f64_zero))
    (RPayload [replicate 32 x05]) (Peer.new (arr_zero 16) 0) 0) as (_ & (bs & Hw & Hr) & _).
  - by split_and!.
  - split; [reflexivity|]. by repeat constructor.
  - exists bs. split; [exact Hw|]. specialize (Hr []). rewrite app_nil_r in Hr. exact Hr.
Defined.
