(* ===== verification/StorageCodec.v ===== *)
(** The value formats of [lxmf-rs/src/rns/storage.rs]: stored messages and
    outbound items, propagation entries, saved peers, tickets, stamp costs,
    transient-id caches and node statistics. *)

From Stdlib Require Import ZArith Lia Permutation.
From Stdlib Require Import Strings.Byte.
From stdpp Require Import base gmap strings numbers list.
From coqutil Require Import Datatypes.RecordSetters.
From S2P Require Import Prelude Float Msgpack Crypto Stamp Message Rns PropStore Peer.
Import DoubleBraceUpdate.

Local Open Scope Z_scope.

(** * Options as values *)

Definition option_bytes_to_value (o : option (list byte)) : Value :=
  match o with Some bytes => Binary bytes | None => Nil end.
Definition option_vec_to_value (o : option (list byte)) : Value :=
  match o with Some bytes => Binary bytes | None => Nil end.
Definition option_u32_to_value (o : option Z) : Value :=
  match o with Some v => Integer v | None => Nil end.
Definition option_u8_to_value (o : option Z) : Value :=
  match o with Some v => Integer v | None => Nil end.
Definition option_bool_to_value (o : option bool) : Value :=
  match o with Some v => Boolean v | None => Nil end.
Definition option_string_to_value (o : option string) : Value :=
  match o with Some v => VString v | None => Nil end.

(** * Messages *)

Definition encode_message_value (m : LXMessage.t) : Value :=
  VMap [(VString "dest", Binary (LXMessage.m_destination_hash m));
        (VString "src", Binary (LXMessage.m_source_hash m));
        (VString "timestamp", F64 (LXMessage.m_timestamp m));
        (VString "title", Binary (LXMessage.m_title m));
        (VString "content", Binary (LXMessage.m_content m));
        (VString "fields", LXMessage.m_fields m);
        (VString "stamp", option_bytes_to_value (LXMessage.m_stamp m));
        (VString "stamp_cost", option_u32_to_value (LXMessage.m_stamp_cost m));
        (VString "stamp_value", option_u32_to_value (LXMessage.m_stamp_value m));
        (VString "stamp_valid", Boolean (LXMessage.m_stamp_valid m));
        (VString "stamp_checked", Boolean (LXMessage.m_stamp_checked m));
        (VString "outbound_ticket", option_bytes_to_value (LXMessage.m_outbound_ticket m));
        (VString "include_ticket", Boolean (LXMessage.m_include_ticket m));
        (VString "defer_stamp", Boolean (LXMessage.m_defer_stamp m));
        (VString "state", Integer (LXMessage.m_state m));
        (VString "method", option_u8_to_value (LXMessage.m_method m));
        (VString "representation", Integer (LXMessage.m_representation m));
        (VString "transport_encrypted", option_bool_to_value (LXMessage.m_transport_encrypted m));
        (VString "transport_encryption", option_string_to_value (LXMessage.m_transport_encryption m));
        (VString "signature", option_vec_to_value (arr_list <$> LXMessage.m_signature m));
        (VString "message_id", option_vec_to_value (arr_list <$> LXMessage.m_message_id m))].

(** The local variables of the loop of [decode_message_value]. *)
Record message_acc : Type := mkAcc {
  a_dest : option (arr 16);
  a_src : option (arr 16);
  a_timestamp : option f64;
  a_title : option (list byte);
  a_content : option (list byte);
  a_fields : option Value;
  a_stamp : option (list byte);
  a_stamp_cost : option Z;
  a_stamp_value : option Z;
  a_stamp_valid : option bool;
  a_stamp_checked : option bool;
  a_outbound_ticket : option (list byte);
  a_include_ticket : option bool;
  a_defer_stamp : option bool;
  a_state : option Z;
  a_method : option Z;
  a_representation : option Z;
  a_transport_encrypted : option bool;
  a_transport_encryption : option string;
  a_signature : option (arr 64);
  a_message_id : option (arr 32)
}.

Definition empty_acc : message_acc :=
  mkAcc None None None None None None None None None None None None None None None None None None
    None None None.

(** The [match key] of the loop. *)
Definition message_field (key : string) (val : Value) (a : message_acc) : message_acc :=
  if String.eqb key "dest" then a {{ a_dest := value_to_fixed_bytes 16 val }}
  else if String.eqb key "src" then a {{ a_src := value_to_fixed_bytes 16 val }}
  else if String.eqb key "timestamp" then a {{ a_timestamp := value_to_f64 val }}
  else if String.eqb key "title" then a {{ a_title := value_to_bytes val }}
  else if String.eqb key "content" then a {{ a_content := value_to_bytes val }}
  else if String.eqb key "fields" then a {{ a_fields := Some val }}
  else if String.eqb key "stamp" then a {{ a_stamp := value_to_opt_bytes val }}
  else if String.eqb key "stamp_cost" then a {{ a_stamp_cost := value_to_opt_u32 val }}
  else if String.eqb key "stamp_value" then a {{ a_stamp_value := value_to_opt_u32 val }}
  else if String.eqb key "stamp_valid" then a {{ a_stamp_valid := value_to_opt_bool val }}
  else if String.eqb key "stamp_checked" then a {{ a_stamp_checked := value_to_opt_bool val }}
  else if String.eqb key "outbound_ticket" then a {{ a_outbound_ticket := value_to_opt_bytes val }}
  else if String.eqb key "include_ticket" then a {{ a_include_ticket := value_to_opt_bool val }}
  else if String.eqb key "defer_stamp" then a {{ a_defer_stamp := value_to_opt_bool val }}
  else if String.eqb key "state" then a {{ a_state := value_to_opt_u8 val }}
  else if String.eqb key "method" then a {{ a_method := value_to_opt_u8 val }}
  else if String.eqb key "representation" then a {{ a_representation := value_to_opt_u8 val }}
  else if String.eqb key "transport_encrypted"
       then a {{ a_transport_encrypted := value_to_opt_bool val }}
  else if String.eqb key "transport_encryption"
       then a {{ a_transport_encryption := value_to_opt_string val }}
  else if String.eqb key "signature" then a {{ a_signature := value_to_fixed_bytes 64 val }}
  else if String.eqb key "message_id" then a {{ a_message_id := value_to_fixed_bytes 32 val }}
  else a.

(** A loop over map entries that skips keys that are not text. *)
Definition fold_keys {A} (f : string -> Value -> A -> A) (a : A) (entries : list (Value * Value)) : A :=
  foldl (fun a kv => match value_as_str kv.1 with Some key => f key kv.2 a | None => a end) a entries.

Definition message_of_acc (a : message_acc) : result RnsError LXMessage.t :=
  dest ← ok_or (a_dest a) (RnsMsgpack "missing dest");
  src ← ok_or (a_src a) (RnsMsgpack "missing src");
  Ok (LXMessage.mk dest src (default f64_zero (a_timestamp a)) (default [] (a_title a))
        (default [] (a_content a)) (default (VMap []) (a_fields a)) (a_stamp a) (a_stamp_cost a)
        (a_stamp_value a) (default false (a_stamp_valid a)) (default false (a_stamp_checked a))
        (a_outbound_ticket a) (default false (a_include_ticket a)) (default false (a_defer_stamp a))
        (default STATE_GENERATING (a_state a)) (a_method a)
        (default REPR_UNKNOWN (a_representation a)) (a_transport_encrypted a)
        (a_transport_encryption a) (a_signature a) (a_message_id a)).

Definition decode_message_value (value : Value) : result RnsError LXMessage.t :=
  match value with
  | VMap entries => message_of_acc (fold_keys message_field empty_acc entries)
  | _ => Err (RnsMsgpack "expected message map")
  end.

(** * Outbound items *)

Record QueuedMessage : Type := mkQueued {
  q_id : Z;
  q_message : LXMessage.t;
  q_mode : DeliveryMode;
  q_attempts : Z;
  q_next_attempt_at_ms : Z
}.

Record FailedDelivery : Type := mkFailed {
  fd_id : Z;
  fd_error : string;
  fd_message : LXMessage.t;
  fd_attempts : Z
}.

Definition delivery_mode_to_i64 (mode : DeliveryMode) : Z :=
  match mode with Opportunistic => 0 | Direct => 1 | Propagated => 2 | Paper => 3 end.

Definition delivery_mode_from_i64 (v : Z) : result RnsError DeliveryMode :=
  match v with
  | 0 => Ok Opportunistic
  | 1 => Ok Direct
  | 2 => Ok Propagated
  | 3 => Ok Paper
  | _ => Err (RnsMsgpack "invalid delivery mode")
  end.

Definition outbound_to_value (item : QueuedMessage) : Value :=
  VMap [(VString "id", Integer (as_i64 (q_id item)));
        (VString "mode", Integer (delivery_mode_to_i64 (q_mode item)));
        (VString "attempts", Integer (q_attempts item));
        (VString "next_attempt_ms", Integer (as_i64 (q_next_attempt_at_ms item)));
        (VString "message", encode_message_value (q_message item))].

Record outbound_acc : Type := mkOut {
  o_id : option Z;
  o_mode : option DeliveryMode;
  o_attempts : option Z;
  o_next_attempt_ms : option Z;
  o_message : option Value
}.

(** One turn of the loop; an invalid delivery mode leaves it at once. *)
Definition outbound_field (key : string) (val : Value) (a : outbound_acc) :
    result RnsError outbound_acc :=
  if String.eqb key "id" then
    Ok match value_as_i64 val with Some v => a {{ o_id := Some (as_u64 v) }} | None => a end
  else if String.eqb key "mode" then
    match value_as_i64 val with
    | Some v => mode ← delivery_mode_from_i64 v; Ok (a {{ o_mode := Some mode }})
    | None => Ok a
    end
  else if String.eqb key "attempts" then
    Ok match value_as_i64 val with Some v => a {{ o_attempts := Some (as_u32 v) }} | None => a end
  else if String.eqb key "next_attempt_ms" then
    Ok match value_as_i64 val with
       | Some v => a {{ o_next_attempt_ms := Some (as_u64 v) }}
       | None => a
       end
  else if String.eqb key "message" then Ok (a {{ o_message := Some val }})
  else Ok a.

Fixpoint outbound_fold (entries : list (Value * Value)) (a : outbound_acc) :
    result RnsError outbound_acc :=
  match entries with
  | [] => Ok a
  | (k, val) :: rest =>
      match value_as_str k with
      | None => outbound_fold rest a
      | Some key => a ← outbound_field key val a; outbound_fold rest a
      end
  end.

Definition outbound_from_value (value : Value) : result RnsError QueuedMessage :=
  match value with
  | VMap entries =>
      a ← outbound_fold entries (mkOut None None None None None);
      id ← ok_or (o_id a) (RnsMsgpack "missing id");
      mode ← ok_or (o_mode a) (RnsMsgpack "missing mode");
      attempts ← ok_or (o_attempts a) (RnsMsgpack "missing attempts");
      next_attempt_ms ← ok_or (o_next_attempt_ms a) (RnsMsgpack "missing next_attempt_ms");
      message_value ← ok_or (o_message a) (RnsMsgpack "missing message");
      message ← decode_message_value message_value;
      Ok (mkQueued id message mode attempts next_attempt_ms)
  | _ => Err (RnsMsgpack "expected map")
  end.

(** * Propagation entries *)

Definition propagation_entry_to_value (e : PropagationEntry) : Value :=
  VArray [Binary (pe_transient_id e); Binary (pe_lxm_data e); F64 (pe_timestamp e);
          match pe_destination_hash e with Some h => Binary (arr_list h) | None => Nil end;
          match pe_filepath e with Some path => VString path | None => Nil end;
          match pe_msg_size e with Some size => Integer (as_i64 size) | None => Nil end].

(** The destination: the stored one, or else the first 16 bytes of the data. *)
Definition entry_destination (stored : option Value) (lxm_data : list byte) : option (arr 16) :=
  let destination_hash := match stored with
                          | Some Nil | None => None
                          | Some v => value_to_fixed_bytes 16 v
                          end in
  match destination_hash with
  | Some h => Some h
  | None => if Nat.leb DESTINATION_LENGTH (length lxm_data)
            then Some (arr_of 16 (take 16 lxm_data)) else None
  end.

Definition propagation_entry_from_value (value : Value) : result RnsError PropagationEntry :=
  match value with
  | VArray (v0 :: v1 :: v2 :: rest) =>
      transient_id ← ok_or (value_to_fixed_bytes 32 v0) (RnsMsgpack "invalid transient id");
      lxm_data ← ok_or (value_to_bytes v1) (RnsMsgpack "invalid lxm data");
      timestamp ← ok_or (value_to_f64 v2) (RnsMsgpack "invalid timestamp");
      let destination_hash := entry_destination (rest !! 0%nat) lxm_data in
      let filepath := match rest !! 1%nat with
                      | Some Nil | None => None
                      | Some v => value_to_opt_string v
                      end in
      let msg_size := match rest !! 2%nat with
                      | Some Nil | None => None
                      | Some v => value_to_opt_u64 v
                      end in
      let msg_size := match msg_size with
                      | Some n => Some n
                      | None => Some (Z.of_nat (length lxm_data))
                      end in
      Ok (mkPropEntry transient_id lxm_data timestamp destination_hash filepath msg_size)
  | VArray _ => Err (RnsMsgpack "propagation entry missing fields")
  | _ => Err (RnsMsgpack "propagation entry must be array")
  end.

Section EntryBytes.
Context `{M : Msgpack}.
Definition encode_outbound (item : QueuedMessage) : result RnsError (list byte) :=
  rns_write (outbound_to_value item).
Definition decode_outbound (bytes : list byte) : result RnsError QueuedMessage :=
  rns_read bytes ≫= outbound_from_value.
Definition propagation_entry_to_bytes (e : PropagationEntry) : result RnsError (list byte) :=
  rns_write (propagation_entry_to_value e).
Definition propagation_entry_from_bytes (bytes : list byte) : result RnsError PropagationEntry :=
  rns_read bytes ≫= propagation_entry_from_value.
End EntryBytes.

(** * Round trips of messages and items *)

Lemma fold_keys_cons {A} (f : string -> Value -> A -> A) a k v rest :
  utf8_string k = true -> fold_keys f a ((VString k, v) :: rest) = fold_keys f (f k v a) rest.
Proof. intros Hk. unfold fold_keys. simpl. unfold utf8_as_str. by rewrite Hk. Qed.

Definition opt_is {A} (P : A -> bool) (o : option A) : bool :=
  match o with Some a => P a | None => true end.

(** The integer fields are in their types' ranges and the text is UTF-8. *)
Definition stored_ranges (m : LXMessage.t) : bool :=
  opt_is is_u32 (LXMessage.m_stamp_cost m) && opt_is is_u32 (LXMessage.m_stamp_value m)
  && is_u8 (LXMessage.m_state m) && opt_is is_u8 (LXMessage.m_method m)
  && is_u8 (LXMessage.m_representation m)
  && opt_is (fun s => utf8_string s && fits_u32 (bytes_of_string s))
       (LXMessage.m_transport_encryption m).

(** The data is of a size and depth MessagePack can carry. *)
Definition stored_ok (m : LXMessage.t) : bool :=
  stored_ranges m && f64_valid (LXMessage.m_timestamp m) && fits_u32 (LXMessage.m_title m)
  && fits_u32 (LXMessage.m_content m) && value_ok (LXMessage.m_fields m)
  && Nat.leb (value_depth (LXMessage.m_fields m)) 1000 && opt_is fits_u32 (LXMessage.m_stamp m)
  && opt_is fits_u32 (LXMessage.m_outbound_ticket m).

Lemma opt_u32_value o : opt_is is_u32 o = true -> value_to_opt_u32 (option_u32_to_value o) = o.
Proof. destruct o; simpl; [apply value_to_opt_u32_int|done]. Qed.
Lemma opt_u8_value o : opt_is is_u8 o = true -> value_to_opt_u8 (option_u8_to_value o) = o.
Proof. destruct o; simpl; [apply value_to_opt_u8_int|done]. Qed.
Lemma opt_bytes_value o : value_to_opt_bytes (option_bytes_to_value o) = o.
Proof. by destruct o. Qed.
Lemma opt_bool_value o : value_to_opt_bool (option_bool_to_value o) = o.
Proof. by destruct o. Qed.
Lemma opt_string_value o :
  opt_is (fun s => utf8_string s && fits_u32 (bytes_of_string s)) o = true ->
  value_to_opt_string (option_string_to_value o) = o.
Proof. destruct o; simpl; [|done]. intros [Hu _]%andb_prop. unfold utf8_as_str. by rewrite Hu. Qed.
Lemma opt_arr_value {n} (o : option (arr n)) :
  value_to_fixed_bytes n (option_vec_to_value (arr_list <$> o)) = o.
Proof. destruct o; simpl; [apply value_to_fixed_bytes_arr|done]. Qed.

(** Run one turn of the loop on a literal key, keeping the accumulator a record. *)
Ltac run_field f :=
  match goal with
  | |- context [f ?k ?v ?a] =>
      let r := eval cbv [f String.eqb Ascii.eqb Bool.eqb apply_update constant] in (f k v a) in
      change (f k v a) with r
  end.
Ltac fold_step := rewrite fold_keys_cons by reflexivity; run_field message_field.

Lemma message_value_roundtrip m :
  stored_ranges m = true -> decode_message_value (encode_message_value m) = Ok m.
Proof.
  unfold stored_ranges. intros Hr. repeat (apply andb_prop in Hr as [Hr ?]).
  unfold decode_message_value, encode_message_value, empty_acc.
  do 21 fold_step. unfold fold_keys. cbn [foldl]. unfold message_of_acc.
  cbn [a_dest a_src a_timestamp a_title a_content a_fields a_stamp a_stamp_cost a_stamp_value
       a_stamp_valid a_stamp_checked a_outbound_ticket a_include_ticket a_defer_stamp a_state
       a_method a_representation a_transport_encrypted a_transport_encryption a_signature
       a_message_id].
  rewrite !value_to_fixed_bytes_arr. cbn [ok_or mbind result_bind].
  rewrite !opt_arr_value, !opt_bytes_value, !opt_u32_value, !opt_u8_value, !opt_bool_value,
    !opt_string_value, !value_to_opt_u8_int by done. by destruct m.
Qed.

Lemma mode_roundtrip mode : delivery_mode_from_i64 (delivery_mode_to_i64 mode) = Ok mode.
Proof. by destruct mode. Qed.

Definition item_ok (item : QueuedMessage) : bool :=
  is_u64 (q_id item) && is_u32 (q_attempts item) && is_u64 (q_next_attempt_at_ms item)
  && stored_ok (q_message item).

Lemma outbound_fold_cons k v rest a :
  utf8_string k = true ->
  outbound_fold ((VString k, v) :: rest) a = (a ← outbound_field k v a; outbound_fold rest a).
Proof. intros Hk. cbn [outbound_fold value_as_str]. unfold utf8_as_str. by rewrite Hk. Qed.

Lemma outbound_value_roundtrip item :
  item_ok item = true -> outbound_from_value (outbound_to_value item) = Ok item.
Proof.
  intros Hok. unfold item_ok in Hok. apply andb_prop in Hok as [Hok Hm].
  apply andb_prop in Hok as [Hok Hn]. apply andb_prop in Hok as [Hi Ha].
  assert (stored_ranges (q_message item) = true) as Hr.
  { unfold stored_ok in Hm. do 7 apply andb_prop in Hm as [Hm _]. done. }
  assert (is_i64 (q_attempts item) = true) as Ha64 by (unfold is_u32, u32_max, is_i64 in *; lia).
  assert (is_i64 (delivery_mode_to_i64 (q_mode item)) = true) as Hmo by by destruct (q_mode item).
  unfold outbound_from_value, outbound_to_value.
  do 5 (rewrite outbound_fold_cons by reflexivity; run_field outbound_field;
        rewrite ?value_as_i64_int by first [done|apply as_i64_range]; cbn [mbind result_bind];
        rewrite ?mode_roundtrip; cbn [mbind result_bind]).
  cbn [outbound_fold mbind result_bind o_id o_mode o_attempts o_next_attempt_ms o_message ok_or].
  rewrite !as_u64_i64, message_value_roundtrip by done. cbn [mbind result_bind].
  unfold as_u32. unfold is_u32, u32_max in Ha. rewrite Z.mod_small by lia. by destruct item.
Qed.

(** * Sizes *)

Lemma rep_opt {A} (f : A -> Value) (P : A -> bool) d o :
  opt_is P o = true -> (forall a, P a = true -> rep (S d) (f a)) ->
  rep (S d) (match o with Some a => f a | None => Nil end).
Proof. destruct o; simpl; intros Ho Hf; [by apply Hf|apply rep_nil]. Qed.

Lemma rep_opt_arr {n} d (o : option (arr n)) :
  Z.of_nat n <= u32_max -> rep (S d) (option_vec_to_value (arr_list <$> o)).
Proof. intros Hn. destruct o; simpl; [by apply rep_arr|apply rep_nil]. Qed.

Lemma rep_key d k v :
  utf8_string k = true -> fits_u32 (bytes_of_string k) = true -> rep (S d) v ->
  rep (S d) (VString k, v).1 /\ rep (S d) (VString k, v).2.
Proof. intros. split; [by apply rep_string|done]. Qed.

Lemma message_value_rep m : stored_ok m = true -> rep 1001 (encode_message_value m).
Proof.
  unfold stored_ok, stored_ranges. intros Hr. repeat (apply andb_prop in Hr as [Hr ?]).
  unfold encode_message_value. apply rep_map; [reflexivity|].
  repeat (apply List.Forall_cons; [apply rep_key; [reflexivity|reflexivity|]|]);
    [..|apply List.Forall_nil].
  all: try (apply rep_opt_arr; unfold u32_max; lia).
  all: try (apply rep_arr; unfold u32_max; lia).
  all: try apply rep_bool.
  all: try (by apply rep_u8).
  all: try (by apply rep_f64).
  all: try (by apply rep_binary).
  all: try (by eapply rep_opt; [eassumption|intros; first [by apply rep_u32|by apply rep_u8|by apply rep_binary]]).
  - split; [done|]. by apply Nat.leb_le.
  - by destruct (LXMessage.m_transport_encrypted m); [apply rep_bool|apply rep_nil].
  - eapply rep_opt; [eassumption|]. intros s [Hu Hs]%andb_prop. by apply rep_string.
Qed.

Lemma outbound_value_rep item : item_ok item = true -> rep 1002 (outbound_to_value item).
Proof.
  unfold item_ok. intros Hok. apply andb_prop in Hok as [Hok Hm].
  apply andb_prop in Hok as [Hok Hn]. apply andb_prop in Hok as [Hi Ha].
  unfold outbound_to_value. apply rep_map; [reflexivity|].
  repeat (apply List.Forall_cons; [apply rep_key; [reflexivity|reflexivity|]|]);
    [..|apply List.Forall_nil].
  - apply rep_i64.
  - apply rep_u8. by destruct (q_mode item).
  - by apply rep_u32.
  - apply rep_i64.
  - by apply message_value_rep.
Qed.

(** The outbound queue survives on disk: an item with fields in range is
    encoded, and decoding the bytes gives back the same item, with every one of
    the message's fields. *)
Theorem outbound_item_roundtrip `{Msgpack} `{!MsgpackLaws} (item : QueuedMessage)
  (Hok : item_ok item = true) :
  exists bs, encode_outbound item = Ok bs /\ forall rest, decode_outbound (bs ++ rest) = Ok item.
Proof.
  apply (codec_roundtrip outbound_to_value outbound_from_value).
  - eapply rep_representable; [by apply outbound_value_rep|]. unfold MAX_DEPTH. lia.
  - by apply outbound_value_roundtrip.
Qed.

Definition sample_item : QueuedMessage :=
  mkQueued 7 (LXMessage.set_stamp_cost 8 sample_message) Propagated 2 5000.

Lemma outbound_item_roundtrip_witness :
  exists bs, encode_outbound (M := bit_codec) sample_item = Ok bs /\
    decode_outbound (M := bit_codec) bs = Ok sample_item.
Proof.
  destruct (@outbound_item_roundtrip bit_codec bit_codec_laws sample_item eq_refl) as (bs & Hw & Hr).
  exists bs. split; [exact Hw|]. specialize (Hr []). rewrite app_nil_r in Hr. exact Hr.
Defined.

(** * Propagation entries *)

(** What reading fills in: a destination from the data, and the size. *)
Definition entry_read (e : PropagationEntry) : PropagationEntry :=
  mkPropEntry (pe_transient_id e) (pe_lxm_data e) (pe_timestamp e)
    (match pe_destination_hash e with
     | Some h => Some h
     | None => if Nat.leb DESTINATION_LENGTH (length (pe_lxm_data e))
               then Some (arr_of 16 (take 16 (pe_lxm_data e))) else None
     end)
    (pe_filepath e)
    (Some (match pe_msg_size e with Some n => n | None => Z.of_nat (length (pe_lxm_data e)) end)).

Definition entry_in_range (e : PropagationEntry) : bool :=
  f64_valid (pe_timestamp e) && fits_u32 (pe_lxm_data e)
  && opt_is (fun s => utf8_string s && fits_u32 (bytes_of_string s)) (pe_filepath e)
  && opt_is (fun n => (0 <=? n) && (n <? 2 ^ 63)) (pe_msg_size e).

Lemma entry_value_read e :
  entry_in_range e = true ->
  propagation_entry_from_value (propagation_entry_to_value e) = Ok (entry_read e).
Proof.
  unfold entry_in_range. intros Hr. apply andb_prop in Hr as [Hr Hsz]. apply andb_prop in Hr as [_ Hp].
  unfold propagation_entry_from_value, propagation_entry_to_value, entry_read, entry_destination.
  rewrite value_to_fixed_bytes_arr. cbn [ok_or mbind result_bind value_to_bytes value_to_f64 lookup list_lookup].
  destruct e as [id data ts dest path size]. simpl in *.
  destruct dest as [h|]; [rewrite value_to_fixed_bytes_arr|];
    (destruct path as [s|]; [simpl in Hp; apply andb_prop in Hp as [Hu _]; simpl; unfold utf8_as_str; rewrite Hu|]);
    (destruct size as [n|]; [|done]); simpl in Hsz; apply andb_prop in Hsz as [Hlo Hhi];
    by rewrite as_i64_small, value_to_opt_u64_int by lia.
Qed.

Lemma entry_value_rep e : entry_in_range e = true -> rep 2 (propagation_entry_to_value e).
Proof.
  unfold entry_in_range. intros Hr. repeat (apply andb_prop in Hr as [Hr ?]).
  unfold propagation_entry_to_value. apply rep_array; [reflexivity|].
  repeat apply List.Forall_cons; [..|apply List.Forall_nil].
  - apply rep_arr. unfold u32_max. lia.
  - by apply rep_binary.
  - by apply rep_f64.
  - destruct (pe_destination_hash e); [apply rep_arr; unfold u32_max; lia|apply rep_nil].
  - eapply rep_opt; [eassumption|]. intros s [Hu Hs]%andb_prop. by apply rep_string.
  - destruct (pe_msg_size e); [apply rep_i64|apply rep_nil].
Qed.

(** Propagation entries survive the wire: reading what was written gives
    the entry back, with the destination taken from the first 16 bytes of the
    data and the size from its length where they were not recorded. *)
Theorem propagation_entry_roundtrip `{Msgpack} `{!MsgpackLaws} (e : PropagationEntry)
  (Hok : entry_in_range e = true) :
  exists bs, propagation_entry_to_bytes e = Ok bs /\
    forall rest, propagation_entry_from_bytes (bs ++ rest) = Ok (entry_read e).
Proof.
  destruct (rns_write_read (propagation_entry_to_value e)) as (bs & Hw & Hr).
  { eapply rep_representable; [by apply entry_value_rep|]. unfold MAX_DEPTH. lia. }
  exists bs. split; [done|]. intros rest. unfold propagation_entry_from_bytes. rewrite Hr.
  by apply entry_value_read.
Qed.

Lemma propagation_entry_roundtrip_witness :
  exists bs, propagation_entry_to_bytes (M := bit_codec) sample_entry = Ok bs /\
    propagation_entry_from_bytes (M := bit_codec) bs = Ok (entry_read sample_entry).
Proof.
  destruct (@propagation_entry_roundtrip bit_codec bit_codec_laws sample_entry eq_refl)
    as (bs & Hw & Hr).
  exists bs. split; [exact Hw|]. specialize (Hr []). rewrite app_nil_r in Hr. exact Hr.
Defined.
