(* ===== verification/StorageTables.v ===== *)
(** The tables [lxmf-rs/src/rns/storage.rs] keeps on disk: tickets, outbound
    stamp costs, transient-id caches, node statistics and saved peers. *)

From Stdlib Require Import ZArith Lia Permutation.
From Stdlib Require Import Strings.Byte.
From stdpp Require Import base gmap strings numbers list.
From coqutil Require Import Datatypes.RecordSetters.
From S2P Require Import Prelude Float Msgpack Crypto Stamp Message Rns PropStore Peer StorageCodec.
Import DoubleBraceUpdate.

Local Open Scope Z_scope.

Record TicketStoreSnapshot : Type := mkSnapshot {
  ts_outbound : gmap (arr 16) (f64 * list byte);
  ts_inbound : gmap (arr 16) (gmap (list byte) f64);
  ts_last_deliveries : gmap (arr 16) f64
}.

Record NodeStats : Type := mkStats {
  client_propagation_messages_received : Z;
  client_propagation_messages_served : Z;
  unpeered_propagation_incoming : Z;
  unpeered_propagation_rx_bytes : Z
}.

(** * Reading tables

    The loops over a map's entries: an entry whose key or value does not parse
    is skipped, a later entry replaces an earlier one. *)
Definition read_table {K A} `{Countable K} (read_key : Value -> option K) (read : Value -> option A)
    (value : Value) : gmap K A :=
  match value with
  | VMap entries =>
      foldl (fun out kv => match read_key kv.1, read kv.2 with
                           | Some k, Some a => <[k := a]> out
                           | _, _ => out
                           end) ∅ entries
  | _ => ∅
  end.

Definition value_to_f64_seconds (value : Value) : option f64 :=
  match value_as_i64 value with
  | Some v => if 0 <=? v then Some (f64_of_Z v) else None
  | None => v ← value_to_f64 value; if f64_ltb v f64_zero then None else Some v
  end.

Section Tables.
Context `{HI : HashIter}.

Definition write_table {K A} `{Countable K} (write_key : K -> Value) (write : A -> Value)
    (m : gmap K A) : Value :=
  VMap (map (fun kv => (write_key kv.1, write kv.2)) (hash_iter m)).

(** * Tickets *)

Definition tickets_outbound_to_value (outbound : gmap (arr 16) (f64 * list byte)) : Value :=
  write_table (fun dest => Binary (arr_list dest))
    (fun et => VArray [F64 et.1; Binary et.2]) outbound.

Definition read_outbound_ticket (val : Value) : option (f64 * list byte) :=
  match val with
  | VArray (v0 :: v1 :: _) =>
      expires_at ← value_to_f64_seconds v0;
      match v1 with Binary bytes => Some (expires_at, bytes) | _ => None end
  | _ => None
  end.

Definition tickets_outbound_from_value (value : Value) : gmap (arr 16) (f64 * list byte) :=
  read_table (value_to_fixed_bytes 16) read_outbound_ticket value.

Definition tickets_to_value (tickets : gmap (list byte) f64) : Value :=
  write_table Binary (fun expires_at => VArray [F64 expires_at]) tickets.

Definition tickets_inbound_to_value (inbound : gmap (arr 16) (gmap (list byte) f64)) : Value :=
  write_table (fun dest => Binary (arr_list dest)) tickets_to_value inbound.

(** An expiry, alone or as the first item of an array. *)
Definition read_expiry (expires_val : Value) : option f64 :=
  match expires_val with
  | VArray (v :: _) => value_to_f64_seconds v
  | _ => value_to_f64_seconds expires_val
  end.

Definition read_tickets (val : Value) : option (gmap (list byte) f64) :=
  match val with
  | VMap _ => Some (read_table value_to_bytes read_expiry val)
  | _ => None
  end.

Definition tickets_inbound_from_value (value : Value) : gmap (arr 16) (gmap (list byte) f64) :=
  read_table (value_to_fixed_bytes 16) read_tickets value.

Definition tickets_last_deliveries_to_value (last_deliveries : gmap (arr 16) f64) : Value :=
  write_table (fun dest => Binary (arr_list dest)) F64 last_deliveries.

Definition tickets_last_deliveries_from_value (value : Value) : gmap (arr 16) f64 :=
  read_table (value_to_fixed_bytes 16) value_to_f64_seconds value.

(** The file contents of [save_available_tickets] and what
    [load_available_tickets] makes of them. *)
Definition tickets_snapshot_to_value (s : TicketStoreSnapshot) : Value :=
  VMap [(VString "outbound", tickets_outbound_to_value (ts_outbound s));
        (VString "inbound", tickets_inbound_to_value (ts_inbound s));
        (VString "last_deliveries", tickets_last_deliveries_to_value (ts_last_deliveries s))].

Definition snapshot_field (key : string) (val : Value) (s : TicketStoreSnapshot) :
    TicketStoreSnapshot :=
  if String.eqb key "outbound"
  then mkSnapshot (tickets_outbound_from_value val) (ts_inbound s) (ts_last_deliveries s)
  else if String.eqb key "inbound"
  then mkSnapshot (ts_outbound s) (tickets_inbound_from_value val) (ts_last_deliveries s)
  else if String.eqb key "last_deliveries"
  then mkSnapshot (ts_outbound s) (ts_inbound s) (tickets_last_deliveries_from_value val)
  else s.

Definition tickets_snapshot_from_value (value : Value) : TicketStoreSnapshot :=
  match value with
  | VMap map => fold_keys snapshot_field (mkSnapshot ∅ ∅ ∅) map
  | _ => mkSnapshot ∅ ∅ ∅
  end.

(** * Stamp costs *)

Definition stamp_costs_to_value (entries : gmap (arr 16) (f64 * Z)) : Value :=
  write_table (fun dest => Binary (arr_list dest)) (fun uc => VArray [F64 uc.1; Integer uc.2]) entries.

Definition read_stamp_cost (val : Value) : option (f64 * Z) :=
  match val with
  | VArray (v0 :: v1 :: _) =>
      updated_at ← value_to_f64_seconds v0;
      cost ← value_to_opt_u32 v1;
      Some (updated_at, cost)
  | _ => None
  end.

Definition stamp_costs_from_value (value : Value) : gmap (arr 16) (f64 * Z) :=
  read_table (value_to_fixed_bytes 16) read_stamp_cost value.

(** * Transient-id caches *)

Definition transient_cache_to_value (cache : gmap (arr 32) f64) : Value :=
  write_table (fun key => Binary (arr_list key)) F64 cache.

Definition read_cache_timestamp (val : Value) : option f64 :=
  let timestamp := match val with
                   | F64 v => v
                   | F32 v => f64_of_f32 v
                   | Integer i => default f64_zero (f64_of_Z <$> integer_as_i64 i)
                   | _ => f64_zero
                   end in
  if f64_ltb f64_zero timestamp then Some timestamp else None.

Definition transient_cache_from_value (value : Value) : gmap (arr 32) f64 :=
  read_table (value_to_fixed_bytes 32) read_cache_timestamp value.

(** [MESSAGE_EXPIRY as f64 * 6.0] *)
Definition cache_expiry : f64 := f64_mul (f64_of_Z MESSAGE_EXPIRY) (f64_of_Z 6).

Definition clean_transient_cache (now_s : f64) (cache : gmap (arr 32) f64) :
    gmap (arr 32) f64 * nat :=
  let kept := filter (fun kv => f64_leb now_s (f64_add kv.2 cache_expiry) = true) cache in
  (kept, (size cache - size kept)%nat).

(** * Node statistics *)

Definition node_stats_to_value (s : NodeStats) : Value :=
  VMap [(VString "client_propagation_messages_received",
          Integer (as_i64 (client_propagation_messages_received s)));
        (VString "client_propagation_messages_served",
          Integer (as_i64 (client_propagation_messages_served s)));
        (VString "unpeered_propagation_incoming", Integer (as_i64 (unpeered_propagation_incoming s)));
        (VString "unpeered_propagation_rx_bytes", Integer (as_i64 (unpeered_propagation_rx_bytes s)))].

Definition stats_field (key : string) (val : Value) (s : NodeStats) : NodeStats :=
  let v := value_to_opt_u64 val in
  if String.eqb key "client_propagation_messages_received" then
    mkStats (default (client_propagation_messages_received s) v)
      (client_propagation_messages_served s) (unpeered_propagation_incoming s)
      (unpeered_propagation_rx_bytes s)
  else if String.eqb key "client_propagation_messages_served" then
    mkStats (client_propagation_messages_received s)
      (default (client_propagation_messages_served s) v) (unpeered_propagation_incoming s)
      (unpeered_propagation_rx_bytes s)
  else if String.eqb key "unpeered_propagation_incoming" then
    mkStats (client_propagation_messages_received s) (client_propagation_messages_served s)
      (default (unpeered_propagation_incoming s) v) (unpeered_propagation_rx_bytes s)
  else if String.eqb key "unpeered_propagation_rx_bytes" then
    mkStats (client_propagation_messages_received s) (client_propagation_messages_served s)
      (unpeered_propagation_incoming s) (default (unpeered_propagation_rx_bytes s) v)
  else s.

Definition node_stats_from_value (value : Value) : NodeStats :=
  match value with
  | VMap map => fold_keys stats_field (mkStats 0 0 0 0) map
  | _ => mkStats 0 0 0 0
  end.

(** * Saved peers *)

Definition peer_state_as_i64 (s : PeerState) : Z :=
  match s with Idle => 0 | OfferSent => 1 | AwaitingPayload => 2 | Backoff => 3 end.

Definition peer_state_from_u8 (v : Z) : option PeerState :=
  if v =? 0 then Some Idle else if v =? 1 then Some OfferSent
  else if v =? 2 then Some AwaitingPayload else if v =? 3 then Some Backoff else None.

(** The file contents of [save_peer]. *)
Definition peer_to_value (p : Peer) : Value :=
  VMap [(VString "id", Binary (p_id p));
        (VString "state", Integer (peer_state_as_i64 (p_state p)));
        (VString "last_sync_ms", Integer (as_i64 (last_sync_ms p)));
        (VString "last_attempt_ms", Integer (as_i64 (last_attempt_ms p)));
        (VString "next_sync_ms", Integer (as_i64 (next_sync_ms p)));
        (VString "backoff_ms", Integer (as_i64 (backoff_ms p)));
        (VString "failures", Integer (failures p));
        (VString "last_heard_ms", Integer (as_i64 (last_heard_ms p)));
        (VString "rx_bytes", Integer (as_i64 (rx_bytes p)));
        (VString "tx_bytes", Integer (as_i64 (tx_bytes p)));
        (VString "messages_offered", Integer (as_i64 (messages_offered p)));
        (VString "messages_outgoing", Integer (as_i64 (messages_outgoing p)));
        (VString "messages_incoming", Integer (as_i64 (messages_incoming p)));
        (VString "messages_unhandled", Integer (as_i64 (messages_unhandled p)));
        (VString "peering_key", match peering_key p with Some key => Binary key | None => Nil end)].

(** The local variables of [peer_from_value]'s loop. *)
Record peer_acc : Type := mkPeerAcc {
  pa_id : option (arr 16);
  pa_state : option PeerState;
  pa_last_sync_ms : option Z;
  pa_last_attempt_ms : option Z;
  pa_next_sync_ms : option Z;
  pa_backoff_ms : option Z;
  pa_failures : option Z;
  pa_last_heard_ms : option Z;
  pa_rx_bytes : option Z;
  pa_tx_bytes : option Z;
  pa_messages_offered : option Z;
  pa_messages_outgoing : option Z;
  pa_messages_incoming : option Z;
  pa_messages_unhandled : option Z;
  pa_peering_key : option (list byte)
}.

Definition read_state (i : Z) : option PeerState :=
  v ← integer_as_u64 i; w ← try_u8 v; peer_state_from_u8 w.
Definition read_failures (val : Value) : option Z := v ← value_to_opt_u64 val; try_u32 v.

Definition peer_field (key : string) (val : Value) (a : peer_acc) : peer_acc :=
  if String.eqb key "id" then
    match value_to_fixed_bytes 16 val with Some id => a {{ pa_id := Some id }} | None => a end
  else if String.eqb key "state" then
    match val with
    | Integer i => a {{ pa_state := read_state i }}
    | _ => a
    end
  else if String.eqb key "last_sync_ms" then a {{ pa_last_sync_ms := value_to_opt_u64 val }}
  else if String.eqb key "last_attempt_ms" then a {{ pa_last_attempt_ms := value_to_opt_u64 val }}
  else if String.eqb key "next_sync_ms" then a {{ pa_next_sync_ms := value_to_opt_u64 val }}
  else if String.eqb key "backoff_ms" then a {{ pa_backoff_ms := value_to_opt_u64 val }}
  else if String.eqb key "failures" then a {{ pa_failures := read_failures val }}
  else if String.eqb key "last_heard_ms" then a {{ pa_last_heard_ms := value_to_opt_u64 val }}
  else if String.eqb key "rx_bytes" then a {{ pa_rx_bytes := value_to_opt_u64 val }}
  else if String.eqb key "tx_bytes" then a {{ pa_tx_bytes := value_to_opt_u64 val }}
  else if String.eqb key "messages_offered" then a {{ pa_messages_offered := value_to_opt_u64 val }}
  else if String.eqb key "messages_outgoing" then a {{ pa_messages_outgoing := value_to_opt_u64 val }}
  else if String.eqb key "messages_incoming" then a {{ pa_messages_incoming := value_to_opt_u64 val }}
  else if String.eqb key "messages_unhandled"
       then a {{ pa_messages_unhandled := value_to_opt_u64 val }}
  else if String.eqb key "peering_key" then a {{ pa_peering_key := value_to_bytes val }}
  else a.

Definition peer_of_acc (a : peer_acc) : result RnsError Peer :=
  id ← ok_or (pa_id a) (RnsMsgpack "peer missing id");
  let p := Peer.new id 0 in
  Ok (mkPeer id (default (p_state p) (pa_state a)) (default (last_sync_ms p) (pa_last_sync_ms a))
        (default (last_attempt_ms p) (pa_last_attempt_ms a))
        (default (next_sync_ms p) (pa_next_sync_ms a)) (default (backoff_ms p) (pa_backoff_ms a))
        (default (failures p) (pa_failures a)) (default (last_heard_ms p) (pa_last_heard_ms a))
        (default (rx_bytes p) (pa_rx_bytes a)) (default (tx_bytes p) (pa_tx_bytes a))
        (default (messages_offered p) (pa_messages_offered a))
        (default (messages_outgoing p) (pa_messages_outgoing a))
        (default (messages_incoming p) (pa_messages_incoming a))
        (default (messages_unhandled p) (pa_messages_unhandled a))
        (pa_peering_key a) (peering_key_value p) (sync_transfer_rate p)
        (handled_messages_queue p) (unhandled_messages_queue p) (sync_strategy p) (peering_cost p)
        (metadata p) (peering_timebase p) (link_establishment_rate p)
        (propagation_transfer_limit p) (propagation_sync_limit p) (propagation_stamp_cost p)
        (propagation_stamp_cost_flexibility p) (currently_transferring_messages p)
        (current_sync_transfer_started p)).

Definition empty_peer_acc : peer_acc :=
  mkPeerAcc None None None None None None None None None None None None None None None.

Definition peer_from_value (value : Value) : result RnsError Peer :=
  match value with
  | VMap entries => peer_of_acc (fold_keys peer_field empty_peer_acc entries)
  | _ => Err (RnsMsgpack "peer must be map")
  end.

End Tables.

(** * Round trips *)

Section RoundTrips.
Context `{HI : HashIter}.

Lemma read_table_fold {K A} `{Countable K} (rk : Value -> option K) (rd : Value -> option A)
    (wk : K -> Value) (wr : A -> Value) (l : list (K * A)) (acc : gmap K A) :
  (forall k, rk (wk k) = Some k) -> Forall (fun kv => rd (wr kv.2) = Some kv.2) l ->
  foldl (fun (out : gmap K A) kv => match rk kv.1, rd kv.2 with
                       | Some k, Some a => <[k := a]> out
                       | _, _ => out
                       end) acc (map (fun kv => (wk kv.1, wr kv.2)) l) =
  foldl (fun (m : gmap K A) kv => <[kv.1 := kv.2]> m) acc l.
Proof.
  intros Hk Hl. revert acc. induction Hl as [|[k a] l Ha _ IH]; intros acc; [done|].
  cbn [map foldl fst snd] in *. rewrite Hk, Ha. apply IH.
Qed.

Lemma read_write_table {K A} `{Countable K} (rk : Value -> option K) (rd : Value -> option A)
    (wk : K -> Value) (wr : A -> Value) (m : gmap K A) :
  (forall k, rk (wk k) = Some k) -> map_Forall (fun _ a => rd (wr a) = Some a) m ->
  read_table rk rd (write_table wk wr m) = m.
Proof.
  intros Hk Hm. unfold read_table, write_table. rewrite read_table_fold; [|done|].
  - apply foldl_insert_hash_iter.
  - apply Forall_forall. intros [k a] Hin. apply elem_of_hash_iter in Hin. by apply (Hm k a).
Qed.

(** A time that is not before the epoch (a negative zero and a NaN count). *)
Definition not_negative (x : f64) : bool := negb (f64_ltb x f64_zero).

Lemma read_seconds x : not_negative x = true -> value_to_f64_seconds (F64 x) = Some x.
Proof.
  unfold not_negative, value_to_f64_seconds. simpl. by destruct (f64_ltb x f64_zero).
Qed.

Record snapshot_ok (s : TicketStoreSnapshot) : Prop := {
  so_outbound : map_Forall (fun _ et => not_negative et.1 = true) (ts_outbound s);
  so_inbound : map_Forall (fun _ tickets => map_Forall (fun _ e => not_negative e = true) tickets)
                 (ts_inbound s);
  so_last : map_Forall (fun _ t => not_negative t = true) (ts_last_deliveries s)
}.

Lemma outbound_tickets_roundtrip m :
  map_Forall (fun _ et => not_negative et.1 = true) m ->
  tickets_outbound_from_value (tickets_outbound_to_value m) = m.
Proof.
  intros Hm. apply read_write_table; [intros; apply value_to_fixed_bytes_arr|].
  intros k [e tk] Hk. cbn [read_outbound_ticket fst snd]. rewrite read_seconds; [done|].
  by apply (Hm k (e, tk)).
Qed.

Lemma inbound_tickets_roundtrip m :
  map_Forall (fun _ tickets => map_Forall (fun _ e => not_negative e = true) tickets) m ->
  tickets_inbound_from_value (tickets_inbound_to_value m) = m.
Proof.
  intros Hm. apply read_write_table; [intros; apply value_to_fixed_bytes_arr|].
  intros k tickets Hk. unfold read_tickets, tickets_to_value at 1. unfold write_table at 1.
  f_equal. apply (read_write_table value_to_bytes read_expiry); [done|].
  intros tk e He. cbn [read_expiry]. apply read_seconds. by apply (Hm k tickets Hk tk e).
Qed.

Lemma last_deliveries_roundtrip m :
  map_Forall (fun _ t => not_negative t = true) m ->
  tickets_last_deliveries_from_value (tickets_last_deliveries_to_value m) = m.
Proof.
  intros Hm. apply read_write_table; [intros; apply value_to_fixed_bytes_arr|].
  intros k t Hk. apply read_seconds. by apply (Hm k t).
Qed.

Lemma snapshot_roundtrip s :
  snapshot_ok s -> tickets_snapshot_from_value (tickets_snapshot_to_value s) = s.
Proof.
  intros [Ho Hi Hl]. unfold tickets_snapshot_from_value, tickets_snapshot_to_value.
  rewrite !fold_keys_cons by reflexivity. unfold fold_keys, snapshot_field.
  cbn [foldl String.eqb Ascii.eqb Bool.eqb ts_outbound ts_inbound ts_last_deliveries].
  rewrite outbound_tickets_roundtrip, inbound_tickets_roundtrip, last_deliveries_roundtrip by done.
  by destruct s.
Qed.

Lemma stamp_costs_roundtrip m :
  map_Forall (fun _ uc => not_negative uc.1 = true /\ is_u32 uc.2 = true) m ->
  stamp_costs_from_value (stamp_costs_to_value m) = m.
Proof.
  intros Hm. apply read_write_table; [intros; apply value_to_fixed_bytes_arr|].
  intros k [u c] Hk. destruct (Hm k (u, c) Hk) as [Hu Hc]. cbn [read_stamp_cost fst snd] in *.
  rewrite read_seconds by done. cbn [mbind option_bind]. by rewrite value_to_opt_u32_int.
Qed.

(** A cache keeps the timestamps after the epoch. *)
Lemma transient_cache_roundtrip m :
  map_Forall (fun _ t => f64_ltb f64_zero t = true) m ->
  transient_cache_from_value (transient_cache_to_value m) = m.
Proof.
  intros Hm. apply read_write_table; [intros; apply value_to_fixed_bytes_arr|].
  intros k t Hk. unfold read_cache_timestamp. by rewrite (Hm k t Hk).
Qed.

Definition stats_ok (s : NodeStats) : Prop :=
  0 <= client_propagation_messages_received s < 2 ^ 63 /\
  0 <= client_propagation_messages_served s < 2 ^ 63 /\
  0 <= unpeered_propagation_incoming s < 2 ^ 63 /\ 0 <= unpeered_propagation_rx_bytes s < 2 ^ 63.

Lemma node_stats_roundtrip s :
  stats_ok s -> node_stats_from_value (node_stats_to_value s) = s.
Proof.
  intros (H1 & H2 & H3 & H4). unfold node_stats_from_value, node_stats_to_value.
  rewrite !fold_keys_cons by reflexivity. unfold fold_keys, stats_field.
  cbn [foldl String.eqb Ascii.eqb Bool.eqb client_propagation_messages_received
    client_propagation_messages_served unpeered_propagation_incoming unpeered_propagation_rx_bytes].
  rewrite !as_i64_small, !value_to_opt_u64_int by done. by destruct s.
Qed.

End RoundTrips.

(** The tables on disk come back unchanged: tickets with expiry times not
    before the epoch, stamp costs, transient-id caches with times after the
    epoch, and statistics below [2^63], whatever the order in which the maps
    are iterated when they are written. *)
Theorem stored_tables_roundtrip `{HashIter} (s : TicketStoreSnapshot)
  (costs : gmap (arr 16) (f64 * Z)) (cache : gmap (arr 32) f64) (stats : NodeStats)
  (Hs : snapshot_ok s)
  (Hcosts : map_Forall (fun _ uc => not_negative uc.1 = true /\ is_u32 uc.2 = true) costs)
  (Hcache : map_Forall (fun _ t => f64_ltb f64_zero t = true) cache) (Hstats : stats_ok stats) :
  tickets_snapshot_from_value (tickets_snapshot_to_value s) = s /\
  stamp_costs_from_value (stamp_costs_to_value costs) = costs /\
  transient_cache_from_value (transient_cache_to_value cache) = cache /\
  node_stats_from_value (node_stats_to_value stats) = stats.
Proof.
  split_and!; [by apply snapshot_roundtrip|by apply stamp_costs_roundtrip
              |by apply transient_cache_roundtrip|by apply node_stats_roundtrip].
Qed.

Lemma stored_tables_roundtrip_witness :
  stamp_costs_from_value (stamp_costs_to_value (HI := key_order)
    {[ arr_zero 16 := (f64_of_Z 3, 8) ]}) = {[ arr_zero 16 := (f64_of_Z 3, 8) ]}.
Proof.
  apply (@stored_tables_roundtrip key_order
    (mkSnapshot {[ arr_zero 16 := (f64_of_Z 3, [x01]) ]} ∅ ∅)
    {[ arr_zero 16 := (f64_of_Z 3, 8) ]} {[ arr_zero 32 := f64_of_Z 5 ]} (mkStats 1 2 3 4)).
  - split; [apply map_Forall_singleton; reflexivity|apply map_Forall_empty..].
  - apply map_Forall_singleton. split; reflexivity.
  - apply map_Forall_singleton. reflexivity.
  - unfold stats_ok. simpl. lia.
Defined.

(** * Cache expiry *)

Lemma lookup_clean_cache now_s cache id t :
  fst (clean_transient_cache now_s cache) !! id = Some t <->
  cache !! id = Some t /\ f64_leb now_s (f64_add t cache_expiry) = true.
Proof. unfold clean_transient_cache. simpl. by rewrite map_lookup_filter_Some. Qed.

(** [clean_transient_cache] keeps exactly the entries not older than six
    message lifetimes, returns the number it dropped, and cleaning again at the
    same time drops nothing. *)
Theorem clean_transient_cache_exact (now_s : f64) (cache : gmap (arr 32) f64) :
  let '(kept, dropped) := clean_transient_cache now_s cache in
  (forall id t, kept !! id = Some t <->
     cache !! id = Some t /\ f64_leb now_s (f64_add t cache_expiry) = true) /\
  (size kept + dropped = size cache)%nat /\ clean_transient_cache now_s kept = (kept, 0%nat).
Proof.
  unfold clean_transient_cache. cbv zeta. split_and!.
  - intros id t. by rewrite map_lookup_filter_Some.
  - pose proof (map_size_filter (fun kv => f64_leb now_s (f64_add kv.2 cache_expiry) = true) cache). lia.
  - rewrite map_filter_filter_l by done. by rewrite Nat.sub_diag.
Qed.

(** * Saved peers *)

(** What a peer is after a save and a load: the key's value and the peering
    parameters are not stored, and start over at their defaults. *)
Definition saved_view (p : Peer) : Peer :=
  mkPeer (p_id p) (p_state p) (last_sync_ms p) (last_attempt_ms p) (next_sync_ms p) (backoff_ms p)
    (failures p) (last_heard_ms p) (rx_bytes p) (tx_bytes p) (messages_offered p)
    (messages_outgoing p) (messages_incoming p) (messages_unhandled p) (peering_key p) None f64_zero
    [] [] DEFAULT_SYNC_STRATEGY None None 0 f64_zero None None None None None None.

Definition below_63 (z : Z) : bool := (0 <=? z) && (z <? 2 ^ 63).

Definition peer_times_ok (p : Peer) : bool :=
  forallb below_63 [last_sync_ms p; last_attempt_ms p; next_sync_ms p; backoff_ms p;
                    last_heard_ms p; rx_bytes p; tx_bytes p; messages_offered p;
                    messages_outgoing p; messages_incoming p; messages_unhandled p].

Lemma read_u64_small z : below_63 z = true -> value_to_opt_u64 (Integer (as_i64 z)) = Some z.
Proof.
  unfold below_63. intros Hz. rewrite as_i64_small by lia. apply value_to_opt_u64_int. lia.
Qed.

Lemma read_failures_ok z : is_u32 z = true -> read_failures (Integer z) = Some z.
Proof.
  intros Hz. unfold read_failures. rewrite value_to_opt_u64_int by (unfold is_u32, u32_max in Hz; lia).
  cbn [mbind option_bind]. unfold try_u32. by rewrite Hz.
Qed.

Lemma read_state_ok s : read_state (peer_state_as_i64 s) = Some s.
Proof. by destruct s. Qed.

Lemma peer_value_roundtrip p :
  peer_times_ok p = true -> is_u32 (failures p) = true ->
  peer_from_value (peer_to_value p) = Ok (saved_view p).
Proof.
  intros Ht Hf. unfold peer_times_ok in Ht. cbn [forallb] in Ht.
  repeat (apply andb_prop in Ht as [? Ht]).
  unfold peer_from_value, peer_to_value, empty_peer_acc.
  do 15 (rewrite fold_keys_cons by reflexivity; run_field peer_field;
         rewrite ?value_to_fixed_bytes_arr; cbv iota).
  unfold fold_keys. cbn [foldl]. unfold peer_of_acc.
  cbn [pa_id pa_state pa_last_sync_ms pa_last_attempt_ms pa_next_sync_ms pa_backoff_ms pa_failures
       pa_last_heard_ms pa_rx_bytes pa_tx_bytes pa_messages_offered pa_messages_outgoing
       pa_messages_incoming pa_messages_unhandled pa_peering_key ok_or mbind result_bind].
  rewrite !read_u64_small, read_failures_ok, read_state_ok by done.
  cbn [from_option id]. unfold saved_view. do 2 f_equal. by destruct (peering_key p).
Qed.

(** A peer saved to disk and loaded again keeps its identity, state, times,
    backoff, counters and peering key, but not the key's value, its peering
    cost, limits or metadata: after a reload [peering_key_ready] is false for
    every peer, whatever key was stored. *)
Theorem saved_peer_roundtrip (p : Peer) (Ht : peer_times_ok p = true)
  (Hf : is_u32 (failures p) = true) :
  peer_from_value (peer_to_value p) = Ok (saved_view p) /\
  Peer.peering_key_ready (saved_view p) = false /\ peering_key (saved_view p) = peering_key p.
Proof. split; [by apply peer_value_roundtrip|done]. Qed.

Definition keyed_peer : Peer :=
  (Peer.new (arr_zero 16) 7) {{ peering_key := Some [x01]; peering_key_value := Some 20;
                                peering_cost := Some 18 }}.

Lemma saved_peer_roundtrip_witness :
  Peer.peering_key_ready keyed_peer = true /\
  peer_from_value (peer_to_value keyed_peer) =
    Ok ((Peer.new (arr_zero 16) 7) {{ peering_key := Some [x01] }}).
Proof.
  split; [reflexivity|].
  destruct (saved_peer_roundtrip keyed_peer eq_refl eq_refl) as [Hr _].
  etransitivity; [exact Hr|]. reflexivity.
Defined.
