(* ===== verification/MessageStore.v ===== *)
(** The [MessageStore] trait of [lxmf-rs/src/rns/storage.rs] and its two
    implementations.  A [FileMessageStore] works on a disk: for each directory
    the files by name, and the single files under the root.  Every write to the
    disk succeeds; the source ignores the errors of those that do not. *)

From Stdlib Require Import ZArith Lia Permutation.
From Stdlib Require Import Strings.Byte.
From stdpp Require Import base gmap strings pretty numbers list.
From coqutil Require Import Datatypes.RecordSetters.
From S2P Require Import Prelude Float Msgpack Crypto Stamp Message Rns PnDirectory PropStore Peer.
From S2P Require Import StorageCodec StorageTables.
Import DoubleBraceUpdate.

Local Open Scope Z_scope.

(** * The trait *)

Class MessageStore (S : Type) : Type := {
  save_outbound : QueuedMessage -> S -> S;
  remove_outbound : Z -> S -> S;
  load_outbound : S -> list QueuedMessage;
  save_inbound : LXMessage.t -> S -> S;
  save_failed : FailedDelivery -> S -> S
}.

(** What the router relies on, for the items a store can hold in the states it
    can be in: a saved item is loaded, saving keeps the items with other ids and
    adds nothing else, and removing an id removes the items with that id and no
    others. *)
Class MessageStoreLaws (S : Type) `{MessageStore S} : Type := {
  store_valid : S -> Prop;
  storable : QueuedMessage -> Prop;
  valid_save : forall item s, store_valid s -> storable item -> store_valid (save_outbound item s);
  valid_remove : forall id s, store_valid s -> 0 <= id -> store_valid (remove_outbound id s);
  valid_inbound : forall m s, store_valid s -> store_valid (save_inbound m s);
  valid_failed : forall f s, store_valid s -> store_valid (save_failed f s);
  load_save : forall item s, store_valid s -> storable item -> item ∈ load_outbound (save_outbound item s);
  load_save_old : forall item s x, store_valid s -> storable item -> x ∈ load_outbound s ->
    q_id x <> q_id item -> x ∈ load_outbound (save_outbound item s);
  load_save_only : forall item s x, store_valid s -> storable item ->
    x ∈ load_outbound (save_outbound item s) -> x = item \/ x ∈ load_outbound s;
  load_remove : forall id s x, store_valid s -> 0 <= id ->
    x ∈ load_outbound (remove_outbound id s) <-> x ∈ load_outbound s /\ q_id x <> id;
  load_inbound : forall m s, load_outbound (save_inbound m s) = load_outbound s;
  load_failed : forall f s, load_outbound (save_failed f s) = load_outbound s
}.

(** * In memory *)

Module InMemoryStore.

Record t : Type := mk {
  outbound : list QueuedMessage;
  inbound : list LXMessage.t;
  failed : list FailedDelivery
}.

Definition new : t := mk [] [] [].

Definition save_outbound (item : QueuedMessage) (s : t) : t :=
  mk (outbound s ++ [item]) (inbound s) (failed s).
Definition remove_outbound (id : Z) (s : t) : t :=
  mk (filter (fun m => q_id m <> id) (outbound s)) (inbound s) (failed s).
Definition load_outbound (s : t) : list QueuedMessage := outbound s.
Definition save_inbound (message : LXMessage.t) (s : t) : t :=
  mk (outbound s) (inbound s ++ [message]) (failed s).
Definition save_failed (item : FailedDelivery) (s : t) : t :=
  mk (outbound s) (inbound s) (failed s ++ [item]).

End InMemoryStore.

#[export] Instance memory_store : MessageStore InMemoryStore.t := {|
  save_outbound := InMemoryStore.save_outbound;
  remove_outbound := InMemoryStore.remove_outbound;
  load_outbound := InMemoryStore.load_outbound;
  save_inbound := InMemoryStore.save_inbound;
  save_failed := InMemoryStore.save_failed
|}.

#[export] Program Instance memory_store_laws : MessageStoreLaws InMemoryStore.t := {|
  store_valid := fun _ => True;
  storable := fun _ => True
|}.
Solve Obligations with try done.
Next Obligation. intros item s _ _. simpl. set_solver. Qed.
Next Obligation. intros item s x _ _ Hx _. simpl in *. set_solver. Qed.
Next Obligation. intros item s x _ _. simpl. set_solver. Qed.
Next Obligation. intros id s x _ _. simpl. unfold InMemoryStore.load_outbound. simpl. rewrite list_elem_of_filter. tauto. Qed.

(** * On disk *)

Module FileMessageStore.

Abbreviation Files := (gmap string (list byte)).

Record t : Type := mk {
  outbound_dir : Files;
  inbound_dir : Files;
  failed_dir : Files;
  propagation_dir : Files;
  peers_dir : Files;
  pn_dir_file : option (list byte);
  available_tickets_file : option (list byte);
  outbound_stamp_costs_file : option (list byte);
  node_stats_file : option (list byte);
  local_deliveries_file : option (list byte);
  locally_processed_file : option (list byte)
}.

(** An empty root directory. *)
Definition new : t := mk ∅ ∅ ∅ ∅ ∅ None None None None None None.

Section Operations.
Context `{C : Crypto} `{M : Msgpack} `{HI : HashIter}.

Definition outbound_path (id : Z) : string := pretty id +:+ ".mpk".
Definition failed_path (id : Z) : string := pretty id +:+ ".mpk".

Definition inbound_path (message : LXMessage.t) : string :=
  let name_bytes := match LXMessage.m_message_id message with
                    | Some id => arr_list id
                    | None => arr_list (full_hash (LXMessage.m_destination_hash message
                                ++ LXMessage.m_source_hash message ++ LXMessage.m_title message
                                ++ LXMessage.m_content message))
                    end in
  base64url name_bytes +:+ ".mpk".

(** [if let Ok(data) = encode { fs::write(path, data) }] *)
Definition write_ok {E} (data : result E (list byte)) (path : string) (dir : Files) : Files :=
  match data with Ok data => <[path := data]> dir | Err _ => dir end.

Definition save_outbound (item : QueuedMessage) (s : t) : t :=
  s {{ outbound_dir := write_ok (encode_outbound item) (outbound_path (q_id item)) (outbound_dir s) }}.

Definition remove_outbound (id : Z) (s : t) : t :=
  s {{ outbound_dir := delete (outbound_path id) (outbound_dir s) }}.

Definition load_outbound (s : t) : list QueuedMessage :=
  omap (fun data => res_ok (decode_outbound data)) (hash_values (outbound_dir s)).

Definition save_inbound (message : LXMessage.t) (s : t) : t :=
  s {{ inbound_dir := write_ok (write_value (encode_message_value message)) (inbound_path message)
                        (inbound_dir s) }}.

Definition failed_to_value (item : FailedDelivery) : Value :=
  VMap [(VString "id", Integer (as_i64 (fd_id item)));
        (VString "attempts", Integer (fd_attempts item));
        (VString "error", VString (fd_error item));
        (VString "message", encode_message_value (fd_message item))].

Definition save_failed (item : FailedDelivery) (s : t) : t :=
  s {{ failed_dir := write_ok (write_value (failed_to_value item)) (failed_path (fd_id item))
                       (failed_dir s) }}.

(** * Peers *)

Definition peer_path (id : arr 16) : string := base64url id.

Definition save_peer (p : Peer) (s : t) : t :=
  s {{ peers_dir := write_ok (write_value (peer_to_value p)) (peer_path (p_id p)) (peers_dir s) }}.

Definition remove_peer (id : arr 16) (s : t) : t :=
  s {{ peers_dir := delete (peer_path id) (peers_dir s) }}.

Definition load_peers (s : t) : gmap (arr 16) Peer :=
  foldl (fun m data => match read_value data with
                       | Ok value => match peer_from_value value with
                                     | Ok p => <[p_id p := p]> m
                                     | Err _ => m
                                     end
                       | Err _ => m
                       end) ∅ (hash_values (peers_dir s)).

(** * The propagation-node directory *)

Definition save_pn_directory (directory : PnDirectory) (s : t) : t :=
  match write_value (VArray (map (fun e => entry_to_value (entry_to_wire e)) (PnDir.list directory))) with
  | Ok buf => s {{ pn_dir_file := Some buf }}
  | Err _ => s
  end.

Definition load_pn_entry (dir : PnDirectory) (item : Value) : PnDirectory :=
  match entry_from_value item with
  | Ok entry =>
      let dir := fst (PnDir.upsert_announce (w_destination_hash entry) (w_app_data entry)
                        (w_last_seen_ms entry) dir) in
      if w_acked entry then fst (PnDir.acknowledge (w_destination_hash entry) dir) else dir
  | Err _ => dir
  end.

Definition load_pn_directory (s : t) : PnDirectory :=
  match pn_dir_file s with
  | None => PnDir.new
  | Some data => match read_value data with
                 | Ok (VArray list) => foldl load_pn_entry PnDir.new list
                 | _ => PnDir.new
                 end
  end.

(** * Tables *)

Definition save_table (value : Value) (old : option (list byte)) : option (list byte) :=
  match write_value value with Ok buf => Some buf | Err _ => old end.

Definition load_table {A} (file : option (list byte)) (default : A) (read : Value -> A) : A :=
  match file with
  | None => default
  | Some data => match read_value data with Ok value => read value | Err _ => default end
  end.

Definition save_local_deliveries (entries : gmap (arr 32) f64) (s : t) : t :=
  s {{ local_deliveries_file := save_table (transient_cache_to_value entries) (local_deliveries_file s) }}.
Definition load_local_deliveries (s : t) : gmap (arr 32) f64 :=
  load_table (local_deliveries_file s) ∅ transient_cache_from_value.
Definition save_locally_processed (entries : gmap (arr 32) f64) (s : t) : t :=
  s {{ locally_processed_file := save_table (transient_cache_to_value entries) (locally_processed_file s) }}.
Definition load_locally_processed (s : t) : gmap (arr 32) f64 :=
  load_table (locally_processed_file s) ∅ transient_cache_from_value.
Definition save_available_tickets (snapshot : TicketStoreSnapshot) (s : t) : t :=
  s {{ available_tickets_file := save_table (tickets_snapshot_to_value snapshot) (available_tickets_file s) }}.
Definition load_available_tickets (s : t) : TicketStoreSnapshot :=
  load_table (available_tickets_file s) (mkSnapshot ∅ ∅ ∅) tickets_snapshot_from_value.
Definition save_outbound_stamp_costs (costs : gmap (arr 16) (f64 * Z)) (s : t) : t :=
  s {{ outbound_stamp_costs_file := save_table (stamp_costs_to_value costs) (outbound_stamp_costs_file s) }}.
Definition load_outbound_stamp_costs (s : t) : gmap (arr 16) (f64 * Z) :=
  load_table (outbound_stamp_costs_file s) ∅ stamp_costs_from_value.
Definition save_node_stats (stats : NodeStats) (s : t) : t :=
  s {{ node_stats_file := save_table (node_stats_to_value stats) (node_stats_file s) }}.
Definition load_node_stats (s : t) : NodeStats :=
  load_table (node_stats_file s) (mkStats 0 0 0 0) node_stats_from_value.

End Operations.
End FileMessageStore.

(** * The disk implements the trait *)

Section FileStore.
Context `{C : Crypto} `{M : Msgpack} `{HI : HashIter}.

#[export] Instance file_store : MessageStore FileMessageStore.t := {|
  save_outbound := FileMessageStore.save_outbound;
  remove_outbound := FileMessageStore.remove_outbound;
  load_outbound := FileMessageStore.load_outbound;
  save_inbound := FileMessageStore.save_inbound;
  save_failed := FileMessageStore.save_failed
|}.

Context `{ML : !MsgpackLaws}.
Implicit Types s : FileMessageStore.t.

(** Every file of the outbound directory holds the item its name says. *)
Definition outbound_files_ok s : Prop :=
  map_Forall (fun path data => exists item, item_ok item = true /\
    path = FileMessageStore.outbound_path (q_id item) /\ decode_outbound data = Ok item)
    (FileMessageStore.outbound_dir s).

Lemma string_app_inj_r (a b c : string) : a +:+ c = b +:+ c -> a = b.
Proof.
  intros Heq. apply (f_equal String.list_ascii_of_string) in Heq.
  assert (forall x y, String.list_ascii_of_string (x +:+ y) =
    String.list_ascii_of_string x ++ String.list_ascii_of_string y) as Happ.
  { intros x y. induction x as [|ch x IH]; simpl; [done|]. by rewrite IH. }
  rewrite !Happ in Heq. apply app_inv_tail in Heq.
  by rewrite <- (String.string_of_list_ascii_of_string a), Heq,
    String.string_of_list_ascii_of_string.
Qed.

Lemma outbound_path_inj i j :
  FileMessageStore.outbound_path i = FileMessageStore.outbound_path j -> i = j.
Proof. unfold FileMessageStore.outbound_path. intros Hp%string_app_inj_r. by apply (inj pretty). Qed.

Lemma elem_of_load_outbound s x :
  x ∈ FileMessageStore.load_outbound s <->
  exists path data, FileMessageStore.outbound_dir s !! path = Some data /\ decode_outbound data = Ok x.
Proof.
  unfold FileMessageStore.load_outbound. rewrite list_elem_of_omap. split.
  - intros (data & [path Hp]%elem_of_hash_values & Hd). exists path, data. split; [done|].
    by destruct (decode_outbound data); simplify_eq/=.
  - intros (path & data & Hp & Hd). exists data. split; [apply elem_of_hash_values; eauto|].
    by rewrite Hd.
Qed.

(** The file an encoded item goes to. *)
Lemma saved_file item s :
  item_ok item = true ->
  exists data, decode_outbound data = Ok item /\
    FileMessageStore.outbound_dir (FileMessageStore.save_outbound item s) =
    <[FileMessageStore.outbound_path (q_id item) := data]> (FileMessageStore.outbound_dir s).
Proof.
  intros Hok.
  destruct (codec_roundtrip outbound_to_value outbound_from_value item) as (bs & Hw & Hr).
  { eapply rep_representable; [by apply outbound_value_rep|]. unfold MAX_DEPTH. lia. }
  { by apply outbound_value_roundtrip. }
  exists bs. split; [specialize (Hr []); by rewrite app_nil_r in Hr|].
  unfold FileMessageStore.save_outbound, encode_outbound. rewrite Hw. by destruct s.
Qed.

Lemma save_outbound_files item s :
  outbound_files_ok s -> item_ok item = true ->
  outbound_files_ok (FileMessageStore.save_outbound item s).
Proof.
  intros Hs Hok. destruct (saved_file item s Hok) as (data & Hd & Hdir).
  unfold outbound_files_ok. rewrite Hdir. apply map_Forall_insert_2; [|done]. by exists item.
Qed.

Lemma file_load_save item s x :
  outbound_files_ok s -> item_ok item = true ->
  x ∈ FileMessageStore.load_outbound (FileMessageStore.save_outbound item s) <->
  x = item \/ x ∈ FileMessageStore.load_outbound s /\ q_id x <> q_id item.
Proof.
  intros Hs Hok. destruct (saved_file item s Hok) as (data & Hd & Hdir).
  rewrite !elem_of_load_outbound. setoid_rewrite Hdir. split.
  - intros (path & d & Hp & Hx).
    destruct (decide (path = FileMessageStore.outbound_path (q_id item))) as [->|Hne].
    + rewrite lookup_insert_eq in Hp. simplify_eq. left. congruence.
    + rewrite lookup_insert_ne in Hp by done. right. split; [eauto|]. intros Heq.
      destruct (Hs path d Hp) as (y & _ & Hpath & Hy). assert (x = y) as -> by congruence. congruence.
  - intros [->|[(path & d & Hp & Hx) Hne]].
    + exists (FileMessageStore.outbound_path (q_id item)), data. by rewrite lookup_insert_eq.
    + exists path, d. rewrite lookup_insert_ne; [done|]. intros <-.
      destruct (Hs _ d Hp) as (y & _ & Hpath & Hy). assert (x = y) as -> by congruence.
      apply outbound_path_inj in Hpath. congruence.
Qed.

Lemma file_load_remove id s x :
  outbound_files_ok s ->
  x ∈ FileMessageStore.load_outbound (FileMessageStore.remove_outbound id s) <->
  x ∈ FileMessageStore.load_outbound s /\ q_id x <> id.
Proof.
  intros Hs. rewrite !elem_of_load_outbound.
  assert (FileMessageStore.outbound_dir (FileMessageStore.remove_outbound id s) =
          delete (FileMessageStore.outbound_path id) (FileMessageStore.outbound_dir s)) as Hdir
    by by destruct s.
  setoid_rewrite Hdir. split.
  - intros (path & d & [Hne Hp]%lookup_delete_Some & Hx). split; [eauto|]. intros Heq.
    destruct (Hs path d Hp) as (y & _ & Hpath & Hy). assert (x = y) as -> by congruence. congruence.
  - intros [(path & d & Hp & Hx) Hne]. exists path, d. split; [|done]. apply lookup_delete_Some.
    split; [|done]. intros <-. destruct (Hs _ d Hp) as (y & _ & Hpath & Hy).
    assert (x = y) as -> by congruence. apply outbound_path_inj in Hpath. congruence.
Qed.

#[export] Program Instance file_store_laws : MessageStoreLaws FileMessageStore.t := {|
  store_valid := outbound_files_ok;
  storable := fun item => item_ok item = true
|}.
Next Obligation. intros item s Hs Hok. by apply save_outbound_files. Qed.
Next Obligation.
  intros id s Hs _. unfold outbound_files_ok in *. destruct s. simpl in *. by apply map_Forall_delete.
Qed.
Next Obligation. intros m s Hs. by destruct s. Qed.
Next Obligation. intros f s Hs. by destruct s. Qed.
Next Obligation. intros item s Hs Hok. apply file_load_save; [done..|by left]. Qed.
Next Obligation. intros item s x Hs Hok Hx Hne. apply file_load_save; [done..|by right]. Qed.
Next Obligation. intros item s x Hs Hok Hx. apply file_load_save in Hx; [|done..]. tauto. Qed.
Next Obligation. intros id s x Hs _. by apply file_load_remove. Qed.
Next Obligation. intros m s. by destruct s. Qed.
Next Obligation. intros f s. by destruct s. Qed.

(** * The directory on disk *)

Lemma load_pn_entry_apply dir e :
  0 <= e_last_seen_ms e < 2 ^ 63 -> fits_u32 (e_app_data e) = true ->
  FileMessageStore.load_pn_entry dir (entry_to_value (entry_to_wire e)) =
  PnDirService.apply_entry 0 dir (entry_to_wire e).
Proof.
  intros Hs Hf. unfold FileMessageStore.load_pn_entry.
  rewrite entry_value_roundtrip by by split. unfold PnDirService.apply_entry.
  simpl w_last_seen_ms. by rewrite Z.max_l by lia.
Qed.

(** Entries whose times and announces fit the file format. *)
Definition dir_storable (dir : PnDirectory) : Prop :=
  Z.of_nat (size dir) <= u32_max /\
  map_Forall (fun _ e => 0 <= e_last_seen_ms e < 2 ^ 63 /\ fits_u32 (e_app_data e) = true) dir.

Lemma pn_directory_rep dir :
  dir_storable dir ->
  rep 3 (VArray (map (fun e => entry_to_value (entry_to_wire e)) (PnDir.list dir))).
Proof.
  intros [Hsz Hd]. apply rep_array.
  - rewrite fits_u32_map. apply fits_u32_length. unfold PnDir.list, hash_values.
    rewrite (sort_by_perm seen_leb), length_map, length_hash_iter. done.
  - apply List.Forall_map, Forall_forall. intros e [h Hh]%elem_of_dir_list.
    destruct (Hd h e Hh) as [Hs Hf]. apply rep_wire_entry. by split.
Qed.

Lemma merge_entry_self h e :
  entry_ok h e -> 0 <= e_last_seen_ms e -> merge_entry 0 e None = e.
Proof.
  intros (_ & _ & Hn & Hc) Hs. unfold merge_entry. rewrite <- Hn, <- Hc, Z.max_l by lia. simpl.
  rewrite orb_false_r. by destruct e.
Qed.

Lemma foldl_map_load (es : list PnDirectoryEntry) dir :
  Forall (fun e => 0 <= e_last_seen_ms e < 2 ^ 63 /\ fits_u32 (e_app_data e) = true) es ->
  foldl FileMessageStore.load_pn_entry dir (map (fun e => entry_to_value (entry_to_wire e)) es) =
  foldl (PnDirService.apply_entry 0) dir (map entry_to_wire es).
Proof.
  intros Hes. revert dir. induction Hes as [|e es [Hs Hf] _ IH]; intros dir; [done|].
  cbn [map foldl]. by rewrite load_pn_entry_apply, IH.
Qed.

Lemma load_saved_directory dir s :
  dir_ok dir -> dir_storable dir ->
  FileMessageStore.load_pn_directory (FileMessageStore.save_pn_directory dir s) = dir.
Proof.
  intros Hok Hst. pose proof (pn_directory_rep dir Hst) as Hrep. destruct Hst as [_ Hall].
  apply rep_representable in Hrep; [|unfold MAX_DEPTH; lia].
  destruct (write_value_ok _ Hrep) as [bs Hw].
  unfold FileMessageStore.save_pn_directory. rewrite Hw. unfold FileMessageStore.load_pn_directory.
  replace (FileMessageStore.pn_dir_file (s {{ FileMessageStore.pn_dir_file := Some bs }})) with (Some bs)
    by by destruct s.
  rewrite (read_write_eq _ _ Hrep Hw).
  assert (Forall (fun e => 0 <= e_last_seen_ms e < 2 ^ 63 /\ fits_u32 (e_app_data e) = true)
            (PnDir.list dir)) as Hl.
  { apply Forall_forall. intros e [h Hh]%elem_of_dir_list. by apply (Hall h e). }
  rewrite foldl_map_load by done. apply map_eq. intros h.
  destruct (apply_entries_lookup 0 (PnDir.list dir) PnDir.new h) as [Hin Hout];
    [by apply dir_list_keys| |].
  { apply Forall_forall. intros e [k Hk]%elem_of_dir_list. by apply (Hok k e). }
  destruct (dir !! h) as [e|] eqn:He.
  - rewrite (Hin e); [|apply elem_of_dir_list; eauto|by apply (Hok h e)].
    unfold PnDir.new. rewrite lookup_empty. f_equal. eapply merge_entry_self; [by apply (Hok h e)|].
    by apply (Hall h e).
  - rewrite Hout; [done|]. rewrite list_elem_of_fmap. intros (e & -> & [k Hk]%elem_of_dir_list).
    destruct (Hok k e Hk) as [Heq _]. congruence.
Qed.

End FileStore.

(** The outbound directory is a map from ids to items: after saving an item
    the items on disk are that one and the earlier ones with other ids, after
    removing an id those with other ids, so a retried item replaces its earlier
    copy.  In memory, saving an item with the same id keeps the earlier copy
    beside it: both are loaded. *)
Theorem message_store_outbound `{Crypto} `{Msgpack} `{HashIter} `{!MsgpackLaws}
  (s : FileMessageStore.t) (mem : InMemoryStore.t) (item x : QueuedMessage) (id : Z)
  (Hs : outbound_files_ok s) (Hok : item_ok item = true) :
  (x ∈ FileMessageStore.load_outbound (FileMessageStore.save_outbound item s) <->
     x = item \/ x ∈ FileMessageStore.load_outbound s /\ q_id x <> q_id item) /\
  (x ∈ FileMessageStore.load_outbound (FileMessageStore.remove_outbound id s) <->
     x ∈ FileMessageStore.load_outbound s /\ q_id x <> id) /\
  outbound_files_ok (FileMessageStore.save_outbound item s) /\
  (x ∈ InMemoryStore.load_outbound mem ->
     x ∈ InMemoryStore.load_outbound (InMemoryStore.save_outbound item mem) /\
     item ∈ InMemoryStore.load_outbound (InMemoryStore.save_outbound item mem)).
Proof.
  split_and!; [by apply file_load_save|by apply file_load_remove|by apply save_outbound_files|].
  intros Hx. unfold InMemoryStore.load_outbound in *. simpl. set_solver.
Qed.

Lemma message_store_outbound_witness :
  sample_item ∈ FileMessageStore.load_outbound (M := bit_codec) (HI := key_order)
    (FileMessageStore.save_outbound (M := bit_codec) sample_item FileMessageStore.new).
Proof.
  destruct (@message_store_outbound toy_crypto bit_codec key_order bit_codec_laws
    FileMessageStore.new InMemoryStore.new sample_item sample_item 0 (map_Forall_empty _) eq_refl)
    as [[_ Hload] _].
  apply Hload. left. reflexivity.
Defined.

(** A directory with entries that fit the file format is loaded back from
    disk exactly as it was saved, acknowledgements and times included. *)
Theorem pn_directory_on_disk `{Msgpack} `{HashIter} `{!MsgpackLaws}
  (dir : PnDirectory) (s : FileMessageStore.t) (Hok : dir_ok dir) (Hst : dir_storable dir) :
  FileMessageStore.load_pn_directory (FileMessageStore.save_pn_directory dir s) = dir.
Proof. by apply load_saved_directory. Qed.

Lemma pn_directory_on_disk_witness :
  FileMessageStore.load_pn_directory (M := bit_codec)
    (FileMessageStore.save_pn_directory (M := bit_codec) (HI := key_order)
       (fst (PnDir.upsert_announce (M := bit_codec) (arr_zero 16) sample_app_data 5 PnDir.new))
       FileMessageStore.new) =
  fst (PnDir.upsert_announce (M := bit_codec) (arr_zero 16) sample_app_data 5 PnDir.new).
Proof.
  apply (@pn_directory_on_disk bit_codec key_order bit_codec_laws).
  - apply upsert_ok, map_Forall_empty.
  - split; [vm_compute; discriminate|]. apply map_Forall_insert_2; [|apply map_Forall_empty].
    split; [simpl; lia|vm_compute; reflexivity].
Defined.
