(* ===== verification/PropDisk.v ===== *)
(** The propagation directory of [FileMessageStore]
    ([lxmf-rs/src/rns/storage.rs]): one file per message, named after its
    identifier, timestamp and stamp value, holding the message itself.

    Text of a double is the standard library's: [F64Display] prints,
    [F64Parse] reads, and [F64TextLaws] is what is documented of the two: a
    printed double, infinities and NaN included, reads back as itself, and its
    text is ASCII without an underscore. *)

From Stdlib Require Import ZArith Lia Permutation.
From Stdlib Require Import Strings.Byte.
From stdpp Require Import base gmap strings pretty numbers list.
From coqutil Require Import Datatypes.RecordSetters.
From S2P Require Import Prelude Float Msgpack Crypto Buffer Packet Stamp PropStore MessageStore.
Import DoubleBraceUpdate.

Local Open Scope Z_scope.

Class F64Parse : Type := f64_parse : list byte -> option f64.

Class F64TextLaws `{F64Display} `{F64Parse} : Prop := {
  parse_display : forall x, f64_valid x = true -> f64_parse (bytes_of_string (f64_display x)) = Some x;
  display_plain : forall x, Forall (fun b => u8 b < 128 /\ b <> x5f) (bytes_of_string (f64_display x))
}.

(** [str::split] at one character. *)
Fixpoint split_on (sep : byte) (l : list byte) : list (list byte) :=
  match l with
  | [] => [[]]
  | b :: l' =>
      if bool_decide (b = sep) then [] :: split_on sep l'
      else match split_on sep l' with
           | part :: parts => (b :: part) :: parts
           | [] => [[b]]
           end
  end.

(** [hex::decode] *)
Fixpoint hex_decode (l : list byte) : option (list byte) :=
  match l with
  | [] => Some []
  | hi :: lo :: l' =>
      h ← AddressHash.hex_value hi; v ← AddressHash.hex_value lo; rest ← hex_decode l';
      Some (byte_of_Z (16 * h + v) :: rest)
  | [_] => None
  end.

(** [str::parse::<u32>]: decimal digits after an optional plus. *)
Fixpoint digits_value (acc : Z) (l : list byte) : option Z :=
  match l with
  | [] => Some acc
  | b :: l' => if (48 <=? u8 b) && (u8 b <=? 57) then digits_value (10 * acc + (u8 b - 48)) l' else None
  end.

Definition parse_u32 (l : list byte) : option Z :=
  let digits := match l with b :: l' => if bool_decide (b = x2b) then l' else l | [] => l end in
  match digits with [] => None | _ => digits_value 0 digits ≫= try_u32 end.

(** [<[u8; DESTINATION_LENGTH]>::from] the first bytes of the data. *)
Definition data_destination (data : list byte) : option (arr 16) :=
  if Nat.leb DESTINATION_LENGTH (length data) then Some (arr_of 16 (take 16 data)) else None.

Module PropagationFiles.
Section Operations.
Context `{C : Crypto} `{M : Msgpack} `{D : F64Display} `{P : F64Parse} `{HI : HashIter}.

Definition parse_propagation_entry_filename (filename : string) : option (TransientId * f64 * Z) :=
  match split_on x5f (bytes_of_string filename) with
  | [id_part; time_part; value_part] =>
      if negb (Nat.eqb (length id_part) 64) then None
      else
        bytes ← hex_decode id_part;
        transient_id ← mk_arr (n := 32) bytes;
        timestamp ← f64_parse time_part;
        if negb (f64_is_finite timestamp) || f64_leb timestamp f64_zero then None
        else stamp_value ← parse_u32 value_part; Some (transient_id, timestamp, stamp_value)
  | _ => None
  end.

Definition save_propagation_entry (entry : PropagationEntry) (s : FileMessageStore.t) : FileMessageStore.t :=
  let stamp_value := PropagationStore.data_stamp_value (pe_lxm_data entry) in
  let filename := PropagationStore.propagation_entry_filename (pe_transient_id entry) (pe_timestamp entry)
                    stamp_value in
  s {{ FileMessageStore.propagation_dir :=
         <[filename := pe_lxm_data entry]> (FileMessageStore.propagation_dir s) }}.

(** Every file whose name starts with the identifier. *)
Definition remove_propagation_entry (transient_id : TransientId) (s : FileMessageStore.t) :
    FileMessageStore.t :=
  let prefix := hex_encode transient_id +:+ "_" in
  s {{ FileMessageStore.propagation_dir :=
         filter (fun kv => String.prefix prefix kv.1 = false) (FileMessageStore.propagation_dir s) }}.

Definition remove_propagation_entry_named (filename : string) (s : FileMessageStore.t) : FileMessageStore.t :=
  s {{ FileMessageStore.propagation_dir := delete filename (FileMessageStore.propagation_dir s) }}.

(** One file: read into the store, or removed. *)
Definition load_file (acc : PropagationStore.t * gmap string (list byte)) (file : string * list byte) :
    PropagationStore.t * gmap string (list byte) :=
  let '(store, dir) := acc in
  let '(filename, data) := file in
  if negb (utf8_string filename) then (store, delete filename dir)
  else
    match parse_propagation_entry_filename filename with
    | None => (store, delete filename dir)
    | Some (transient_id, timestamp, stamp_value) =>
        if negb (PropagationStore.data_stamp_value data =? stamp_value) then (store, delete filename dir)
        else (PropagationStore.insert_with_stamp_value_and_filename
                (mkPropEntry transient_id data timestamp (data_destination data) (Some filename)
                   (Some (Z.of_nat (length data)))) stamp_value filename store, dir)
    end.

Definition load_propagation_store (s : FileMessageStore.t) : FileMessageStore.t * PropagationStore.t :=
  let dir := FileMessageStore.propagation_dir s in
  let '(store, dir) := foldl load_file (PropagationStore.new, dir) (hash_iter dir) in
  (s {{ FileMessageStore.propagation_dir := dir }}, store).

End Operations.
End PropagationFiles.

(** * File names read back *)

(** ASCII without the separator: what the parts of a file name are. *)
Definition plain (l : list byte) : Prop := Forall (fun b => u8 b < 128 /\ b <> x5f) l.

Lemma bytes_of_string_app s s' : bytes_of_string (s +:+ s') = bytes_of_string s ++ bytes_of_string s'.
Proof.
  induction s as [|c s IH]; [done|]. change (String c s +:+ s') with (String c (s +:+ s')).
  change (bytes_of_string (String c ?x)) with (Ascii.byte_of_ascii c :: bytes_of_string x). by rewrite IH.
Qed.

Lemma utf8_ascii l : Forall (fun b => u8 b < 128) l -> utf8_valid l = true.
Proof. induction 1 as [|b l Hb _ IH]; [done|]. cbn [utf8_valid]. by rewrite (proj2 (Z.ltb_lt _ _)). Qed.

Lemma split_on_plain l : plain l -> split_on x5f l = [l].
Proof.
  induction 1 as [|b l [_ Hb] _ IH]; [done|]. cbn [split_on]. by rewrite bool_decide_false, IH.
Qed.

Lemma split_on_part l rest : plain l -> split_on x5f (l ++ x5f :: rest) = l :: split_on x5f rest.
Proof.
  induction 1 as [|b l [_ Hb] _ IH]; [done|]. cbn [split_on app]. by rewrite bool_decide_false, IH.
Qed.

(** Hexadecimal digits. *)
Lemma hex_byte_plain b : plain (AddressHash.hex_byte b).
Proof. unfold plain. destruct b; repeat constructor; done. Qed.

Lemma hex_encode_plain l : plain (bytes_of_string (hex_encode l)).
Proof.
  unfold hex_encode. rewrite bytes_of_string_of_bytes. unfold plain. apply Forall_concat, Forall_map, Forall_true.
  apply hex_byte_plain.
Qed.

Lemma hex_digits b : 
  AddressHash.hex_value (AddressHash.hex_digit (u8 b / 16)) = Some (u8 b / 16) /\
  AddressHash.hex_value (AddressHash.hex_digit (u8 b mod 16)) = Some (u8 b mod 16).
Proof. by destruct b. Qed.

Lemma hex_decode_encode l : hex_decode (concat (map AddressHash.hex_byte l)) = Some l.
Proof.
  induction l as [|b l IH]; [done|]. cbn [map concat AddressHash.hex_byte app hex_decode].
  destruct (hex_digits b) as [-> ->]. cbn [mbind option_bind]. rewrite IH. cbn [mbind option_bind].
  by rewrite <- Z.div_mod, byte_of_u8 by lia.
Qed.

(** Decimal digits. *)
Lemma pretty_digit (x : N) : (x < 10)%N ->
  Ascii.byte_of_ascii (pretty_N_char x) = byte_of_Z (48 + Z.of_N x).
Proof.
  intros Hx. assert (x = 0 \/ x = 1 \/ x = 2 \/ x = 3 \/ x = 4 \/ x = 5 \/ x = 6 \/ x = 7 \/ x = 8 \/ x = 9)%N
    by lia. by destruct_or!; subst.
Qed.

Lemma digits_value_go (x : N) : forall s,
  digits_value 0 (bytes_of_string (pretty_N_go x s)) = digits_value (Z.of_N x) (bytes_of_string s).
Proof.
  induction (N.lt_wf_0 x) as [x _ IH]. intros s. destruct (decide (x = 0)%N) as [->|Hx]; [done|].
  rewrite pretty_N_go_step, IH by (try apply N.div_lt; lia).
  change (bytes_of_string (String ?c s)) with (Ascii.byte_of_ascii c :: bytes_of_string s). cbn [digits_value].
  pose proof (N.mod_lt x 10 ltac:(lia)) as Hm. pose proof (N.div_mod x 10 ltac:(lia)) as Hd.
  rewrite pretty_digit, u8_of_Z by done. set (r := (x mod 10)%N) in *. set (q := (x / 10)%N) in *. clearbody r q.
  rewrite Z.mod_small, (proj2 (Z.leb_le _ _)), (proj2 (Z.leb_le _ _)) by lia. cbn [andb]. f_equal. lia.
Qed.

Lemma digits_value_plain l : forall acc v, digits_value acc l = Some v -> plain l /\ head l <> Some x2b.
Proof.
  induction l as [|b l IH]; intros acc v; [by split; [constructor|]|]. cbn [digits_value].
  destruct ((48 <=? u8 b) && (u8 b <=? 57)) eqn:Hb; [|done]. intros [Hl _]%IH. split.
  - constructor; [|done]. split; [lia|]. by intros ->.
  - cbn. by intros [= ->].
Qed.

Lemma pretty_value (n : Z) : 0 <= n -> digits_value 0 (bytes_of_string (pretty n)) = Some n.
Proof.
  intros Hn. destruct n as [|p|p]; [done| |lia].
  change (pretty (Z.pos p)) with (pretty (N.pos p)). unfold pretty, pretty_N.
  rewrite decide_False by done. by rewrite digits_value_go.
Qed.

Lemma parse_u32_pretty n : is_u32 n = true -> parse_u32 (bytes_of_string (pretty n)) = Some n.
Proof.
  intros Hn. pose proof (pretty_value n ltac:(unfold is_u32 in Hn; lia)) as Hv.
  destruct (digits_value_plain _ _ _ Hv) as [_ Hplus]. unfold parse_u32.
  destruct (bytes_of_string (pretty n)) as [|b l] eqn:E.
  - exfalso. cbn in Hv. injection Hv as <-. discriminate E.
  - rewrite bool_decide_false by (intros ->; by apply Hplus). rewrite Hv. cbn [mbind option_bind].
    unfold try_u32. by rewrite Hn.
Qed.

Section Files.
Context `{C : Crypto} `{M : Msgpack} `{D : F64Display} `{P : F64Parse} `{HI : HashIter} `{FL : !F64TextLaws}.

Lemma data_stamp_value_range data : 0 <= PropagationStore.data_stamp_value data <= 256.
Proof.
  unfold PropagationStore.data_stamp_value.
  destruct (validate_pn_stamp data 0) as [[[[id msg] v] stamp]|] eqn:E; [|lia].
  apply validate_pn_stamp_exact in E as (_ & _ & _ & _ & wb & _ & _ & ->). rewrite stamp_value_spec.
  pose proof (stamp_number_range wb stamp) as Hr. destruct (Z.eqb_spec (stamp_number wb stamp) 0); [lia|].
  pose proof (Z.log2_nonneg (stamp_number wb stamp)).
  assert (Hpos : 0 < stamp_number wb stamp) by (destruct Hr; lia).
  pose proof (proj1 (Z.log2_lt_pow2 _ 256 Hpos) (proj2 Hr)). lia.
Qed.

(** The times whose file is kept when it is read back. *)
Definition datable (timestamp : f64) : bool :=
  f64_is_finite timestamp && negb (f64_leb timestamp f64_zero).

Lemma filename_parts id ts v :
  bytes_of_string (PropagationStore.propagation_entry_filename id ts v) =
  bytes_of_string (hex_encode id) ++ x5f :: bytes_of_string (f64_display ts) ++ x5f :: bytes_of_string (pretty v).
Proof. unfold PropagationStore.propagation_entry_filename. by rewrite !bytes_of_string_app. Qed.

Lemma parse_filename id ts v : is_u32 v = true -> f64_valid ts = true ->
  PropagationFiles.parse_propagation_entry_filename (PropagationStore.propagation_entry_filename id ts v) =
    if datable ts then Some (id, ts, v) else None.
Proof.
  intros Hu Hts. unfold PropagationFiles.parse_propagation_entry_filename, datable. rewrite filename_parts.
  rewrite split_on_part by apply hex_encode_plain. rewrite split_on_part by apply display_plain.
  rewrite split_on_plain.
  2: { apply (digits_value_plain _ 0 v), pretty_value. unfold is_u32 in Hu. lia. }
  unfold hex_encode. rewrite bytes_of_string_of_bytes, length_hex, arr_length. cbn [Nat.eqb Nat.mul Nat.add negb].
  rewrite hex_decode_encode. cbn [mbind option_bind]. rewrite mk_arr_list. cbn [mbind option_bind].
  rewrite parse_display by done. cbn [mbind option_bind]. rewrite parse_u32_pretty by done.
  by destruct (f64_is_finite ts), (f64_leb ts f64_zero).
Qed.

Lemma filename_utf8 id ts v : is_u32 v = true ->
  utf8_string (PropagationStore.propagation_entry_filename id ts v) = true.
Proof.
  intros Hu. unfold utf8_string. rewrite filename_parts. apply utf8_ascii.
  assert (Hp : forall l, plain l -> Forall (fun b => u8 b < 128) l) by (intros l Hl; eapply Forall_impl; [exact Hl|]; cbn; tauto).
  rewrite Forall_app, Forall_cons, Forall_app, Forall_cons. split_and!; try done; apply Hp.
  - apply hex_encode_plain.
  - apply display_plain.
  - apply (digits_value_plain _ 0 v), pretty_value. unfold is_u32 in Hu. lia.
Qed.

Lemma filename_id_inj id id' ts ts' v v' :
  PropagationStore.propagation_entry_filename id ts v = PropagationStore.propagation_entry_filename id' ts' v' ->
  id = id'.
Proof.
  intros Heq%(f_equal bytes_of_string). rewrite !filename_parts in Heq.
  apply (f_equal (take (length (bytes_of_string (hex_encode id))))) in Heq. rewrite take_app_length in Heq.
  replace (length (bytes_of_string (hex_encode id))) with (length (bytes_of_string (hex_encode id'))) in Heq.
  2: { unfold hex_encode. by rewrite !bytes_of_string_of_bytes, !length_hex, !arr_length. }
  rewrite take_app_length in Heq. unfold hex_encode in Heq. rewrite !bytes_of_string_of_bytes in Heq.
  apply (f_equal hex_decode) in Heq. rewrite !hex_decode_encode in Heq. injection Heq as Heq. by apply arr_eq.
Qed.

(** What a file is read as, if it is kept. *)
Definition file_entry (file : string * list byte) : option PropagationEntry :=
  if utf8_string file.1 then
    '(id, ts, v) ← PropagationFiles.parse_propagation_entry_filename file.1;
    if PropagationStore.data_stamp_value file.2 =? v
    then Some (mkPropEntry id file.2 ts (data_destination file.2) (Some file.1) (Some (Z.of_nat (length file.2))))
    else None
  else None.

Lemma load_file_entry store dir file :
  let '(store', dir') := PropagationFiles.load_file (store, dir) file in
  match file_entry file with
  | Some e => PropagationStore.entries store' = <[pe_transient_id e := e]> (PropagationStore.entries store) /\
      PropagationStore.filenames store' = <[pe_transient_id e := file.1]> (PropagationStore.filenames store) /\
      dir' = dir
  | None => store' = store /\ dir' = delete file.1 dir
  end.
Proof.
  destruct file as [name data]. unfold PropagationFiles.load_file, file_entry. cbn [fst snd].
  destruct (utf8_string name); cbn [negb]; [|done].
  destruct (PropagationFiles.parse_propagation_entry_filename name) as [[[id ts] v]|]; cbn [mbind option_bind]; [|done].
  by destruct (_ =? v); cbn [negb].
Qed.

Lemma elem_of_snoc {A} (x y : A) l : x ∈ l ++ [y] <-> x ∈ l \/ x = y.
Proof. rewrite elem_of_app, list_elem_of_singleton. done. Qed.

Lemma load_files_spec files store dir :
  (forall f g e e', f ∈ files -> g ∈ files -> file_entry f = Some e -> file_entry g = Some e' ->
     pe_transient_id e = pe_transient_id e' -> f = g) ->
  let '(store', dir') := foldl PropagationFiles.load_file (store, dir) files in
  (forall f e, f ∈ files -> file_entry f = Some e ->
     PropagationStore.entries store' !! pe_transient_id e = Some e /\
     PropagationStore.filenames store' !! pe_transient_id e = Some f.1) /\
  (forall id, (forall f e, f ∈ files -> file_entry f = Some e -> pe_transient_id e <> id) ->
     PropagationStore.entries store' !! id = PropagationStore.entries store !! id) /\
  (forall f, f ∈ files -> file_entry f = None -> dir' !! f.1 = None) /\
  (forall name, (forall data, (name, data) ∈ files -> file_entry (name, data) <> None) -> dir' !! name = dir !! name).
Proof.
  induction files as [|f files IH] using rev_ind; intros Hinj.
  { cbn [foldl]. split_and!; try done; by intros ? ? ?%not_elem_of_nil || intros ? ?%not_elem_of_nil. }
  rewrite foldl_snoc.
  assert (Hinj' : forall g h e e', g ∈ files -> h ∈ files -> file_entry g = Some e -> file_entry h = Some e' ->
    pe_transient_id e = pe_transient_id e' -> g = h) by (intros; eapply Hinj; set_solver).
  specialize (IH Hinj'). destruct (foldl _ _ files) as [s1 d1]. destruct IH as (I1 & I2 & I3 & I4).
  pose proof (load_file_entry s1 d1 f) as Hf. destruct (PropagationFiles.load_file (s1, d1) f) as [s2 d2].
  destruct (file_entry f) as [e|] eqn:Ef.
  - destruct Hf as (He & Hn & ->). rewrite He, Hn. split_and!.
    + intros g e' Hg Hge. destruct (decide (pe_transient_id e' = pe_transient_id e)) as [Hid|Hid].
      * assert (g = f) as -> by (eapply Hinj; [exact Hg| |exact Hge|exact Ef|exact Hid]; set_solver).
        rewrite Ef in Hge. injection Hge as <-. by rewrite !lookup_insert_eq.
      * rewrite !lookup_insert_ne by done. apply I1; [|done]. apply elem_of_snoc in Hg as [Hg| ->]; [done|]. congruence.
    + intros id Hid. rewrite lookup_insert_ne by (apply (Hid f e); [set_solver|done]).
      apply I2. intros g e' Hg. apply Hid. set_solver.
    + intros g Hg Hge. apply elem_of_snoc in Hg as [Hg| ->]; [by apply I3|congruence].
    + intros name Hd. apply I4. intros data Hin. apply Hd. set_solver.
  - destruct Hf as (-> & ->). split_and!.
    + intros g e' Hg Hge. apply I1; [|done]. apply elem_of_snoc in Hg as [Hg| ->]; [done|congruence].
    + intros id Hid. apply I2. intros g e' Hg. apply Hid. set_solver.
    + intros g Hg Hge. destruct (decide (g.1 = f.1)) as [->|Hne]; [apply lookup_delete_eq|].
      rewrite lookup_delete_ne by done. apply elem_of_snoc in Hg as [Hg| ->]; [by apply I3|done].
    + intros name Hd. rewrite lookup_delete_ne.
      * apply I4. intros data Hin. apply Hd. set_solver.
      * intros <-. apply (Hd f.2); [|by destruct f]. destruct f. set_solver.
Qed.

(** * A directory that mirrors a store *)

Definition entry_name (e : PropagationEntry) : string :=
  PropagationStore.propagation_entry_filename (pe_transient_id e) (pe_timestamp e)
    (PropagationStore.data_stamp_value (pe_lxm_data e)).

(** Every entry has its file, every file its entry. *)
Record mirrors (store : PropagationStore.t) (dir : gmap string (list byte)) : Prop := {
  mi_keyed : map_Forall (fun id e => pe_transient_id e = id) (PropagationStore.entries store);
  mi_names : map_Forall (fun id e => PropagationStore.filenames store !! id = Some (entry_name e))
               (PropagationStore.entries store);
  mi_files : map_Forall (fun _ e => dir !! entry_name e = Some (pe_lxm_data e)) (PropagationStore.entries store);
  mi_only : map_Forall (fun name _ => exists id e, PropagationStore.entries store !! id = Some e /\
              name = entry_name e) dir
}.

(** The times are doubles. *)
Definition dated (store : PropagationStore.t) : Prop :=
  map_Forall (fun _ e => f64_valid (pe_timestamp e) = true) (PropagationStore.entries store).

(** The entry as a restart finds it. *)
Definition reloaded (e : PropagationEntry) : PropagationEntry :=
  mkPropEntry (pe_transient_id e) (pe_lxm_data e) (pe_timestamp e) (data_destination (pe_lxm_data e))
    (Some (entry_name e)) (Some (Z.of_nat (length (pe_lxm_data e)))).

Lemma data_stamp_value_u32 data : is_u32 (PropagationStore.data_stamp_value data) = true.
Proof. pose proof (data_stamp_value_range data). unfold is_u32, u32_max. lia. Qed.

Lemma file_entry_name e : f64_valid (pe_timestamp e) = true ->
  file_entry (entry_name e, pe_lxm_data e) = if datable (pe_timestamp e) then Some (reloaded e) else None.
Proof.
  intros Hts. unfold file_entry, entry_name. cbn [fst snd]. rewrite filename_utf8 by apply data_stamp_value_u32.
  rewrite parse_filename by (done || apply data_stamp_value_u32).
  destruct (datable _); cbn [mbind option_bind]; [|done]. by rewrite Z.eqb_refl.
Qed.

Lemma mirror_file store dir name data : mirrors store dir -> dir !! name = Some data ->
  exists id e, PropagationStore.entries store !! id = Some e /\ name = entry_name e /\ data = pe_lxm_data e.
Proof.
  intros Hm Hd. destruct (mi_only _ _ Hm _ _ Hd) as (id & e & He & ->). exists id, e. split_and!; [done..|].
  pose proof (mi_files _ _ Hm _ _ He) as Hf. cbn in Hf. congruence.
Qed.

(** A file of a mirror, as it is read. *)
Lemma mirror_read store dir name data : mirrors store dir -> dated store -> (name, data) ∈ hash_iter dir ->
  exists id x, PropagationStore.entries store !! id = Some x /\ pe_transient_id x = id /\
    name = entry_name x /\ data = pe_lxm_data x /\
    file_entry (name, data) = if datable (pe_timestamp x) then Some (reloaded x) else None.
Proof.
  intros Hm Hv Hin%elem_of_hash_iter. destruct (mirror_file _ _ _ _ Hm Hin) as (id & x & Hx & -> & ->).
  exists id, x. split_and!; try done; [apply (mi_keyed _ _ Hm _ _ Hx)|].
  apply file_entry_name, (Hv _ _ Hx).
Qed.

(** Two files of a mirror are never read as the same message. *)
Lemma mirror_files_differ store dir f g e e' : mirrors store dir -> dated store -> f ∈ hash_iter dir -> g ∈ hash_iter dir ->
  file_entry f = Some e -> file_entry g = Some e' -> pe_transient_id e = pe_transient_id e' -> f = g.
Proof.
  intros Hm Hv Hf Hg He He' Hid. destruct f as [name data], g as [name' data'].
  destruct (mirror_read _ _ _ _ Hm Hv Hf) as (k & x & Hx & Hk & -> & -> & Ex).
  destruct (mirror_read _ _ _ _ Hm Hv Hg) as (k' & x' & Hx' & Hk' & -> & -> & Ex'). rewrite Ex in He. rewrite Ex' in He'.
  destruct (datable _); [|done]. injection He as <-. destruct (datable _); [|done]. injection He' as <-.
  cbn in Hid. congruence.
Qed.

Lemma load_mirror_entries store dir store' :
  mirrors store dir -> dated store ->
  (forall f e, f ∈ hash_iter dir -> file_entry f = Some e -> PropagationStore.entries store' !! pe_transient_id e = Some e) ->
  (forall id, (forall f e, f ∈ hash_iter dir -> file_entry f = Some e -> pe_transient_id e <> id) ->
     PropagationStore.entries store' !! id = None) ->
  forall id, PropagationStore.entries store' !! id =
    match PropagationStore.entries store !! id with
    | Some e => if datable (pe_timestamp e) then Some (reloaded e) else None
    | None => None
    end.
Proof.
  intros Hm Hv H1 H2 id.
  assert (Hno : forall f e, f ∈ hash_iter dir -> file_entry f = Some e -> pe_transient_id e = id ->
    exists x, PropagationStore.entries store !! id = Some x /\ datable (pe_timestamp x) = true).
  { intros [name data] e Hin He <-. destruct (mirror_read _ _ _ _ Hm Hv Hin) as (k & x & Hx & <- & -> & -> & Ex).
    rewrite Ex in He. destruct (datable (pe_timestamp x)) eqn:Hd; [|done]. injection He as <-. by exists x. }
  destruct (PropagationStore.entries store !! id) as [x|] eqn:Hx.
  - pose proof (mi_keyed _ _ Hm _ _ Hx) as Hk. cbn in Hk. destruct (datable (pe_timestamp x)) eqn:Hd.
    + rewrite <- Hk. apply (H1 (entry_name x, pe_lxm_data x) (reloaded x)).
      * apply elem_of_hash_iter, (mi_files _ _ Hm _ _ Hx).
      * by rewrite file_entry_name, Hd by apply (Hv _ _ Hx).
    + apply H2. intros f e Hf He Hid. destruct (Hno f e Hf He Hid) as (y & [= <-] & Hy). congruence.
  - apply H2. intros f e Hf He Hid. by destruct (Hno f e Hf He Hid) as (y & ? & _).
Qed.

(** Reading a mirror gives back the messages with a usable time, and what is
    left on disk mirrors them. *)
Lemma load_mirror store disk : mirrors store (FileMessageStore.propagation_dir disk) -> dated store ->
  let '(disk', store') := PropagationFiles.load_propagation_store disk in
  mirrors store' (FileMessageStore.propagation_dir disk') /\
  forall id, PropagationStore.entries store' !! id =
    match PropagationStore.entries store !! id with
    | Some e => if datable (pe_timestamp e) then Some (reloaded e) else None
    | None => None
    end.
Proof.
  intros Hm Hv. unfold PropagationFiles.load_propagation_store. set (dir := FileMessageStore.propagation_dir disk) in *.
  pose proof (load_files_spec (hash_iter dir) PropagationStore.new dir
    ltac:(intros f g e e'; by apply mirror_files_differ with (store := store))) as Hload.
  destruct (foldl _ _ _) as [store' dir']. destruct Hload as (H1 & H2 & H3 & H4).
  replace (FileMessageStore.propagation_dir (disk {{ FileMessageStore.propagation_dir := dir' }})) with dir'
    by by destruct disk.
  assert (Hlook := load_mirror_entries store dir store' Hm Hv (fun f e Hf He => proj1 (H1 f e Hf He)) H2).
  split; [|exact Hlook].
  assert (Hback : forall id e, PropagationStore.entries store' !! id = Some e -> exists x,
    PropagationStore.entries store !! id = Some x /\ datable (pe_timestamp x) = true /\ e = reloaded x).
  { intros id e. rewrite Hlook. destruct (PropagationStore.entries store !! id) as [x|]; [|done].
    destruct (datable (pe_timestamp x)) eqn:Hd; [|done]. intros [= <-]. by exists x. }
  assert (Hfile : forall id x, PropagationStore.entries store !! id = Some x -> datable (pe_timestamp x) = true ->
    (entry_name x, pe_lxm_data x) ∈ hash_iter dir /\ file_entry (entry_name x, pe_lxm_data x) = Some (reloaded x)).
  { intros id x Hx Hd. split; [apply elem_of_hash_iter, (mi_files _ _ Hm _ _ Hx)|].
    by rewrite file_entry_name, Hd by apply (Hv _ _ Hx). }
  constructor; try (intros id e (x & Hx & Hd & ->)%Hback; cbn).
  - apply (mi_keyed _ _ Hm _ _ Hx).
  - destruct (Hfile _ _ Hx Hd) as [Hin He]. rewrite <- (mi_keyed _ _ Hm _ _ Hx). apply (H1 _ _ Hin He).
  - destruct (Hfile _ _ Hx Hd) as [Hin He]. apply elem_of_hash_iter in Hin as Hdir.
    change (entry_name (reloaded x)) with (entry_name x). rewrite H4; [done|].
    intros data Hin'%elem_of_hash_iter. replace data with (pe_lxm_data x) by congruence. congruence.
  - intros name data Hname.
    assert (Hdir : forall d, dir !! name = Some d -> file_entry (name, d) <> None).
    { intros d Hin%elem_of_hash_iter Hnone. pose proof (H3 _ Hin Hnone). cbn in *. congruence. }
    rewrite H4 in Hname by (intros d Hin%elem_of_hash_iter; by apply Hdir).
    apply elem_of_hash_iter in Hname as Hin. destruct (mirror_read _ _ _ _ Hm Hv Hin) as (k & x & Hx & Hk & -> & -> & Ex).
    pose proof (Hdir _ Hname) as Hsome. rewrite Ex in Hsome. destruct (datable (pe_timestamp x)) eqn:Hd; [|done].
    exists k, (reloaded x). by rewrite Hlook, Hx, Hd.
Qed.

(** * Changes that keep the mirror *)

Lemma mirrors_new : mirrors PropagationStore.new ∅.
Proof. split; apply map_Forall_empty. Qed.

Lemma entry_name_inj e e' : entry_name e = entry_name e' -> pe_transient_id e = pe_transient_id e'.
Proof. apply filename_id_inj. Qed.

Lemma mirrors_save store dir e : mirrors store dir ->
  PropagationStore.entries store !! pe_transient_id e = None ->
  mirrors (PropagationStore.insert e store) (<[entry_name e := pe_lxm_data e]> dir).
Proof.
  intros [H1 H2 H3 H4] Hnew. unfold PropagationStore.insert, PropagationStore.insert_with_stamp_value.
  fold (entry_name e). split; cbn [PropagationStore.entries PropagationStore.filenames
    PropagationStore.insert_with_stamp_value_and_filename].
  - by apply map_Forall_insert_2.
  - apply map_Forall_insert; [done|]. split; [apply lookup_insert_eq|]. intros id x Hx.
    rewrite lookup_insert_ne; [by apply (H2 id x)|]. intros <-. congruence.
  - apply map_Forall_insert; [done|]. split; [apply lookup_insert_eq|]. intros id x Hx.
    rewrite lookup_insert_ne; [by apply (H3 id x)|]. intros Heq%entry_name_inj.
    pose proof (H1 _ _ Hx) as Hk. cbn in Hk. congruence.
  - apply map_Forall_insert_2.
    + exists (pe_transient_id e), e. split; [apply lookup_insert_eq|done].
    + intros name data Hd. destruct (H4 name data Hd) as (id & x & Hx & Hn). exists id, x.
      split; [|done]. rewrite lookup_insert_ne; [done|]. intros <-. congruence.
Qed.

Lemma mirrors_remove store dir id e : mirrors store dir -> PropagationStore.entries store !! id = Some e ->
  mirrors (PropagationStore.remove id store).1 (delete (entry_name e) dir).
Proof.
  intros [H1 H2 H3 H4] He. pose proof (H1 _ _ He) as Hid. cbn in Hid.
  split; cbn [PropagationStore.remove fst PropagationStore.entries PropagationStore.filenames].
  - by apply map_Forall_delete.
  - intros k x [Hk Hx]%lookup_delete_Some. rewrite lookup_delete_ne by done. by apply (H2 k x).
  - intros k x [Hk Hx]%lookup_delete_Some. rewrite lookup_delete_ne; [by apply (H3 k x)|].
    intros Heq%entry_name_inj. pose proof (H1 _ _ Hx) as Hkx. cbn in Hkx. congruence.
  - intros name data [Hn Hd]%lookup_delete_Some. destruct (H4 name data Hd) as (k & x & Hx & ->).
    exists k, x. split; [|done]. apply lookup_delete_Some. split; [|done]. intros <-. congruence.
Qed.

Lemma mirrors_remove_absent store dir id : mirrors store dir -> PropagationStore.entries store !! id = None ->
  mirrors (PropagationStore.remove id store).1 dir.
Proof.
  intros [H1 H2 H3 H4] He. assert (Hd : PropagationStore.entries (PropagationStore.remove id store).1
    = PropagationStore.entries store) by (cbn; by apply delete_id).
  split; rewrite ?Hd; [done| |done..].
  intros k x Hx. cbn. rewrite lookup_delete_ne; [by apply (H2 k x)|]. intros <-. congruence.
Qed.

Lemma mirrors_same store store' dir : mirrors store dir ->
  PropagationStore.entries store' = PropagationStore.entries store ->
  PropagationStore.filenames store' = PropagationStore.filenames store -> mirrors store' dir.
Proof. intros [H1 H2 H3 H4] He Hf. split; rewrite ?He, ?Hf; done. Qed.

End Files.
