(* ===== verification/Display.v ===== *)
(** How addresses, hashes, buffers and packets are printed: the [Display] of
    [reticulum-patched/src/hash.rs], [buffer.rs] and [packet.rs], as the bytes of
    the text. *)

From Stdlib Require Import ZArith Lia.
From Stdlib Require Import Strings.Byte.
From stdpp Require Import base strings pretty numbers list.
From S2P Require Import Prelude Msgpack Crypto Buffer Packet PropStore MessageStore PropDisk.

Local Open Scope Z_scope.

(** [{}] of an unsigned number. *)
Definition decimal (n : Z) : list byte := bytes_of_string (pretty n).

(** [{:b}]: the binary digits of a [u8], the highest first and no zeros before it. *)
Fixpoint binary_from (fuel : nat) (n : Z) (digits : list byte) : list byte :=
  let digits := byte_of_Z (48 + n mod 2) :: digits in
  match fuel with
  | S fuel => if n / 2 =? 0 then digits else binary_from fuel (n / 2) digits
  | O => digits
  end.
Definition binary (n : Z) : list byte := binary_from 7 n [].

(** [{:0>2}] *)
Definition pad2 (digits : list byte) : list byte := replicate (2 - length digits) x30 ++ digits.

Definition Hash_fmt (h : Hash) : list byte := concat (map AddressHash.hex_byte h).

Definition AddressHash_fmt (a : AddressHash) : list byte := [x2f] ++ concat (map AddressHash.hex_byte a) ++ [x2f].

Definition StaticBuffer_fmt {N} (b : StaticBuffer.t N) : list byte :=
  bytes_of_string "[ 0x" ++ concat (map AddressHash.hex_byte (StaticBuffer.as_slice b)) ++ bytes_of_string " ]".

Definition OutputBuffer_fmt (b : OutputBuffer.t) : list byte :=
  bytes_of_string "[ 0x" ++ concat (map AddressHash.hex_byte (OutputBuffer.as_slice b)) ++ bytes_of_string " ]".

Definition Header_fmt (h : Header) : list byte :=
  binary (IfacFlag_u8 (ifac_flag h)) ++ binary (HeaderType_u8 (header_type h))
  ++ pad2 (binary (PropagationType_u8 (propagation_type h))) ++ pad2 (binary (DestinationType_u8 (destination_type h)))
  ++ pad2 (binary (PacketType_u8 (packet_type h))) ++ [x2e] ++ decimal (u8 (hops h)).

Definition Packet_fmt (p : Packet) : list byte :=
  [x5b] ++ Header_fmt (header p)
  ++ match transport p with Some t => [x20] ++ AddressHash_fmt t | None => [] end
  ++ [x20] ++ AddressHash_fmt (destination p)
  ++ bytes_of_string " 0x[" ++ decimal (Z.of_nat (StaticBuffer.len (data p))) ++ bytes_of_string "]]".

(** * What a printed line tells *)

Definition no_space (l : list byte) : Prop := Forall (fun b => b <> x20) l.

(** Words separated by spaces. *)
Fixpoint words (l : list (list byte)) : list byte :=
  match l with
  | [] => []
  | [w] => w
  | w :: l => w ++ x20 :: words l
  end.

Lemma word_split a b c d : no_space a -> no_space b -> a ++ x20 :: c = b ++ x20 :: d -> a = b /\ c = d.
Proof.
  intros Ha. revert b. induction Ha as [|x a Hx Ha IH]; intros [|y b] Hb; cbn [app].
  - by intros [= ->].
  - intros [= <- _]. by apply Forall_cons in Hb as [? _].
  - by intros [= -> _].
  - intros [= <- E]. apply Forall_cons in Hb as [_ Hb]. by destruct (IH b Hb E) as [-> ->].
Qed.

Lemma word_end a b d : no_space a -> a = b ++ x20 :: d -> False.
Proof. intros Ha ->. apply Forall_app in Ha as [_ Ha]. by apply Forall_cons in Ha as [? _]. Qed.

Lemma words_inj l : forall m, l <> [] -> m <> [] -> Forall no_space l -> Forall no_space m -> words l = words m -> l = m.
Proof.
  induction l as [|a l IH]; intros [|b m] Hl Hm Ha Hb; try done. apply Forall_cons in Ha as [Ha Hal], Hb as [Hb Hbm].
  destruct l as [|a' l], m as [|b' m]; cbn [words].
  - by intros ->.
  - intros E. by destruct (word_end _ _ _ Ha E).
  - intros E. symmetry in E. by destruct (word_end _ _ _ Hb E).
  - intros E. destruct (word_split _ _ _ _ Ha Hb E) as [-> E']. f_equal. by apply IH.
Qed.

Lemma hex_no_space l : no_space (concat (map AddressHash.hex_byte l)).
Proof. apply Forall_concat, Forall_map, Forall_true. intros b. by destruct b; repeat constructor. Qed.

Lemma address_no_space a : no_space (AddressHash_fmt a).
Proof. unfold AddressHash_fmt. constructor; [done|]. apply Forall_app. split; [apply hex_no_space|by repeat constructor]. Qed.

Lemma digits_no_space l : forall acc v, digits_value acc l = Some v -> no_space l.
Proof.
  induction l as [|b l IH]; intros acc v; [constructor|]. cbn [digits_value].
  destruct ((48 <=? u8 b) && (u8 b <=? 57)) eqn:Hb; [|done]. intros Hl%IH. constructor; [|done]. by intros ->.
Qed.

Lemma decimal_no_space n : 0 <= n -> no_space (decimal n).
Proof. intros Hn. eapply digits_no_space, pretty_value, Hn. Qed.

Lemma decimal_inj n m : 0 <= n -> 0 <= m -> decimal n = decimal m -> n = m.
Proof.
  intros Hn Hm E. pose proof (pretty_value n Hn) as H1. unfold decimal in E. rewrite E, (pretty_value m Hm) in H1. congruence.
Qed.

Lemma hex_inj l m : concat (map AddressHash.hex_byte l) = concat (map AddressHash.hex_byte m) -> l = m.
Proof. intros E. apply (f_equal hex_decode) in E. rewrite !hex_decode_encode in E. congruence. Qed.

Lemma address_inj a b : AddressHash_fmt a = AddressHash_fmt b -> a = b.
Proof. unfold AddressHash_fmt. intros [= E]. apply app_inj_2 in E as [E _]; [|done]. by apply arr_eq, hex_inj. Qed.

(** The eight bits of a header, and its hops. *)
Lemma header_bits h : exists bits, Header_fmt h = bits ++ [x2e] ++ decimal (u8 (hops h)) /\ length bits = 8%nat /\ no_space bits /\
  forall h', Header_fmt h' = bits ++ [x2e] ++ decimal (u8 (hops h')) ->
    ifac_flag h' = ifac_flag h /\ header_type h' = header_type h /\ propagation_type h' = propagation_type h /\
    destination_type h' = destination_type h /\ packet_type h' = packet_type h.
Proof.
  destruct h as [i t p d k hp]. unfold Header_fmt. cbn [ifac_flag header_type propagation_type destination_type packet_type hops].
  eexists (binary (IfacFlag_u8 i) ++ binary (HeaderType_u8 t) ++ pad2 (binary (PropagationType_u8 p))
    ++ pad2 (binary (DestinationType_u8 d)) ++ pad2 (binary (PacketType_u8 k))).
  rewrite <- !app_assoc. split; [done|]. split; [by destruct i, t, p, d, k|].
  split; [by destruct i, t, p, d, k; repeat constructor|].
  intros [i' t' p' d' k' hp']. cbn [ifac_flag header_type propagation_type destination_type packet_type hops]. intros E. rewrite <- !app_assoc in E.
  apply app_inj_1 in E as [E1 E]; [|by destruct i, i']. apply app_inj_1 in E as [E2 E]; [|by destruct t, t'].
  apply app_inj_1 in E as [E3 E]; [|by destruct p, p']. apply app_inj_1 in E as [E4 E]; [|by destruct d, d'].
  apply app_inj_1 in E as [E5 E]; [|by destruct k, k'].
  split_and!; [by destruct i, i'|by destruct t, t'|by destruct p, p'|by destruct d, d'|by destruct k, k'].
Qed.

Lemma header_inj h h' : Header_fmt h = Header_fmt h' -> h = h'.
Proof.
  intros E. destruct (header_bits h) as (bits & E1 & Hl & _ & Hb). destruct (header_bits h') as (bits' & E2 & Hl' & _ & _).
  rewrite E1, E2 in E. pose proof E as E'. apply app_inj_1 in E' as [<- E']; [|congruence]. injection E' as Eh.
  apply decimal_inj in Eh; [|apply u8_range..]. apply u8_inj in Eh. destruct (Hb h' E2) as (H1 & H2 & H3 & H4 & H5).
  destruct h, h'. cbn in *. by subst.
Qed.

Lemma header_no_space h : no_space (Header_fmt h).
Proof.
  destruct (header_bits h) as (bits & -> & _ & Hs & _). apply Forall_app. split; [done|]. constructor; [done|].
  apply decimal_no_space, u8_range.
Qed.

Lemma cons_both {A} (x y : A) l m : x :: l = y :: m -> x = y /\ l = m.
Proof. by intros [= -> ->]. Qed.

(** The words of a packet's line. *)
Definition packet_words (p : Packet) : list (list byte) :=
  ([x5b] ++ Header_fmt (header p)) :: match transport p with Some t => [AddressHash_fmt t] | None => [] end
  ++ [AddressHash_fmt (destination p); bytes_of_string "0x[" ++ decimal (Z.of_nat (StaticBuffer.len (data p))) ++ bytes_of_string "]]"].

Lemma packet_line p : Packet_fmt p = words (packet_words p).
Proof.
  unfold Packet_fmt, packet_words. change (bytes_of_string " 0x[") with (x20 :: bytes_of_string "0x[").
  destruct (transport p); cbn [words app]; rewrite <- ?app_assoc; cbn [app]; rewrite <- ?app_assoc; done.
Qed.

Lemma packet_words_ok p : Forall no_space (packet_words p).
Proof.
  constructor; [constructor; [done|apply header_no_space]|]. apply Forall_app. split.
  - destruct (transport p); [apply Forall_singleton, address_no_space|constructor].
  - constructor; [apply address_no_space|]. apply Forall_singleton.
    repeat apply Forall_app_2; [by repeat constructor|apply decimal_no_space; lia|by repeat constructor].
Qed.

(** What the log tells.  Two packets are printed alike exactly when they have the
    same header, hops included, the same transport address or none, the same
    destination and the same amount of data.  The address in such a line, without its
    slashes, is read back as the address it was; with them it makes the reader panic. *)
Theorem printed_packets_tell (p q : Packet) :
  (Packet_fmt p = Packet_fmt q <->
   header p = header q /\ transport p = transport q /\ destination p = destination q /\
   StaticBuffer.len (data p) = StaticBuffer.len (data q)) /\
  forall a, exists text, AddressHash_fmt a = [x2f] ++ text ++ [x2f] /\ AddressHash.new_from_hex_string text = Ok a /\
    AddressHash.new_from_hex_string (AddressHash_fmt a) = Err Panics.
Proof.
  split.
  - split.
    + rewrite !packet_line. intros E%words_inj; [|done|done|apply packet_words_ok..]. unfold packet_words in E.
      apply cons_both in E as [Eh E]. injection Eh as Eh. apply header_inj in Eh.
      destruct (transport p) as [t|], (transport q) as [t'|]; cbn [app] in E; try (by apply (f_equal length) in E);
        [apply cons_both in E as [Et E]|]; apply cons_both in E as [Ed E]; apply cons_both in E as [El _].
      all: apply address_inj in Ed; apply app_inj_1 in El as [_ El]; [|done]; apply app_inj_2 in El as [El _]; [|done].
      all: apply decimal_inj in El; [|lia..]; split_and!; [done| |done|lia]; try done.
      by apply address_inj in Et as ->.
    + unfold Packet_fmt. by intros (-> & -> & -> & ->).
  - intros a. exists (AddressHash.to_hex_string a). split; [done|]. split; [apply (proj1 (address_hex_roundtrip a []))|].
    unfold AddressHash.new_from_hex_string, AddressHash_fmt. rewrite !length_app, length_hex, arr_length. cbn [Nat.ltb Nat.leb length].
    destruct (arr_list a) as [|b l] eqn:E; [pose proof (arr_length a) as Hl; by rewrite E in Hl|].
    by destruct b.
Qed.
