(* ===== verification/Links.v ===== *)
(** Links and downloads of [LxmfRouter] ([lxmf-rs/src/rns/router.rs]):
    [LinkTracker], the cleaning of idle links, and the state of a download from
    a propagation node, from the request over the search for a path to the end of
    the transfer.

    [Downloads.t] holds the fields of the router these operations use; the
    directory of propagation nodes, where they look for a path, is an argument.
    The event loop of the daemon takes the requests from the two queues. *)

From Stdlib Require Import ZArith Lia.
From Stdlib Require Import Strings.Byte.
From stdpp Require Import base gmap strings numbers relations list.
From coqutil Require Import Datatypes.RecordSetters.
From S2P Require Import Prelude Float Msgpack Crypto Buffer Packet Identity Destination Link Stamp Message Rns PnDirectory.
Import DoubleBraceUpdate.

Local Open Scope Z_scope.

Definition LINK_MAX_INACTIVITY : Z := 10 * 60.
Definition P_LINK_MAX_INACTIVITY : Z := 3 * 60.

Definition PR_IDLE : Z := 0x00.
Definition PR_PATH_REQUESTED : Z := 0x01.
Definition PR_LINK_ESTABLISHING : Z := 0x02.
Definition PR_LINK_ESTABLISHED : Z := 0x03.
Definition PR_REQUEST_SENT : Z := 0x04.
Definition PR_COMPLETE : Z := 0x07.
Definition PR_NO_PATH : Z := 0xf0.
Definition PR_LINK_FAILED : Z := 0xf1.
Definition PR_TRANSFER_FAILED : Z := 0xf2.
Definition PR_ALL_MESSAGES : Z := 0x00.
Definition PR_PATH_TIMEOUT : Z := 10.

Record DirectLinkInfo : Type := mkDirectLink {
  dl_link_id : arr 16;
  dl_last_activity_ms : Z
}.

Record PropagationLinkInfo : Type := mkPropLink {
  pl_link_id : arr 16;
  pl_last_activity_ms : Z;
  pl_is_closed : bool
}.

Module LinkTracker.

Record t : Type := mk {
  direct_links : gmap (arr 16) DirectLinkInfo;
  active_propagation_links : list PropagationLinkInfo;
  outbound_propagation_link : option PropagationLinkInfo;
  validated_peer_links : gset (arr 16)
}.

Definition new : t := mk ∅ [] None ∅.

Definition add_direct_link (link_id : arr 16) (now_ms : Z) (t : t) : LinkTracker.t :=
  t {{ direct_links := <[link_id := mkDirectLink link_id now_ms]> (direct_links t) }}.

Definition add_propagation_link (link_id : arr 16) (now_ms : Z) (t : t) : LinkTracker.t :=
  t {{ active_propagation_links := active_propagation_links t ++ [mkPropLink link_id now_ms false] }}.

Definition set_outbound_propagation_link (link_id : arr 16) (now_ms : Z) (t : t) : LinkTracker.t :=
  t {{ outbound_propagation_link := Some (mkPropLink link_id now_ms false) }}.

Definition mark_closed (l : PropagationLinkInfo) : PropagationLinkInfo := l {{ pl_is_closed := true }}.

Definition mark_outbound_propagation_link_closed (t : t) : LinkTracker.t :=
  t {{ outbound_propagation_link := mark_closed <$> outbound_propagation_link t }}.

(** The first propagation link with the identifier, if there is one. *)
Fixpoint touch_first (link_id : arr 16) (now_ms : Z) (links : list PropagationLinkInfo) :
    option (list PropagationLinkInfo) :=
  match links with
  | [] => None
  | l :: links =>
      if bool_decide (pl_link_id l = link_id) then Some (l {{ pl_last_activity_ms := now_ms }} :: links)
      else cons l <$> touch_first link_id now_ms links
  end.

(** A propagation link that matches hides the outbound one. *)
Definition update_link_activity (link_id : arr 16) (now_ms : Z) (t : t) : LinkTracker.t :=
  let t := t {{ direct_links := alter (fun l => l {{ dl_last_activity_ms := now_ms }}) link_id (direct_links t) }} in
  match touch_first link_id now_ms (active_propagation_links t) with
  | Some links => t {{ active_propagation_links := links }}
  | None =>
      match outbound_propagation_link t with
      | Some l => if bool_decide (pl_link_id l = link_id)
                  then t {{ outbound_propagation_link := Some (l {{ pl_last_activity_ms := now_ms }}) }} else t
      | None => t
      end
  end.

Definition has_direct_link (t : t) (link_id : arr 16) : bool := bool_decide (is_Some (direct_links t !! link_id)).

Definition has_propagation_link (t : t) (link_id : arr 16) : bool :=
  existsb (fun l => bool_decide (pl_link_id l = link_id)) (active_propagation_links t).

Definition add_validated_peer_link (link_id : arr 16) (t : t) : LinkTracker.t :=
  t {{ validated_peer_links := {[link_id]} ∪ validated_peer_links t }}.

Definition is_validated_peer_link (t : t) (link_id : arr 16) : bool := bool_decide (link_id ∈ validated_peer_links t).

Definition idle (now_ms limit last_activity_ms : Z) : bool := limit * 1000 <? sat_sub now_ms last_activity_ms.

(** The direct and propagation links that have been quiet too long go. *)
Definition drop_idle (now_ms : Z) (t : t) : LinkTracker.t :=
  let gone := filter (fun kv => idle now_ms LINK_MAX_INACTIVITY (dl_last_activity_ms kv.2) = true) (direct_links t) in
  t {{ direct_links := filter (fun kv => idle now_ms LINK_MAX_INACTIVITY (dl_last_activity_ms kv.2) = false) (direct_links t);
       validated_peer_links := validated_peer_links t ∖ dom gone;
       active_propagation_links :=
         filter (fun l => idle now_ms P_LINK_MAX_INACTIVITY (pl_last_activity_ms l) = false)
           (active_propagation_links t) }}.

Definition close_link (link_id : arr 16) (t : t) : LinkTracker.t :=
  let close := fun l => if bool_decide (pl_link_id l = link_id) then mark_closed l else l in
  t {{ outbound_propagation_link := close <$> outbound_propagation_link t;
       active_propagation_links := map close (active_propagation_links t) }}.

(** [process_link_events]: the identifiers of an event are address hashes, so
    of the right length. *)
Definition link_event (now_ms : Z) (t : t) (event : LinkEventData) : LinkTracker.t :=
  match ev_event event with
  | EvData _ _ =>
      let t := update_link_activity (ev_id event) now_ms t in
      if bool_decide (ev_address_hash event = ev_id event) then t
      else update_link_activity (ev_address_hash event) now_ms t
  | EvActivated =>
      if has_direct_link t (ev_address_hash event) then update_link_activity (ev_address_hash event) now_ms t
      else add_direct_link (ev_address_hash event) now_ms t
  | EvClosed => close_link (ev_id event) t
  end.

Definition process_link_events (events : list LinkEventData) (now_ms : Z) (t : t) : LinkTracker.t :=
  foldl (link_event now_ms) t events.

End LinkTracker.

(** * Downloads *)

Module Downloads.

Record t : Type := mk {
  link_tracker : LinkTracker.t;
  propagation_transfer_state : Z;
  propagation_transfer_last_result : option Z;
  propagation_transfer_progress : f64;
  wants_download_on_path_available_from : option (arr 16);
  wants_download_on_path_available_to : option (arr 16);
  wants_download_on_path_available_timeout : option Z;
  outbound_propagation_node : option (arr 16);
  propagation_transfer_max_messages : option Z;
  propagation_transfer_last_duplicates : option Z;
  pn_message_requests : list (arr 16 * arr 16 * option Z);
  pn_path_requests : list (arr 16)
}.

Definition new : t := mk LinkTracker.new PR_IDLE None f64_zero None None None None None None [] [].

Definition with_tracker (f : LinkTracker.t -> LinkTracker.t) (d : t) : t :=
  d {{ link_tracker := f (link_tracker d) }}.

Definition drop_outbound_link : t -> t :=
  with_tracker (fun l => l {{ LinkTracker.outbound_propagation_link := None }}).

Definition acknowledge_sync_completion (reset_state : bool) (failure_state : option Z) (d : t) : t :=
  d {{ propagation_transfer_last_result := None;
       propagation_transfer_state :=
         if reset_state || (propagation_transfer_state d <=? PR_COMPLETE)
         then default PR_IDLE failure_state else propagation_transfer_state d;
       propagation_transfer_progress := f64_zero;
       wants_download_on_path_available_from := None;
       wants_download_on_path_available_to := None;
       wants_download_on_path_available_timeout := None }}.

(** What the end of the outbound link means for the transfer. *)
Definition link_closed_outcome (state : Z) : option Z :=
  if state =? PR_COMPLETE then None
  else if state <? PR_LINK_ESTABLISHED then Some PR_LINK_FAILED
  else if (PR_LINK_ESTABLISHED <=? state) && (state <? PR_COMPLETE) then Some PR_TRANSFER_FAILED
  else None.

Definition clean_links (now_ms : Z) (d : t) : t :=
  let d := with_tracker (LinkTracker.drop_idle now_ms) d in
  match LinkTracker.outbound_propagation_link (link_tracker d) with
  | Some l =>
      if pl_is_closed l
      then acknowledge_sync_completion false (link_closed_outcome (propagation_transfer_state d))
             (drop_outbound_link d)
      else d
  | None => d
  end.

Definition set_outbound_propagation_node (destination_hash : option (arr 16)) (d : t) : t :=
  if bool_decide (outbound_propagation_node d = destination_hash) then d
  else
    let d := d {{ outbound_propagation_node := destination_hash }} in
    match LinkTracker.outbound_propagation_link (link_tracker d), destination_hash with
    | Some l, Some new_hash => if bool_decide (pl_link_id l = new_hash) then d else drop_outbound_link d
    | Some _, None => drop_outbound_link d
    | None, _ => d
    end.

Definition cancel_propagation_node_requests (d : t) : t :=
  let d := match LinkTracker.outbound_propagation_link (link_tracker d) with
           | Some _ => drop_outbound_link d
           | None => d
           end in
  (acknowledge_sync_completion true None d) {{ propagation_transfer_max_messages := None }}.

Section Directory.
Context `{M : Msgpack} (pn_directory : PnDirectory).

Definition has_path (node_hash : arr 16) : bool := bool_decide (is_Some (PnDir.get pn_directory node_hash)).

Definition establish_propagation_link_for_request (identity_hash node_hash : arr 16) (now_ms : Z) (d : t) : t :=
  if has_path node_hash then
    d {{ wants_download_on_path_available_from := None;
         propagation_transfer_state := PR_LINK_ESTABLISHING;
         pn_message_requests :=
           pn_message_requests d ++ [(node_hash, identity_hash, propagation_transfer_max_messages d)] }}
  else
    d {{ wants_download_on_path_available_from := Some node_hash;
         wants_download_on_path_available_to := Some identity_hash;
         wants_download_on_path_available_timeout := Some (as_u64 (now_ms / 1000 + PR_PATH_TIMEOUT));
         propagation_transfer_state := PR_PATH_REQUESTED;
         pn_path_requests := pn_path_requests d ++ [node_hash] }}.

Definition request_messages_from_propagation_node (identity_hash : arr 16) (max_messages : option Z)
    (now_ms : Z) (d : t) : t :=
  let max := default PR_ALL_MESSAGES max_messages in
  let d := d {{ propagation_transfer_progress := f64_zero; propagation_transfer_max_messages := Some max }} in
  match outbound_propagation_node d with
  | None => d
  | Some node_hash =>
      match LinkTracker.outbound_propagation_link (link_tracker d) with
      | Some l =>
          if negb (pl_is_closed l) then
            d {{ pn_message_requests := pn_message_requests d ++ [(node_hash, identity_hash, Some max)];
                 propagation_transfer_state := PR_REQUEST_SENT }}
          else establish_propagation_link_for_request identity_hash node_hash now_ms d
      | None => establish_propagation_link_for_request identity_hash node_hash now_ms d
      end
  end.

Definition process_pn_message_requests (d : t) : t * list (arr 16 * arr 16 * option Z) :=
  (d {{ pn_message_requests := [] }}, pn_message_requests d).

Definition pop_pn_path_request (d : t) : t * option (arr 16) :=
  (d {{ pn_path_requests := tail (pn_path_requests d) }}, head (pn_path_requests d)).

Definition on_pn_path_available (node_hash : arr 16) (d : t) : t :=
  if bool_decide (wants_download_on_path_available_from d = Some node_hash) then
    match wants_download_on_path_available_to d with
    | Some identity_hash =>
        d {{ wants_download_on_path_available_from := None;
             propagation_transfer_state := PR_LINK_ESTABLISHING;
             pn_message_requests :=
               pn_message_requests d ++ [(node_hash, identity_hash, propagation_transfer_max_messages d)] }}
    | None => d
    end
  else d.

Definition get_outbound_propagation_cost (d : t) : t * option Z :=
  match outbound_propagation_node d with
  | None => (d, None)
  | Some hash =>
      match PnDir.get pn_directory hash with
      | Some entry => (d, as_u32 <$> pn_stamp_cost_from_app_data (e_app_data entry))
      | None =>
          (if bool_decide (hash ∈ pn_path_requests d) then d
           else d {{ pn_path_requests := pn_path_requests d ++ [hash] }}, None)
      end
  end.

(** The answer is true when the wait for a path is over. *)
Definition poll_path_request_timeout (now_ms : Z) (d : t) : t * bool :=
  match wants_download_on_path_available_from d, wants_download_on_path_available_timeout d with
  | Some from, Some timeout_s =>
      if timeout_s <=? now_ms / 1000 then (acknowledge_sync_completion false (Some PR_NO_PATH) d, true)
      else if has_path from && bool_decide (is_Some (wants_download_on_path_available_to d))
      then (on_pn_path_available from d, false)
      else (d, false)
  | _, _ => (d, false)
  end.

End Directory.
End Downloads.

(** * How a download ends *)

(** The polls of the event loop, each with the directory at that time. *)
Definition poll_all (polls : list (Z * PnDirectory)) (d : Downloads.t) : Downloads.t :=
  foldl (fun d p => (Downloads.poll_path_request_timeout p.2 p.1 d).1) d polls.

Inductive search_result : Type := Searching | PathFound | NoPath.

(** The first poll that is late or sees a path decides. *)
Fixpoint search (node : arr 16) (deadline_s : Z) (polls : list (Z * PnDirectory)) : search_result :=
  match polls with
  | [] => Searching
  | (now_ms, dir) :: polls =>
      if deadline_s <=? now_ms / 1000 then NoPath
      else if Downloads.has_path dir node then PathFound
      else search node deadline_s polls
  end.

Lemma search_late node deadline polls now_ms dir :
  (now_ms, dir) ∈ polls -> deadline <= now_ms / 1000 -> search node deadline polls <> Searching.
Proof.
  induction polls as [|[t d] polls IH]; [by intros ?%not_elem_of_nil|]. cbn [search].
  intros [[= -> ->]|Hin]%elem_of_cons Hl.
  - by rewrite (proj2 (Z.leb_le _ _)).
  - destruct (_ <=? _); [done|]. destruct (Downloads.has_path _ _); [done|]. by apply IH.
Qed.

Lemma poll_all_settled polls d :
  Downloads.wants_download_on_path_available_from d = None -> poll_all polls d = d.
Proof.
  intros Hd. induction polls as [|[t dir] polls IH]; [done|]. unfold poll_all in *. cbn [foldl fst snd].
  replace (Downloads.poll_path_request_timeout dir t d).1 with d; [done|].
  unfold Downloads.poll_path_request_timeout. by rewrite Hd.
Qed.

(** A download that waits for a path to [node]. *)
Definition waiting_for (node identity : arr 16) (deadline_s : Z) (d : Downloads.t) : Prop :=
  Downloads.wants_download_on_path_available_from d = Some node /\
  Downloads.wants_download_on_path_available_to d = Some identity /\
  Downloads.wants_download_on_path_available_timeout d = Some deadline_s.

Lemma poll_all_search node identity deadline polls d : waiting_for node identity deadline d ->
  poll_all polls d =
    match search node deadline polls with
    | Searching => d
    | PathFound => Downloads.on_pn_path_available node d
    | NoPath => Downloads.acknowledge_sync_completion false (Some PR_NO_PATH) d
    end.
Proof.
  intros (Hf & Ht & Hd). induction polls as [|[t dir] polls IH]; [done|].
  assert (Hstep : (Downloads.poll_path_request_timeout dir t d).1 =
    if deadline <=? t / 1000 then Downloads.acknowledge_sync_completion false (Some PR_NO_PATH) d
    else if Downloads.has_path dir node then Downloads.on_pn_path_available node d else d).
  { unfold Downloads.poll_path_request_timeout. rewrite Hf, Ht, Hd. destruct (_ <=? _); [done|].
    rewrite bool_decide_true, andb_true_r by done. by destruct (Downloads.has_path dir node). }
  unfold poll_all in *. cbn [foldl fst snd search]. rewrite Hstep. destruct (_ <=? _).
  { apply poll_all_settled. by destruct d. }
  destruct (Downloads.has_path dir node); [|exact IH].
  apply poll_all_settled. unfold Downloads.on_pn_path_available. rewrite Hf, Ht, bool_decide_true by done. by destruct d.
Qed.


(** When the outbound link is reported closed, the next cleaning of links drops
    it and ends the transfer: it failed to link, failed to transfer, or had
    completed, according to the state it was in. *)
Theorem closed_link_ends_transfer (d : Downloads.t) (l : PropagationLinkInfo) (event : LinkEventData) (t t' : Z)
  (Hl : LinkTracker.outbound_propagation_link (Downloads.link_tracker d) = Some l)
  (Hev : ev_event event = EvClosed) (Hid : ev_id event = pl_link_id l) :
  let d' := Downloads.clean_links t' (Downloads.with_tracker (LinkTracker.process_link_events [event] t) d) in
  LinkTracker.outbound_propagation_link (Downloads.link_tracker d') = None /\
  Downloads.wants_download_on_path_available_from d' = None /\
  Downloads.propagation_transfer_state d' =
    if Downloads.propagation_transfer_state d <=? PR_COMPLETE
    then default PR_IDLE (Downloads.link_closed_outcome (Downloads.propagation_transfer_state d))
    else Downloads.propagation_transfer_state d.
Proof.
  unfold LinkTracker.process_link_events, LinkTracker.link_event. cbn [foldl]. rewrite Hev.
  destruct d as [[direct active out_ validated] state lr pr wf wt wto node mm ld pm pp].
  cbn [Downloads.link_tracker LinkTracker.outbound_propagation_link] in Hl. subst out_.
  unfold Downloads.clean_links, Downloads.with_tracker, LinkTracker.close_link, LinkTracker.drop_idle.
  cbn -[filter PR_COMPLETE Downloads.link_closed_outcome]. unfold constant. rewrite Hid, bool_decide_true by done.
  destruct l as [lid last closed]. cbn -[filter PR_COMPLETE Downloads.link_closed_outcome]. unfold constant. done.
Qed.

