(* ===== verification/Tickets.v ===== *)
(** Tickets of [lxmf-rs/src/rns/router.rs]: a peer that was given a ticket may
    send without proof of work.  [TicketStore] keeps the tickets received (to
    send with, by destination) and those issued (to accept, by sender); a ticket
    travels in the [FIELD_TICKET] entry of a message's fields. *)

From Stdlib Require Import ZArith Lia.
From Stdlib Require Import Strings.Byte.
From stdpp Require Import base gmap strings numbers list.
From coqutil Require Import Datatypes.RecordSetters.
From S2P Require Import Prelude Float Msgpack Crypto Stamp Message Rns StorageTables.
Import DoubleBraceUpdate.

Local Open Scope Z_scope.

Record TicketEntry : Type := mkTicket {
  expires_at_s : f64;
  ticket : list byte
}.

Module TicketStore.

Record t : Type := mk {
  outbound : gmap (arr 16) TicketEntry;
  inbound : gmap (arr 16) (gmap (list byte) f64);
  last_deliveries : gmap (arr 16) f64
}.

Definition default_ : t := mk ∅ ∅ ∅.

Definition now_s (now_ms : Z) : f64 := f64_div (f64_of_Z now_ms) (f64_of_Z 1000).

(** [x > y] *)
Definition f64_gtb (x y : f64) : bool := f64_ltb y x.

Section Operations.
Context `{HI : HashIter}.

(** A ticket was delivered to the destination less than the interval ago. *)
Definition recently_delivered (destination_hash : arr 16) (now : f64) (s : t) : bool :=
  match last_deliveries s !! destination_hash with
  | Some last_delivery => f64_ltb (f64_sub now last_delivery) (f64_of_Z TICKET_INTERVAL)
  | None => false
  end.

(** The first ticket issued to the destination that need not be renewed. *)
Definition reusable (destination_hash : arr 16) (now : f64) (s : t) : option TicketEntry :=
  entry_map ← inbound s !! destination_hash;
  '(tk, expires_at) ← head (filter (fun kv => f64_gtb (f64_sub kv.2 now) (f64_of_Z TICKET_RENEW) = true)
                              (hash_iter entry_map));
  Some (mkTicket expires_at tk).

(** [fresh] is what the random generator fills the new ticket with. *)
Definition generate_ticket (fresh : arr 16) (destination_hash : arr 16) (now_ms expiry_s : Z) (s : t) :
    t * option TicketEntry :=
  let now := now_s now_ms in
  if recently_delivered destination_hash now s then (s, None)
  else match reusable destination_hash now s with
       | Some entry => (s, Some entry)
       | None =>
           let expires_at := f64_add now (f64_of_Z expiry_s) in
           let entry_map := default ∅ (inbound s !! destination_hash) in
           (s {{ inbound := <[destination_hash := <[arr_list fresh := expires_at]> entry_map]> (inbound s) }},
            Some (mkTicket expires_at fresh))
       end.

Definition remember_ticket (destination_hash : arr 16) (entry : TicketEntry) (s : t) : t :=
  s {{ outbound := <[destination_hash := entry]> (outbound s) }}.

Definition get_outbound_ticket (destination_hash : arr 16) (now_ms : Z) (s : t) : option (list byte) :=
  entry ← outbound s !! destination_hash;
  if f64_gtb (expires_at_s entry) (now_s now_ms) then Some (ticket entry) else None.

Definition get_inbound_tickets (destination_hash : arr 16) (now_ms : Z) (s : t) :
    option (list (list byte)) :=
  entry_map ← inbound s !! destination_hash;
  match (filter (fun kv => f64_gtb kv.2 (now_s now_ms) = true) (hash_iter entry_map)).*1 with
  | [] => None
  | tickets => Some tickets
  end.

Definition mark_ticket_delivered (destination_hash : arr 16) (now_ms : Z) (s : t) : t :=
  s {{ last_deliveries := <[destination_hash := now_s now_ms]> (last_deliveries s) }}.

Definition clean_expired (now_ms : Z) (s : t) : t :=
  let now := now_s now_ms in
  s {{ outbound := filter (fun kv => f64_gtb (expires_at_s kv.2) now = true) (outbound s);
       inbound := (fun tickets => filter (fun kv => f64_leb now (f64_add kv.2 (f64_of_Z TICKET_GRACE)) = true)
                                    tickets) <$> inbound s }}.

Definition snapshot (s : t) : TicketStoreSnapshot :=
  mkSnapshot ((fun e => (expires_at_s e, ticket e)) <$> outbound s) (inbound s) (last_deliveries s).

Definition restore (snapshot : TicketStoreSnapshot) : t :=
  mk ((fun e => mkTicket e.1 e.2) <$> ts_outbound snapshot) (ts_inbound snapshot)
    (ts_last_deliveries snapshot).

End Operations.
End TicketStore.

(** * The ticket field *)

(** [key.as_i64().map(|v| v as u64) == Some(FIELD_TICKET as u64)] *)
Definition is_ticket_key (key : Value) : bool :=
  match value_as_i64 key with Some v => as_u64 v =? FIELD_TICKET | None => false end.

Definition insert_ticket_field (fields : Value) (expires_at_s : f64) (ticket : list byte) : Value :=
  let entries := match fields with VMap map => map | _ => [] end in
  VMap (filter (fun kv => is_ticket_key kv.1 = false) entries ++
        [(Integer FIELD_TICKET, VArray [F64 expires_at_s; Binary ticket])]).

Definition read_ticket (val : Value) : option (f64 * list byte) :=
  match val with
  | VArray (v0 :: v1 :: _) =>
      expires_at_s ← value_to_f64 v0;
      match v1 with
      | Binary ticket => if negb (Nat.eqb (length ticket) TICKET_LENGTH) then None
                         else Some (expires_at_s, ticket)
      | _ => None
      end
  | _ => None
  end.

(** A key that is not an integer ends the search. *)
Fixpoint find_ticket (entries : list (Value * Value)) : option (f64 * list byte) :=
  match entries with
  | [] => None
  | (key, val) :: entries =>
      key_id ← value_as_i64 key;
      if negb (as_u64 key_id =? FIELD_TICKET) then find_ticket entries else read_ticket val
  end.

Definition extract_ticket_field (fields : Value) : option (f64 * list byte) :=
  match fields with VMap entries => find_ticket entries | _ => None end.

(** * Stamps and tickets *)

Section Validation.
Context `{C : Crypto} `{M : Msgpack}.

Fixpoint any_ticket (required_cost : Z) (tickets : list (list byte)) (m : LXMessage.t) : LXMessage.t * bool :=
  match tickets with
  | [] => (m, false)
  | tk :: tickets =>
      match LXMessage.validate_stamp (Some required_cost) (Some tk) m with
      | (m, Ok true) => (m, true)
      | (m, _) => any_ticket required_cost tickets m
      end
  end.

Definition validate_stamp_with_tickets (required_cost : Z) (tickets : option (list (list byte)))
    (m : LXMessage.t) : LXMessage.t * bool :=
  match any_ticket required_cost (default [] tickets) m with
  | (m, true) => (m, true)
  | (m, false) =>
      match LXMessage.validate_stamp (Some required_cost) None m with
      | (m, Ok valid) => (m, valid)
      | (m, Err _) => (m, false)
      end
  end.

End Validation.

(** * The field *)

Lemma is_ticket_key_field : is_ticket_key (Integer FIELD_TICKET) = true.
Proof. reflexivity. Qed.

Lemma find_ticket_app entries rest :
  Forall (fun kv => is_ticket_key kv.1 = false) entries ->
  find_ticket (entries ++ rest) =
    if forallb (fun kv => bool_decide (is_Some (value_as_i64 kv.1))) entries then find_ticket rest else None.
Proof.
  induction 1 as [|[key val] entries Hk _ IH]; [done|]. cbn [app find_ticket forallb fst] in *.
  unfold is_ticket_key in Hk. destruct (value_as_i64 key) as [v|]; cbn [mbind option_bind].
  - rewrite Hk. cbn [negb]. rewrite IH, bool_decide_true by (by eexists). done.
  - by rewrite bool_decide_false by (by intros [? ?]).
Qed.

(** The entries of a message's fields that are not its ticket. *)
Definition other_fields (fields : Value) : list (Value * Value) :=
  filter (fun kv => is_ticket_key kv.1 = false) match fields with VMap map => map | _ => [] end.

Lemma extract_inserted fields e tk :
  length tk = TICKET_LENGTH ->
  extract_ticket_field (insert_ticket_field fields e tk) =
    if forallb (fun kv => bool_decide (is_Some (value_as_i64 kv.1))) (other_fields fields)
    then Some (e, tk) else None.
Proof.
  intros Hl. unfold insert_ticket_field. cbn [extract_ticket_field].
  rewrite find_ticket_app.
  - unfold other_fields. destruct (forallb _ _); [|done]. cbn. by rewrite Hl.
  - apply Forall_forall. intros kv [Hk _]%list_elem_of_filter. done.
Qed.

(** * Validation *)

Section ValidationFacts.
Context `{C : Crypto} `{M : Msgpack} `{CL : !CryptoLaws} `{ML : !MsgpackLaws}.
Implicit Types m : LXMessage.t.

(** What checking a stamp leaves alone. *)
Definition same_content m m' : Prop :=
  LXMessage.m_destination_hash m' = LXMessage.m_destination_hash m /\
  LXMessage.m_source_hash m' = LXMessage.m_source_hash m /\
  LXMessage.payload_values m' = LXMessage.payload_values m /\
  LXMessage.m_stamp m' = LXMessage.m_stamp m.

Lemma same_content_trans m1 m2 m3 : same_content m1 m2 -> same_content m2 m3 -> same_content m1 m3.
Proof. unfold same_content. intuition congruence. Qed.

Lemma same_content_pack m m' : same_content m m' ->
  LXMessage.pack_payload false m' = LXMessage.pack_payload false m.
Proof. intros (_ & _ & Hv & _). unfold LXMessage.pack_payload. by rewrite Hv. Qed.

Lemma same_content_id m m' bs : same_content m m' ->
  LXMessage.message_id_of m' bs = LXMessage.message_id_of m bs.
Proof. intros (Hd & Hs & _). unfold LXMessage.message_id_of. by rewrite Hd, Hs. Qed.

(** The verdict of [validate_stamp], and what it touches. *)
Lemma validate_stamp_cases cost tk m bs :
  LXMessage.pack_payload false m = Ok bs ->
  exists m' b, LXMessage.validate_stamp cost tk m = (m', Ok b) /\ same_content m m' /\
    (b = true <-> exists stamp, LXMessage.m_stamp m = Some stamp /\
       stamp_accepts cost tk (LXMessage.message_id_of m bs) stamp).
Proof.
  intros Hbs. set (mc := LXMessage.set_stamp_fields (LXMessage.m_stamp m) (LXMessage.m_stamp_value m)
               (LXMessage.m_stamp_valid m) true m).
  destruct (check_stamp_exact cost tk mc bs Hbs) as (m' & b & Hc & _ & _ & _ & Hb).
  exists m', b. split; [done|]. split; [|done].
  unfold LXMessage.check_stamp in Hc. cbn [mc LXMessage.m_stamp] in Hc.
  destruct (LXMessage.m_stamp mc) as [st|] eqn:Hst;
    [|injection Hc as <- _; unfold mc in *; by destruct m].
  destruct (LXMessage.pack_payload false mc) as [payload|]; [|done].
  destruct (LXMessage.ticket_matches _ _ _); [injection Hc as <- _; unfold mc in *; by destruct m|].
  destruct (LXMessage.work_value _ _ _) as [[v|]|]; [injection Hc as <- _; unfold mc in *; by destruct m..|done].
Qed.

Lemma any_ticket_exact cost tickets bs : forall m,
  LXMessage.pack_payload false m = Ok bs ->
  let '(m', b) := any_ticket cost tickets m in
  same_content m m' /\
  (b = true <-> exists tk stamp, tk ∈ tickets /\ LXMessage.m_stamp m = Some stamp /\
     stamp_accepts (Some cost) (Some tk) (LXMessage.message_id_of m bs) stamp).
Proof.
  induction tickets as [|tk tickets IH]; intros m Hbs; cbn [any_ticket].
  - split; [done|]. split; [done|]. intros (tk & st & Hin & _). by apply not_elem_of_nil in Hin.
  - destruct (validate_stamp_cases (Some cost) (Some tk) m bs Hbs) as (m1 & b & Hv & Hsame & Hb).
    rewrite Hv. destruct b.
    + split; [done|]. split; [|done]. intros _. destruct (proj1 Hb eq_refl) as (st & Hst & Ha).
      exists tk, st. split; [left|done].
    + specialize (IH m1). rewrite (same_content_pack _ _ Hsame) in IH. specialize (IH Hbs).
      destruct (any_ticket cost tickets m1) as [m2 b2]. destruct IH as [Hsame2 Hb2].
      split; [by eapply same_content_trans|]. rewrite Hb2.
      pose proof Hsame as (_ & _ & _ & Hst). rewrite Hst, (same_content_id _ _ _ Hsame). split.
      * intros (tk' & st & Hin & Hs & Ha). exists tk', st. split; [by right|done].
      * intros (tk' & st & [->|Hin]%elem_of_cons & Hs & Ha); [|by exists tk', st].
        assert (false = true) by (apply Hb; by exists st). done.
Qed.

(** A stamp is accepted exactly when it is some ticket's stamp for this
    message, or carries the required work. *)
Lemma validate_with_tickets_exact cost tickets m :
  message_ok m = true ->
  exists m' b bs, validate_stamp_with_tickets cost tickets m = (m', b) /\ same_content m m' /\
    LXMessage.pack_payload false m = Ok bs /\
    (b = true <-> exists stamp, LXMessage.m_stamp m = Some stamp /\
       ((exists tk, tk ∈ default [] tickets /\
           LXMessage.ticket_matches (Some tk) (LXMessage.message_id_of m bs) stamp = true) \/
        stamp_accepts (Some cost) None (LXMessage.message_id_of m bs) stamp)).
Proof.
  intros Hm. destruct (pack_payload_ok false m Hm) as (bs & Hbs & _).
  unfold validate_stamp_with_tickets.
  pose proof (any_ticket_exact cost (default [] tickets) bs m Hbs) as Ha.
  destruct (any_ticket cost (default [] tickets) m) as [m1 b1]. destruct Ha as [Hs1 Hb1].
  destruct b1.
  - exists m1, true, bs. split; [done|]. split; [done|]. split; [done|]. split; [|done]. intros _.
    destruct (proj1 Hb1 eq_refl) as (tk & st & Hin & Hst & [Ht|Hw]); exists st; (split; [done|]).
    + left. by exists tk.
    + right. by right.
  - destruct (validate_stamp_cases (Some cost) None m1 bs) as (m2 & b2 & Hv & Hs2 & Hb2);
      [by rewrite (same_content_pack _ _ Hs1)|].
    rewrite Hv. exists m2, b2, bs. split; [done|]. split; [by eapply same_content_trans|]. split; [done|].
    rewrite Hb2. pose proof Hs1 as (_ & _ & _ & Hst1). rewrite Hst1, (same_content_id _ _ _ Hs1). split.
    + intros (st & Hst & Hacc). exists st. split; [done|]. by right.
    + intros (st & Hst & [(tk & Hin & Ht)|Hacc]); [|by exists st].
      assert (false = true) by (apply Hb1; exists tk, st; split; [done|]; split; [done|]; by left). done.
Qed.

End ValidationFacts.

(** * Issued tickets *)

(** Every ticket issued is as long as a ticket must be. *)
Definition tickets_ok (s : TicketStore.t) : Prop :=
  map_Forall (fun _ entry_map => map_Forall (fun tk _ => length tk = TICKET_LENGTH) entry_map)
    (TicketStore.inbound s).

(** Whether a sender's ticket is on file, and until when. *)
Definition ticket_issued (s : TicketStore.t) (sender : arr 16) (tk : list byte) (expires : f64) : Prop :=
  exists entry_map, TicketStore.inbound s !! sender = Some entry_map /\ entry_map !! tk = Some expires.

Section Issued.
Context `{HI : HashIter}.

Lemma generate_ticket_issued fresh d now expiry s s' e :
  tickets_ok s -> TicketStore.generate_ticket fresh d now expiry s = (s', Some e) ->
  length (ticket e) = TICKET_LENGTH /\ ticket_issued s' d (ticket e) (expires_at_s e) /\ tickets_ok s'.
Proof.
  intros Hok. unfold TicketStore.generate_ticket. destruct (TicketStore.recently_delivered _ _ _); [done|].
  destruct (TicketStore.reusable d _ s) as [entry|] eqn:Hr; intros Hg.
  - injection Hg as <- <-. unfold TicketStore.reusable in Hr.
    destruct (TicketStore.inbound s !! d) as [em|] eqn:Hd; [|done]. cbn [mbind option_bind] in Hr.
    destruct (filter _ (hash_iter em)) as [|[tk ex] l] eqn:Hf; [done|]. cbn in Hr. injection Hr as <-.
    assert (Hin : (tk, ex) ∈ hash_iter em).
    { assert (Hin : (tk, ex) ∈ filter (fun kv => TicketStore.f64_gtb (f64_sub kv.2 (TicketStore.now_s now))
        (f64_of_Z TICKET_RENEW) = true) (hash_iter em)) by (rewrite Hf; left).
      by apply list_elem_of_filter in Hin as [_ Hin]. }
    apply elem_of_hash_iter in Hin. split; [by apply (Hok d em Hd tk ex)|]. split; [|done].
    by exists em.
  - injection Hg as <- <-. cbn [ticket expires_at_s]. split; [apply arr_length|]. split.
    + destruct s. eexists. split; [apply lookup_insert_eq|apply lookup_insert_eq].
    + unfold tickets_ok in *. destruct s as [out inb last]. cbn in *. unfold constant.
      apply map_Forall_insert_2; [|done]. apply map_Forall_insert_2; [apply arr_length|].
      destruct (inb !! d) as [em|] eqn:Hd; [by apply (Hok d em)|apply map_Forall_empty].
Qed.

(** A ticket on file that has not expired is offered to the validation. *)
Lemma issued_ticket_accepted s sender tk expires now :
  ticket_issued s sender tk expires -> TicketStore.f64_gtb expires (TicketStore.now_s now) = true ->
  tk ∈ default [] (TicketStore.get_inbound_tickets sender now s).
Proof.
  intros (em & He & Htk) Hnow. unfold TicketStore.get_inbound_tickets. rewrite He. cbn [mbind option_bind].
  assert (Hin : tk ∈ (filter (fun kv => TicketStore.f64_gtb kv.2 (TicketStore.now_s now) = true)
    (hash_iter em)).*1).
  { apply list_elem_of_fmap. exists (tk, expires). split; [done|]. apply list_elem_of_filter.
    split; [done|]. by apply elem_of_hash_iter. }
  by destruct (_.*1).
Qed.

End Issued.

(** * A message stamped with a ticket *)

Lemma encode_with_ticket `{Crypto} `{Msgpack} `{!CryptoLaws} `{!MsgpackLaws} draws k m tk :
  message_ok m = true -> LXMessage.m_stamp m = None -> LXMessage.m_defer_stamp m = false ->
  LXMessage.m_outbound_ticket m = Some tk -> length tk = TICKET_LENGTH ->
  exists m' bytes r bs, LXMessage.encode_signed draws k m = (m', Ok bytes) /\
    LXMessage.decode bytes = Ok r /\ message_ok r = true /\
    LXMessage.m_destination_hash r = LXMessage.m_destination_hash m /\
    LXMessage.m_source_hash r = LXMessage.m_source_hash m /\
    LXMessage.m_fields r = LXMessage.m_fields m /\
    LXMessage.pack_payload false r = Ok bs /\
    LXMessage.m_message_id r = Some (LXMessage.message_id_of r bs) /\
    LXMessage.m_stamp r = Some (arr_list (LXMessage.ticket_stamp tk (LXMessage.message_id_of r bs))).
Proof.
  intros Hm Hnone Hdefer Htk Hl. destruct (pack_payload_ok false m Hm) as (bs & Hbs & _).
  destruct (encode_signed_steps draws k m bs Hm Hbs) as (s & v & ok & ck & Hok & _ & Hen & He).
  specialize (Hen Hdefer). destruct (decode_encode_with_signature _ _ Hok eq_refl) as (bytes & bs' & Henc & Hbs' & Hd).
  unfold LXMessage.ensure_stamp in Hen. cbn in Hen. rewrite Hnone in Hen.
  unfold LXMessage.stamp_with_ticket in Hen. cbn in Hen. rewrite Htk in Hen. cbn in Hen. rewrite Hl in Hen.
  cbn in Hen. injection Hen as <- _ _ _.
  assert (bs' = bs) as -> by (cut (@Ok LXMFError _ bs' = Ok bs); [congruence|]; rewrite <- Hbs', <- Hbs; done).
  eexists _, bytes, _, bs. split; [by rewrite He|]. split; [by rewrite <- (app_nil_r bytes), Hd|].
  split; [exact Hok|]. do 3 (split; [done|]). split; [exact Hbs|]. split; done.
Qed.
