(* ===== verification/Outbound.v ===== *)
(** [RnsRouter] of [lxmf-rs/src/rns/router.rs]: the queue of messages to send,
    their delivery attempts and retries, the deliveries in flight, and the
    packets received; over any [MessageStore].

    Additions that Rust checks only in debug builds ([next_id += 1],
    [attempts += 1]) wrap.  The random draws of an attempt are an argument,
    indexed by the item's identifier and the attempt's number.  The callbacks
    do not reach the router's state; the calls made are logged in [calls]. *)

From Stdlib Require Import ZArith Lia Permutation Sorted.
From Stdlib Require Import Strings.Byte.
From stdpp Require Import base gmap strings numbers list.
From coqutil Require Import Datatypes.RecordSetters.
From S2P Require Import Prelude Float Msgpack Crypto Buffer Packet Identity Destination Stamp Message Rns.
From S2P Require Import Delivery Requests PnDirectory StorageCodec MessageStore.
Import DoubleBraceUpdate.

Local Open Scope Z_scope.

Record RetryPolicy : Type := mkRetry {
  max_attempts : Z;
  base_delay_ms : Z;
  max_delay_ms : Z
}.

Definition RetryPolicy_default : RetryPolicy := mkRetry 3 500 5000.

Definition retry_delay_ms (policy : RetryPolicy) (attempt : Z) : Z :=
  let pow := Z.min (sat_sub attempt 1) 20 in
  let delay := sat_mul64 (base_delay_ms policy) (Z.shiftl 1 pow) in
  Z.min delay (max_delay_ms policy).

Record QueuedDelivery : Type := mkDelivery {
  qd_id : Z;
  qd_delivery : DeliveryOutput;
  qd_message : LXMessage.t
}.

Record InflightDelivery : Type := mkInflight {
  if_id : Z;
  if_message : LXMessage.t;
  if_sent_at_ms : Z;
  if_timeout_ms : Z
}.

(** A call of [on_delivered] or [on_failed]. *)
Inductive Call : Type :=
| CallDelivered (d : QueuedDelivery)
| CallFailed (f : FailedDelivery).

Definition is_policy_violation (e : RnsError) : bool :=
  match e with RnsCryptoPolicyViolation _ _ _ => true | _ => false end.

Definition set_state (state : Z) (m : LXMessage.t) : LXMessage.t :=
  m {{ LXMessage.m_state := state }}.

Definition q_leb (a b : QueuedMessage) : bool := q_id a <=? q_id b.

Module RnsRouter.

Record t (S : Type) `{IC : IdentityCrypto} : Type := mk {
  outbound : list QueuedMessage;
  failed : list FailedDelivery;
  inbound : list Received;
  next_id : Z;
  delivery : RnsOutbound.t;
  retry : RetryPolicy;
  store : S;
  pn_dir : option PnDirectory;
  inflight : gmap Z InflightDelivery;
  on_delivered : bool;
  on_failed : bool;
  delivered_cache : DeliveredCache.t;
  calls : list Call
}.
Arguments outbound {S _ _} _.
Arguments failed {S _ _} _.
Arguments inbound {S _ _} _.
Arguments next_id {S _ _} _.
Arguments delivery {S _ _} _.
Arguments retry {S _ _} _.
Arguments store {S _ _} _.
Arguments pn_dir {S _ _} _.
Arguments inflight {S _ _} _.
Arguments on_delivered {S _ _} _.
Arguments on_failed {S _ _} _.
Arguments delivered_cache {S _ _} _.
Arguments calls {S _ _} _.

Section Operations.
Context `{F : Features} `{IC : IdentityCrypto} `{M : Msgpack} `{HI : HashIter}.
Context {S : Type} `{MS : MessageStore S}.
Abbreviation router := (t S).

Definition empty (delivery : RnsOutbound.t) (retry : RetryPolicy) (store : S) : router :=
  mk S _ _ [] [] [] 1 delivery retry store None ∅ false false (DeliveredCache.new DELIVERED_CACHE_MAX) [].

(** * The queue *)

Definition enqueue (message : LXMessage.t) (mode : DeliveryMode) (r : router) : router * Z :=
  let id := next_id r in
  let item := mkQueued id (set_state STATE_OUTBOUND message) mode 0 0 in
  (r {{ next_id := as_u64 (id + 1); store := save_outbound item (store r);
        outbound := outbound r ++ [item] }}, id).

(** [min_next]: when no item is due at once, the earliest time of the stored
    items. *)
Definition restore_base (items : list QueuedMessage) : option Z :=
  if existsb (fun item => q_next_attempt_at_ms item =? 0) items then None
  else match filter (fun t => 0 < t) (map q_next_attempt_at_ms items) with
       | [] => None
       | t :: ts => Some (foldl Z.min t ts)
       end.

Definition restore_item (base : option Z) (item : QueuedMessage) : QueuedMessage :=
  match base with
  | Some base =>
      if (0 <? q_next_attempt_at_ms item) && (base <=? q_next_attempt_at_ms item)
      then item {{ q_next_attempt_at_ms := sat_sub (q_next_attempt_at_ms item) base }} else item
  | None => item
  end.

Definition restore_outbound (r : router) : router :=
  let items := sort_by q_leb (load_outbound (store r)) in
  let min_next := restore_base items in
  foldl (fun r item =>
           let item := restore_item min_next item in
           r {{ next_id := Z.max (next_id r) (sat_add64 (q_id item) 1);
                outbound := outbound r ++ [item] }}) r items.

Definition with_store (delivery : RnsOutbound.t) (store : S) : router :=
  restore_outbound (empty delivery RetryPolicy_default store).

Definition set_crypto_policy (policy : RnsCryptoPolicy) (r : router) : router :=
  r {{ delivery := RnsOutbound.set_crypto_policy policy (delivery r) }}.

Definition set_delivery_callback (r : router) : router := r {{ on_delivered := true }}.
Definition set_failed_callback (r : router) : router := r {{ on_failed := true }}.

(** * The directory service *)

Definition set_pn_directory (directory : PnDirectory) (r : router) : router :=
  r {{ pn_dir := Some directory }}.

Definition handle_pn_dir_request (req : PnDirRequest) (now_ms : Z) (r : router) :
    router * option PnDirResponse :=
  match pn_dir r with
  | Some svc => let '(svc, response) := PnDirService.handle_request req now_ms svc in
                (r {{ pn_dir := Some svc }}, Some response)
  | None => (r, None)
  end.

Definition apply_pn_dir_response (resp : PnDirResponse) (now_ms : Z) (r : router) : router * bool :=
  match pn_dir r with
  | Some svc => (r {{ pn_dir := Some (PnDirService.apply_response resp now_ms svc) }}, true)
  | None => (r, false)
  end.

Definition pop_failed (r : router) : router * option FailedDelivery :=
  match failed r with [] => (r, None) | f :: rest => (r {{ failed := rest }}, Some f) end.

(** * Deliveries in flight *)

Definition mark_inflight (d : QueuedDelivery) (sent_at_ms timeout_ms : Z) (r : router) : router :=
  r {{ inflight := <[qd_id d := mkInflight (qd_id d) (set_state STATE_SENT (qd_message d))
                                 sent_at_ms timeout_ms]> (inflight r) }}.

Definition mark_delivered (id : Z) (r : router) : router * option LXMessage.t :=
  match inflight r !! id with
  | Some i => (r {{ inflight := delete id (inflight r) }}, Some (set_state STATE_DELIVERED (if_message i)))
  | None => (r, None)
  end.

Definition call_failed (f : FailedDelivery) (r : router) : list Call :=
  if on_failed r then calls r ++ [CallFailed f] else calls r.

Definition mark_failed (id : Z) (error : string) (attempts : Z) (r : router) :
    router * option FailedDelivery :=
  match inflight r !! id with
  | Some i =>
      let f := mkFailed id error (set_state STATE_FAILED (if_message i)) attempts in
      (r {{ inflight := delete id (inflight r); store := save_failed f (store r);
            failed := failed r ++ [f]; calls := call_failed f r }}, Some f)
  | None => (r, None)
  end.

Definition expired (now_ms : Z) (i : InflightDelivery) : bool :=
  if_timeout_ms i <=? sat_sub now_ms (if_sent_at_ms i).

Definition fail_expired (acc : router * list FailedDelivery) (id : Z) : router * list FailedDelivery :=
  match mark_failed id "delivery timeout" 0 acc.1 with
  | (r, Some f) => (r, acc.2 ++ [f])
  | (r, None) => (r, acc.2)
  end.

Definition poll_timeouts (now_ms : Z) (r : router) : router * list FailedDelivery :=
  let expired := (filter (fun kv => expired now_ms kv.2 = true) (hash_iter (inflight r))).*1 in
  foldl fail_expired (r, []) expired.

(** * Received packets *)

Definition pop_inbound (r : router) : router * option Received :=
  match inbound r with [] => (r, None) | x :: rest => (r {{ inbound := rest }}, Some x) end.

Definition receive_packet_with_source (packet : Packet) (mode : DeliveryMode)
    (source_hash : option (arr 16)) : stres router RnsError unit := fun r =>
  match decode_packet_with_source packet mode source_hash with
  | Err e => (r, Err e)
  | Ok (RcvMessage msg) =>
      match LXMessage.m_message_id msg with
      | Some id =>
          if DeliveredCache.seen_before id (delivered_cache r) then (r, Ok tt)
          else (r {{ delivered_cache := (DeliveredCache.mark_delivered id (delivered_cache r)).1;
                     store := save_inbound msg (store r); inbound := inbound r ++ [RcvMessage msg] }}, Ok tt)
      | None =>
          (r {{ store := save_inbound msg (store r); inbound := inbound r ++ [RcvMessage msg] }}, Ok tt)
      end
  | Ok received => (r {{ inbound := inbound r ++ [received] }}, Ok tt)
  end.

Definition receive_resource_payload (payload : list byte) (source_hash : option (arr 16)) (r : router) :
    router :=
  r {{ inbound := inbound r ++ [RcvPropagationResource payload source_hash] }}.

(** * Delivery attempts *)

(** The item of an attempt: one attempt more, and the state a message has while
    it is sent. *)
Definition attempt_item (item : QueuedMessage) : QueuedMessage :=
  item {{ q_attempts := as_u32 (q_attempts item + 1);
          q_message := set_state STATE_SENDING (q_message item) }}.

Definition sent (item : QueuedMessage) (message : LXMessage.t) (output : DeliveryOutput) (r : router) :
    router * QueuedDelivery :=
  let queued := mkDelivery (q_id item) output (set_state STATE_SENT message) in
  (r {{ store := remove_outbound (q_id item) (store r);
        calls := if on_delivered r then calls r ++ [CallDelivered queued] else calls r }}, queued).

Definition fail_item (item : QueuedMessage) (message : LXMessage.t) (err : RnsError) (r : router) : router :=
  let f := mkFailed (q_id item) (RnsError_display err) (set_state STATE_FAILED message)
             (q_attempts item) in
  r {{ store := save_failed f (remove_outbound (q_id item) (store r));
       failed := failed r ++ [f]; calls := call_failed f r }}.

Definition retry_item (now_ms : Z) (item : QueuedMessage) (message : LXMessage.t) (r : router) :
    QueuedMessage :=
  item {{ q_message := message;
          q_next_attempt_at_ms := sat_add64 now_ms (retry_delay_ms (retry r) (q_attempts item)) }}.

Definition retry_later (now_ms : Z) (item : QueuedMessage) (message : LXMessage.t) (r : router) : router :=
  let item := retry_item now_ms item message r in
  r {{ store := save_outbound item (store r); outbound := outbound r ++ [item] }}.

Definition next_delivery (draws : Z -> Z -> Z -> arr 32) (now_ms : Z) (r : router) :
    router * option (result (fault RnsError) QueuedDelivery) :=
  match outbound r with
  | [] => (r, None)
  | item :: rest =>
      if now_ms <? q_next_attempt_at_ms item then (r, None)
      else
        let item := attempt_item item in
        let r := r {{ outbound := rest }} in
        match RnsOutbound.deliver (delivery r) (draws (q_id item) (q_attempts item)) (q_mode item)
                (q_message item) with
        | (message, Ok output) => let '(r, queued) := sent item message output r in (r, Some (Ok queued))
        | (_, Err e) => (r, Some (Err e))
        end
  end.

Definition next_delivery_with_retry (draws : Z -> Z -> Z -> arr 32) (now_ms : Z) (r : router) :
    router * option (result (fault RnsError) QueuedDelivery) :=
  match outbound r with
  | [] => (r, None)
  | item :: rest =>
      if now_ms <? q_next_attempt_at_ms item then (r, None)
      else
        let item := attempt_item item in
        let r := r {{ outbound := rest }} in
        match RnsOutbound.deliver (delivery r) (draws (q_id item) (q_attempts item)) (q_mode item)
                (q_message item) with
        | (message, Ok output) => let '(r, queued) := sent item message output r in (r, Some (Ok queued))
        | (_, Err Panics) => (r, Some (Err Panics))
        | (message, Err (Fails err)) =>
            if is_policy_violation err then (fail_item item message err r, Some (Err (Fails err)))
            else if q_attempts item <? max_attempts (retry r)
            then (retry_later now_ms item message r, Some (Err (Fails err)))
            else (fail_item item message err r, Some (Err (Fails err)))
        end
  end.

End Operations.
End RnsRouter.

(** * What an attempt does *)

Section Attempts.
Context `{F : Features} `{IC : IdentityCrypto} `{M : Msgpack} `{HI : HashIter}.
Context {S : Type} `{MS : MessageStore S}.
Import RnsRouter.
Implicit Types r : RnsRouter.t S.

(** The call of [deliver] an attempt makes. *)
Definition attempt_delivery (draws : Z -> Z -> Z -> arr 32) r (item : QueuedMessage) :
    LXMessage.t * result (fault RnsError) DeliveryOutput :=
  RnsOutbound.deliver (delivery r) (draws (q_id item) (as_u32 (q_attempts item + 1))) (q_mode item)
    (set_state STATE_SENDING (q_message item)).

(** The item is given up: it may not be sent this way, or this was the last
    attempt. *)
Definition gives_up r (item : QueuedMessage) (err : RnsError) : bool :=
  is_policy_violation err || negb (as_u32 (q_attempts item + 1) <? max_attempts (retry r)).

(** The item as it is queued again. *)
Definition requeued r (now : Z) (item : QueuedMessage) (message : LXMessage.t) : QueuedMessage :=
  mkQueued (q_id item) message (q_mode item) (as_u32 (q_attempts item + 1))
    (sat_add64 now (retry_delay_ms (retry r) (as_u32 (q_attempts item + 1)))).

Definition failure (item : QueuedMessage) (message : LXMessage.t) (err : RnsError) : FailedDelivery :=
  mkFailed (q_id item) (RnsError_display err) (set_state STATE_FAILED message)
    (as_u32 (q_attempts item + 1)).

(** The queue, the store, the failures and the answer after an attempt; the
    rest of the router is unchanged but for the log of calls. *)
Inductive attempted (draws : Z -> Z -> Z -> arr 32) (now : Z) r :
    list QueuedMessage -> S -> list FailedDelivery -> option (result (fault RnsError) QueuedDelivery) -> Prop :=
| attempt_idle :
    (forall item rest, outbound r = item :: rest -> now < q_next_attempt_at_ms item) ->
    attempted draws now r (outbound r) (store r) (failed r) None
| attempt_sent item rest message output :
    outbound r = item :: rest -> q_next_attempt_at_ms item <= now ->
    attempt_delivery draws r item = (message, Ok output) ->
    attempted draws now r rest (remove_outbound (q_id item) (store r)) (failed r)
      (Some (Ok (mkDelivery (q_id item) output (set_state STATE_SENT message))))
| attempt_panics item rest message :
    outbound r = item :: rest -> q_next_attempt_at_ms item <= now ->
    attempt_delivery draws r item = (message, Err Panics) ->
    attempted draws now r rest (store r) (failed r) (Some (Err Panics))
| attempt_gives_up item rest message err :
    outbound r = item :: rest -> q_next_attempt_at_ms item <= now ->
    attempt_delivery draws r item = (message, Err (Fails err)) -> gives_up r item err = true ->
    attempted draws now r rest
      (save_failed (failure item message err) (remove_outbound (q_id item) (store r)))
      (failed r ++ [failure item message err]) (Some (Err (Fails err)))
| attempt_retries item rest message err :
    outbound r = item :: rest -> q_next_attempt_at_ms item <= now ->
    attempt_delivery draws r item = (message, Err (Fails err)) -> gives_up r item err = false ->
    attempted draws now r (rest ++ [requeued r now item message])
      (save_outbound (requeued r now item message) (store r)) (failed r) (Some (Err (Fails err))).

(** What an attempt leaves alone. *)
Definition same_setup r r' : Prop :=
  inbound r' = inbound r /\ next_id r' = next_id r /\ delivery r' = delivery r /\
  retry r' = retry r /\ pn_dir r' = pn_dir r /\ inflight r' = inflight r /\
  delivered_cache r' = delivered_cache r.

Lemma next_delivery_cases draws now r :
  let '(r', answer) := next_delivery_with_retry draws now r in
  attempted draws now r (outbound r') (store r') (failed r') answer /\ same_setup r r'.
Proof.
  unfold next_delivery_with_retry. destruct (outbound r) as [|item rest] eqn:Ho.
  { split; [|done]. rewrite Ho. rewrite <- Ho at 1. constructor. intros ? ? E. by rewrite Ho in E. }
  destruct (Z.ltb_spec now (q_next_attempt_at_ms item)) as [Hlt|Hge].
  { split; [|done]. rewrite Ho. rewrite <- Ho at 1. constructor. intros ? ? E. rewrite Ho in E. by simplify_eq. }
  cbv zeta. destruct (RnsOutbound.deliver _ _ _ _) as [message out] eqn:Hd.
  assert (Hd' : attempt_delivery draws r item = (message, out)) by (by destruct r, item).
  clear Hd. destruct out as [output|[err|]].
  - split; [|by destruct r].
    pose proof (attempt_sent draws now r item rest message output Ho Hge Hd') as Hc.
    destruct r, item. exact Hc.
  - assert (Hg : gives_up r item err =
      is_policy_violation err || negb (q_attempts (attempt_item item) <? max_attempts (retry (r {{ outbound := rest }}))))
      by (by destruct r, item).
    destruct (is_policy_violation err); [|destruct (_ <? _)]; simpl orb in Hg;
      (split; [|by destruct r]);
      [pose proof (attempt_gives_up draws now r item rest message err Ho Hge Hd' Hg) as Hc
      |pose proof (attempt_retries draws now r item rest message err Ho Hge Hd' Hg) as Hc
      |pose proof (attempt_gives_up draws now r item rest message err Ho Hge Hd' Hg) as Hc];
      destruct r, item; exact Hc.
  - split; [|by destruct r].
    pose proof (attempt_panics draws now r item rest message Ho Hge Hd') as Hc.
    destruct r, item. exact Hc.
Qed.

End Attempts.

(** * Durable stores

    What crash recovery needs of a store beyond [MessageStoreLaws]: saving
    replaces the copy with the same id, no id is loaded twice, and an item that
    can be stored can still be stored after a failed attempt or with an earlier
    time. *)

Class DurableStore `{F : Features} `{IC : IdentityCrypto} `{M : Msgpack} (S : Type)
    `{ML : MessageStoreLaws S} : Prop := {
  load_replaces : forall item s x, store_valid s -> storable item ->
    x ∈ load_outbound (save_outbound item s) -> x = item \/ (x ∈ load_outbound s /\ q_id x <> q_id item);
  load_ids : forall s, store_valid s -> NoDup (map q_id (load_outbound s));
  load_storable : forall s x, store_valid s -> x ∈ load_outbound s -> storable x;
  storable_earlier : forall id m mode att next next', storable (mkQueued id m mode att next) ->
    0 <= next' <= next -> storable (mkQueued id m mode att next');
  storable_attempt : forall o draws id m mode att next message err att' next',
    storable (mkQueued id m mode att next) ->
    RnsOutbound.deliver o draws mode (set_state STATE_SENDING m) = (message, Err (Fails err)) ->
    is_u32 att' = true -> is_u64 next' = true -> storable (mkQueued id message mode att' next')
}.

(** An item without the time of its next attempt. *)
Definition core (item : QueuedMessage) : Z * LXMessage.t * DeliveryMode * Z :=
  (q_id item, q_message item, q_mode item, q_attempts item).

Section Durable.
Context `{F : Features} `{IC : IdentityCrypto} `{M : Msgpack} `{HI : HashIter}.
Context {S : Type} `{MS : MessageStore S} `{ML : !MessageStoreLaws S} `{DS : !DurableStore S}.
Import RnsRouter.
Implicit Types r : RnsRouter.t S.

Lemma NoDup_ids (l : list QueuedMessage) : NoDup (map q_id l) -> NoDup l.
Proof. apply NoDup_fmap_1. Qed.

Lemma same_id_same (l : list QueuedMessage) x y :
  NoDup (map q_id l) -> x ∈ l -> y ∈ l -> q_id x = q_id y -> x = y.
Proof.
  induction l as [|z l IH]; [set_solver|]. simpl. intros [Hz Hnd]%NoDup_cons Hx Hy Heq.
  apply elem_of_cons in Hx as [->|Hx]; apply elem_of_cons in Hy as [->|Hy]; try done.
  - destruct Hz. rewrite Heq. by apply list_elem_of_fmap_2.
  - destruct Hz. rewrite <- Heq. by apply list_elem_of_fmap_2.
  - by apply IH.
Qed.

Lemma load_save_perm item s : store_valid s -> storable item ->
  load_outbound (save_outbound item s) ≡ₚ item :: filter (fun x => q_id x <> q_id item) (load_outbound s).
Proof.
  intros Hs Hi. apply NoDup_Permutation.
  - by apply NoDup_ids, load_ids, valid_save.
  - apply NoDup_cons. split; [by intros [? ?]%list_elem_of_filter|]. by apply NoDup_filter, NoDup_ids, load_ids.
  - intros x. rewrite elem_of_cons, list_elem_of_filter. split.
    + intros Hx. apply load_replaces in Hx as [->|[Hx Hne]]; [by left|by right|done..].
    + intros [->|[Hne Hx]]; [by apply load_save|by apply load_save_old].
Qed.

Lemma load_remove_perm id s : store_valid s -> 0 <= id ->
  load_outbound (remove_outbound id s) ≡ₚ filter (fun x => q_id x <> id) (load_outbound s).
Proof.
  intros Hs Hid. apply NoDup_Permutation.
  - by apply NoDup_ids, load_ids, valid_remove.
  - by apply NoDup_filter, NoDup_ids, load_ids.
  - intros x. rewrite list_elem_of_filter, load_remove by done. tauto.
Qed.

(** Dropping an id on both sides of the mirror. *)
Lemma filter_core (l m : list QueuedMessage) id :
  map core l ≡ₚ map core m ->
  map core (filter (fun x => q_id x <> id) l) ≡ₚ map core (filter (fun x => q_id x <> id) m).
Proof.
  assert (Hf : forall l, map core (filter (fun x => q_id x <> id) l) =
    filter (fun c => c.1.1.1 <> id) (map core l)).
  { clear. induction l as [|x l IH]; [done|]. rewrite filter_cons. cbn [map].
    rewrite filter_cons. cbn [core fst]. repeat case_decide; try done. cbn [map]. by rewrite IH. }
  intros Hp. rewrite !Hf. by rewrite Hp.
Qed.

Lemma filter_all_id {A} (P : A -> Prop) `{forall x, Decision (P x)} l : Forall P l -> filter P l = l.
Proof. induction 1 as [|x l Hx _ IH]; [done|]. by rewrite filter_cons_True, IH. Qed.

Lemma filter_head (item : QueuedMessage) rest :
  NoDup (map q_id (item :: rest)) ->
  filter (fun x => q_id x <> q_id item) (item :: rest) = rest.
Proof.
  simpl. intros [Hi _]%NoDup_cons. rewrite filter_cons_False by (intros Hn; by apply Hn).
  apply filter_all_id, Forall_forall. intros x Hx Heq. destruct Hi. rewrite <- Heq.
  by apply list_elem_of_fmap_2.
Qed.

(** * The invariant

    of the queue, the next id, the retry policy and the store. *)

Record queue_inv (queue : list QueuedMessage) (next : Z) (policy : RetryPolicy) (s : S) : Prop := {
  inv_ids : NoDup (map q_id queue);
  inv_fresh : Forall (fun item => 0 <= q_id item < next) queue;
  inv_next : 1 <= next <= u64_max;
  inv_retry : 0 <= base_delay_ms policy /\ 0 <= max_delay_ms policy;
  inv_valid : store_valid s;
  inv_storable : Forall storable queue;
  inv_mirror : map core (load_outbound s) ≡ₚ map core queue
}.

Definition router_inv r : Prop := queue_inv (outbound r) (next_id r) (retry r) (store r).

Lemma retry_delay_nonneg policy a :
  0 <= base_delay_ms policy -> 0 <= max_delay_ms policy -> 0 <= retry_delay_ms policy a.
Proof.
  intros Hb Hm. unfold retry_delay_ms. cbv zeta. rewrite Z.shiftl_1_l.
  pose proof (Z.pow_nonneg 2 (Z.min (sat_sub a 1) 20) ltac:(lia)). unfold_ints. nia.
Qed.

Lemma inv_empty o policy (s : S) : store_valid s -> load_outbound s = [] ->
  0 <= base_delay_ms policy -> 0 <= max_delay_ms policy -> router_inv (empty o policy s).
Proof.
  intros Hs He Hb Hm. constructor; simpl;
    [apply NoDup_nil_2|constructor|unfold_ints; lia|done|done|constructor|by rewrite He].
Qed.

(** The stored ids are the queued ones. *)
Lemma mirror_ids queue s x : map core (load_outbound s) ≡ₚ map core queue -> x ∈ load_outbound s ->
  exists y, y ∈ queue /\ core x = core y.
Proof.
  intros Hmi Hx. apply (list_elem_of_fmap_2 core) in Hx.
  change (core x ∈ map core (load_outbound s)) in Hx. rewrite Hmi in Hx.
  apply list_elem_of_fmap in Hx as (y & Hc & Hy). eauto.
Qed.

(** A new item at the back of the queue. *)
Lemma inv_push queue next policy s item :
  queue_inv queue next policy s -> next < u64_max -> storable item -> q_id item = next ->
  queue_inv (queue ++ [item]) (next + 1) policy (save_outbound item s).
Proof.
  intros [Hids Hfr Hnx Hre Hv Hst Hmi] Hlt Hnew Hid.
  assert (Hnot : forall x, x ∈ queue -> q_id x <> q_id item).
  { intros x Hx. rewrite Forall_forall in Hfr. specialize (Hfr x Hx). lia. }
  constructor; try done; try lia.
  - rewrite map_app. apply NoDup_app. split; [done|]. split; [|apply NoDup_singleton].
    intros id Hin ->%list_elem_of_singleton. apply list_elem_of_fmap in Hin as (x & Hx & Hin).
    by apply (Hnot x).
  - apply Forall_app. split; [eapply List.Forall_impl; [|exact Hfr]; simpl; lia|].
    repeat constructor; lia.
  - by apply valid_save.
  - apply Forall_app. split; [done|by repeat constructor].
  - rewrite load_save_perm by done. cbn [map]. rewrite filter_all_id.
    + rewrite map_app. cbn [map]. rewrite Hmi. by rewrite Permutation_app_comm.
    + apply Forall_forall. intros x Hx Heq. destruct (mirror_ids queue s x Hmi Hx) as (y & Hy & Hc).
      apply (Hnot y Hy). unfold core in Hc. congruence.
Qed.

(** The head of the queue leaves it. *)
Lemma inv_pop item rest next policy s :
  queue_inv (item :: rest) next policy s -> queue_inv rest next policy (remove_outbound (q_id item) s).
Proof.
  intros [Hids Hfr Hnx Hre Hv Hst Hmi]. pose proof Hids as Hids'.
  apply NoDup_cons in Hids as [Hi Hids]. apply Forall_cons in Hfr as [Hid Hfr].
  apply Forall_cons in Hst as [Hsi Hst]. constructor; try done.
  - apply valid_remove; [done|lia].
  - rewrite load_remove_perm by (done || lia). rewrite (filter_core _ _ (q_id item) Hmi).
    by rewrite filter_head.
Qed.

(** The head of the queue goes to its back, changed. *)
Lemma inv_requeue item item' rest next policy s :
  queue_inv (item :: rest) next policy s -> storable item' -> q_id item' = q_id item ->
  queue_inv (rest ++ [item']) next policy (save_outbound item' s).
Proof.
  intros [Hids Hfr Hnx Hre Hv Hst Hmi] Hst' Hid'. pose proof Hids as Hids'.
  apply NoDup_cons in Hids as [Hi Hids]. apply Forall_cons in Hfr as [Hid Hfr].
  apply Forall_cons in Hst as [Hsi Hst]. constructor; try done.
  - rewrite map_app. apply NoDup_app. split; [done|]. split; [|apply NoDup_singleton].
    intros id Hin ->%list_elem_of_singleton. by rewrite Hid' in Hin.
  - apply Forall_app. split; [done|]. repeat constructor; lia.
  - by apply valid_save.
  - apply Forall_app. split; [done|by repeat constructor].
  - rewrite load_save_perm by done. cbn [map]. rewrite Hid', (filter_core _ _ (q_id item) Hmi).
    rewrite filter_head by done. rewrite map_app. by rewrite Permutation_app_comm.
Qed.

(** Writes to the store that do not concern the queue. *)
Lemma inv_save_failed queue next policy s f :
  queue_inv queue next policy s -> queue_inv queue next policy (save_failed f s).
Proof.
  intros [Hids Hfr Hnx Hre Hv Hst Hmi]. constructor; try done; [by apply valid_failed|].
  by rewrite load_failed.
Qed.

Lemma inv_save_inbound queue next policy s m :
  queue_inv queue next policy s -> queue_inv queue next policy (save_inbound m s).
Proof.
  intros [Hids Hfr Hnx Hre Hv Hst Hmi]. constructor; try done; [by apply valid_inbound|].
  by rewrite load_inbound.
Qed.

Lemma inv_enqueue m mode r : router_inv r -> next_id r < u64_max ->
  storable (mkQueued (next_id r) (set_state STATE_OUTBOUND m) mode 0 0) ->
  router_inv (enqueue m mode r).1.
Proof.
  intros Hr Hlt Hnew. pose proof (inv_next _ _ _ _ Hr) as Hnx.
  pose proof (inv_push _ _ _ _ _ Hr Hlt Hnew eq_refl) as Hp.
  assert (Hmax : as_u64 (next_id r + 1) = next_id r + 1) by (unfold_ints; rewrite Z.mod_small; lia).
  rewrite <- Hmax in Hp. by destruct r.
Qed.

Lemma inv_attempt draws now r : router_inv r -> 0 <= now ->
  (next_delivery_with_retry draws now r).2 <> Some (Err Panics) ->
  router_inv (next_delivery_with_retry draws now r).1.
Proof.
  intros Hr Hnow. pose proof (next_delivery_cases draws now r) as Hc.
  destruct (next_delivery_with_retry draws now r) as [r' answer]. cbn [fst snd]. intros Hp.
  unfold router_inv in *. destruct Hc as [Ha (_ & -> & _ & -> & _)].
  inversion Ha as [Hi|item rest msg out Ho Hd Hdel|item rest msg Ho Hd Hdel
    |item rest msg err Ho Hd Hdel Hg|item rest msg err Ho Hd Hdel Hg]; subst; try done.
  - rewrite Ho in Hr. by apply inv_pop.
  - rewrite Ho in Hr. by apply inv_save_failed, inv_pop.
  - rewrite Ho in Hr. apply (inv_requeue item); [done| |done].
    destruct (inv_retry _ _ _ _ Hr) as [Hb Hm].
    pose proof (inv_storable _ _ _ _ Hr) as Hst. apply Forall_cons in Hst as [Hsi _].
    destruct item as [id m mode att next]. eapply storable_attempt; [exact Hsi|exact Hdel| |].
    + cbn [q_attempts]. unfold is_u32, as_u32, u32_max. pose proof (Z.mod_pos_bound (att + 1) (2 ^ 32)). lia.
    + pose proof (retry_delay_nonneg (retry r) (as_u32 (att + 1)) Hb Hm) as Hdl.
      cbn [q_attempts]. unfold is_u64, sat_add64, u64_max. lia.
Qed.

(** * Recovery *)

Lemma core_restore_item base item : core (restore_item base item) = core item.
Proof.
  unfold restore_item. destruct base as [b|]; [|done]. destruct (_ && _); [|done]. by destruct item.
Qed.

Lemma q_id_restore_item base item : q_id (restore_item base item) = q_id item.
Proof. pose proof (core_restore_item base item) as Hc. unfold core in Hc. congruence. Qed.

Lemma restore_base_pos items b : restore_base items = Some b -> 0 < b.
Proof.
  unfold restore_base. destruct (existsb _ items); [done|].
  pose proof (list_elem_of_filter (fun t => 0 < t) (map q_next_attempt_at_ms items)) as Hf.
  destruct (filter _ _) as [|t ts]; [done|]. intros [= <-].
  assert (Ht : 0 < t) by (apply Hf; left).
  assert (Hts : Forall (fun t => 0 < t) ts) by (apply Forall_forall; intros x Hx; apply Hf; by right).
  clear Hf. revert t Ht. induction Hts as [|x ts Hx _ IH]; intros t Ht; cbn [foldl]; [done|].
  apply IH. lia.
Qed.

Lemma storable_restore_item items item :
  storable item -> storable (restore_item (restore_base items) item).
Proof.
  pose proof (restore_base_pos items) as Hpos. set (base := restore_base items) in *.
  intros Hi. unfold restore_item. destruct base as [b|]; [|done]. destruct (_ && _) eqn:Hb; [|done].
  specialize (Hpos b eq_refl). destruct item as [id m mode att next]. simpl in Hb. eapply storable_earlier; [exact Hi|].
  cbn. unfold constant, sat_sub. lia.
Qed.

Definition restored_next (next : Z) (items : list QueuedMessage) : Z :=
  foldl (fun n item => Z.max n (sat_add64 (q_id item) 1)) next items.

Lemma restore_foldl base items : forall r,
  let r' := foldl (fun r item =>
              let item := restore_item base item in
              r {{ next_id := Z.max (next_id r) (sat_add64 (q_id item) 1);
                   outbound := outbound r ++ [item] }}) r items in
  outbound r' = outbound r ++ map (restore_item base) items /\
  next_id r' = restored_next (next_id r) items /\
  delivery r' = delivery r /\ retry r' = retry r /\ store r' = store r.
Proof.
  induction items as [|item items IH]; intros r; cbn [foldl map]; [by rewrite app_nil_r|].
  destruct (IH (r {{ next_id := Z.max (next_id r) (sat_add64 (q_id (restore_item base item)) 1);
                     outbound := outbound r ++ [restore_item base item] }}))
    as (Ho & Hn & Hd & Hr & Hs).
  cbv zeta in *. rewrite Ho, Hn, Hd, Hr, Hs.
  destruct r. unfold restored_next. cbn [foldl]. cbn. unfold constant.
  rewrite <- app_assoc, q_id_restore_item. done.
Qed.

Lemma restored_next_bounds items : forall next,
  Forall (fun item => 0 <= q_id item < u64_max) items -> next <= u64_max ->
  next <= restored_next next items <= u64_max /\
  Forall (fun item => q_id item < restored_next next items) items.
Proof.
  unfold restored_next. induction items as [|item items IH]; intros next Hi Hn; cbn [foldl]; [split; [lia|done]|].
  apply Forall_cons in Hi as [Hid Hi].
  destruct (IH (Z.max next (sat_add64 (q_id item) 1)) Hi) as [Hb Hf]; [unfold sat_add64; lia|].
  unfold sat_add64 in *. split; [lia|]. constructor; [lia|done].
Qed.

Lemma with_store_queue o (s : S) :
  let items := sort_by q_leb (load_outbound s) in
  let r := with_store o s in
  outbound r = map (restore_item (restore_base items)) items /\
  next_id r = restored_next 1 items /\ delivery r = o /\ retry r = RetryPolicy_default /\ store r = s.
Proof.
  cbv zeta. unfold with_store, restore_outbound. cbv zeta.
  destruct (restore_foldl (restore_base (sort_by q_leb (load_outbound s)))
    (sort_by q_leb (load_outbound s)) (empty o RetryPolicy_default s)) as (Ho & Hn & Hd & Hr & Hs).
  exact (conj Ho (conj Hn (conj Hd (conj Hr Hs)))).
Qed.

Lemma inv_restart o queue next policy s : queue_inv queue next policy s ->
  router_inv (with_store o s).
Proof.
  intros [Hids Hfr Hnx Hre Hv Hst Hmi]. unfold router_inv.
  destruct (with_store_queue o s) as (Ho & Hn & _ & Hr & Hs).
  rewrite Ho, Hn, Hr, Hs. set (items := sort_by q_leb (load_outbound s)) in *.
  set (base := restore_base _) in *.
  assert (Hp : items ≡ₚ load_outbound s) by apply sort_by_perm.
  assert (Hrange : Forall (fun item => 0 <= q_id item < u64_max) items).
  { rewrite Hp. apply Forall_forall. intros x Hx. destruct (mirror_ids queue s x Hmi Hx) as (y & Hy & Hc).
    rewrite Forall_forall in Hfr. specialize (Hfr y Hy). unfold core in Hc. simplify_eq. lia. }
  destruct (restored_next_bounds items 1 Hrange) as [Hb Hlt]; [unfold u64_max; lia|].
  assert (Hmap : map q_id (map (restore_item base) items) = map q_id items).
  { rewrite map_map. apply map_ext. apply q_id_restore_item. }
  constructor; try done.
  - rewrite Hmap. rewrite Hp. by apply load_ids.
  - apply Forall_map. apply Forall_forall. intros x Hx. rewrite Forall_forall in Hrange, Hlt.
    cbn. rewrite q_id_restore_item. specialize (Hrange x Hx). specialize (Hlt x Hx). lia.
  - apply Forall_map. rewrite Hp. apply Forall_forall. intros x Hx. cbn.
    by eapply storable_restore_item, load_storable.
  - rewrite map_map, (map_ext (fun x => core (restore_item base x)) core) by apply core_restore_item.
    by rewrite Hp.
Qed.

(** * The router's steps *)

Inductive router_step : RnsRouter.t S -> RnsRouter.t S -> Prop :=
| step_enqueue r m mode : next_id r < u64_max ->
    storable (mkQueued (next_id r) (set_state STATE_OUTBOUND m) mode 0 0) ->
    router_step r (enqueue m mode r).1
| step_attempt r draws now : 0 <= now ->
    (next_delivery_with_retry draws now r).2 <> Some (Err Panics) ->
    router_step r (next_delivery_with_retry draws now r).1
| step_inflight r d sent timeout : router_step r (mark_inflight d sent timeout r)
| step_delivered r id : router_step r (mark_delivered id r).1
| step_failed r id error attempts : router_step r (mark_failed id error attempts r).1
| step_poll r now : router_step r (poll_timeouts now r).1
| step_receive r packet mode source : router_step r (receive_packet_with_source packet mode source r).1
| step_resource r payload source : router_step r (receive_resource_payload payload source r)
| step_pop_inbound r : router_step r (pop_inbound r).1
| step_pop_failed r : router_step r (pop_failed r).1
| step_policy r policy : router_step r (set_crypto_policy policy r)
| step_restart r o : router_step r (with_store o (store r)).

Lemma inv_mark_failed id error attempts r : router_inv r -> router_inv (mark_failed id error attempts r).1.
Proof.
  intros Hr. unfold mark_failed. destruct (inflight r !! id) as [i|]; [|done].
  destruct r. by apply inv_save_failed.
Qed.

Lemma inv_poll now r : router_inv r -> router_inv (poll_timeouts now r).1.
Proof.
  intros Hr. unfold poll_timeouts. generalize (((filter (fun kv => expired now kv.2 = true)
    (hash_iter (inflight r))).*1)) as ids. intros ids.
  assert (Hf : forall acc, router_inv acc.1 -> router_inv (foldl fail_expired acc ids).1).
  { induction ids as [|id ids IH]; intros acc Hacc; cbn [foldl]; [done|]. apply IH.
    unfold fail_expired. pose proof (inv_mark_failed id "delivery timeout" 0 acc.1 Hacc) as Hm.
    by destruct (mark_failed _ _ _ _) as [r' [f|]]. }
  by apply Hf.
Qed.

Lemma inv_receive packet mode source r :
  router_inv r -> router_inv (receive_packet_with_source packet mode source r).1.
Proof.
  intros Hr. unfold receive_packet_with_source.
  destruct (decode_packet_with_source packet mode source) as [[msg| | | | |]|e]; try done;
    try (by destruct r).
  destruct (LXMessage.m_message_id msg) as [id|]; [destruct (DeliveredCache.seen_before _ _); [done|]|];
    destruct r; by apply inv_save_inbound.
Qed.

Lemma inv_step r r' : router_step r r' -> router_inv r -> router_inv r'.
Proof.
  intros Hstep Hr. destruct Hstep.
  - by apply inv_enqueue.
  - by apply inv_attempt.
  - by destruct r.
  - unfold mark_delivered. destruct (inflight r !! id); [by destruct r|done].
  - by apply inv_mark_failed.
  - by apply inv_poll.
  - by apply inv_receive.
  - by destruct r.
  - unfold pop_inbound. destruct (inbound r); [done|by destruct r].
  - unfold pop_failed. destruct (failed r); [done|by destruct r].
  - by destruct r.
  - by eapply inv_restart.
Qed.

Lemma inv_steps r r' : rtc router_step r r' -> router_inv r -> router_inv r'.
Proof. induction 1; eauto using inv_step. Qed.

End Durable.

(** * The disk is durable *)

Section StoredMessages.
Context `{F : Features} `{IC : IdentityCrypto} `{M : Msgpack}.
Implicit Types m : LXMessage.t.

Lemma stored_stamp_fields s v ok ck m :
  stored_ok m = true -> opt_is fits_u32 s = true -> opt_is is_u32 v = true ->
  stored_ok (LXMessage.set_stamp_fields s v ok ck m) = true.
Proof.
  unfold stored_ok, stored_ranges. destruct m. cbn. intros Hm Hs Hv. rewrite Hs, Hv.
  repeat apply andb_prop in Hm as [Hm ?]. by rewrite !andb_true_iff.
Qed.

Lemma stamp_value_u32 workblock stamp : is_u32 (stamp_value workblock stamp) = true.
Proof.
  rewrite stamp_value_spec. pose proof (stamp_number_range workblock stamp) as Hr.
  unfold is_u32, u32_max. destruct (Z.eqb_spec (stamp_number workblock stamp) 0); [lia|].
  pose proof (Z.log2_nonneg (stamp_number workblock stamp)).
  assert (Z.log2 (stamp_number workblock stamp) < 256) by (apply Z.log2_lt_pow2; lia). lia.
Qed.

Lemma stored_ensure_stamp draws m :
  stored_ok m = true -> stored_ok (LXMessage.ensure_stamp draws m).1 = true.
Proof.
  intros Hm. unfold LXMessage.ensure_stamp. destruct (LXMessage.m_stamp m); [done|].
  destruct (LXMessage.m_message_id m) as [id|]; [|done].
  destruct (LXMessage.stamp_with_ticket id m) as [m'|] eqn:Ht.
  - unfold LXMessage.stamp_with_ticket in Ht. destruct (LXMessage.m_outbound_ticket m) as [tk|]; [|done].
    simpl in Ht. destruct (Nat.eqb _ _); [|done]. injection Ht as <-.
    apply stored_stamp_fields; [done| |done]. by apply (length_fits_u32 _ 16 (arr_length _)).
  - unfold LXMessage.stamp_with_work. destruct (LXMessage.m_stamp_cost m) as [c|]; [|done].
    destruct (generate_stamp _ _ _ _) as [[st|] v] eqn:Hg; [|done].
    apply generate_stamp_Some in Hg as (wb & _ & _ & ->).
    apply stored_stamp_fields; [done| |apply stamp_value_u32].
    by apply (length_fits_u32 _ 32 (arr_length _)).
Qed.

Lemma stored_encode draws k m :
  stored_ok m = true -> stored_ok (LXMessage.encode_signed draws k m).1 = true.
Proof.
  intros Hm. unfold LXMessage.encode_signed, mbind, stres_bind, st_get, st_modify.
  destruct (LXMessage.pack_payload false m) as [payload|e]; [|done]. cbn [result_bind].
  set (m1 := LXMessage.set_identity _ (Some _) m).
  assert (H1 : stored_ok m1 = true) by (by destruct m).
  destruct (negb (LXMessage.m_defer_stamp m1)).
  - pose proof (stored_ensure_stamp draws m1 H1) as H2.
    destruct (LXMessage.ensure_stamp draws m1) as [m2 [[]|e]]; [|done]. by destruct m2.
  - by destruct m1.
Qed.

(** A delivery attempt leaves a message that can be stored. *)
Lemma stored_deliver o draws mode m :
  stored_ok m = true -> stored_ok (RnsOutbound.deliver o draws mode m).1 = true.
Proof.
  intros Hm. unfold RnsOutbound.deliver, mbind, stres_bind, st_lift, st_get, st_modify,
    RnsOutbound.set_method, RnsOutbound.encode_for, RnsOutbound.deliver_as_packet_or_resource.
  destruct (RnsOutbound.check_outbound _ _ _) as [[]|e]; [|done]. cbn [map_err].
  pose proof (stored_encode draws (PrivateIdentity.sign_key (in_identity (RnsOutbound.source o)))
    (RnsOutbound.prepare_message o m) ltac:(by destruct m)) as H1.
  destruct (LXMessage.encode_signed _ _ _) as [m1 [packed|e]]; [|done]. cbn [map_err fst] in *.
  assert (Hmeth : forall c, is_u8 c = true -> stored_ok (m1 {{ LXMessage.m_method := Some c }}) = true).
  { intros c Hc. destruct m1. unfold stored_ok, stored_ranges in *. cbn in *. unfold constant.
    repeat apply andb_prop in H1 as [H1 ?]. by rewrite !andb_true_iff. }
  assert (Hrepr : forall c m2, is_u8 c = true -> stored_ok m2 = true ->
    stored_ok (m2 {{ LXMessage.m_representation := c }}) = true).
  { intros c m2 Hc H2. destruct m2. unfold stored_ok, stored_ranges in *. cbn in *. unfold constant.
    repeat apply andb_prop in H2 as [H2 ?]. by rewrite !andb_true_iff. }
  destruct mode; unfold st_modify;
    try (destruct (hook_encrypt _ _ _) as [enc|e]; [|by apply Hmeth]);
    try (destruct (map_err _ _) as [prop|e]; [|by apply Hmeth]);
    try (destruct (Nat.leb _ _)); cbn [fst]; try apply Hrepr; by try apply Hmeth.
Qed.

End StoredMessages.

Section FileDurable.
Context `{F : Features} `{IC : IdentityCrypto} `{M : Msgpack} `{HI : HashIter} `{ML : !MsgpackLaws}.

(** One file per id. *)
Lemma file_ids (l : list (string * list byte)) :
  NoDup l.*1 ->
  Forall (fun kv => exists item, kv.1 = FileMessageStore.outbound_path (q_id item) /\
                                 decode_outbound kv.2 = Ok item) l ->
  NoDup (map q_id (omap (fun data => res_ok (decode_outbound data)) l.*2)).
Proof.
  induction l as [|[path data] l IH]; intros Hnd Hall; [constructor|].
  apply NoDup_cons in Hnd as [Hp Hnd]. apply Forall_cons in Hall as [(item & Hpath & Hd) Hall].
  cbn [fst snd fmap list_fmap omap list_omap] in *. rewrite Hd. cbn [res_ok map].
  apply NoDup_cons. split; [|by apply IH].
  intros Hin. apply list_elem_of_fmap in Hin as (x & Hx & Hin).
  apply list_elem_of_omap in Hin as (d & Hd' & Hdec). apply list_elem_of_fmap in Hd' as ([p' d'] & -> & Hin).
  rewrite Forall_forall in Hall. destruct (Hall _ Hin) as (y & Hy & Hyd). cbn [fst snd] in *.
  rewrite Hyd in Hdec. injection Hdec as ->. destruct Hp. rewrite Hpath, Hx, <- Hy.
  by apply (list_elem_of_fmap_2 fst _ (p', d')).
Qed.

#[export] Instance file_store_durable : DurableStore FileMessageStore.t.
Proof.
  constructor.
  - intros item s x Hs Hi Hx. by apply file_load_save in Hx.
  - intros s Hs. apply file_ids; [apply (NoDup_hash_keys (FileMessageStore.outbound_dir s))|].
    apply Forall_forall. intros [path data] Hin. apply elem_of_hash_iter in Hin.
    destruct (Hs path data Hin) as (item & _ & Hp & Hd). by exists item.
  - intros s x Hs Hx. apply elem_of_load_outbound in Hx as (path & data & Hp & Hd).
    destruct (Hs path data Hp) as (item & Hok & _ & Hd'). cbn. congruence.
  - intros id m mode att next next' Hi Hn. cbn in *. unfold item_ok, is_u64 in *. cbn in *.
    repeat apply andb_prop in Hi as [Hi ?]. rewrite !andb_true_iff. repeat split; try done; lia.
  - intros o draws id m mode att next message err att' next' Hi Hd Ha Hn. unfold storable, file_store_laws in *.
    unfold item_ok in *. cbn [q_id q_attempts q_next_attempt_at_ms q_message] in *.
    rewrite !andb_true_iff in Hi |- *. destruct Hi as [[[Hid _] _] Hm]. split_and!; try done.
    pose proof (stored_deliver o draws mode (set_state STATE_SENDING m)) as Hs.
    rewrite Hd in Hs. apply Hs. destruct m. unfold stored_ok, stored_ranges in *. cbn in *. unfold constant.
    rewrite !andb_true_iff in Hm |- *. tauto.
Qed.

End FileDurable.

Lemma sorted_ids (items : list QueuedMessage) :
  StronglySorted (fun a b => q_leb a b = true) items -> NoDup (map q_id items) ->
  StronglySorted Z.lt (map q_id items).
Proof.
  induction 1 as [|x items Hs IH Hx]; intros Hnd; [constructor|]. apply NoDup_cons in Hnd as [Hn Hnd].
  constructor; [by apply IH|]. apply Forall_map, Forall_forall. intros y Hy.
  rewrite Forall_forall in Hx. specialize (Hx y Hy). unfold q_leb in Hx. apply Z.leb_le in Hx. cbn.
  enough (q_id x <> q_id y) by lia. intros Heq. destruct Hn. rewrite Heq. by apply list_elem_of_fmap_2.
Qed.

Lemma with_store_recovers `{Features} `{IdentityCrypto} `{Msgpack} {S : Type} `{MessageStore S}
  `{!MessageStoreLaws S} `{!DurableStore S} (o' : RnsOutbound.t) (r : RnsRouter.t S) :
  router_inv r ->
  let r' := RnsRouter.with_store o' (RnsRouter.store r) in
  map core (RnsRouter.outbound r') ≡ₚ map core (RnsRouter.outbound r) /\
  StronglySorted Z.lt (map q_id (RnsRouter.outbound r')) /\
  Forall (fun item => 0 <= q_id item < RnsRouter.next_id r') (RnsRouter.outbound r').
Proof.
  intros Hr r'. pose proof (inv_restart o' _ _ _ _ Hr) as Hr'. fold r' in Hr'.
  destruct (with_store_queue o' (RnsRouter.store r)) as (Ho & _ & _ & _ & Hs). fold r' in Ho, Hs.
  split; [|split].
  - etrans; [symmetry; apply (inv_mirror _ _ _ _ Hr')|]. rewrite Hs. apply (inv_mirror _ _ _ _ Hr).
  - pose proof (inv_ids _ _ _ _ Hr') as Hids. rewrite Ho in Hids |- *.
    rewrite map_map in Hids |- *.
    set (items := sort_by q_leb _) in *.
    rewrite (map_ext _ q_id) in Hids |- * by apply q_id_restore_item.
    apply sorted_ids; [|done]. apply sort_by_sorted; unfold q_leb; intros; lia.
  - apply (inv_fresh _ _ _ _ Hr').
Qed.

#[local] Existing Instance toy_features.
#[local] Existing Instance toy_crypto.
#[local] Existing Instance toy_identity.
#[local] Existing Instance bit_codec.
#[local] Existing Instance key_order.
#[local] Existing Instance bit_codec_laws.


Definition sample_router : RnsRouter.t FileMessageStore.t :=
  (RnsRouter.enqueue sample_message Direct
     (RnsRouter.empty sample_outbound RetryPolicy_default FileMessageStore.new)).1.

