(* ===== verification/Runtime.v ===== *)
(** [LxmfRuntime] of [lxmf-rs/src/rns/router.rs]: the periodic tick that drives
    an [RnsRouter] and an [RnsRequestManager].

    The delivery loop of [tick] is [deliver_loop], with an explicit number of
    turns; [delivery_turns] is enough for it to end by itself, as proved below. *)

From Stdlib Require Import ZArith Lia Permutation.
From Stdlib Require Import Strings.Byte.
From stdpp Require Import base gmap strings numbers list.
From coqutil Require Import Datatypes.RecordSetters.
From S2P Require Import Prelude Float Msgpack Crypto Buffer Packet Identity Destination Stamp Message Rns.
From S2P Require Import Delivery Requests PnDirectory StorageCodec MessageStore Peer Outbound.
Import DoubleBraceUpdate.

Local Open Scope Z_scope.

Definition JOB_OUTBOUND_INTERVAL : Z := 1.
Definition JOB_STAMPS_INTERVAL : Z := 1.
Definition JOB_LINKS_INTERVAL : Z := 1.
Definition JOB_TRANSIENT_INTERVAL : Z := 60.
Definition JOB_STORE_INTERVAL : Z := 120.
Definition JOB_PEERSYNC_INTERVAL : Z := 6.
Definition JOB_PEERINGEST_INTERVAL : Z := 6.
Definition JOB_ROTATE_INTERVAL : Z := 56 * JOB_PEERINGEST_INTERVAL.

Record RuntimeConfig : Type := mkConfig {
  outbound_interval_ms : Z;
  inflight_interval_ms : Z;
  request_interval_ms : Z;
  pn_interval_ms : Z;
  store_interval_ms : Z;
  rc_name : option string;
  rc_autopeer : option bool
}.

Definition RuntimeConfig_default : RuntimeConfig :=
  mkConfig 1000 1000 1000 5000 (8 * 60 * 1000) None None.

Record RuntimeTick : Type := mkTick {
  deliveries : list QueuedDelivery;
  delivery_errors : list string;
  inflight_failures : list FailedDelivery;
  request_timeouts : list (arr 16);
  peer_sync_requests : list (arr 16 * PeerSyncRequest);
  pn_ran : bool;
  outbound_ran : bool;
  stamps_ran : bool;
  links_ran : bool;
  transient_ran : bool;
  store_ran : bool;
  peeringest_ran : bool;
  rotate_ran : bool;
  peersync_ran : bool
}.

Module LxmfRuntime.

Record t (S : Type) `{IC : IdentityCrypto} : Type := mk {
  router : RnsRouter.t S;
  requests : RnsRequestManager.t;
  config : RuntimeConfig;
  last_outbound_ms : Z;
  last_inflight_ms : Z;
  last_request_ms : Z;
  last_pn_ms : Z;
  last_store_ms : Z;
  processing_count : Z
}.
Arguments router {S _ _} _.
Arguments requests {S _ _} _.
Arguments config {S _ _} _.
Arguments last_outbound_ms {S _ _} _.
Arguments last_inflight_ms {S _ _} _.
Arguments last_request_ms {S _ _} _.
Arguments last_pn_ms {S _ _} _.
Arguments last_store_ms {S _ _} _.
Arguments processing_count {S _ _} _.

Section Operations.
Context `{F : Features} `{IC : IdentityCrypto} `{M : Msgpack} `{HI : HashIter}.
Context {S : Type} `{MS : MessageStore S}.

Definition with_config (router : RnsRouter.t S) (config : RuntimeConfig) : t S :=
  mk S _ _ router RnsRequestManager.new config 0 0 0 0 0 0.

Definition new (router : RnsRouter.t S) : t S := with_config router RuntimeConfig_default.

(** The attempts an item can still use up. *)
Definition item_turns (policy : RetryPolicy) (item : QueuedMessage) : nat :=
  Datatypes.S (Z.to_nat (max_attempts policy - as_u32 (q_attempts item + 1))).

Definition delivery_turns (r : RnsRouter.t S) : nat :=
  Datatypes.S (sum_list (map (item_turns (RnsRouter.retry r)) (RnsRouter.outbound r))).

(** [loop { match self.router.next_delivery_with_retry(now_ms) { ... } }];
    [None] when the turns run out, [Err Panics] when a delivery panics. *)
Fixpoint deliver_loop (turns : nat) (draws : Z -> Z -> Z -> arr 32) (now_ms : Z) (r : RnsRouter.t S)
    (deliveries : list QueuedDelivery) (errors : list string) :
    option (result (fault RnsError) (RnsRouter.t S * list QueuedDelivery * list string)) :=
  match turns with
  | O => None
  | Datatypes.S turns =>
      match RnsRouter.next_delivery_with_retry draws now_ms r with
      | (r, Some (Ok delivery)) => deliver_loop turns draws now_ms r (deliveries ++ [delivery]) errors
      | (r, Some (Err (Fails err))) =>
          deliver_loop turns draws now_ms r deliveries (errors ++ [RnsError_display err])
      | (_, Some (Err Panics)) => Some (Err Panics)
      | (r, None) => Some (Ok (r, deliveries, errors))
      end
  end.

Definition deliver_ready (draws : Z -> Z -> Z -> arr 32) (now_ms : Z) (r : RnsRouter.t S) :
    option (result (fault RnsError) (RnsRouter.t S * list QueuedDelivery * list string)) :=
  deliver_loop (delivery_turns r) draws now_ms r [] [].

(** [now_ms.saturating_sub(last) >= interval] *)
Definition elapsed (now_ms last interval : Z) : bool := interval <=? sat_sub now_ms last.

Definition every (count interval : Z) : bool := count mod interval =? 0.

(** The job that sends: the router, its deliveries and errors, and whether the
    loop ran. *)
Definition outbound_job (draws : Z -> Z -> Z -> arr 32) (now_ms count : Z) (rt : t S) :
    option (result (fault RnsError) (RnsRouter.t S * list QueuedDelivery * list string * Z)) :=
  if every count JOB_OUTBOUND_INTERVAL
     && elapsed now_ms (last_outbound_ms rt) (outbound_interval_ms (config rt))
  then match deliver_ready draws now_ms (router rt) with
       | Some (Ok done_) => Some (Ok (done_, now_ms))
       | Some (Err e) => Some (Err e)
       | None => None
       end
  else Some (Ok (router rt, [], [], last_outbound_ms rt)).

Definition tick (draws : Z -> Z -> Z -> arr 32) (now_ms : Z) (rt : t S) :
    option (result (fault RnsError) (t S * RuntimeTick)) :=
  let count := as_u64 (processing_count rt + 1) in
  match outbound_job draws now_ms count rt with
  | None => None
  | Some (Err e) => Some (Err e)
  | Some (Ok (router1, sent, errors, last_outbound)) =>
      let store_ran := every count JOB_STORE_INTERVAL in
      let last_store := if store_ran && elapsed now_ms (last_store_ms rt) (store_interval_ms (config rt))
                        then now_ms else last_store_ms rt in
      let peersync_ran := every count JOB_PEERSYNC_INTERVAL in
      let pn_ran := peersync_ran && elapsed now_ms (last_pn_ms rt) (pn_interval_ms (config rt)) in
      let last_pn := if pn_ran then now_ms else last_pn_ms rt in
      let '(router2, failures, last_inflight) :=
        if elapsed now_ms (last_inflight_ms rt) (inflight_interval_ms (config rt))
        then (RnsRouter.poll_timeouts now_ms router1, now_ms)
        else (router1, [], last_inflight_ms rt) in
      let '(requests1, timeouts, last_request) :=
        if elapsed now_ms (last_request_ms rt) (request_interval_ms (config rt))
        then (RnsRequestManager.poll_timeouts now_ms (requests rt), now_ms)
        else (requests rt, [], last_request_ms rt) in
      Some (Ok (mk S _ _ router2 requests1 (config rt) last_outbound last_inflight last_request last_pn
                  last_store count,
                mkTick sent errors failures timeouts [] pn_ran (every count JOB_OUTBOUND_INTERVAL)
                  (every count JOB_STAMPS_INTERVAL) (every count JOB_LINKS_INTERVAL)
                  (every count JOB_TRANSIENT_INTERVAL) store_ran (every count JOB_PEERINGEST_INTERVAL)
                  (every count JOB_ROTATE_INTERVAL) peersync_ran))
  end.

End Operations.
End LxmfRuntime.

(** * The delivery loop *)

Section Loop.
Context `{F : Features} `{IC : IdentityCrypto} `{M : Msgpack} `{HI : HashIter}.
Context {S : Type} `{MS : MessageStore S}.
Import RnsRouter LxmfRuntime.
Implicit Types r : RnsRouter.t S.

Definition pending_turns (policy : RetryPolicy) (queue : list QueuedMessage) : nat :=
  sum_list (map (item_turns policy) queue).

Lemma pending_turns_app policy l m :
  pending_turns policy (l ++ m) = (pending_turns policy l + pending_turns policy m)%nat.
Proof. unfold pending_turns. induction l as [|x l IH]; cbn; [done|]. rewrite IH. lia. Qed.

(** Every turn of the loop uses some of the turns up. *)
Lemma attempt_decreases draws now r queue s f answer :
  is_u32 (max_attempts (retry r)) = true -> attempted draws now r queue s f answer -> answer <> None ->
  (pending_turns (retry r) queue < pending_turns (retry r) (outbound r))%nat.
Proof.
  intros Hmax Ha Hne.
  inversion Ha as [Hi|item rest msg out Ho Hd Hdel|item rest msg Ho Hd Hdel
    |item rest msg err Ho Hd Hdel Hg|item rest msg err Ho Hd Hdel Hg]; subst; [done|rewrite Ho; unfold pending_turns; cbn; lia..|].
  rewrite Ho, pending_turns_app. change (item :: rest) with ([item] ++ rest).
  rewrite pending_turns_app. unfold pending_turns at 2 3. cbn. unfold item_turns. cbn.
  unfold gives_up in Hg. apply orb_false_iff in Hg as [_ Hg]. apply negb_false_iff, Z.ltb_lt in Hg.
  pose proof (Z.mod_pos_bound (q_attempts item + 1) (2 ^ 32) ltac:(lia)) as Hb.
  fold (as_u32 (q_attempts item + 1)) in Hb. set (a := as_u32 _) in *.
  assert (Hnext : as_u32 (a + 1) = a + 1) by (unfold_ints; rewrite Z.mod_small; lia).
  rewrite Hnext. lia.
Qed.

Lemma deliver_loop_ends draws now turns : forall r ds es,
  is_u32 (max_attempts (retry r)) = true -> (pending_turns (retry r) (outbound r) < turns)%nat ->
  deliver_loop turns draws now r ds es <> None.
Proof.
  induction turns as [|turns IH]; intros r ds es Hmax Hlt; [lia|]. cbn [deliver_loop].
  pose proof (next_delivery_cases draws now r) as Hc.
  destruct (next_delivery_with_retry draws now r) as [r' answer].
  destruct Hc as [Ha (_ & _ & _ & Hre & _)].
  pose proof (attempt_decreases draws now r _ _ _ _ Hmax Ha) as Hdec. rewrite <- Hre in Hmax, Hdec, Hlt.
  destruct answer as [[d|[err|]]|]; try done; apply IH; try done; specialize (Hdec ltac:(done)); lia.
Qed.

(** More turns change nothing. *)
Lemma deliver_loop_turns draws now turns turns' res : forall r ds es,
  (turns <= turns')%nat -> deliver_loop turns draws now r ds es = Some res ->
  deliver_loop turns' draws now r ds es = Some res.
Proof.
  revert turns'. induction turns as [|turns IH]; intros turns' r ds es Hle Hd; [done|].
  destruct turns' as [|turns']; [lia|]. cbn [deliver_loop] in *.
  destruct (next_delivery_with_retry draws now r) as [r' [[d|[err|]]|]]; try done; apply IH; (done || lia).
Qed.

(** The delivered, failed and still queued messages after the loop are those
    that were queued, and what is left is not due. *)
Definition conserved r r' (ds : list QueuedDelivery) : Prop :=
  exists fs, failed r' = failed r ++ fs /\
    map q_id (outbound r) ≡ₚ map qd_id ds ++ map fd_id fs ++ map q_id (outbound r').

Lemma conserved_refl r : conserved r r [].
Proof. exists []. by rewrite app_nil_r. Qed.

Lemma conserved_trans r1 r2 r3 ds ds' :
  conserved r1 r2 ds -> conserved r2 r3 ds' -> conserved r1 r3 (ds ++ ds').
Proof.
  intros (fs & Hf & Hp) (fs' & Hf' & Hp'). exists (fs ++ fs'). split; [by rewrite Hf', Hf, app_assoc|].
  rewrite Hp, Hp', !map_app, <- !app_assoc. apply Permutation_app_head.
  rewrite !app_assoc. do 2 apply Permutation_app_tail. apply Permutation_app_comm.
Qed.

Lemma attempt_conserves draws now r r' answer :
  attempted draws now r (outbound r') (store r') (failed r') answer -> answer <> Some (Err Panics) ->
  conserved r r' match answer with Some (Ok d) => [d] | _ => [] end.
Proof.
  intros Ha Hne. unfold conserved.
  inversion Ha as [Hi Ho' Hs' Hf'|item rest msg out Ho Hd Hdel Ho' Hs' Hf'|item rest msg Ho Hd Hdel Ho' Hs' Hf'
    |item rest msg err Ho Hd Hdel Hg Ho' Hs' Hf'|item rest msg err Ho Hd Hdel Hg Ho' Hs' Hf']; subst; try done.
  - exists []. by rewrite app_nil_r.
  - exists []. rewrite app_nil_r. split; [done|]. by rewrite Ho.
  - eexists. split; [done|]. by rewrite Ho.
  - exists []. rewrite app_nil_r. split; [done|]. rewrite Ho, map_app. cbn. by rewrite Permutation_app_comm.
Qed.

Lemma deliver_loop_conserves draws now turns : forall r ds es r' ds' es',
  deliver_loop turns draws now r ds es = Some (Ok (r', ds', es')) ->
  exists news, ds' = ds ++ news /\ conserved r r' news /\ same_setup r r' /\
    (forall item rest, outbound r' = item :: rest -> now < q_next_attempt_at_ms item).
Proof.
  induction turns as [|turns IH]; intros r ds es r' ds' es' Hl; [done|]. cbn [deliver_loop] in Hl.
  pose proof (next_delivery_cases draws now r) as Hc.
  destruct (next_delivery_with_retry draws now r) as [r1 answer]. destruct Hc as [Ha Hsame].
  pose proof (attempt_conserves _ _ _ _ _ Ha) as Hcons.
  destruct answer as [[d|[err|]]|]; [| |done|].
  - destruct (IH _ _ _ _ _ _ Hl) as (news & -> & Hc & Hs & Hdue). exists (d :: news).
    split; [by rewrite <- app_assoc|]. split; [by apply (conserved_trans r r1 r' [d] news); [apply Hcons|]|].
    split; [|done]. unfold same_setup in *. intuition congruence.
  - destruct (IH _ _ _ _ _ _ Hl) as (news & -> & Hc & Hs & Hdue). exists news.
    split; [done|]. split; [by apply (conserved_trans r r1 r' [] news); [apply Hcons|]|].
    split; [|done]. unfold same_setup in *. intuition congruence.
  - injection Hl as <- <- <-. exists []. split; [by rewrite app_nil_r|].
    split; [by apply Hcons|]. split; [done|].
    inversion Ha as [Hi Ho' Hs' Hf'| | | |]. intros item rest Hr. apply (Hi item rest). congruence.
Qed.

(** Timed-out deliveries are failures; the queue is not concerned. *)
Lemma poll_failures now r :
  let '(r', fs) := RnsRouter.poll_timeouts now r in
  outbound r' = outbound r /\ failed r' = failed r ++ fs.
Proof.
  unfold RnsRouter.poll_timeouts. generalize ((filter (fun kv => expired now kv.2 = true)
    (hash_iter (inflight r))).*1) as ids. intros ids.
  assert (Hf : forall acc, outbound acc.1 = outbound r -> failed acc.1 = failed r ++ acc.2 ->
    let acc' := foldl fail_expired acc ids in
    outbound acc'.1 = outbound r /\ failed acc'.1 = failed r ++ acc'.2).
  { induction ids as [|id ids IH]; intros [r1 fs] Ho Hfl; cbn [foldl]; [done|].
    apply IH; unfold fail_expired, mark_failed; cbn [fst snd] in *;
      destruct (inflight r1 !! id) as [i|]; try done; destruct r1; cbn in *;
      first [done|unfold constant; by rewrite Hfl, app_assoc]. }
  destruct (foldl fail_expired (r, []) ids) as [r' fs] eqn:E.
  destruct (Hf (r, []) eq_refl ltac:(by rewrite app_nil_r)) as [Ho Hfl]. by rewrite E in Ho, Hfl.
Qed.

Lemma deliver_ready_ends draws now r :
  is_u32 (max_attempts (retry r)) = true -> deliver_ready draws now r <> None.
Proof. intros Hm. apply deliver_loop_ends; [done|]. unfold delivery_turns, pending_turns. lia. Qed.

Lemma outbound_job_cases draws now count rt :
  is_u32 (max_attempts (retry (router rt))) = true ->
  outbound_job draws now count rt <> None /\
  forall r ds es last, outbound_job draws now count rt = Some (Ok (r, ds, es, last)) ->
    conserved (router rt) r ds /\
    (elapsed now (last_outbound_ms rt) (outbound_interval_ms (config rt)) = true ->
     forall item rest, outbound r = item :: rest -> now < q_next_attempt_at_ms item).
Proof.
  intros Hm. unfold outbound_job. unfold every, JOB_OUTBOUND_INTERVAL. rewrite Z.mod_1_r. cbn [Z.eqb andb].
  destruct (elapsed _ _ _).
  - pose proof (deliver_ready_ends draws now (router rt) Hm) as Hne.
    destruct (deliver_ready draws now (router rt)) as [[[[r1 ds1] es1]|e]|] eqn:Hd; [|done|done].
    split; [done|]. intros r ds es last [= -> -> -> <-].
    destruct (deliver_loop_conserves _ _ _ _ _ _ _ _ _ Hd) as (news & -> & Hc & _ & Hdue). done.
  - split; [done|]. intros r ds es last [= <- <- <- <-]. split; [apply conserved_refl|done].
Qed.

End Loop.

(** A tick of the runtime always ends: however often deliveries fail, the
    retry loop stops by itself, and when no delivery panics the tick accounts for every
    message.  Each message that was queued is delivered, has failed or is still
    queued, exactly one of these; what timed out in flight is
    reported as failed; and after a tick in which the outbound job was due, the
    message at the head of the queue is not. *)
Theorem tick_accounts_for_messages `{Features} `{IdentityCrypto} `{Msgpack} `{HashIter} {S : Type}
  `{MessageStore S} (draws : Z -> Z -> Z -> arr 32) (now : Z) (rt : LxmfRuntime.t S)
  (Hmax : is_u32 (max_attempts (RnsRouter.retry (LxmfRuntime.router rt))) = true) :
  exists res, LxmfRuntime.tick draws now rt = Some res /\
  forall rt' tk, res = Ok (rt', tk) ->
    let r := LxmfRuntime.router rt in
    let r' := LxmfRuntime.router rt' in
    (exists fs, RnsRouter.failed r' = RnsRouter.failed r ++ fs ++ inflight_failures tk /\
       map q_id (RnsRouter.outbound r) ≡ₚ
         map qd_id (deliveries tk) ++ map fd_id fs ++ map q_id (RnsRouter.outbound r')) /\
    (LxmfRuntime.elapsed now (LxmfRuntime.last_outbound_ms rt)
       (outbound_interval_ms (LxmfRuntime.config rt)) = true ->
     forall item rest, RnsRouter.outbound r' = item :: rest -> now < q_next_attempt_at_ms item).
Proof.
  unfold LxmfRuntime.tick. cbv zeta.
  destruct (outbound_job_cases draws now (as_u64 (LxmfRuntime.processing_count rt + 1)) rt Hmax) as [Hne Hj].
  destruct (LxmfRuntime.outbound_job _ _ _ _) as [[[[[r1 ds] es] last]|e]|]; [|by eexists|done].
  destruct (Hj r1 ds es last eq_refl) as [(fs & Hf & Hp) Hdue].
  assert (Hpoll : forall r2 fs2, (if LxmfRuntime.elapsed now (LxmfRuntime.last_inflight_ms rt)
       (inflight_interval_ms (LxmfRuntime.config rt)) then RnsRouter.poll_timeouts now r1 else (r1, [])) = (r2, fs2) ->
    RnsRouter.outbound r2 = RnsRouter.outbound r1 /\ RnsRouter.failed r2 = RnsRouter.failed r1 ++ fs2).
  { intros r2 fs2.
    destruct (LxmfRuntime.elapsed now (LxmfRuntime.last_inflight_ms rt)
      (inflight_interval_ms (LxmfRuntime.config rt))).
    - intros Hq. pose proof (poll_failures now r1) as Hpf. by rewrite Hq in Hpf.
    - intros [= <- <-]. by rewrite app_nil_r. }
  destruct (LxmfRuntime.elapsed now (LxmfRuntime.last_inflight_ms rt) _);
    [destruct (RnsRouter.poll_timeouts now r1) as [r2 fs2]|set (r2 := r1) in *; set (fs2 := []) in *];
    destruct (Hpoll r2 fs2 eq_refl) as [Ho2 Hf2];
    (destruct (LxmfRuntime.elapsed now (LxmfRuntime.last_request_ms rt) _);
       [destruct (RnsRequestManager.poll_timeouts now _) as [q ts]|]);
    (eexists; split; [reflexivity|]; intros rt' tk [= <- <-]; cbn; rewrite Hf2; try rewrite Ho2;
     split; [exists fs; by rewrite Hf, <- app_assoc|exact Hdue]).
Qed.

(** * Every message settles *)

Section Settling.
Context `{F : Features} `{IC : IdentityCrypto} `{M : Msgpack} `{HI : HashIter}.
Context {S : Type} `{MS : MessageStore S}.
Import RnsRouter LxmfRuntime.
Implicit Types r : RnsRouter.t S.

Definition never_panics (o : RnsOutbound.t) : Prop :=
  forall plain, hook_encrypt (RnsOutbound.encryptor o) (RnsOutbound.o_destination o) plain <> Err Panics.

Lemma deliver_no_panic o draws mode m : never_panics o -> (RnsOutbound.deliver o draws mode m).2 <> Err Panics.
Proof.
  intros Hp. unfold RnsOutbound.deliver, mbind, stres_bind, st_lift, st_get, st_modify,
    RnsOutbound.set_method, RnsOutbound.encode_for, RnsOutbound.deliver_as_packet_or_resource.
  destruct (RnsOutbound.check_outbound _ _ _) as [[]|e]; [|done]. cbn [map_err].
  destruct (LXMessage.encode_signed _ _ _) as [m1 [packed|e]]; [|done]. cbn [map_err].
  assert (Hpk : forall d bs ty, map_err Fails (OutPacket <$> packet_from_payload d bs ty) <> Err (@Panics RnsError))
    by (intros d bs ty; by destruct (packet_from_payload d bs ty)).
  specialize (Hp (drop DESTINATION_LENGTH packed)).
  destruct mode; unfold st_modify;
    try (destruct (hook_encrypt _ _ _) as [enc|e]; [clear Hp|cbn [snd]; congruence]);
    try (match goal with |- context [LXMessage.propagation_packed_from_encrypted ?a ?b ?c ?d] =>
           destruct (LXMessage.propagation_packed_from_encrypted a b c d) end; cbn [map_err]; [|done]);
    try (destruct (Nat.leb _ _)); cbn [snd]; try done; apply Hpk.
Qed.

(** Ticks at given times. *)
Fixpoint rounds (draws : Z -> Z -> Z -> arr 32) (times : list Z) r :
    option (result (fault RnsError) (RnsRouter.t S * list QueuedDelivery)) :=
  match times with
  | [] => Some (Ok (r, []))
  | now :: times =>
      match deliver_ready draws now r with
      | Some (Ok (r1, ds, _)) =>
          match rounds draws times r1 with
          | Some (Ok (r2, ds')) => Some (Ok (r2, ds ++ ds'))
          | other => other
          end
      | Some (Err e) => Some (Err e)
      | None => None
      end
  end.

(** Tried at least [k] times, and due by [by_]. *)
Definition tried (k by_ : Z) (item : QueuedMessage) : Prop :=
  k <= q_attempts item < u32_max /\ q_next_attempt_at_ms item <= by_.

(** An item queued again: it has attempts left, and is due within the largest delay. *)
Definition waiting (policy : RetryPolicy) (k now : Z) (item : QueuedMessage) : Prop :=
  k + 1 <= q_attempts item < max_attempts policy /\ q_next_attempt_at_ms item <= now + max_delay_ms policy.

Lemma retry_delay_le policy a : retry_delay_ms policy a <= max_delay_ms policy.
Proof. unfold retry_delay_ms. lia. Qed.

Lemma requeued_waiting r now k item msg err :
  0 <= k -> k <= q_attempts item < u32_max -> gives_up r item err = false ->
  waiting (retry r) k now (requeued r now item msg).
Proof.
  intros Hk Ha Hg. unfold gives_up in Hg. apply orb_false_iff in Hg as [_ Hg].
  apply negb_false_iff, Z.ltb_lt in Hg. unfold waiting, requeued. cbn.
  assert (Hn : as_u32 (q_attempts item + 1) = q_attempts item + 1) by (unfold_ints; rewrite Z.mod_small; lia).
  rewrite Hn in *. pose proof (retry_delay_le (retry r) (q_attempts item + 1)). unfold sat_add64. lia.
Qed.

(** A round tries everything that is due. *)
Lemma deliver_loop_ages draws now k policy turns : forall r todo old ds es r' ds' es',
  0 <= k -> max_attempts policy <= u32_max -> retry r = policy ->
  outbound r = todo ++ old -> Forall (tried k now) todo -> Forall (waiting policy k now) old ->
  deliver_loop turns draws now r ds es = Some (Ok (r', ds', es')) ->
  Forall (waiting policy k now) (outbound r').
Proof.
  induction turns as [|turns IH]; intros r todo old ds es r' ds' es' Hk Hmax Hpol Ho Htodo Hold Hl; [done|].
  cbn [deliver_loop] in Hl. pose proof (next_delivery_cases draws now r) as Hc.
  destruct (next_delivery_with_retry draws now r) as [r1 answer]. destruct Hc as [Ha (_ & _ & _ & Hre & _)].
  assert (Hrest : forall item rest, outbound r = item :: rest -> exists todo' old', rest = todo' ++ old' /\
    Forall (tried k now) todo' /\ Forall (waiting policy k now) old' /\ k <= q_attempts item < u32_max).
  { intros item rest Hr. rewrite Ho in Hr. clear Ho.
    destruct todo as [|x todo]; simpl in Hr; [subst old|injection Hr as -> <-].
    - apply Forall_cons in Hold as [Hi Hold]. exists [], rest. unfold waiting in Hi.
      split_and!; try done; lia.
    - apply Forall_cons in Htodo as [Hi Htodo]. exists todo, old. unfold tried in Hi.
      split_and!; try done; lia. }
  inversion Ha as [Hi Ho' Hs' Hf'|item rest msg out Ho1 Hd Hdel Ho' Hs' Hf'|item rest msg Ho1 Hd Hdel Ho' Hs' Hf'
    |item rest msg err Ho1 Hd Hdel Hg Ho' Hs' Hf'|item rest msg err Ho1 Hd Hdel Hg Ho' Hs' Hf']; subst answer.
  - injection Hl as -> _ _. rewrite <- Ho', Ho. destruct todo as [|x todo]; [done|].
    apply Forall_cons in Htodo as [[_ Hdue] _]. specialize (Hi x (todo ++ old) Ho). lia.
  - destruct (Hrest item _ Ho1) as (todo' & old' & Hr & Ht & Hw & _).
    eapply (IH r1 todo' old'); try done; congruence.
  - done.
  - destruct (Hrest item _ Ho1) as (todo' & old' & Hr & Ht & Hw & _).
    eapply (IH r1 todo' old'); try done; congruence.
  - destruct (Hrest item _ Ho1) as (todo' & old' & Hr & Ht & Hw & Hatt).
    eapply (IH r1 todo' (old' ++ [requeued r now item msg])); try done; [congruence| |].
    + by rewrite <- Ho', Hr, <- app_assoc.
    + apply Forall_app. split; [done|]. constructor; [|constructor]. subst policy.
      by eapply requeued_waiting.
Qed.

Lemma deliver_loop_no_panic draws now turns : forall r ds es e,
  never_panics (delivery r) -> deliver_loop turns draws now r ds es <> Some (Err e).
Proof.
  induction turns as [|turns IH]; intros r ds es e Hp; cbn [deliver_loop]; [done|].
  pose proof (next_delivery_cases draws now r) as Hc.
  destruct (next_delivery_with_retry draws now r) as [r1 answer]. destruct Hc as [Ha (_ & _ & Hd & _)].
  destruct answer as [[d|[err|]]|]; [apply IH; congruence|apply IH; congruence| |done].
  inversion Ha as [| |item rest msg Ho Hdue Hdel| |].
  pose proof (deliver_no_panic (delivery r) (draws (q_id item) (as_u32 (q_attempts item + 1)))
    (q_mode item) (set_state STATE_SENDING (q_message item)) Hp) as Hn.
  unfold attempt_delivery in Hdel. by rewrite Hdel in Hn.
Qed.

Lemma rounds_settle draws times : forall k from r,
  0 <= k -> is_u32 (max_attempts (retry r)) = true -> never_panics (delivery r) ->
  Forall (tried k from) (outbound r) -> spaced (max_delay_ms (retry r)) from times ->
  (1 <= length times)%nat -> max_attempts (retry r) <= k + Z.of_nat (length times) ->
  exists r' ds, rounds draws times r = Some (Ok (r', ds)) /\ outbound r' = [] /\ conserved r r' ds.
Proof.
  induction times as [|now times IH]; intros k from r Hk Hmax Hp Hq Hsp Hlen Hn; [simpl in Hlen; lia|].
  cbn [spaced length] in *. destruct Hsp as [Hfrom Hsp]. cbn [rounds].
  pose proof (deliver_ready_ends draws now r Hmax) as Hne.
  pose proof (deliver_loop_no_panic draws now (delivery_turns r) r [] []) as Hnp.
  fold (deliver_ready draws now r) in Hnp.
  destruct (deliver_ready draws now r) as [[[[r1 ds] es]|e]|] eqn:Hd; [|by destruct (Hnp e Hp)|done].
  destruct (deliver_loop_conserves _ _ _ _ _ _ _ _ _ Hd) as (news & Hds & Hc & Hs & _).
  simpl in Hds. subst ds. destruct Hs as (_ & _ & Hdel & Hre & _).
  assert (Hw : Forall (waiting (retry r) k now) (outbound r1)).
  { eapply (deliver_loop_ages draws now k (retry r) _ r (outbound r) []); try done.
    - unfold is_u32 in Hmax. lia.
    - by rewrite app_nil_r.
    - eapply List.Forall_impl; [|exact Hq]. unfold tried. intros x Hx. lia. }
  destruct times as [|next times].
  - cbn [rounds length] in *. exists r1, (news ++ []). split; [done|]. rewrite app_nil_r. split; [|done].
    destruct (outbound r1) as [|item rest]; [done|]. apply Forall_cons in Hw as [[Ha _] _]. lia.
  - destruct (IH (k + 1) (now + max_delay_ms (retry r)) r1) as (r' & ds' & Hr & Ho & Hc').
    + lia.
    + by rewrite Hre.
    + by rewrite Hdel.
    + eapply List.Forall_impl; [|exact Hw]. unfold waiting, tried. unfold is_u32 in Hmax. intros x Hx. lia.
    + by rewrite Hre.
    + cbn [length] in *. lia.
    + rewrite Hre. cbn [length] in *. lia.
    + exists r', (news ++ ds'). rewrite Hr. split; [done|]. split; [done|].
      by eapply conserved_trans.
Qed.

End Settling.


#[local] Existing Instance toy_features.
#[local] Existing Instance toy_crypto.
#[local] Existing Instance toy_identity.
#[local] Existing Instance bit_codec.
#[local] Existing Instance key_order.

Definition sample_runtime : LxmfRuntime.t FileMessageStore.t := LxmfRuntime.new sample_router.

Lemma tick_accounts_for_messages_witness :
  exists res, LxmfRuntime.tick (fun _ _ _ => arr_zero 32) 1000 sample_runtime = Some res.
Proof.
  destruct (tick_accounts_for_messages (fun _ _ _ => arr_zero 32) 1000 sample_runtime eq_refl)
    as (res & Hres & _).
  exists res. exact Hres.
Defined.

