(* ===== verification/Messaging.v ===== *)
(** [LxmfRouter] of [lxmf-rs/src/rns/router.rs], as far as it handles messages:
    sending and receiving them, stamp costs, tickets, the caches of processed
    messages, and the deferred stamps that a background thread releases.

    The record holds the fields these operations use; peering, propagation and
    link tracking are other fields of the same struct.  [persistence] is the
    disk at [persistence_root].  The deferred messages are in three places: the
    router's own queue, the queue shared with the thread behind a mutex, and the
    channel the thread answers on; [thread_active] is the flag
    [stamp_processing_active]. *)

From Stdlib Require Import ZArith Lia Permutation.
From Stdlib Require Import Strings.Byte.
From stdpp Require Import base gmap strings numbers list.
From coqutil Require Import Datatypes.RecordSetters.
From S2P Require Import Prelude Float Msgpack Crypto Buffer Packet Identity Destination Stamp Message Rns.
From S2P Require Import Delivery Requests StorageCodec StorageTables MessageStore Tickets Outbound Runtime.
Import DoubleBraceUpdate.

Local Open Scope Z_scope.

Record DeferredOutbound : Type := mkDeferred {
  df_message : LXMessage.t;
  df_mode : DeliveryMode
}.

Definition STAMP_COST_EXPIRY_S : Z := 45 * 24 * 60 * 60.

Module LxmfRouter.

Record t (S : Type) `{IC : IdentityCrypto} : Type := mk {
  runtime : LxmfRuntime.t S;
  ignored_destinations : gset (arr 16);
  outbound_stamp_costs : gmap (arr 16) (f64 * Z);
  inbound_stamp_costs : gmap (arr 16) Z;
  ticket_store : TicketStore.t;
  deferred_outbound : list DeferredOutbound;
  enforce_stamps : bool;
  local_deliveries : gmap (arr 32) f64;
  locally_processed : gmap (arr 32) f64;
  persistence : option FileMessageStore.t;
  deferred_outbound_shared : list DeferredOutbound;
  processed_deferred : list DeferredOutbound;
  thread_active : bool
}.
Arguments runtime {S _ _} _.
Arguments ignored_destinations {S _ _} _.
Arguments outbound_stamp_costs {S _ _} _.
Arguments inbound_stamp_costs {S _ _} _.
Arguments ticket_store {S _ _} _.
Arguments deferred_outbound {S _ _} _.
Arguments enforce_stamps {S _ _} _.
Arguments local_deliveries {S _ _} _.
Arguments locally_processed {S _ _} _.
Arguments persistence {S _ _} _.
Arguments deferred_outbound_shared {S _ _} _.
Arguments processed_deferred {S _ _} _.
Arguments thread_active {S _ _} _.

Section Operations.
Context `{F : Features} `{IC : IdentityCrypto} `{M : Msgpack} `{HI : HashIter}.
Context {S : Type} `{MS : MessageStore S}.
Abbreviation lxmf := (t S).

Definition with_config (router : RnsRouter.t S) (config : RuntimeConfig) : lxmf :=
  mk S _ _ (LxmfRuntime.with_config router config) ∅ ∅ ∅ TicketStore.default_ [] true ∅ ∅ None [] [] false.

(** * What is kept on disk *)

Definition persist_ticket_store (x : lxmf) : lxmf :=
  x {{ persistence := FileMessageStore.save_available_tickets (TicketStore.snapshot (ticket_store x))
                        <$> persistence x }}.

Definition persist_outbound_stamp_costs (x : lxmf) : lxmf :=
  x {{ persistence := FileMessageStore.save_outbound_stamp_costs (outbound_stamp_costs x)
                        <$> persistence x }}.

Definition save_local_caches (x : lxmf) : lxmf :=
  x {{ persistence := (fun disk => FileMessageStore.save_locally_processed (locally_processed x)
                                     (FileMessageStore.save_local_deliveries (local_deliveries x) disk))
                        <$> persistence x }}.

Definition ignore_destination (destination_hash : arr 16) (x : lxmf) : lxmf :=
  x {{ ignored_destinations := {[destination_hash]} ∪ ignored_destinations x }}.
Definition unignore_destination (destination_hash : arr 16) (x : lxmf) : lxmf :=
  x {{ ignored_destinations := ignored_destinations x ∖ {[destination_hash]} }}.

(** * Stamp costs *)

Definition set_outbound_stamp_cost (destination_hash : arr 16) (stamp_cost : option Z) (now_ms : Z)
    (x : lxmf) : lxmf :=
  match stamp_cost with
  | Some cost =>
      if 0 <? cost
      then persist_outbound_stamp_costs
             (x {{ outbound_stamp_costs :=
                     <[destination_hash := (TicketStore.now_s now_ms, cost)]> (outbound_stamp_costs x) }})
      else persist_outbound_stamp_costs
             (x {{ outbound_stamp_costs := delete destination_hash (outbound_stamp_costs x) }})
  | None => persist_outbound_stamp_costs
              (x {{ outbound_stamp_costs := delete destination_hash (outbound_stamp_costs x) }})
  end.

Definition set_inbound_stamp_cost (destination_hash : arr 16) (stamp_cost : option Z) (x : lxmf) : lxmf :=
  match stamp_cost with
  | Some cost =>
      if 0 <? cost then x {{ inbound_stamp_costs := <[destination_hash := cost]> (inbound_stamp_costs x) }}
      else x {{ inbound_stamp_costs := delete destination_hash (inbound_stamp_costs x) }}
  | None => x {{ inbound_stamp_costs := delete destination_hash (inbound_stamp_costs x) }}
  end.

Definition clean_outbound_stamp_costs (now_ms : Z) (x : lxmf) : lxmf * nat :=
  let now := TicketStore.now_s now_ms in
  let kept := filter (fun kv => f64_leb now (f64_add kv.2.1 (f64_of_Z STAMP_COST_EXPIRY_S)) = true)
                (outbound_stamp_costs x) in
  let removed := (size (outbound_stamp_costs x) - size kept)%nat in
  let x := x {{ outbound_stamp_costs := kept }} in
  (if Nat.ltb 0 removed then persist_outbound_stamp_costs x else x, removed).

Definition get_outbound_stamp_cost (destination_hash : arr 16) (x : lxmf) : option Z :=
  snd <$> outbound_stamp_costs x !! destination_hash.

(** * Processed messages *)

Definition mark_local_delivery (transient_id : arr 32) (now_ms : Z) (x : lxmf) : lxmf :=
  save_local_caches
    (x {{ local_deliveries := <[transient_id := TicketStore.now_s now_ms]> (local_deliveries x) }}).

Definition mark_locally_processed (transient_id : arr 32) (now_ms : Z) (x : lxmf) : lxmf :=
  save_local_caches
    (x {{ locally_processed := <[transient_id := TicketStore.now_s now_ms]> (locally_processed x) }}).

Definition clean_transient_id_caches (now_ms : Z) (x : lxmf) : lxmf * nat :=
  let now := TicketStore.now_s now_ms in
  let '(delivered, removed_delivered) := clean_transient_cache now (local_deliveries x) in
  let '(processed, removed_processed) := clean_transient_cache now (locally_processed x) in
  let removed := (removed_delivered + removed_processed)%nat in
  let x := x {{ local_deliveries := delivered; locally_processed := processed }} in
  (if Nat.ltb 0 removed then save_local_caches x else x, removed).

(** * Tickets *)

Definition generate_ticket (fresh : arr 16) (destination_hash : arr 16) (now_ms : Z) (x : lxmf) :
    lxmf * option (f64 * list byte) :=
  let '(tickets, entry) := TicketStore.generate_ticket fresh destination_hash now_ms TICKET_EXPIRY
                             (ticket_store x) in
  let x := x {{ ticket_store := tickets }} in
  match entry with
  | Some e => (persist_ticket_store x, Some (expires_at_s e, ticket e))
  | None => (x, None)
  end.

Definition remember_ticket (destination_hash : arr 16) (expires_at_s : f64) (ticket : list byte) (x : lxmf) :
    lxmf :=
  persist_ticket_store
    (x {{ ticket_store := TicketStore.remember_ticket destination_hash (mkTicket expires_at_s ticket)
                            (ticket_store x) }}).

Definition mark_ticket_delivered (destination_hash : arr 16) (now_ms : Z) (x : lxmf) : lxmf :=
  persist_ticket_store
    (x {{ ticket_store := TicketStore.mark_ticket_delivered destination_hash now_ms (ticket_store x) }}).

Definition clean_tickets (now_ms : Z) (x : lxmf) : lxmf :=
  persist_ticket_store (x {{ ticket_store := TicketStore.clean_expired now_ms (ticket_store x) }}).

(** * Sending *)

Definition enqueue (message : LXMessage.t) (mode : DeliveryMode) (x : lxmf) : lxmf * Z :=
  let '(r, id) := RnsRouter.enqueue message mode (LxmfRuntime.router (runtime x)) in
  (x {{ runtime := (runtime x) {{ LxmfRuntime.router := r }} }}, id).

Definition with_stamp_cost (message : LXMessage.t) (x : lxmf) : LXMessage.t :=
  match LXMessage.m_stamp_cost message with
  | Some _ => message
  | None => match get_outbound_stamp_cost (LXMessage.m_destination_hash message) x with
            | Some cost => message {{ LXMessage.m_stamp_cost := Some cost }}
            | None => message
            end
  end.

Definition with_outbound_ticket (now_ms : Z) (x : lxmf) (message : LXMessage.t) : LXMessage.t :=
  let tk := TicketStore.get_outbound_ticket (LXMessage.m_destination_hash message) now_ms (ticket_store x) in
  message {{ LXMessage.m_outbound_ticket := tk;
             LXMessage.m_defer_stamp :=
               if bool_decide (is_Some tk) && LXMessage.m_defer_stamp message then false
               else LXMessage.m_defer_stamp message }}.

Definition include_ticket (fresh : arr 16) (now_ms : Z) (message : LXMessage.t) (x : lxmf) :
    lxmf * LXMessage.t :=
  if LXMessage.m_include_ticket message then
    match TicketStore.generate_ticket fresh (LXMessage.m_destination_hash message) now_ms TICKET_EXPIRY
            (ticket_store x) with
    | (tickets, Some entry) =>
        (persist_ticket_store (x {{ ticket_store := tickets }}),
         message {{ LXMessage.m_fields :=
                      insert_ticket_field (LXMessage.m_fields message) (expires_at_s entry) (ticket entry) }})
    | (tickets, None) => (x {{ ticket_store := tickets }}, message)
    end
  else (x, message).

(** The message as it will be queued, with its stamp cost and tickets settled. *)
Definition settle_outbound (fresh : arr 16) (message : LXMessage.t) (now_ms : Z) (x : lxmf) :
    lxmf * LXMessage.t :=
  let message := with_outbound_ticket now_ms x (with_stamp_cost message x) in
  let '(x, message) := include_ticket fresh now_ms message x in
  (x, if LXMessage.m_defer_stamp message && bool_decide (LXMessage.m_stamp_cost message = None)
      then message {{ LXMessage.m_defer_stamp := false }} else message).

(** [locked]: the background thread holds the shared queue, so [try_lock]
    fails. *)
Definition handle_outbound (locked : bool) (fresh : arr 16) (message : LXMessage.t) (mode : DeliveryMode)
    (now_ms : Z) (x : lxmf) : lxmf * option Z :=
  let '(x, message) := settle_outbound fresh message now_ms x in
  if LXMessage.m_defer_stamp message then
    (x {{ deferred_outbound := deferred_outbound x ++ [mkDeferred message mode];
          deferred_outbound_shared := if locked then deferred_outbound_shared x
                                      else deferred_outbound_shared x ++ [mkDeferred message mode] }}, None)
  else let '(x, id) := enqueue message mode x in (x, Some id).

(** * Receiving *)

Definition process_inbound_message (message : LXMessage.t) (now_ms : Z)
    (signature_validated no_stamp_enforcement : bool) (x : lxmf) : lxmf * option LXMessage.t :=
  if bool_decide (LXMessage.m_source_hash message ∈ ignored_destinations x) then (x, None)
  else if match LXMessage.m_message_id message with
          | Some id => bool_decide (is_Some (local_deliveries x !! id))
          | None => false
          end then (x, None)
  else
    let x := if signature_validated
             then match extract_ticket_field (LXMessage.m_fields message) with
                  | Some (expires_at_s, tk) =>
                      if TicketStore.f64_gtb expires_at_s (TicketStore.now_s now_ms)
                      then remember_ticket (LXMessage.m_source_hash message) expires_at_s tk x else x
                  | None => x
                  end
             else x in
    let '(message, rejected) :=
      match inbound_stamp_costs x !! LXMessage.m_destination_hash message with
      | Some required_cost =>
          let tickets := TicketStore.get_inbound_tickets (LXMessage.m_source_hash message) now_ms
                           (ticket_store x) in
          let '(message, valid) := validate_stamp_with_tickets required_cost tickets message in
          (message, negb valid && enforce_stamps x && negb no_stamp_enforcement)
      | None => (message, false)
      end in
    if rejected then (x, None)
    else
      let x := match LXMessage.m_message_id message with
               | Some id => mark_local_delivery id now_ms x
               | None => x
               end in
      (x, Some message).

(** * Deferred stamps *)

Definition release (item : DeferredOutbound) : LXMessage.t :=
  (df_message item) {{ LXMessage.m_defer_stamp := false }}.

Fixpoint process_deferred_stamps (max_items : nat) (x : lxmf) : lxmf * nat :=
  match max_items with
  | O => (x, O)
  | Datatypes.S max_items =>
      match deferred_outbound x with
      | [] => (x, O)
      | item :: rest =>
          let '(x, _) := enqueue (release item) (df_mode item) (x {{ deferred_outbound := rest }}) in
          let '(x, processed) := process_deferred_stamps max_items x in
          (x, Datatypes.S processed)
      end
  end.

(** The thread's body, when it gets the lock: one item moves to the channel. *)
Definition thread_body (x : lxmf) : lxmf :=
  match deferred_outbound_shared x with
  | [] => x {{ thread_active := false }}
  | item :: rest =>
      x {{ deferred_outbound_shared := rest;
           processed_deferred := processed_deferred x ++ [mkDeferred (release item) (df_mode item)];
           thread_active := false }}
  end.

(** The receiving part of [tick]'s stamp job: at most [max_iterations] messages
    are taken from the channel and queued. *)
Fixpoint receive_processed (max_iterations : nat) (x : lxmf) : lxmf :=
  match max_iterations with
  | O => x
  | Datatypes.S max_iterations =>
      match processed_deferred x with
      | [] => x
      | item :: rest =>
          let '(x, _) := enqueue (df_message item) (df_mode item)
                           (x {{ processed_deferred := rest }}) in
          receive_processed max_iterations
            (x {{ deferred_outbound := tail (deferred_outbound x) }})
      end
  end.

(** The stamp job: receive, then start the thread if it is idle and there is
    something to do; [locked] as above. *)
Definition stamps_job (locked : bool) (x : lxmf) : lxmf :=
  let x := receive_processed 100 x in
  if negb (thread_active x) && negb locked && negb (bool_decide (deferred_outbound_shared x = []))
  then x {{ thread_active := true }} else x.

End Operations.
End LxmfRouter.

(** * Tickets between two routers *)

Section TicketExchange.
Context `{F : Features} `{IC : IdentityCrypto} `{M : Msgpack} `{HI : HashIter}.
Context {S : Type} `{MS : MessageStore S}.
Import LxmfRouter.
Implicit Types x : LxmfRouter.t S.

Definition queue x : list QueuedMessage := RnsRouter.outbound (LxmfRuntime.router (runtime x)).

(** The parts of the router that sending leaves alone. *)
Definition same_rules x x' : Prop :=
  ignored_destinations x' = ignored_destinations x /\ inbound_stamp_costs x' = inbound_stamp_costs x /\
  enforce_stamps x' = enforce_stamps x /\ local_deliveries x' = local_deliveries x.

Lemma enqueue_effect m mode x :
  let x' := (enqueue m mode x).1 in
  (exists id, queue x' = queue x ++ [mkQueued id (set_state STATE_OUTBOUND m) mode 0 0]) /\
  ticket_store x' = ticket_store x /\ same_rules x x'.
Proof.
  destruct x as [[r ? ? ? ? ? ? ? ?] ? ? ? ? ? ? ? ? ? ? ? ?]. destruct r. split; [|done].
  eexists. reflexivity.
Qed.

Lemma with_stamp_cost_same m x :
  with_stamp_cost m x = m \/ exists cost, with_stamp_cost m x = m {{ LXMessage.m_stamp_cost := Some cost }}.
Proof.
  unfold with_stamp_cost. destruct (LXMessage.m_stamp_cost m); [by left|].
  destruct (get_outbound_stamp_cost _ x) as [c|]; [right; by exists c|by left].
Qed.

(** The message the sending path works on: the caller's, with a stamp cost, the
    ticket for its destination, and the stamp not deferred when there is one. *)
Lemma outbound_message now x m :
  let m1 := with_outbound_ticket now x (with_stamp_cost m x) in
  let tk := TicketStore.get_outbound_ticket (LXMessage.m_destination_hash m) now (ticket_store x) in
  LXMessage.m_destination_hash m1 = LXMessage.m_destination_hash m /\
  LXMessage.payload_values m1 = LXMessage.payload_values m /\ message_ok m1 = message_ok m /\
  LXMessage.m_stamp m1 = LXMessage.m_stamp m /\ LXMessage.m_include_ticket m1 = LXMessage.m_include_ticket m /\
  LXMessage.m_outbound_ticket m1 = tk /\ LXMessage.m_fields m1 = LXMessage.m_fields m /\
  (is_Some tk \/ LXMessage.m_defer_stamp m = false -> LXMessage.m_defer_stamp m1 = false).
Proof.
  cbv zeta. destruct (with_stamp_cost_same m x) as [->|[cost ->]]; unfold with_outbound_ticket;
    destruct m; cbn; unfold constant; split_and!; try done;
    (intros [Htk| ->]; [rewrite bool_decide_true by done; cbn [andb];
       match goal with |- (if ?b then _ else _) = _ => by destruct b end|by rewrite andb_false_r]).
Qed.

Lemma include_ticket_issues fresh now m x :
  LXMessage.m_include_ticket m = true -> tickets_ok (ticket_store x) ->
  TicketStore.recently_delivered (LXMessage.m_destination_hash m) (TicketStore.now_s now)
    (ticket_store x) = false ->
  exists x' e, include_ticket fresh now m x =
      (x', m {{ LXMessage.m_fields :=
                  insert_ticket_field (LXMessage.m_fields m) (expires_at_s e) (ticket e) }}) /\
    length (ticket e) = TICKET_LENGTH /\
    ticket_issued (ticket_store x') (LXMessage.m_destination_hash m) (ticket e) (expires_at_s e) /\
    queue x' = queue x /\ same_rules x x'.
Proof.
  intros Hi Hok Hrec. unfold include_ticket. rewrite Hi.
  destruct (TicketStore.generate_ticket fresh (LXMessage.m_destination_hash m) now TICKET_EXPIRY
    (ticket_store x)) as [s' [e|]] eqn:Hg.
  - destruct (generate_ticket_issued _ _ _ _ _ _ _ Hok Hg) as (Hl & His & _).
    eexists _, e. split; [reflexivity|]. split; [done|]. split; [by destruct x|]. by destruct x.
  - exfalso. unfold TicketStore.generate_ticket in Hg. rewrite Hrec in Hg.
    by destruct (TicketStore.reusable _ _ _).
Qed.

(** Sending a message that asks for a ticket: the message queued carries a
    ticket that the router will accept. *)
Lemma outbound_issues_ticket locked fresh m mode now x :
  LXMessage.m_include_ticket m = true -> LXMessage.m_defer_stamp m = false ->
  tickets_ok (ticket_store x) ->
  TicketStore.recently_delivered (LXMessage.m_destination_hash m) (TicketStore.now_s now)
    (ticket_store x) = false ->
  exists x' id item e, handle_outbound locked fresh m mode now x = (x', Some id) /\
    queue x' = queue x ++ [item] /\
    LXMessage.m_fields (q_message item) =
      insert_ticket_field (LXMessage.m_fields m) (expires_at_s e) (ticket e) /\
    length (ticket e) = TICKET_LENGTH /\
    ticket_issued (ticket_store x') (LXMessage.m_destination_hash m) (ticket e) (expires_at_s e) /\
    same_rules x x'.
Proof.
  intros Hi Hd Hok Hrec. unfold handle_outbound, settle_outbound. cbv zeta.
  destruct (outbound_message now x m) as (Hdst & _ & _ & _ & Hinc & _ & Hf & Hdef). cbv zeta in *.
  specialize (Hdef (or_intror Hd)). set (m1 := with_outbound_ticket _ _ _) in *.
  rewrite <- Hinc in Hi. rewrite <- Hdst in Hrec.
  destruct (include_ticket_issues fresh now m1 x Hi Hok Hrec) as (x1 & e & Hinc1 & Hl & His & Hq & Hr).
  rewrite Hinc1. set (m2 := m1 {{ LXMessage.m_fields := _ }}).
  assert (Hd2 : LXMessage.m_defer_stamp m2 = false) by (subst m2; by destruct m1).
  rewrite Hd2. cbn [andb]. rewrite Hd2.
  destruct (enqueue_effect m2 mode x1) as ((qid & Hq2) & Ht2 & Hr2). cbv zeta in *.
  destruct (enqueue m2 mode x1) as [x2 id]. cbn [fst] in *.
  eexists x2, id, _, e. split; [reflexivity|]. split; [by rewrite Hq2, Hq|].
  split; [rewrite <- Hf; cbn [q_message]; subst m2; clearbody m1; by destruct m1|]. split; [done|]. split; [by rewrite Ht2, <- Hdst|].
  unfold same_rules in *. intuition congruence.
Qed.

(** Receiving a signed message with a ticket: it is there to send with. *)
Lemma inbound_remembers_ticket m now nse x x' m' expires tk :
  process_inbound_message m now true nse x = (x', Some m') ->
  extract_ticket_field (LXMessage.m_fields m) = Some (expires, tk) ->
  TicketStore.f64_gtb expires (TicketStore.now_s now) = true ->
  TicketStore.outbound (ticket_store x') !! LXMessage.m_source_hash m = Some (mkTicket expires tk).
Proof.
  intros Hp He Hnow. unfold process_inbound_message in Hp. rewrite He, Hnow in Hp.
  destruct (bool_decide _); [done|].
  destruct (match LXMessage.m_message_id m with Some _ => _ | None => _ end); [done|].
  set (x1 := remember_ticket _ _ _ x) in Hp.
  assert (H1 : TicketStore.outbound (ticket_store x1) !! LXMessage.m_source_hash m = Some (mkTicket expires tk)).
  { subst x1. destruct x as [? ? ? ? [] ? ? ? ? ? ? ? ?]. apply lookup_insert_eq. }
  destruct (match inbound_stamp_costs x1 !! _ with Some _ => _ | None => _ end) as [m2 rejected].
  destruct rejected; [done|]. injection Hp as <- <-.
  destruct (LXMessage.m_message_id m2); [|done]. by destruct x1.
Qed.

(** Sending with a ticket on file: the message queued has it, and its stamp is
    not deferred. *)
Lemma outbound_uses_ticket locked fresh m mode now x e :
  TicketStore.outbound (ticket_store x) !! LXMessage.m_destination_hash m = Some e ->
  TicketStore.f64_gtb (expires_at_s e) (TicketStore.now_s now) = true ->
  LXMessage.m_include_ticket m = false ->
  exists x' id item, handle_outbound locked fresh m mode now x = (x', Some id) /\
    queue x' = queue x ++ [item] /\
    LXMessage.m_outbound_ticket (q_message item) = Some (ticket e) /\
    LXMessage.m_defer_stamp (q_message item) = false /\
    LXMessage.m_stamp (q_message item) = LXMessage.m_stamp m /\
    message_ok (q_message item) = message_ok m /\
    LXMessage.payload_values (q_message item) = LXMessage.payload_values m.
Proof.
  intros Ho Hnow Hi. unfold handle_outbound, settle_outbound. cbv zeta.
  destruct (outbound_message now x m) as (Hdst & Hv & Hmok & Hst & Hinc & Htk & Hf & Hdef). cbv zeta in *.
  assert (Hget : TicketStore.get_outbound_ticket (LXMessage.m_destination_hash m) now (ticket_store x) =
    Some (ticket e)) by (unfold TicketStore.get_outbound_ticket; rewrite Ho; cbn; by rewrite Hnow).
  rewrite Hget in *. specialize (Hdef (or_introl (ex_intro _ _ eq_refl))).
  set (m1 := with_outbound_ticket _ _ _) in *. unfold include_ticket. rewrite Hinc, Hi, Hdef. cbn [andb].
  rewrite Hdef. destruct (enqueue_effect m1 mode x) as ((qid & Hq) & _). cbv zeta in *.
  destruct (enqueue m1 mode x) as [x2 id]. cbn [fst] in *.
  eexists x2, id, _. split; [reflexivity|]. split; [exact Hq|]. cbn [q_message].
  destruct m1. split_and!; done.
Qed.

(** Receiving a message stamped with a ticket on file. *)
Lemma inbound_accepts_ticket `{CL : !CryptoLaws} `{ML : !MsgpackLaws} m now sv nse x tk expires bs :
  LXMessage.m_source_hash m ∉ ignored_destinations x ->
  (forall id, LXMessage.m_message_id m = Some id -> local_deliveries x !! id = None) ->
  ticket_issued (ticket_store x) (LXMessage.m_source_hash m) tk expires ->
  TicketStore.f64_gtb expires (TicketStore.now_s now) = true -> length tk = TICKET_LENGTH ->
  message_ok m = true -> LXMessage.pack_payload false m = Ok bs ->
  LXMessage.m_stamp m = Some (arr_list (LXMessage.ticket_stamp tk (LXMessage.message_id_of m bs))) ->
  exists x' m', process_inbound_message m now sv nse x = (x', Some m') /\ same_content m m'.
Proof.
  intros Hign Hdup His Hnow Hl Hm Hbs Hst. unfold process_inbound_message.
  rewrite bool_decide_false by done.
  assert (Hd : match LXMessage.m_message_id m with
     | Some id => bool_decide (is_Some (local_deliveries x !! id)) | None => false end = false).
  { destruct (LXMessage.m_message_id m) as [id|]; [|done]. rewrite (Hdup id eq_refl).
    by apply bool_decide_false; intros [? ?]. }
  rewrite Hd. cbv zeta. set (x1 := if sv then _ else x).
  assert (Hx1 : ticket_issued (ticket_store x1) (LXMessage.m_source_hash m) tk expires).
  { subst x1. destruct sv; [|done]. destruct (extract_ticket_field _) as [[ex tk']|]; [|done].
    destruct (TicketStore.f64_gtb ex _); [|done]. by destruct x as [? ? ? ? [] ? ? ? ? ? ? ? ?]. }
  destruct (inbound_stamp_costs x1 !! LXMessage.m_destination_hash m) as [cost|].
  - pose proof (issued_ticket_accepted _ _ _ _ _ Hx1 Hnow) as Hin.
    destruct (validate_with_tickets_exact cost (TicketStore.get_inbound_tickets (LXMessage.m_source_hash m)
      now (ticket_store x1)) m Hm) as (m' & b & bs' & Hv & Hsame & Hbs' & Hb).
    rewrite Hv. assert (bs' = bs) as -> by congruence.
    assert (b = true) as ->.
    { apply Hb. eexists. split; [exact Hst|]. left. exists tk. split; [done|]. by apply ticket_stamp_matches. }
    cbn [negb andb]. eexists _, m'. split; [reflexivity|]. done.
  - eexists _, m. split; [reflexivity|]. done.
Qed.

End TicketExchange.


#[local] Existing Instance toy_features.
#[local] Existing Instance toy_crypto.
#[local] Existing Instance toy_identity.
#[local] Existing Instance bit_codec.
#[local] Existing Instance key_order.
#[local] Existing Instance toy_crypto_laws.
#[local] Existing Instance bit_codec_laws.

Definition sample_lxmf : LxmfRouter.t InMemoryStore.t :=
  LxmfRouter.with_config (RnsRouter.empty sample_outbound RetryPolicy_default InMemoryStore.new)
    RuntimeConfig_default.

Definition asking_message : LXMessage.t :=
  LXMessage.set_defer_stamp false sample_message {{ LXMessage.m_include_ticket := true }}.


(** * Deferred stamps *)

Section Deferred.
Context `{F : Features} `{IC : IdentityCrypto} `{M : Msgpack} `{HI : HashIter}.
Context {S : Type} `{MS : MessageStore S}.
Import LxmfRouter.
Implicit Types x : LxmfRouter.t S.

(** The steps of the router and of its thread, any of which can come next.  The
    thread has the shared queue locked only while its body runs; [step_skip] is
    the thread finding the queue locked.  A message is accepted by
    [accept_deferred] while the queue is free. *)
Inductive deferred_step : option LXMessage.t -> LxmfRouter.t S -> LxmfRouter.t S -> Prop :=
| accept_deferred x fresh m mode now :
    deferred_step (Some (settle_outbound fresh m now x).2) x (handle_outbound false fresh m mode now x).1
| step_job x locked : (locked = true -> thread_active x = true) -> deferred_step None x (stamps_job locked x)
| step_thread x : thread_active x = true -> deferred_step None x (thread_body x)
| step_skip x : thread_active x = true -> deferred_step None x (x {{ thread_active := false }}).

Inductive deferred_run : list LXMessage.t -> LxmfRouter.t S -> LxmfRouter.t S -> Prop :=
| run_nil x : deferred_run [] x x
| run_snoc ms o x y z : deferred_run ms x y -> deferred_step o y z ->
    deferred_run (ms ++ option_list o) x z.

Definition released (item : DeferredOutbound) : DeferredOutbound :=
  mkDeferred (release item) (df_mode item).

(** A message in the state the queue holds it in. *)
Definition queued_form (m : LXMessage.t) : LXMessage.t :=
  set_state STATE_OUTBOUND (m {{ LXMessage.m_defer_stamp := false }}).

(** The messages in the queue, in the channel and with the thread. *)
Definition in_hand x : list LXMessage.t :=
  map q_message (queue x) ++ map (fun i => set_state STATE_OUTBOUND (df_message i))
    (processed_deferred x ++ map released (deferred_outbound_shared x)).

(** The router's own list is the channel's and the thread's, in order. *)
Definition deferred_ok x : Prop :=
  map released (deferred_outbound x) = processed_deferred x ++ map released (deferred_outbound_shared x) /\
  Forall (fun i => released i = i) (processed_deferred x).

Lemma queued_form_release m mode : set_state STATE_OUTBOUND (df_message (released (mkDeferred m mode))) = queued_form m.
Proof. done. Qed.

Lemma settle_frame fresh m now x :
  let x' := (settle_outbound fresh m now x).1 in
  queue x' = queue x /\ processed_deferred x' = processed_deferred x /\
  deferred_outbound_shared x' = deferred_outbound_shared x /\ deferred_outbound x' = deferred_outbound x /\
  thread_active x' = thread_active x.
Proof.
  unfold settle_outbound, include_ticket. cbv zeta.
  destruct (LXMessage.m_include_ticket _); [|done].
  destruct (TicketStore.generate_ticket _ _ _ _ _) as [s [e|]]; by destruct x.
Qed.

Lemma enqueue_hand m mode x :
  let x' := (enqueue m mode x).1 in
  map q_message (queue x') = map q_message (queue x) ++ [set_state STATE_OUTBOUND m] /\
  processed_deferred x' = processed_deferred x /\
  deferred_outbound_shared x' = deferred_outbound_shared x /\ deferred_outbound x' = deferred_outbound x /\
  thread_active x' = thread_active x.
Proof.
  destruct x as [[r ? ? ? ? ? ? ? ?] ? ? ? ? ? ? ? ? ? ? ? ?]. destruct r. split; [|done].
  unfold queue. cbn. unfold constant. by rewrite map_app.
Qed.

Lemma set_defer_false m : LXMessage.m_defer_stamp m = false -> m {{ LXMessage.m_defer_stamp := false }} = m.
Proof. destruct m. cbn. by intros ->. Qed.

Lemma accept_step fresh m mode now x : deferred_ok x ->
  deferred_ok (handle_outbound false fresh m mode now x).1 /\
  in_hand (handle_outbound false fresh m mode now x).1 ≡ₚ
    in_hand x ++ [queued_form (settle_outbound fresh m now x).2].
Proof.
  intros [Hd Hr]. unfold handle_outbound. pose proof (settle_frame fresh m now x) as Hf. cbv zeta in Hf.
  destruct (settle_outbound fresh m now x) as [x1 m1]. cbn [fst snd] in *.
  destruct Hf as (Hq & Hp & Hs & Ho & _). destruct (LXMessage.m_defer_stamp m1) eqn:Hdef.
  - assert (Hok : forall D Sh, D = deferred_outbound x1 ++ [mkDeferred m1 mode] ->
      Sh = deferred_outbound_shared x1 ++ [mkDeferred m1 mode] ->
      map released D = processed_deferred x1 ++ map released Sh).
    { intros D Sh -> ->. rewrite !map_app, Ho, Hs, Hp, Hd. by rewrite <- app_assoc. }
    assert (Hhand : map q_message (queue x1) ++ map (fun i => set_state STATE_OUTBOUND (df_message i))
       (processed_deferred x1 ++ map released (deferred_outbound_shared x1 ++ [mkDeferred m1 mode]))
       ≡ₚ in_hand x ++ [queued_form m1]).
    { unfold in_hand. rewrite Hq, Hp, Hs, !map_app, <- !app_assoc. done. }
    cbn [fst]. unfold deferred_ok. destruct x1. rewrite <- Hp in Hr. split; [split|]; cbn in *; unfold constant.
    + by apply Hok.
    + done.
    + exact Hhand.
  - destruct (enqueue_hand m1 mode x1) as (Hq2 & Hp2 & Hs2 & Ho2 & _). cbv zeta in *.
    destruct (enqueue m1 mode x1) as [x2 id]. cbn [fst] in *. split.
    + unfold deferred_ok. by rewrite Ho2, Ho, Hp2, Hp, Hs2, Hs.
    + unfold in_hand, queued_form. rewrite set_defer_false by done. rewrite Hq2, Hq, Hp2, Hp, Hs2, Hs.
      rewrite <- !app_assoc. apply Permutation_app_head. by rewrite Permutation_app_comm.
Qed.

Lemma map_tail {A B} (f : A -> B) l : map f (tail l) = tail (map f l).
Proof. by destruct l. Qed.

Lemma receive_step n : forall x, deferred_ok x ->
  let x' := receive_processed n x in
  deferred_ok x' /\ in_hand x' ≡ₚ in_hand x /\ thread_active x' = thread_active x.
Proof.
  induction n as [|n IH]; intros x Hx; cbn [receive_processed]; [done|].
  destruct (processed_deferred x) as [|item rest] eqn:Hp; [done|].
  set (x1 := x {{ processed_deferred := rest }}).
  destruct (enqueue_hand (df_message item) (df_mode item) x1) as (Hq2 & Hp2 & Hs2 & Ho2 & Ha2). cbv zeta in *.
  destruct (enqueue (df_message item) (df_mode item) x1) as [x2 id]. cbn [fst] in *.
  set (x3 := x2 {{ deferred_outbound := tail (deferred_outbound x2) }}).
  assert (Hf : queue x3 = queue x2 /\ processed_deferred x3 = rest /\
    deferred_outbound_shared x3 = deferred_outbound_shared x /\
    deferred_outbound x3 = tail (deferred_outbound x) /\ thread_active x3 = thread_active x /\
    queue x1 = queue x).
  { assert (processed_deferred x1 = rest /\ deferred_outbound_shared x1 = deferred_outbound_shared x /\
      deferred_outbound x1 = deferred_outbound x /\ thread_active x1 = thread_active x /\ queue x1 = queue x)
      as (E1 & E2 & E3 & E4 & E5) by (subst x1; by destruct x).
    rewrite E1 in Hp2. rewrite E2 in Hs2. rewrite E3 in Ho2. rewrite E4 in Ha2.
    subst x3. rewrite <- Ho2. by destruct x2. }
  destruct Hf as (Hq3 & Hp3 & Hs3 & Ho3 & Ha3 & Hq1). destruct Hx as [Hd Hr]. rewrite Hp in Hd, Hr.
  destruct (IH x3) as (Hok & Hhand & Hact).
  { split; [|rewrite Hp3; by apply Forall_cons in Hr as [_ Hr]].
    by rewrite Ho3, map_tail, Hd, Hp3, Hs3. }
  split; [done|]. split; [|by rewrite Hact].
  rewrite Hhand. unfold in_hand. rewrite Hq3, Hq2, Hq1, Hp3, Hs3, Hp. cbn [map app].
  by rewrite <- app_assoc.
Qed.

Lemma deferred_step_ok o x x' : deferred_step o x x' -> deferred_ok x ->
  deferred_ok x' /\ in_hand x' ≡ₚ in_hand x ++ map queued_form (option_list o).
Proof.
  intros Hstep Hx. destruct Hstep as [x fresh m mode now|x locked Hl|x Ha|x Ha]; cbn [option_list map].
  - by apply accept_step.
  - rewrite app_nil_r. destruct (receive_step 100 x Hx) as (Hok & Hhand & _). cbv zeta in *.
    unfold stamps_job. cbv zeta. destruct (_ && _ && _); [|done].
    by destruct (receive_processed 100 x).
  - rewrite app_nil_r. destruct Hx as [Hd Hr]. unfold thread_body.
    destruct (deferred_outbound_shared x) as [|item rest] eqn:Hs; cbn [map] in Hd.
    + unfold deferred_ok, in_hand, queue. destruct x. cbn in *. unfold constant. subst. by split.
    + change (mkDeferred (release item) (df_mode item)) with (released item).
      assert (Hok : map released (deferred_outbound x) =
        (processed_deferred x ++ [released item]) ++ map released rest) by (by rewrite <- app_assoc).
      assert (Hf : Forall (fun i => released i = i) (processed_deferred x ++ [released item])).
      { apply Forall_app. split; [done|]. constructor; [|constructor]. destruct item as [[] ?]. done. }
      assert (Hh : map q_message (queue x) ++ map (fun i => set_state STATE_OUTBOUND (df_message i))
        ((processed_deferred x ++ [released item]) ++ map released rest) ≡ₚ in_hand x)
        by (unfold in_hand; rewrite Hs; by rewrite <- app_assoc).
      destruct x. by split.
  - rewrite app_nil_r. by destruct x.
Qed.

Lemma deferred_run_ok ms x x' : deferred_run ms x x' -> deferred_ok x ->
  deferred_ok x' /\ in_hand x' ≡ₚ in_hand x ++ map queued_form ms.
Proof.
  induction 1 as [x|ms o x y z _ IH Hstep]; intros Hx; [by rewrite app_nil_r|].
  destruct (IH Hx) as [Hy Hhand]. destruct (deferred_step_ok o y z Hstep Hy) as [Hz Hhand'].
  split; [done|]. by rewrite Hhand', Hhand, map_app, app_assoc.
Qed.

End Deferred.

(** C15. A deferred message is sent once.  However the router's jobs and the
    background thread interleave, as long as no message is accepted while the
    thread holds the shared queue, every message accepted is in exactly one
    place, the outbound queue, the thread's queue or its channel; so when the latter two are
    empty, the outbound queue has gained each accepted message once, and no
    message is left in the router's own list. *)
Theorem deferred_messages_sent_once `{Features} `{IdentityCrypto} `{Msgpack} `{HashIter} {S : Type}
  `{MessageStore S} (x x' : LxmfRouter.t S) (ms : list LXMessage.t)
  (Hx : LxmfRouter.deferred_outbound x = [] /\ LxmfRouter.deferred_outbound_shared x = [] /\
        LxmfRouter.processed_deferred x = [])
  (Hrun : deferred_run ms x x') :
  in_hand x' ≡ₚ map q_message (queue x) ++ map queued_form ms /\
  length (LxmfRouter.deferred_outbound x') =
    (length (LxmfRouter.processed_deferred x') + length (LxmfRouter.deferred_outbound_shared x'))%nat /\
  (LxmfRouter.processed_deferred x' = [] -> LxmfRouter.deferred_outbound_shared x' = [] ->
     map q_message (queue x') ≡ₚ map q_message (queue x) ++ map queued_form ms /\
     LxmfRouter.deferred_outbound x' = []).
Proof.
  destruct Hx as (Hd & Hs & Hp).
  assert (Hok : deferred_ok x) by (unfold deferred_ok; by rewrite Hd, Hs, Hp).
  destruct (deferred_run_ok ms x x' Hrun Hok) as [[Hm _] Hhand].
  assert (Hin : in_hand x = map q_message (queue x)) by (unfold in_hand; by rewrite Hs, Hp, app_nil_r).
  rewrite Hin in Hhand. split; [done|]. split.
  - apply (f_equal length) in Hm. by rewrite length_app, !length_map in Hm.
  - intros Hp' Hs'. unfold in_hand in Hhand. rewrite Hp', Hs' in Hhand, Hm. cbn in Hhand, Hm.
    rewrite app_nil_r in Hhand. split; [done|]. by destruct (LxmfRouter.deferred_outbound x').
Qed.

Definition deferring_message (title : byte) : LXMessage.t :=
  LXMessage.set_stamp_cost 8 sample_message {{ LXMessage.m_title := [title] }}.

Definition deferring_router : LxmfRouter.t InMemoryStore.t :=
  (LxmfRouter.handle_outbound false (arr_zero 16) (deferring_message x30) Direct 1000 sample_lxmf).1.

Lemma deferred_messages_sent_once_witness :
  length (LxmfRouter.deferred_outbound deferring_router) =
    (length (LxmfRouter.processed_deferred deferring_router)
     + length (LxmfRouter.deferred_outbound_shared deferring_router))%nat.
Proof.
  destruct (deferred_messages_sent_once sample_lxmf deferring_router
    ([] ++ option_list (Some (LxmfRouter.settle_outbound (arr_zero 16) (deferring_message x30) 1000 sample_lxmf).2)))
    as (_ & Hl & _).
  - repeat split.
  - eapply run_snoc; [apply run_nil|]. apply accept_deferred.
  - exact Hl.
Defined.

(** A message accepted while the thread holds the shared queue: the first
    message is with the thread, the second finds the queue locked, the third
    does not. *)
Definition contended_router : LxmfRouter.t InMemoryStore.t :=
  let x1 := LxmfRouter.stamps_job false deferring_router in
  let x2 := (LxmfRouter.handle_outbound true (arr_zero 16) (deferring_message x31) Direct 2000 x1).1 in
  let x3 := LxmfRouter.stamps_job false (LxmfRouter.thread_body x2) in
  let x4 := (LxmfRouter.handle_outbound false (arr_zero 16) (deferring_message x32) Direct 3000 x3).1 in
  let x5 := LxmfRouter.stamps_job false x4 in
  LxmfRouter.stamps_job false (LxmfRouter.thread_body x5).

(** The message accepted while the queue was locked is lost: after the
    thread has worked the others off, the outbound queue holds the first and
    third message, the thread and the channel have nothing left, and the
    router's own list holds the third again, which [process_deferred_stamps] then
    sends a second time. *)
Theorem contended_message_lost :
  map (fun item => LXMessage.m_title (q_message item)) (queue contended_router) = [[x30]; [x32]] /\
  LxmfRouter.deferred_outbound_shared contended_router = [] /\
  LxmfRouter.processed_deferred contended_router = [] /\
  map (fun item => LXMessage.m_title (q_message item))
    (queue (LxmfRouter.process_deferred_stamps 10 contended_router).1) = [[x30]; [x32]; [x32]].
Proof. vm_compute. repeat split. Qed.
