(* ===== verification/Router.v ===== *)
(** [LxmfRouter] of [lxmf-rs/src/rns/router.rs], whole: the propagation node.
    [messaging] and [downloads] are the fields that [Messaging] and [Links]
    model; here are the others, and the operations on propagated messages, on
    peers and their synchronisation, on control requests, and the tick that
    drives everything.

    [persistence_root] is the disk of [messaging].  Random draws, the random
    number of [sync_peers] and the time are arguments. *)

From Stdlib Require Import ZArith Lia Permutation.
From Stdlib Require Import Strings.Byte.
From stdpp Require Import base gmap strings numbers list.
From coqutil Require Import Datatypes.RecordSetters.
From S2P Require Import Prelude Float Msgpack Crypto Buffer Packet Identity Destination Link Stamp Message Rns.
From S2P Require Import Delivery Requests PnDirectory PropStore Peer PeerCodec StorageCodec StorageTables MessageStore.
From S2P Require Import PropDisk Links Tickets Outbound Runtime Messaging.
Import DoubleBraceUpdate.

Local Open Scope Z_scope.

Definition PEER_SYNC_TIMEOUT_MS : Z := 5 * 60 * 1000.
Definition PEER_SYNC_PATH : string := "lxmf/peer/sync".
Definition CONTROL_STATS_PATH : string := "/pn/get/stats".
Definition CONTROL_SYNC_PATH : string := "/pn/peer/sync".
Definition CONTROL_UNPEER_PATH : string := "/pn/peer/unpeer".
Definition NODE_ANNOUNCE_DELAY : Z := 20.
Definition FASTEST_N_RANDOM_POOL : nat := 2.
Definition MAX_UNREACHABLE : Z := 14 * 24 * 60 * 60.
Definition CONTROL_ERROR_NO_IDENTITY : Z := 0xf0.
Definition CONTROL_ERROR_NO_ACCESS : Z := 0xf1.
Definition CONTROL_ERROR_INVALID_DATA : Z := 0xf4.
Definition CONTROL_ERROR_NOT_FOUND : Z := 0xfd.

(** [f64] literals of the source. *)
Definition f64_tenth : f64 := f64_div (f64_of_Z 1) (f64_of_Z 10).
Definition ROTATION_HEADROOM_PCT : f64 := f64_of_Z 10.
Definition ROTATION_AR_MAX : f64 := f64_div (f64_of_Z 1) (f64_of_Z 2).

Record PeerSyncPending : Type := mkSyncPending {
  sp_peer_id : arr 16;
  sp_request : PeerSyncRequest
}.

Module Router.

Record t (S : Type) `{IC : IdentityCrypto} : Type := mk {
  messaging : LxmfRouter.t S;
  downloads : Downloads.t;
  peers : gmap (arr 16) Peer;
  static_peers : gset (arr 16);
  allowed_identities : gset (arr 16);
  auth_required : bool;
  pn_directory : PnDirectory;
  propagation_store : PropagationStore.t;
  propagation_store_limit_bytes : option Z;
  propagation_prioritised : gset (arr 16);
  node_stats : NodeStats;
  peer_sync_queue : list (arr 16 * PeerSyncRequest);
  peer_sync_pending : gmap (arr 16) PeerSyncPending;
  peer_sync_responses : list (arr 16 * RnsResponse);
  peer_sync_outbound : list (arr 16 * RnsRequest);
  control_responses : list (arr 16 * RnsResponse);
  control_allowed : gset (arr 16);
  propagation_node_enabled : bool;
  propagation_started_ms : Z;
  delivery_transfer_limit_kb : f64;
  propagation_transfer_limit_kb : f64;
  propagation_sync_limit_kb : f64;
  max_peering_cost : Z;
  max_peers : option Z;
  autopeer_maxdepth : option Z;
  from_static_only : bool;
  peering_validation : option PeeringValidation;
  propagation_validation : option PropagationValidation;
  prioritise_rotating_unreachable_peers : bool;
  peer_distribution_queue : list (TransientId * option (arr 16));
  throttled_peers : gmap (arr 16) Z;
  name : option string;
  autopeer : bool;
  pn_announce_queue : list (list byte * Z)
}.
Arguments messaging {S _ _} _.
Arguments downloads {S _ _} _.
Arguments peers {S _ _} _.
Arguments static_peers {S _ _} _.
Arguments allowed_identities {S _ _} _.
Arguments auth_required {S _ _} _.
Arguments pn_directory {S _ _} _.
Arguments propagation_store {S _ _} _.
Arguments propagation_store_limit_bytes {S _ _} _.
Arguments propagation_prioritised {S _ _} _.
Arguments node_stats {S _ _} _.
Arguments peer_sync_queue {S _ _} _.
Arguments peer_sync_pending {S _ _} _.
Arguments peer_sync_responses {S _ _} _.
Arguments peer_sync_outbound {S _ _} _.
Arguments control_responses {S _ _} _.
Arguments control_allowed {S _ _} _.
Arguments propagation_node_enabled {S _ _} _.
Arguments propagation_started_ms {S _ _} _.
Arguments delivery_transfer_limit_kb {S _ _} _.
Arguments propagation_transfer_limit_kb {S _ _} _.
Arguments propagation_sync_limit_kb {S _ _} _.
Arguments max_peering_cost {S _ _} _.
Arguments max_peers {S _ _} _.
Arguments autopeer_maxdepth {S _ _} _.
Arguments from_static_only {S _ _} _.
Arguments peering_validation {S _ _} _.
Arguments propagation_validation {S _ _} _.
Arguments prioritise_rotating_unreachable_peers {S _ _} _.
Arguments peer_distribution_queue {S _ _} _.
Arguments throttled_peers {S _ _} _.
Arguments name {S _ _} _.
Arguments autopeer {S _ _} _.
Arguments pn_announce_queue {S _ _} _.

Section Operations.
Context `{F : Features} `{IC : IdentityCrypto} `{M : Msgpack} `{D : F64Display} `{P : F64Parse} `{HI : HashIter}.
Context {S : Type} `{MS : MessageStore S}.
Abbreviation node := (t S).

Definition runtime (x : node) : LxmfRuntime.t S := LxmfRouter.runtime (messaging x).

(** [RnsRouter::local_identity_hash] *)
Definition local_identity_hash (r : RnsRouter.t S) : arr 16 :=
  Identity.address_hash (PrivateIdentity.identity (in_identity (RnsOutbound.source (RnsRouter.delivery r)))).

Definition with_config (router : RnsRouter.t S) (config : RuntimeConfig) (system_now_ms : Z) : node :=
  let local := local_identity_hash router in
  mk S _ _ (LxmfRouter.with_config router config) Downloads.new PeerTable.new ∅ ∅ false PnDir.new
    PropagationStore.new None ∅ (mkStats 0 0 0 0) [] ∅ [] [] [] {[local]} false system_now_ms
    (f64_of_Z 1000) (f64_of_Z 256) (f64_mul (f64_of_Z 256) (f64_of_Z 40)) 26 None None false
    (Some (mkPeeringValidation local DEFAULT_PEERING_COST))
    (Some (mkPropagationValidation DEFAULT_PROPAGATION_STAMP_COST DEFAULT_PROPAGATION_STAMP_FLEX))
    false [] ∅ (rc_name config) (default true (rc_autopeer config)) [].

Definition with_messaging (f : LxmfRouter.t S -> LxmfRouter.t S) (x : node) : node :=
  x {{ messaging := f (messaging x) }}.

Definition on_disk (f : FileMessageStore.t -> FileMessageStore.t) : node -> node :=
  with_messaging (fun m => m {{ LxmfRouter.persistence := f <$> LxmfRouter.persistence m }}).

Definition mark_locally_processed (transient_id : TransientId) (now_ms : Z) : node -> node :=
  with_messaging (LxmfRouter.mark_locally_processed transient_id now_ms).

(** [self.peers.upsert(id, now_ms)] and a change of the peer it hands out. *)
Definition on_peer (id : arr 16) (now_ms : Z) (f : Peer -> Peer) (x : node) : node :=
  let '(ps, p) := PeerTable.upsert id now_ms (peers x) in
  x {{ peers := <[id := f p]> ps }}.

Definition upsert_peer (id : arr 16) (now_ms : Z) : node -> node := on_peer id now_ms (fun p => p).

(** The queues the caller empties, from the front. *)
Definition pop_peer_sync_request (x : node) : node * option (arr 16 * PeerSyncRequest) :=
  (x {{ peer_sync_queue := tail (peer_sync_queue x) }}, head (peer_sync_queue x)).
Definition pop_peer_sync_response (x : node) : node * option (arr 16 * RnsResponse) :=
  (x {{ peer_sync_responses := tail (peer_sync_responses x) }}, head (peer_sync_responses x)).
Definition pop_peer_sync_outbound (x : node) : node * option (arr 16 * RnsRequest) :=
  (x {{ peer_sync_outbound := tail (peer_sync_outbound x) }}, head (peer_sync_outbound x)).
Definition pop_control_response (x : node) : node * option (arr 16 * RnsResponse) :=
  (x {{ control_responses := tail (control_responses x) }}, head (control_responses x)).

(** * Settings *)

Definition enable_propagation_node (enable : bool) (now_ms : Z) (x : node) : node :=
  x {{ propagation_node_enabled := enable;
       propagation_started_ms := if enable then now_ms else propagation_started_ms x }}.

Definition set_transfer_limits_kb (delivery_limit propagation_limit sync_limit : f64) (x : node) : node :=
  x {{ delivery_transfer_limit_kb := f64_max delivery_limit f64_zero;
       propagation_transfer_limit_kb := f64_max propagation_limit f64_zero;
       propagation_sync_limit_kb := f64_max sync_limit f64_zero }}.

Definition set_message_storage_limit (kilobytes megabytes gigabytes : option Z) (x : node) : node :=
  let add limit o scale := match o with Some n => sat_add64 limit (sat_mul64 n scale) | None => limit end in
  let limit := add (add (add 0 kilobytes 1000) megabytes (1000 * 1000)) gigabytes (1000 * 1000 * 1000) in
  x {{ propagation_store_limit_bytes := if limit =? 0 then None else Some limit }}.

Definition set_max_peers (max : option Z) (x : node) : node := x {{ max_peers := max }}.
Definition set_static_peers (ids : list (arr 16)) (x : node) : node := x {{ static_peers := list_to_set ids }}.
Definition set_control_allowed (ids : list (arr 16)) (x : node) : node := x {{ control_allowed := list_to_set ids }}.
Definition set_allowed_identities (ids : list (arr 16)) (x : node) : node :=
  x {{ allowed_identities := list_to_set ids }}.
Definition set_from_static_only (b : bool) (x : node) : node := x {{ from_static_only := b }}.
Definition set_autopeer_maxdepth (maxdepth : option Z) (x : node) : node := x {{ autopeer_maxdepth := maxdepth }}.
Definition set_autopeer (b : bool) (x : node) : node := x {{ autopeer := b }}.
Definition set_enforce_stamps (enforce : bool) : node -> node :=
  with_messaging (fun m => m {{ LxmfRouter.enforce_stamps := enforce }}).
Definition set_max_peering_cost (max_cost : Z) (x : node) : node := x {{ max_peering_cost := max_cost }}.
Definition set_name (n : option string) (x : node) : node := x {{ name := n }}.
Definition allow_control (id : arr 16) (x : node) : node := x {{ control_allowed := {[id]} ∪ control_allowed x }}.
Definition allow_identity (id : arr 16) (x : node) : node :=
  x {{ allowed_identities := {[id]} ∪ allowed_identities x }}.
Definition set_authentication (required : bool) (x : node) : node := x {{ auth_required := required }}.
Definition prioritise_destination (id : arr 16) (x : node) : node :=
  x {{ propagation_prioritised := {[id]} ∪ propagation_prioritised x }}.
Definition unprioritise_destination (id : arr 16) (x : node) : node :=
  x {{ propagation_prioritised := propagation_prioritised x ∖ {[id]} }}.
Definition set_peering_validation (local : arr 16) (target_cost : Z) (x : node) : node :=
  x {{ peering_validation := Some (mkPeeringValidation local target_cost) }}.
Definition clear_peering_validation (x : node) : node := x {{ peering_validation := None }}.
Definition set_propagation_validation (cost flex : Z) (x : node) : node :=
  x {{ propagation_validation := Some (mkPropagationValidation cost flex) }}.
Definition clear_propagation_validation (x : node) : node := x {{ propagation_validation := None }}.

(** * Propagated messages *)

Definition persist_propagation_entry (entry : PropagationEntry) : node -> node :=
  on_disk (PropagationFiles.save_propagation_entry entry).

Definition remove_propagation_entry_exact (entry : PropagationEntry) (x : node) : node :=
  on_disk (match PropagationStore.filename (propagation_store x) (pe_transient_id entry) with
           | Some filename => PropagationFiles.remove_propagation_entry_named filename
           | None => PropagationFiles.remove_propagation_entry (pe_transient_id entry)
           end) x.

(** [if let Some(entry) = get(id) { remove its file }; store.remove(id)] *)
Definition remove_message (x : node) (id : TransientId) : node :=
  let x := match PropagationStore.get (propagation_store x) id with
           | Some entry => remove_propagation_entry_exact entry x
           | None => x
           end in
  x {{ propagation_store := (PropagationStore.remove id (propagation_store x)).1 }}.

(** The least stamp the node accepts. *)
Definition min_stamp_cost (x : node) : option Z :=
  (fun v => sat_sub (prop_stamp_cost v) (prop_stamp_cost_flex v)) <$> propagation_validation x.

(** The entry with its identifier and data from the checked stamp; [None] when
    the stamp is not good enough. *)
Definition checked_entry (x : node) (entry : PropagationEntry) : option PropagationEntry :=
  match min_stamp_cost x with
  | None => Some entry
  | Some cost =>
      '(transient_id, lxm_unstamped, _, stamp) ← validate_pn_stamp (pe_lxm_data entry) cost;
      Some (entry {{ pe_transient_id := transient_id; pe_lxm_data := lxm_unstamped ++ stamp }})
  end.

Definition seen (x : node) (id : TransientId) : bool :=
  PropagationStore.has (propagation_store x) id
  || bool_decide (is_Some (LxmfRouter.locally_processed (messaging x) !! id)).

(** Into the store, onto the disk, and into the table of processed messages. *)
Definition keep (entry : PropagationEntry) (now_ms : Z) (x : node) : node :=
  mark_locally_processed (pe_transient_id entry) now_ms
    (persist_propagation_entry entry (x {{ propagation_store := PropagationStore.insert entry (propagation_store x) }})).

Definition count_received (entry : PropagationEntry) (source_hash : option (arr 16)) (count_client_receive : bool)
    (x : node) : node :=
  let s := node_stats x in
  if count_client_receive then
    x {{ node_stats := s {{ client_propagation_messages_received :=
                              sat_add64 (client_propagation_messages_received s) 1 }} }}
  else
    match source_hash with
    | Some source =>
        if bool_decide (is_Some (peers x !! source)) then x
        else x {{ node_stats := s {{ unpeered_propagation_incoming := sat_add64 (unpeered_propagation_incoming s) 1;
                                     unpeered_propagation_rx_bytes :=
                                       sat_add64 (unpeered_propagation_rx_bytes s)
                                         (Z.of_nat (length (pe_lxm_data entry))) }} }}
    | None => x
    end.

Definition process_propagated (timestamp : f64) (lxm_data : list byte) (now_ms : Z) (source_hash : option (arr 16))
    (count_client_receive : bool) (x : node) : node * option TransientId :=
  let entry := mkPropEntry (full_hash lxm_data) lxm_data timestamp (data_destination lxm_data) None
                 (Some (Z.of_nat (length lxm_data))) in
  match checked_entry x entry with
  | None => (x, None)
  | Some entry =>
      if seen x (pe_transient_id entry) then (x, None)
      else (keep entry now_ms (count_received entry source_hash count_client_receive x),
            Some (pe_transient_id entry))
  end.

Fixpoint process_all (timestamp : f64) (messages : list (list byte)) (now_ms : Z) (source_hash : option (arr 16))
    (count_client_receive : bool) (x : node) : node * list TransientId :=
  match messages with
  | [] => (x, [])
  | msg :: messages =>
      let '(x, id) := process_propagated timestamp msg now_ms source_hash count_client_receive x in
      let '(x, ids) := process_all timestamp messages now_ms source_hash count_client_receive x in
      (x, option_list id ++ ids)
  end.

(** A peer that sends several messages shows its key. *)
Definition peer_may_send (remote_hash : option (arr 16)) (peering_key : option (list byte)) (x : node) : bool :=
  match peering_validation x, remote_hash with
  | Some v, Some remote =>
      match peering_key with
      | Some key => validate_peering_key (arr_list (Peer.local_identity_hash v) ++ arr_list remote) key (pv_target_cost v)
      | None => false
      end
  | _, _ => true
  end.

Definition process_propagation_resource (remote_hash : option (arr 16)) (peering_key : option (list byte))
    (messages : list (list byte)) (transfer_limit_kb : option f64) (now_ms : Z) (x : node) :
    node * list TransientId :=
  let total_bytes := Z.of_nat (sum_list (map length messages)) in
  let several := Nat.ltb 1 (length messages) in
  if bool_decide (messages = []) then (x, [])
  else if auth_required x
          && negb (match remote_hash with Some h => bool_decide (h ∈ allowed_identities x) | None => false end)
  then (x, [])
  else if several && bool_decide (remote_hash = None) then (x, [])
  else if match transfer_limit_kb with
          | Some limit_kb => f64_to_u64 (f64_mul limit_kb (f64_of_Z 1000)) <? total_bytes
          | None => false
          end then (x, [])
  else if several && negb (peer_may_send remote_hash peering_key x) then
    (match remote_hash with
     | Some remote => on_peer remote now_ms (fun p => (Peer.on_failure now_ms p).1) x
     | None => x
     end, [])
  else
    process_all (f64_div (f64_of_Z now_ms) (f64_of_Z 1000)) messages now_ms remote_hash
      (bool_decide (remote_hash = None)) x.

Definition handle_propagation_resource_payload (remote_hash : option (arr 16)) (peering_key : option (list byte))
    (transfer_limit_kb : option f64) (payload : list byte) (now_ms : Z) (x : node) :
    node * result RnsError (list TransientId) :=
  match decode_propagation_resource_payload payload with
  | Err e => (x, Err e)
  | Ok messages =>
      let '(x, ids) := process_propagation_resource remote_hash peering_key messages transfer_limit_kb now_ms x in
      (x, Ok ids)
  end.

(** * Cleaning the store *)

Definition entry_expired (now_s : f64) (e : PropagationEntry) : bool :=
  negb (f64_is_finite (pe_timestamp e)) || f64_leb (pe_timestamp e) f64_zero
  || f64_ltb (f64_add (pe_timestamp e) (f64_of_Z MESSAGE_EXPIRY)) now_s.

Definition expired_ids (now_s : f64) (x : node) : list TransientId :=
  (filter (fun kv => entry_expired now_s kv.2 = true)
     (hash_iter (PropagationStore.entries (propagation_store x)))).*1.

(** Old and large messages weigh most, those to a prioritised destination a
    tenth. *)
Definition message_weight (now_s : f64) (prioritised : gset (arr 16)) (e : PropagationEntry) : f64 :=
  let age_days := f64_div (f64_div (f64_div (f64_max (f64_sub now_s (pe_timestamp e)) f64_zero) (f64_of_Z 60))
                    (f64_of_Z 60)) (f64_of_Z 24) in
  let age_weight := f64_max (f64_div age_days (f64_of_Z 4)) (f64_of_Z 1) in
  let priority_weight :=
    match data_destination (pe_lxm_data e) with
    | Some dest => if bool_decide (dest ∈ prioritised) then f64_tenth else f64_of_Z 1
    | None => f64_of_Z 1
    end in
  f64_mul (f64_mul priority_weight age_weight) (f64_of_Z (Z.of_nat (length (pe_lxm_data e)))).

(** The sort is stable and descending; weights that do not compare are equal. *)
Definition by_weight (a b : f64 * TransientId * nat) : bool := negb (f64_ltb a.1.1 b.1.1).

Definition weighted_entries (now_s : f64) (x : node) : list (f64 * TransientId * nat) :=
  sort_by by_weight
    (map (fun kv => (message_weight now_s (propagation_prioritised x) kv.2, kv.1, length (pe_lxm_data kv.2)))
       (hash_iter (PropagationStore.entries (propagation_store x)))).

Fixpoint make_room (bytes_needed cleaned_bytes : Z) (weighted : list (f64 * TransientId * nat)) (x : node) :
    node * nat :=
  match weighted with
  | [] => (x, O)
  | (_, id, size) :: weighted =>
      if bytes_needed <=? cleaned_bytes then (x, O)
      else if PropagationStore.has (propagation_store x) id then
        let '(x, n) := make_room bytes_needed (sat_add64 cleaned_bytes (Z.of_nat size)) weighted
                         (remove_message x id) in
        (x, Datatypes.S n)
      else make_room bytes_needed cleaned_bytes weighted x
  end.

Definition clean_propagation_store (now_ms : Z) (x : node) : node * nat :=
  let now_s := TicketStore.now_s now_ms in
  let removed_ids := expired_ids now_s x in
  let x := foldl remove_message x removed_ids in
  match propagation_store_limit_bytes x with
  | Some limit_bytes =>
      let total_bytes := Z.of_nat (PropagationStore.total_size_bytes (propagation_store x)) in
      if limit_bytes <? total_bytes then
        let '(x, n) := make_room (total_bytes - limit_bytes) 0 (weighted_entries now_s x) x in
        (x, length removed_ids + n)%nat
      else (x, length removed_ids)
  | None => (x, length removed_ids)
  end.

Definition cleanup_propagation (now_ms max_age_ms : Z) (x : node) : node * nat :=
  let '(store, n) := PropagationStore.remove_older_than now_ms max_age_ms (propagation_store x) in
  (x {{ propagation_store := store }}, n).

(** * Announces *)

Definition get_propagation_node_announce_metadata (x : node) : list (Z * list byte) :=
  match name x with Some n => [(PN_META_NAME, bytes_of_string n)] | None => [] end.

Definition announce_value (x : node) : Value :=
  let v := default (mkPropagationValidation DEFAULT_PROPAGATION_STAMP_COST DEFAULT_PROPAGATION_STAMP_FLEX)
             (propagation_validation x) in
  let peering_cost := match peering_validation x with Some v => pv_target_cost v | None => DEFAULT_PEERING_COST end in
  VArray [Boolean false;
          Integer (propagation_started_ms x / 1000);
          Boolean (propagation_node_enabled x && negb (from_static_only x));
          Integer (f64_to_u64 (propagation_transfer_limit_kb x));
          Integer (f64_to_u64 (propagation_sync_limit_kb x));
          VArray [Integer (prop_stamp_cost v); Integer (prop_stamp_cost_flex v); Integer peering_cost];
          VMap (map (fun kv => (Integer kv.1, Binary kv.2)) (get_propagation_node_announce_metadata x))].

(** [unwrap] on the encoder's result panics. *)
Definition get_propagation_node_app_data (x : node) : result (fault RnsError) (list byte) :=
  match write_value (announce_value x) with Ok buf => Ok buf | Err _ => Err Panics end.

Definition announce_propagation_node (now_ms : Z) (x : node) : result (fault RnsError) node :=
  app_data ← get_propagation_node_app_data x;
  Ok (x {{ pn_announce_queue := pn_announce_queue x ++ [(app_data, as_u64 (now_ms + NODE_ANNOUNCE_DELAY * 1000))] }}).

Definition pop_pn_announce (now_ms : Z) (x : node) : node * option (list byte) :=
  match pn_announce_queue x with
  | (app_data, scheduled) :: rest =>
      if scheduled <=? now_ms then (x {{ pn_announce_queue := rest }}, Some app_data) else (x, None)
  | [] => (x, None)
  end.

(** * Peers *)

Definition unpeer (peer_id : arr 16) (x : node) : node * bool :=
  match peers x !! peer_id with
  | Some _ => (on_disk (FileMessageStore.remove_peer peer_id) (x {{ peers := delete peer_id (peers x) }}), true)
  | None => (x, false)
  end.

Definition unpeer_all (ids : list (arr 16)) (x : node) : node := foldl (fun x id => (unpeer id x).1) x ids.

Definition request_peer_sync (peer_id : arr 16) (now_ms : Z) (x : node) : node * bool :=
  match peers x !! peer_id with
  | Some p => (x {{ peers := <[peer_id := p {{ next_sync_ms := now_ms; p_state := Idle }}]> (peers x) }}, true)
  | None => (x, false)
  end.

Definition add_throttled_peer (peer_id : arr 16) (expiry_ms : Z) (x : node) : node :=
  x {{ throttled_peers := <[peer_id := expiry_ms]> (throttled_peers x) }}.

Definition clean_throttled_peers (now_ms : Z) (x : node) : node :=
  x {{ throttled_peers := filter (fun kv => kv.2 <? now_ms = false) (throttled_peers x) }}.

Definition is_peer_throttled (peer_id : arr 16) (now_ms : Z) (x : node) : bool :=
  match throttled_peers x !! peer_id with Some expiry_ms => now_ms <=? expiry_ms | None => false end.

Definition poll_peer_timeout (now_ms : Z) (p : Peer) : Peer :=
  if (bool_decide (p_state p = OfferSent) || bool_decide (p_state p = AwaitingPayload))
     && (PEER_SYNC_TIMEOUT_MS <=? sat_sub now_ms (last_attempt_ms p))
  then (Peer.on_timeout now_ms p).1 else p.

Definition poll_peer_sync_timeouts (now_ms : Z) (x : node) : node :=
  x {{ peers := poll_peer_timeout now_ms <$> peers x }}.

Definition handle_request_timeout (now_ms : Z) (x : node) (request_id : arr 16) : node :=
  match peer_sync_pending x !! request_id with
  | Some pending =>
      on_peer (sp_peer_id pending) now_ms (fun p => (Peer.on_timeout now_ms p).1)
        (x {{ peer_sync_pending := delete request_id (peer_sync_pending x) }})
  | None => x
  end.

Definition handle_request_timeouts (timeouts : list (arr 16)) (now_ms : Z) (x : node) : node :=
  foldl (handle_request_timeout now_ms) x timeouts.

(** * Synchronisation: offers *)

Definition peering_id_for_peer (peer_id : arr 16) (x : node) : option (arr 32) :=
  v ← peering_validation x;
  Some (arr_of 32 (arr_list (Peer.local_identity_hash v) ++ arr_list peer_id)).

Definition peering_key_for_peer (draws : Z -> arr 32) (peer_id : arr 16) (x : node) : list byte :=
  match peering_validation x, peering_id_for_peer peer_id x with
  | Some v, Some peering_id =>
      let cost := if 15 <? pv_target_cost v then 15 else pv_target_cost v in
      default [] (generate_peering_key draws peering_id cost)
  | _, _ => []
  end.

Definition offer_sent (peering_key : list byte) (available : list TransientId) (now_ms : Z) (p : Peer) : Peer :=
  let p := (Peer.on_offer_sent now_ms p).1 in
  p {{ messages_offered := sat_add64 (messages_offered p) (Z.of_nat (length available));
       Peer.peering_key := Some peering_key }}.

Definition peer_sync_offer (peer_id : arr 16) (peering_key : list byte) (now_ms : Z) (x : node) :
    node * PeerSyncRequest :=
  let available := PropagationStore.list_ids (propagation_store x) in
  (on_peer peer_id now_ms (offer_sent peering_key available now_ms) x, Offer peering_key available).

Definition schedule_peer_sync (draws : Z -> arr 32) (now_ms : Z) (x : node) : node :=
  match PeerTable.next_ready now_ms (peers x) with
  | None => x
  | Some peer_id =>
      let key := match peers x !! peer_id with
                 | Some p => match Peer.peering_key p with
                             | Some key => key
                             | None => peering_key_for_peer draws peer_id x
                             end
                 | None => peering_key_for_peer draws peer_id x
                 end in
      let '(x, req) := peer_sync_offer peer_id key now_ms x in
      x {{ peer_sync_queue := peer_sync_queue x ++ [(peer_id, req)] }}
  end.

(** [peering_key] is the first field of an offer. *)
Definition handle_peer_sync_offer (peer_id : arr 16) (req : PeerSyncRequest) (now_ms : Z) (x : node) :
    node * PeerSyncResponse :=
  match req with
  | Offer key available =>
      let wants := filter (fun id => PropagationStore.has (propagation_store x) id = false) available in
      if match peering_validation x with
         | Some v => negb (validate_peering_key (arr_list (Peer.local_identity_hash v) ++ arr_list peer_id) key
                             (pv_target_cost v))
         | None => false
         end
      then (on_peer peer_id now_ms (fun p => (Peer.on_failure now_ms p).1) x, RError PEER_ERROR_INVALID_KEY)
      else
        let idle := bool_decide (wants = []) in
        (on_peer peer_id now_ms (fun p => p {{ last_attempt_ms := now_ms;
                                               p_state := if idle then Idle else AwaitingPayload }}) x,
         if idle then RBool false else RIdList wants)
  | _ => (x, RError 0x01)
  end.

Definition peer_sync_message_get (peer_id : arr 16) (response : PeerSyncResponse) (transfer_limit_kb : option f64)
    (now_ms : Z) (x : node) : node * option PeerSyncRequest :=
  let wants := match response with
               | RIdList ids => ids
               | RBool true => PropagationStore.list_ids (propagation_store x)
               | _ => []
               end in
  if bool_decide (wants = []) then (x, None)
  else (on_peer peer_id now_ms (fun p => p {{ last_attempt_ms := now_ms; p_state := AwaitingPayload }}) x,
        Some (MessageGet wants (PropagationStore.list_ids (propagation_store x)) transfer_limit_kb)).

(** * Synchronisation: messages *)

(** The wanted entries that can be written, as long as they fit the limit. *)
Fixpoint collect_items (store : PropagationStore.t) (limit : option Z) (wants : list TransientId) (total_bytes : Z) :
    list (list byte) * Z :=
  match wants with
  | [] => ([], total_bytes)
  | id :: wants =>
      match PropagationStore.get store id ≫= (fun entry => res_ok (propagation_entry_to_bytes entry)) with
      | Some bytes =>
          let total := sat_add64 total_bytes (Z.of_nat (length bytes)) in
          if match limit with Some limit => limit <? total | None => false end
          then collect_items store limit wants total_bytes
          else let '(items, total) := collect_items store limit wants total in (bytes :: items, total)
      | None => collect_items store limit wants total_bytes
      end
  end.

Definition handle_peer_sync_message_get (peer_id : arr 16) (req : PeerSyncRequest) (x : node) :
    node * PeerSyncResponse :=
  match req with
  | MessageGetList => (x, RIdList (PropagationStore.list_ids (propagation_store x)))
  | MessageGet wants _ transfer_limit_kb =>
      let limit := (fun kb => f64_to_u64 (f64_mul kb (f64_of_Z 1000))) <$> transfer_limit_kb in
      let '(items, total_bytes) := collect_items (propagation_store x) limit wants 0 in
      let n := Z.of_nat (length items) in
      let s := node_stats x in
      (x {{ peers := PeerTable.update (fun p => p {{ messages_outgoing := sat_add64 (messages_outgoing p) n;
                                                     tx_bytes := sat_add64 (tx_bytes p) total_bytes }})
                       peer_id (peers x);
            node_stats := s {{ client_propagation_messages_served :=
                                 sat_add64 (client_propagation_messages_served s) n }} }},
       RPayload items)
  | _ => (x, RError 0x01)
  end.

(** One item of a payload: the identifiers delivered so far, the items refused
    and the bytes received. *)
Definition apply_item (now_ms : Z) (acc : node * list TransientId * Z * Z) (item : list byte) :
    node * list TransientId * Z * Z :=
  let '(x, delivered, invalid, received) := acc in
  let received := sat_add64 received (Z.of_nat (length item)) in
  match propagation_entry_from_bytes item with
  | Err _ => (x, delivered, invalid, received)
  | Ok entry =>
      match checked_entry x entry with
      | None => (x, delivered, invalid + 1, received)
      | Some entry =>
          (if seen x (pe_transient_id entry) then x else keep entry now_ms x,
           delivered ++ [pe_transient_id entry], invalid, received)
      end
  end.

Definition payload_received (delivered : list TransientId) (invalid received now_ms : Z) (p : Peer) : Peer :=
  let p := p {{ messages_incoming := sat_add64 (messages_incoming p) (Z.of_nat (length delivered));
                messages_unhandled := invalid;
                rx_bytes := sat_add64 (rx_bytes p) received }} in
  let p := if 0 <? invalid then Peer.throttle now_ms PROPAGATION_INVALID_STAMP_THROTTLE_MS p else p in
  if invalid =? 0 then (Peer.on_payload_complete now_ms p).1 else p.

Definition apply_peer_sync_payload (peer_id : arr 16) (response : PeerSyncResponse) (now_ms : Z) (x : node) :
    node * option PeerSyncRequest :=
  let items := match response with RPayload items => items | _ => [] end in
  let '(x, delivered, invalid, received) := foldl (apply_item now_ms) (x, [], 0, 0) items in
  (on_peer peer_id now_ms (payload_received delivered invalid received now_ms) x,
   if bool_decide (delivered = []) then None else Some (MessageAck delivered)).

Definition handle_peer_sync_ack (peer_id : arr 16) (req : PeerSyncRequest) (now_ms : Z) (x : node) :
    node * PeerSyncResponse :=
  match req with
  | MessageAck delivered =>
      (on_peer peer_id now_ms (fun p => (Peer.on_payload_complete now_ms p).1) (foldl remove_message x delivered),
       RBool true)
  | _ => (x, RError 0x01)
  end.

Definition apply_peer_sync_response (peer_id : arr 16) (response : PeerSyncResponse) (now_ms : Z) (x : node) : node :=
  on_peer peer_id now_ms (fun p => (Peer.on_offer_response response now_ms p).1) x.

(** * Synchronisation: requests and responses *)

Definition build_peer_sync_request (peer_id : arr 16) (req : PeerSyncRequest) (now_ms : Z) (x : node) :
    node * result (fault RnsError) RnsRequest :=
  match encode_peer_sync_request req with
  | Err e => (x, Err (Fails e))
  | Ok bytes =>
      let '(requests, r) := RnsRequestManager.register_request peer_id (Some PEER_SYNC_PATH) (Binary bytes) now_ms
                              PEER_SYNC_TIMEOUT_MS (LxmfRuntime.requests (runtime x)) in
      let x := with_messaging (fun m => m {{ LxmfRouter.runtime :=
                 (LxmfRouter.runtime m) {{ LxmfRuntime.requests := requests }} }}) x in
      match r with
      | Ok request =>
          (x {{ peer_sync_pending := <[req_request_id request := mkSyncPending peer_id req]> (peer_sync_pending x) }},
           Ok request)
      | Err e => (x, Err e)
      end
  end.

Fixpoint dispatch_peer_sync_requests (reqs : list (arr 16 * PeerSyncRequest)) (now_ms : Z) (x : node) :
    node * result (fault RnsError) (list (RnsRequest * arr 16)) :=
  match reqs with
  | [] => (x, Ok [])
  | (peer_id, req) :: reqs =>
      let '(x, r) := build_peer_sync_request peer_id req now_ms x in
      match r with
      | Err Panics => (x, Err Panics)
      | _ =>
          let '(x, rest) := dispatch_peer_sync_requests reqs now_ms x in
          (x, out ← rest; Ok (match r with Ok request => [(request, peer_id)] | Err _ => [] end ++ out))
      end
  end.

Definition handle_peer_sync_request_bytes (peer_id : arr 16) (payload : list byte) (now_ms : Z) (x : node) :
    node * result RnsError (list byte) :=
  let x := on_peer peer_id now_ms (Peer.mark_heard now_ms) x in
  match decode_peer_sync_request payload with
  | Err e => (x, Err e)
  | Ok req =>
      let '(x, response) :=
        match req with
        | Offer _ _ =>
            let '(x, response) := handle_peer_sync_offer peer_id req now_ms x in
            let '(x, msg_get) := peer_sync_message_get peer_id response None now_ms x in
            (match msg_get with
             | Some get => x {{ peer_sync_queue := peer_sync_queue x ++ [(peer_id, get)] }}
             | None => x
             end, response)
        | MessageGetList | MessageGet _ _ _ => handle_peer_sync_message_get peer_id req x
        | MessageAck _ => handle_peer_sync_ack peer_id req now_ms x
        end in
      (x, encode_peer_sync_response response)
  end.

Definition handle_peer_sync_request (peer_id : arr 16) (req : RnsRequest) (now_ms : Z) (x : node) :
    node * result RnsError RnsResponse :=
  match value_to_bytes (req_data req) with
  | None => (x, Err (RnsMsgpack "peer sync request data must be binary"))
  | Some payload =>
      let '(x, r) := handle_peer_sync_request_bytes peer_id payload now_ms x in
      (x, bytes ← r; Ok (mkResponse (req_request_id req) (Binary bytes)))
  end.

Definition handle_peer_sync_response_bytes_with_peer (request_id : arr 16) (payload : list byte) (now_ms : Z)
    (x : node) : node * result (fault RnsError) (option (arr 16 * RnsRequest)) :=
  match peer_sync_pending x !! request_id with
  | None => (x, Ok None)
  | Some pending =>
      let x := x {{ peer_sync_pending := delete request_id (peer_sync_pending x) }} in
      let peer_id := sp_peer_id pending in
      match decode_peer_sync_response payload with
      | Err e => (x, Err (Fails e))
      | Ok response =>
          match sp_request pending with
          | Offer _ _ => (apply_peer_sync_response peer_id response now_ms x, Ok None)
          | MessageGet _ _ _ | MessageGetList =>
              let '(x, ack) := apply_peer_sync_payload peer_id response now_ms x in
              match ack with
              | Some ack_req =>
                  let '(x, r) := build_peer_sync_request peer_id ack_req now_ms x in
                  (x, req ← r; Ok (Some (peer_id, req)))
              | None => (x, Ok None)
              end
          | MessageAck _ =>
              (on_peer peer_id now_ms
                 (fun p => match response with
                           | RBool true => (Peer.on_payload_complete now_ms p).1
                           | _ => (Peer.on_failure now_ms p).1
                           end) x, Ok None)
          end
      end
  end.

Definition handle_peer_sync_response_bytes (request_id : arr 16) (payload : list byte) (now_ms : Z) (x : node) :
    node * result (fault RnsError) (option RnsRequest) :=
  let x := match peer_sync_pending x !! request_id with
           | Some pending => on_peer (sp_peer_id pending) now_ms (Peer.mark_heard now_ms) x
           | None => x
           end in
  let '(x, r) := handle_peer_sync_response_bytes_with_peer request_id payload now_ms x in
  (x, next ← r; Ok (option_map snd next)).

Definition handle_peer_sync_response (resp : RnsResponse) (now_ms : Z) (x : node) :
    node * result (fault RnsError) (option RnsRequest) :=
  match value_to_bytes (resp_data resp) with
  | None => (x, Err (Fails (RnsMsgpack "peer sync response data must be binary")))
  | Some payload => handle_peer_sync_response_bytes (resp_request_id resp) payload now_ms x
  end.

(** * Choosing a peer to synchronise with *)

Inductive sync_class : Type := Culled | Unreachable | Waiting | Unresponsive | NothingToDo.

Definition classify_peer (now_s : Z) (static : bool) (p : Peer) : sync_class :=
  if sat_add64 (last_heard_ms p / 1000) MAX_UNREACHABLE <? now_s then
    if static then Unreachable else Culled
  else if bool_decide (p_state p = Idle) && Nat.ltb 0 (Peer.unhandled_messages_count p) then
    if Peer.is_alive p then Waiting
    else if next_sync_ms p / 1000 <=? now_s then Unresponsive else NothingToDo
  else NothingToDo.

Definition peers_of_class (c : sync_class -> bool) (now_s : Z) (x : node) : list (arr 16 * Peer) :=
  filter (fun kv => c (classify_peer now_s (bool_decide (kv.1 ∈ static_peers x)) kv.2) = true) (hash_iter (peers x)).

Definition by_rate (a b : arr 16 * Peer) : bool := negb (f64_ltb (sync_transfer_rate a.2) (sync_transfer_rate b.2)).

(** The fastest peers and as many of unknown speed; without waiting peers, the
    unresponsive ones. *)
Definition sync_pool (now_s : Z) (x : node) : list (arr 16) :=
  match sort_by by_rate (peers_of_class (fun c => match c with Waiting => true | _ => false end) now_s x) with
  | [] => (peers_of_class (fun c => match c with Unresponsive => true | _ => false end) now_s x).*1
  | sorted =>
      let n := Nat.min FASTEST_N_RANDOM_POOL (length sorted) in
      (take n sorted).*1 ++
      take n (filter (fun kv => f64_eqb (sync_transfer_rate kv.2) f64_zero = true) sorted).*1
  end.

Definition sync_peers (draws : Z -> arr 32) (random : Z) (now_ms : Z) (x : node) : node :=
  let now_s := now_ms / 1000 in
  let culled := (peers_of_class (fun c => match c with Culled => true | _ => false end) now_s x).*1 in
  let pool := sync_pool now_s x in
  let x := match pool !! Z.to_nat (random mod Z.of_nat (length pool)) with
           | Some peer_id =>
               let '(x, req) := peer_sync_offer peer_id (peering_key_for_peer draws peer_id x) now_ms x in
               x {{ peer_sync_queue := peer_sync_queue x ++ [(peer_id, req)] }}
           | None => x
           end in
  unpeer_all culled x.

(** * Dropping peers *)

(** [(1.0).max((max as f64 * PCT / 100.0).floor()) as u32] of a number that is
    not negative. *)
Definition rotation_headroom (max : Z) : Z :=
  Z.max 1 (Z.min (f64_trunc (f64_div (f64_mul (f64_of_Z max) ROTATION_HEADROOM_PCT) (f64_of_Z 100))) u32_max).

(** Idle peers that are not static: those never heard of, and those that were
    offered something. *)
Definition drop_pool (x : node) : list (arr 16 * Peer) :=
  let synced := filter (fun kv => messages_unhandled kv.2 = 0) (hash_iter (peers x)) in
  let pool := if bool_decide (synced = []) then hash_iter (peers x) else synced in
  let pool := filter (fun kv => kv.1 ∉ static_peers x /\ p_state kv.2 = Idle) pool in
  let waiting := filter (fun kv => 0 < last_heard_ms kv.2 /\ 0 < messages_offered kv.2) pool in
  let unresponsive := filter (fun kv => ~ 0 < last_heard_ms kv.2) pool in
  if bool_decide (unresponsive = []) then waiting
  else unresponsive ++ (if prioritise_rotating_unreachable_peers x then [] else waiting).

Definition by_acceptance (a b : arr 16 * Peer) : bool :=
  negb (f64_ltb (Peer.acceptance_rate b.2) (Peer.acceptance_rate a.2)).

Definition required_drops (max : Z) (x : node) : Z :=
  sat_sub (as_u32 (Z.of_nat (size (peers x)))) (sat_sub max (rotation_headroom max)).

(** The peers [rotate_peers] drops. *)
Definition rotated (x : node) : list (arr 16) :=
  match max_peers x with
  | Some max =>
      let peer_count := as_u32 (Z.of_nat (size (peers x))) in
      let drops := required_drops max x in
      let untested := filter (fun kv => last_attempt_ms kv.2 = 0) (hash_iter (peers x)) in
      if negb (propagation_node_enabled x) || (drops =? 0) || (sat_sub peer_count drops <=? 1)
         || (rotation_headroom max <=? Z.of_nat (length untested)) then []
      else
        let pool := drop_pool x in
        let drop_count := Z.to_nat (Z.min drops (as_u32 (Z.of_nat (length pool)))) in
        (filter (fun kv => f64_ltb (f64_mul (Peer.acceptance_rate kv.2) (f64_of_Z 100))
                             (f64_mul ROTATION_AR_MAX (f64_of_Z 100)) = true)
           (take drop_count (sort_by by_acceptance pool))).*1
  | None => []
  end.

Definition rotate_peers (x : node) : node := unpeer_all (rotated x) x.

(** * Distribution *)

Definition enqueue_peer_distribution (transient_id : TransientId) (from_peer : option (arr 16)) (x : node) : node :=
  x {{ peer_distribution_queue := peer_distribution_queue x ++ [(transient_id, from_peer)] }}.

Definition distribute (entries : list (TransientId * option (arr 16))) (peer_id : arr 16) (p : Peer) : Peer :=
  foldl (fun p e => if bool_decide (e.2 = Some peer_id) then p else Peer.queue_unhandled_message e.1 p) p entries.

Definition flush_peer_distribution_queue (x : node) : node :=
  x {{ peers := map_imap (fun id p => Some (distribute (peer_distribution_queue x) id p)) (peers x);
       peer_distribution_queue := [] }}.

Definition flush_peer (x : node) (peer_id : arr 16) : node :=
  match peers x !! peer_id with
  | Some p =>
      if Peer.queued_items p then
        let '(p, store) := Peer.process_queues p (propagation_store x) in
        x {{ peers := <[peer_id := p]> (peers x); propagation_store := store }}
      else x
  | None => x
  end.

Definition flush_queues (x : node) : node :=
  if Nat.eqb (size (peers x)) 0 then x
  else let x := flush_peer_distribution_queue x in foldl flush_peer x (hash_keys (peers x)).

(** * Statistics and control requests *)

Definition peer_stats (x : node) (id : arr 16) (p : Peer) : Value :=
  let v := default (mkPropagationValidation DEFAULT_PROPAGATION_STAMP_COST DEFAULT_PROPAGATION_STAMP_FLEX)
             (propagation_validation x) in
  let peering_cost := match peering_validation x with Some v => pv_target_cost v | None => DEFAULT_PEERING_COST end in
  let rate := if 0 <? messages_offered p
              then f64_div (f64_of_Z (messages_incoming p)) (f64_of_Z (messages_offered p)) else f64_zero in
  VMap [(VString "type", VString (if bool_decide (id ∈ static_peers x) then "static" else "discovered"));
        (VString "alive", Boolean (negb (bool_decide (p_state p = Backoff))));
        (VString "last_heard", Integer (Z.quot (as_i64 (last_heard_ms p)) 1000));
        (VString "network_distance", Integer (-1));
        (VString "rx_bytes", Integer (as_i64 (rx_bytes p)));
        (VString "tx_bytes", Integer (as_i64 (tx_bytes p)));
        (VString "messages",
         VMap [(VString "offered", Integer (as_i64 (messages_offered p)));
               (VString "outgoing", Integer (as_i64 (messages_outgoing p)));
               (VString "incoming", Integer (as_i64 (messages_incoming p)));
               (VString "unhandled", Integer (as_i64 (messages_unhandled p)))]);
        (VString "acceptance_rate", F64 rate);
        (VString "peering_key", match Peer.peering_key p with Some key => Binary key | None => Nil end);
        (VString "peering_cost", Integer peering_cost);
        (VString "target_stamp_cost", Integer (prop_stamp_cost v));
        (VString "stamp_cost_flexibility", Integer (prop_stamp_cost_flex v));
        (VString "transfer_limit", F64 (propagation_transfer_limit_kb x));
        (VString "sync_limit", F64 (propagation_sync_limit_kb x));
        (VString "name", Nil);
        (VString "last_sync_attempt", Integer (Z.quot (as_i64 (last_attempt_ms p)) 1000));
        (VString "str", Integer 0);
        (VString "ler", Integer 0)].

Definition compile_stats (now_ms : Z) (x : node) : Value :=
  let hash := local_identity_hash (LxmfRuntime.router (runtime x)) in
  let uptime := f64_div (f64_of_Z (sat_add64 (sat_sub now_ms (propagation_started_ms x)) 1)) (f64_of_Z 1000) in
  let v := default (mkPropagationValidation DEFAULT_PROPAGATION_STAMP_COST DEFAULT_PROPAGATION_STAMP_FLEX)
             (propagation_validation x) in
  let peering_cost := match peering_validation x with Some v => pv_target_cost v | None => DEFAULT_PEERING_COST end in
  let total_peers := Z.of_nat (size (peers x)) in
  let static := Z.of_nat (size (static_peers x)) in
  let s := node_stats x in
  VMap [(VString "identity_hash", Binary hash);
        (VString "destination_hash", Binary hash);
        (VString "uptime", F64 uptime);
        (VString "delivery_limit", F64 (delivery_transfer_limit_kb x));
        (VString "propagation_limit", F64 (propagation_transfer_limit_kb x));
        (VString "sync_limit", F64 (propagation_sync_limit_kb x));
        (VString "target_stamp_cost", Integer (prop_stamp_cost v));
        (VString "stamp_cost_flexibility", Integer (prop_stamp_cost_flex v));
        (VString "peering_cost", Integer peering_cost);
        (VString "max_peering_cost", Integer (max_peering_cost x));
        (VString "autopeer_maxdepth", match autopeer_maxdepth x with Some n => Integer n | None => Nil end);
        (VString "from_static_only", Boolean (from_static_only x));
        (VString "messagestore",
         VMap [(VString "count", Integer (as_i64 (Z.of_nat (size (PropagationStore.entries (propagation_store x))))));
               (VString "bytes", Integer (as_i64 (Z.of_nat (PropagationStore.total_size_bytes (propagation_store x)))));
               (VString "limit", Integer (as_i64 (default 0 (propagation_store_limit_bytes x))))]);
        (VString "clients",
         VMap [(VString "client_propagation_messages_received",
                Integer (as_i64 (client_propagation_messages_received s)));
               (VString "client_propagation_messages_served",
                Integer (as_i64 (client_propagation_messages_served s)))]);
        (VString "unpeered_propagation_incoming", Integer (as_i64 (unpeered_propagation_incoming s)));
        (VString "unpeered_propagation_rx_bytes", Integer (as_i64 (unpeered_propagation_rx_bytes s)));
        (VString "static_peers", Integer (as_i64 static));
        (VString "discovered_peers", Integer (as_i64 (sat_sub total_peers static)));
        (VString "total_peers", Integer (as_i64 total_peers));
        (VString "max_peers", match max_peers x with Some n => Integer n | None => Nil end);
        (VString "peers", VMap (map (fun kv => (Binary (arr_list kv.1), peer_stats x kv.1 kv.2)) (hash_iter (peers x))))].

Definition control_error_response (request_id : arr 16) (code : Z) : RnsResponse :=
  mkResponse request_id (Integer code).

(** The target of a request, and the answer of the operation on it. *)
Definition control_target (req : RnsRequest) (op : arr 16 -> node * bool) (x : node) : node * RnsResponse :=
  match value_to_fixed_bytes 16 (req_data req) with
  | None => (x, control_error_response (req_request_id req) CONTROL_ERROR_INVALID_DATA)
  | Some target =>
      match op target with
      | (x, true) => (x, mkResponse (req_request_id req) (Boolean true))
      | (x, false) => (x, control_error_response (req_request_id req) CONTROL_ERROR_NOT_FOUND)
      end
  end.

Definition handle_control_request (peer_id : arr 16) (req : RnsRequest) (now_ms : Z) (x : node) :
    node * option RnsResponse :=
  if negb (bool_decide (peer_id ∈ control_allowed x)) then
    (x, Some (control_error_response (req_request_id req) CONTROL_ERROR_NO_ACCESS))
  else if bool_decide (req_path_hash req = request_path_hash CONTROL_STATS_PATH) then
    (x, Some (mkResponse (req_request_id req) (compile_stats now_ms x)))
  else if bool_decide (req_path_hash req = request_path_hash CONTROL_SYNC_PATH) then
    let '(x, r) := control_target req (fun target => request_peer_sync target now_ms x) x in (x, Some r)
  else if bool_decide (req_path_hash req = request_path_hash CONTROL_UNPEER_PATH) then
    let '(x, r) := control_target req (fun target => unpeer target x) x in (x, Some r)
  else (x, None).

(** * Received packets *)

Definition push_control (peer_id : arr 16) (r : option RnsResponse) (x : node) : node :=
  match r with Some r => x {{ control_responses := control_responses x ++ [(peer_id, r)] }} | None => x end.

Definition process_received (received : Received) (now_ms : Z) (signature_validated : bool) (x : node) :
    node * result (fault RnsError) (list LXMessage.t) :=
  match received with
  | RcvMessage message =>
      let '(m, accepted) := LxmfRouter.process_inbound_message message now_ms signature_validated false (messaging x) in
      (x {{ messaging := m }}, Ok (option_list accepted))
  | RcvPropagated timestamp lxm_data _ source_hash count_client_receive =>
      ((process_propagated timestamp lxm_data now_ms source_hash count_client_receive x).1, Ok [])
  | RcvPropagationResource payload source_hash =>
      ((handle_propagation_resource_payload source_hash None None payload now_ms x).1, Ok [])
  | RcvRequest request source_hash =>
      if bool_decide (req_path_hash request = request_path_hash PEER_SYNC_PATH) then
        match source_hash with
        | Some peer_id =>
            match handle_peer_sync_request peer_id request now_ms x with
            | (x, Ok response) => (x {{ peer_sync_responses := peer_sync_responses x ++ [(peer_id, response)] }}, Ok [])
            | (x, Err _) => (x, Ok [])
            end
        | None => (x, Ok [])
        end
      else if propagation_node_enabled x then
        match source_hash with
        | Some peer_id => let '(x, r) := handle_control_request peer_id request now_ms x in (push_control peer_id r x, Ok [])
        | None => (x, Ok [])
        end
      else (x, Ok [])
  | RcvControlRequest request source_hash =>
      if propagation_node_enabled x then
        match source_hash with
        | Some peer_id => let '(x, r) := handle_control_request peer_id request now_ms x in (push_control peer_id r x, Ok [])
        | None =>
            (push_control (arr_zero 16)
               (Some (control_error_response (req_request_id request) CONTROL_ERROR_NO_IDENTITY)) x, Ok [])
        end
      else (x, Ok [])
  | RcvResponse response _ =>
      match value_to_bytes (resp_data response) with
      | Some payload =>
          match handle_peer_sync_response_bytes_with_peer (resp_request_id response) payload now_ms x with
          | (x, Ok (Some next)) => (x {{ peer_sync_outbound := peer_sync_outbound x ++ [next] }}, Ok [])
          | (x, Err Panics) => (x, Err Panics)
          | (x, _) => (x, Ok [])
          end
      | None => (x, Ok [])
      end
  end.

(** [while let Some(received) = pop_inbound()]: handling adds nothing to the
    queue. *)
Fixpoint process_inbound_loop (queued : list Received) (now_ms : Z) (signature_validated : bool) (x : node) :
    node * result (fault RnsError) (list LXMessage.t) :=
  match queued with
  | [] => (x, Ok [])
  | received :: queued =>
      let pop m := m {{ LxmfRouter.runtime := (LxmfRouter.runtime m) {{ LxmfRuntime.router :=
                          (RnsRouter.pop_inbound (LxmfRuntime.router (LxmfRouter.runtime m))).1 }} }} in
      let '(x, r) := process_received received now_ms signature_validated (with_messaging pop x) in
      match r with
      | Err e => (x, Err e)
      | Ok accepted =>
          let '(x, rest) := process_inbound_loop queued now_ms signature_validated x in
          (x, more ← rest; Ok (accepted ++ more))
      end
  end.

Definition process_inbound_queue (now_ms : Z) (signature_validated : bool) (x : node) :
    node * result (fault RnsError) (list LXMessage.t) :=
  process_inbound_loop (RnsRouter.inbound (LxmfRuntime.router (runtime x))) now_ms signature_validated x.

(** * The tick *)

(** The router's jobs after those of the runtime.  [locked]: the stamp thread
    holds the shared queue. *)
Definition tick_jobs (key_draws : Z -> arr 32) (locked : bool) (tk : RuntimeTick) (now_ms : Z) (x : node) : node :=
  let x := if links_ran tk then x {{ downloads := Downloads.clean_links now_ms (downloads x) }} else x in
  let x := if pn_ran tk
           then schedule_peer_sync key_draws now_ms
                  (poll_peer_sync_timeouts now_ms
                     (with_messaging (fun m => (LxmfRouter.clean_transient_id_caches now_ms m).1) x))
           else x in
  let x := if store_ran tk then (clean_propagation_store now_ms x).1 else x in
  let x := if rotate_ran tk then rotate_peers x else x in
  let x := if peeringest_ran tk then flush_queues x else x in
  let x := if stamps_ran tk then with_messaging (LxmfRouter.stamps_job locked) x else x in
  handle_request_timeouts (request_timeouts tk) now_ms x.

Definition tick (draws : Z -> Z -> Z -> arr 32) (key_draws : Z -> arr 32) (locked : bool) (now_ms : Z) (x : node) :
    option (result (fault RnsError) (node * RuntimeTick)) :=
  match LxmfRuntime.tick draws now_ms (runtime x) with
  | None => None
  | Some (Err e) => Some (Err e)
  | Some (Ok (rt, tk)) =>
      let x := tick_jobs key_draws locked tk now_ms (with_messaging (fun m => m {{ LxmfRouter.runtime := rt }}) x) in
      Some (Ok (x {{ peer_sync_queue := [] }},
                tk {{ peer_sync_requests := peer_sync_requests tk ++ peer_sync_queue x }}))
  end.

(** * Stopping, and starting from a disk *)

Definition save_node_stats (x : node) : node := on_disk (FileMessageStore.save_node_stats (node_stats x)) x.

(** Every peer into the store's directory. *)
Definition save_peers (x : node) (disk : FileMessageStore.t) : FileMessageStore.t :=
  foldl (fun disk p => FileMessageStore.save_peer p disk) disk (hash_values (peers x)).

(** [Drop]: the statistics are written when the router goes away. *)
Definition drop_router (x : node) : node := save_node_stats x.

Definition with_router (f : RnsRouter.t S -> RnsRouter.t S) : node -> node :=
  with_messaging (fun m => m {{ LxmfRouter.runtime := (LxmfRouter.runtime m) {{ LxmfRuntime.router :=
                                  f (LxmfRuntime.router (LxmfRouter.runtime m)) }} }}).

Definition receive_inbound (received : Received) : node -> node :=
  with_router (fun r => r {{ RnsRouter.inbound := RnsRouter.inbound r ++ [received] }}).

Definition receive_resource_payload (payload : list byte) (source_hash : option (arr 16)) : node -> node :=
  with_router (RnsRouter.receive_resource_payload payload source_hash).

Definition with_store_and_root (delivery : RnsOutbound.t) (store : S) (disk : FileMessageStore.t)
    (config : RuntimeConfig) (system_now_ms : Z) : node :=
  let x := with_config (RnsRouter.with_store delivery store) config system_now_ms in
  let '(disk1, propagated) := PropagationFiles.load_propagation_store disk in
  let restore m :=
    m {{ LxmfRouter.persistence := Some disk1;
         LxmfRouter.ticket_store := TicketStore.restore (FileMessageStore.load_available_tickets disk);
         LxmfRouter.outbound_stamp_costs := FileMessageStore.load_outbound_stamp_costs disk;
         LxmfRouter.local_deliveries := FileMessageStore.load_local_deliveries disk;
         LxmfRouter.locally_processed := FileMessageStore.load_locally_processed disk }} in
  let x := with_messaging restore
             (x {{ peers := FileMessageStore.load_peers disk;
                   propagation_store := propagated;
                   node_stats := FileMessageStore.load_node_stats disk }}) in
  let clean m := (LxmfRouter.clean_transient_id_caches system_now_ms
                    (LxmfRouter.clean_outbound_stamp_costs system_now_ms
                       (LxmfRouter.clean_tickets system_now_ms m)).1).1 in
  with_messaging LxmfRouter.save_local_caches
    (clean_propagation_store system_now_ms (with_messaging clean x)).1.

End Operations.
End Router.
