(* ===== verification/Propagation.v ===== *)
(** What a propagation node holds, over any history of the router ([Router]):
    every stored message carries a good stamp and is filed under its hash, the
    disk mirrors the store so that a restart finds the same messages, and
    cleaning keeps the store within its limit. *)

From Stdlib Require Import ZArith Lia Permutation.
From Stdlib Require Import Strings.Byte.
From stdpp Require Import base gmap strings pretty numbers relations list.
From coqutil Require Import Datatypes.RecordSetters.
From S2P Require Import Prelude Float Msgpack Crypto Buffer Packet Identity Destination Link Stamp Message Rns.
From S2P Require Import Delivery Requests PnDirectory PropStore Peer PeerCodec StorageCodec StorageTables MessageStore.
From S2P Require Import PropDisk Links Tickets Outbound Runtime Messaging Router.
Import DoubleBraceUpdate.

Local Open Scope Z_scope.

Section Node.
Context `{F : Features} `{IC : IdentityCrypto} `{M : Msgpack} `{D : F64Display} `{P : F64Parse} `{HI : HashIter}.
Context {S : Type} `{MS : MessageStore S}.
Import Router.
Implicit Types x : Router.t S.
Implicit Types m : LxmfRouter.t S.

(** * What the store and the disk hold *)

Definition message_files m : option (gmap string (list byte)) :=
  FileMessageStore.propagation_dir <$> LxmfRouter.persistence m.

(** The messages, their files, and the rule by which they were accepted. *)
Definition held x :=
  (PropagationStore.entries (propagation_store x), PropagationStore.filenames (propagation_store x),
   message_files (messaging x), propagation_validation x).

Lemma files_local_caches m : message_files (LxmfRouter.save_local_caches m) = message_files m.
Proof. unfold message_files, LxmfRouter.save_local_caches. destruct m as [? ? ? ? ? ? ? ? ? [[]|] ? ? ?]; done. Qed.

Lemma files_tickets m : message_files (LxmfRouter.persist_ticket_store m) = message_files m.
Proof. unfold message_files, LxmfRouter.persist_ticket_store. destruct m as [? ? ? ? ? ? ? ? ? [[]|] ? ? ?]; done. Qed.

Lemma files_costs m : message_files (LxmfRouter.persist_outbound_stamp_costs m) = message_files m.
Proof.
  unfold message_files, LxmfRouter.persist_outbound_stamp_costs. destruct m as [? ? ? ? ? ? ? ? ? [[]|] ? ? ?]; done.
Qed.

Lemma files_processed id now m : message_files (LxmfRouter.mark_locally_processed id now m) = message_files m.
Proof. unfold LxmfRouter.mark_locally_processed. rewrite files_local_caches. by destruct m. Qed.

Lemma files_delivered id now m : message_files (LxmfRouter.mark_local_delivery id now m) = message_files m.
Proof. unfold LxmfRouter.mark_local_delivery. rewrite files_local_caches. by destruct m. Qed.

Lemma files_clean_caches now m : message_files (LxmfRouter.clean_transient_id_caches now m).1 = message_files m.
Proof.
  unfold LxmfRouter.clean_transient_id_caches. cbv zeta.
  destruct (clean_transient_cache _ _) as [d1 n1], (clean_transient_cache _ _) as [d2 n2]. cbn [fst].
  destruct (Nat.ltb _ _); rewrite ?files_local_caches; by destruct m.
Qed.

Lemma files_clean_tickets now m : message_files (LxmfRouter.clean_tickets now m) = message_files m.
Proof. unfold LxmfRouter.clean_tickets. rewrite files_tickets. by destruct m. Qed.

Lemma files_clean_costs now m : message_files (LxmfRouter.clean_outbound_stamp_costs now m).1 = message_files m.
Proof.
  unfold LxmfRouter.clean_outbound_stamp_costs. cbv zeta. cbn [fst].
  destruct (Nat.ltb _ _); rewrite ?files_costs; by destruct m.
Qed.

Lemma files_enqueue msg mode m : message_files (LxmfRouter.enqueue msg mode m).1 = message_files m.
Proof. unfold LxmfRouter.enqueue. destruct (RnsRouter.enqueue _ _ _). by destruct m. Qed.

Lemma files_receive_processed n : forall m, message_files (LxmfRouter.receive_processed n m) = message_files m.
Proof.
  induction n as [|n IH]; intros m; [done|]. cbn [LxmfRouter.receive_processed].
  destruct (LxmfRouter.processed_deferred m) as [|item rest]; [done|].
  pose proof (files_enqueue (df_message item) (df_mode item) (m {{ LxmfRouter.processed_deferred := rest }})) as He.
  destruct (LxmfRouter.enqueue _ _ _) as [m1 id]. cbn [fst] in He. rewrite IH.
  transitivity (message_files m1); [by destruct m1|]. rewrite He. by destruct m.
Qed.

Lemma files_stamps_job locked m : message_files (LxmfRouter.stamps_job locked m) = message_files m.
Proof.
  unfold LxmfRouter.stamps_job. cbv zeta. pose proof (files_receive_processed 100 m) as Hr.
  destruct (LxmfRouter.receive_processed 100 m). by destruct (_ && _).
Qed.

Lemma files_inbound msg now sv ne m :
  message_files (LxmfRouter.process_inbound_message msg now sv ne m).1 = message_files m.
Proof.
  unfold LxmfRouter.process_inbound_message. destruct (bool_decide _); [done|].
  destruct (match LXMessage.m_message_id msg with Some _ => _ | None => _ end); [done|]. cbv zeta.
  match goal with |- context [if sv then ?a else m] => set (m1 := if sv then a else m) end.
  assert (H1 : message_files m1 = message_files m).
  { subst m1. destruct sv; [|done]. destruct (extract_ticket_field _) as [[e tk]|]; [|done].
    destruct (TicketStore.f64_gtb _ _); [|done]. unfold LxmfRouter.remember_ticket. rewrite files_tickets. by destruct m. }
  clearbody m1. destruct (match LxmfRouter.inbound_stamp_costs m1 !! _ with Some _ => _ | None => _ end) as [msg' rej].
  destruct rej; [done|]. cbn [fst]. destruct (LXMessage.m_message_id msg'); [|done]. by rewrite files_delivered.
Qed.

(** * Operations that leave the messages alone *)

Lemma held_messaging f x :
  message_files (f (messaging x)) = message_files (messaging x) -> held (with_messaging f x) = held x.
Proof. intros Hf. unfold held, with_messaging. destruct x. cbn in *. unfold constant. by rewrite Hf. Qed.

Lemma held_peers ps x : held (x {{ peers := ps }}) = held x.
Proof. by destruct x. Qed.

Lemma held_on_peer id now f x : held (on_peer id now f x) = held x.
Proof. unfold on_peer. destruct (PeerTable.upsert _ _ _). apply held_peers. Qed.

Lemma held_count e source c x : held (count_received e source c x) = held x.
Proof. unfold count_received. cbv zeta. destruct c, source; try destruct (bool_decide _); by destruct x. Qed.

Lemma held_unpeer id x : held (unpeer id x).1 = held x.
Proof.
  unfold unpeer. destruct (peers x !! id); [|done]. cbn [fst]. unfold on_disk. rewrite held_messaging.
  - by destruct x.
  - unfold message_files. destruct (messaging _) as [? ? ? ? ? ? ? ? ? [[]|] ? ? ?]; done.
Qed.

Lemma held_unpeer_all ids : forall x, held (unpeer_all ids x) = held x.
Proof.
  induction ids as [|id ids IH]; intros x; [done|]. unfold unpeer_all in *. cbn [foldl]. by rewrite IH, held_unpeer.
Qed.

Lemma held_rotate x : held (rotate_peers x) = held x.
Proof. apply held_unpeer_all. Qed.

Lemma held_request_sync id now x : held (request_peer_sync id now x).1 = held x.
Proof. unfold request_peer_sync. destruct (peers x !! id); [apply held_peers|done]. Qed.

Lemma held_offer id key now x : held (peer_sync_offer id key now x).1 = held x.
Proof. apply held_on_peer. Qed.

Lemma held_queue_offer id key now x :
  held (let '(x, req) := peer_sync_offer id key now x in
        x {{ peer_sync_queue := peer_sync_queue x ++ [(id, req)] }}) = held x.
Proof.
  pose proof (held_offer id key now x) as Ho. destruct (peer_sync_offer id key now x) as [x1 req].
  cbn [fst] in Ho. rewrite <- Ho. by destruct x1.
Qed.

Lemma held_schedule draws now x : held (schedule_peer_sync draws now x) = held x.
Proof. unfold schedule_peer_sync. destruct (PeerTable.next_ready _ _); [apply held_queue_offer|done]. Qed.

Lemma held_sync_peers draws random now x : held (sync_peers draws random now x) = held x.
Proof.
  unfold sync_peers. cbv zeta. rewrite held_unpeer_all. destruct (_ !! _); [apply held_queue_offer|done].
Qed.

Lemma held_handle_offer id req now x : held (handle_peer_sync_offer id req now x).1 = held x.
Proof.
  unfold handle_peer_sync_offer. destruct req; try done. cbv zeta.
  destruct (match peering_validation x with Some _ => _ | None => _ end); apply held_on_peer.
Qed.

Lemma held_message_get id resp limit now x : held (peer_sync_message_get id resp limit now x).1 = held x.
Proof. unfold peer_sync_message_get. cbv zeta. destruct (bool_decide _); [done|apply held_on_peer]. Qed.

Lemma held_handle_get id req x : held (handle_peer_sync_message_get id req x).1 = held x.
Proof.
  unfold handle_peer_sync_message_get. destruct req; try done. cbv zeta. destruct (collect_items _ _ _ _). by destruct x.
Qed.

Lemma held_offer_response id resp now x : held (apply_peer_sync_response id resp now x) = held x.
Proof. apply held_on_peer. Qed.

Lemma held_build id req now x : held (build_peer_sync_request id req now x).1 = held x.
Proof.
  unfold build_peer_sync_request. destruct (encode_peer_sync_request req); [|done].
  destruct (RnsRequestManager.register_request _ _ _ _ _ _) as [rm r].
  match goal with |- context [with_messaging ?f x] => set (x1 := with_messaging f x) end.
  assert (H1 : held x1 = held x) by (apply held_messaging; by destruct (messaging x)).
  destruct r; cbn [fst]; [|done]. rewrite <- H1. by destruct x1.
Qed.

Lemma held_dispatch reqs now : forall x, held (dispatch_peer_sync_requests reqs now x).1 = held x.
Proof.
  induction reqs as [|[id req] reqs IH]; intros x; [done|]. cbn [dispatch_peer_sync_requests].
  pose proof (held_build id req now x) as Hb. destruct (build_peer_sync_request id req now x) as [x1 r].
  cbn [fst] in Hb. specialize (IH x1). destruct (dispatch_peer_sync_requests reqs now x1) as [x2 rest].
  destruct r as [a|[e|]]; cbn [fst] in *; congruence.
Qed.

Lemma held_peer_timeouts now x : held (poll_peer_sync_timeouts now x) = held x.
Proof. apply held_peers. Qed.

Lemma held_request_timeouts ids now : forall x, held (handle_request_timeouts ids now x) = held x.
Proof.
  unfold handle_request_timeouts. induction ids as [|id ids IH]; intros x; [done|]. cbn [foldl]. rewrite IH.
  unfold handle_request_timeout. destruct (peer_sync_pending x !! id); [|done]. rewrite held_on_peer. by destruct x.
Qed.

Lemma held_control id req now x : held (handle_control_request id req now x).1 = held x.
Proof.
  assert (Ht : forall op, (forall h, held (op h).1 = held x) -> held (control_target req op x).1 = held x).
  { intros op Hop. unfold control_target. destruct (value_to_fixed_bytes _ _) as [h|]; [|done].
    specialize (Hop h). by destruct (op h) as [x1 []]. }
  unfold handle_control_request. destruct (negb _); [done|]. destruct (bool_decide _); [done|].
  destruct (bool_decide _).
  - pose proof (Ht (fun h => request_peer_sync h now x) (fun h => held_request_sync h now x)) as H1.
    by destruct (control_target _ _ _).
  - destruct (bool_decide _); [|done].
    pose proof (Ht (fun h => unpeer h x) (fun h => held_unpeer h x)) as H1. by destruct (control_target _ _ _).
Qed.

Lemma held_push_control id r x : held (push_control id r x) = held x.
Proof. unfold push_control. destruct r; by destruct x. Qed.

Lemma process_queues_messages p store :
  PropagationStore.entries (Peer.process_queues p store).2 = PropagationStore.entries store /\
  PropagationStore.filenames (Peer.process_queues p store).2 = PropagationStore.filenames store.
Proof.
  unfold Peer.process_queues. cbv zeta. cbn [snd].
  match goal with |- context [foldl (Peer.drain_handled ?i ?a ?b) store ?l] =>
    destruct (drain_handled_all i a b l store) as [(He & _ & Hf) _];
    set (s1 := foldl (Peer.drain_handled i a b) store l) in * end.
  match goal with |- context [foldl (Peer.drain_unhandled ?i ?a ?b) s1 ?l] =>
    destruct (drain_unhandled_all i a b l s1) as [(He2 & _ & Hf2) _] end.
  split; congruence.
Qed.

Lemma held_flush_peer x id : held (flush_peer x id) = held x.
Proof.
  unfold flush_peer. destruct (peers x !! id) as [p|]; [|done]. destruct (Peer.queued_items p); [|done].
  pose proof (process_queues_messages p (propagation_store x)) as [He Hf].
  destruct (Peer.process_queues p _) as [p' store]. cbn [snd] in He, Hf. unfold held. rewrite <- He, <- Hf. by destruct x.
Qed.

Lemma held_flush_queues x : held (flush_queues x) = held x.
Proof.
  unfold flush_queues. destruct (Nat.eqb _ _); [done|]. cbv zeta.
  transitivity (held (flush_peer_distribution_queue x)); [|by destruct x].
  generalize (hash_keys (peers (flush_peer_distribution_queue x))) as ids.
  generalize (flush_peer_distribution_queue x) as y. intros y ids. revert y.
  induction ids as [|id ids IH]; intros y; [done|]. cbn [foldl]. by rewrite IH, held_flush_peer.
Qed.

(** * The invariant *)

(** A message filed under the hash of what its stamp covers. *)
Definition good_message (cost : Z) (id : TransientId) (e : PropagationEntry) : Prop :=
  pe_transient_id e = id /\
  exists message value stamp, validate_pn_stamp (pe_lxm_data e) cost = Some (id, message, value, stamp).

Record node_ok (cost : Z) x : Prop := {
  no_rule : exists c, min_stamp_cost x = Some c /\ 0 <= cost <= c;
  no_good : map_Forall (good_message cost) (PropagationStore.entries (propagation_store x));
  no_disk : forall dir, message_files (messaging x) = Some dir -> mirrors (propagation_store x) dir
}.

Lemma node_ok_held cost x x' : held x' = held x -> node_ok cost x -> node_ok cost x'.
Proof.
  unfold held. intros [= He Hf Hm Hv] [H1 H2 H3]. split.
  - unfold min_stamp_cost in *. by rewrite Hv.
  - by rewrite He.
  - intros dir Hd. rewrite Hm in Hd. eapply mirrors_same; eauto.
Qed.

Lemma validate_pn_stamp_antitone data cost cost' r : 0 <= cost' <= cost ->
  validate_pn_stamp data cost = Some r -> validate_pn_stamp data cost' = Some r.
Proof.
  destruct r as [[[id msg] v] stamp]. intros Hc.
  rewrite !validate_pn_stamp_exact. intros (H1 & H2 & H3 & H4 & wb & Hwb & Hv & H5).
  split_and!; [done..|]. exists wb. split_and!; [done| |done]. by eapply stamp_valid_antitone.
Qed.

Lemma checked_entry_good cost x e e' : (exists c, min_stamp_cost x = Some c /\ 0 <= cost <= c) ->
  checked_entry x e = Some e' -> good_message cost (pe_transient_id e') e'.
Proof.
  intros (c & Hc & Hle). unfold checked_entry. rewrite Hc.
  destruct (validate_pn_stamp (pe_lxm_data e) c) as [[[[id msg] v] stamp]|] eqn:Hv; cbn [mbind option_bind]; [|done].
  intros [= <-]. apply (validate_pn_stamp_antitone _ _ _ _ Hle) in Hv.
  apply validate_pn_stamp_exact in Hv as Hv'. destruct Hv' as [Hd _]. split; [done|].
  exists msg, v, stamp. destruct e. cbn in *. unfold constant. by rewrite <- Hd.
Qed.

Lemma keep_effect e now x :
  propagation_store (keep e now x) = PropagationStore.insert e (propagation_store x) /\
  message_files (messaging (keep e now x)) = <[entry_name e := pe_lxm_data e]> <$> message_files (messaging x) /\
  propagation_validation (keep e now x) = propagation_validation x.
Proof.
  unfold keep, mark_locally_processed, with_messaging.
  set (y := persist_propagation_entry e _).
  assert (Hy : propagation_store y = PropagationStore.insert e (propagation_store x) /\
    message_files (messaging y) = <[entry_name e := pe_lxm_data e]> <$> message_files (messaging x) /\
    propagation_validation y = propagation_validation x).
  { subst y. unfold persist_propagation_entry, on_disk, with_messaging, message_files.
    destruct x as [m]. destruct m as [? ? ? ? ? ? ? ? ? [[]|] ? ? ?]; done. }
  destruct Hy as (<- & <- & <-). rewrite <- (files_processed (pe_transient_id e) now (messaging y)). by destruct y.
Qed.

Lemma keep_ok cost e now x : node_ok cost x -> good_message cost (pe_transient_id e) e ->
  seen x (pe_transient_id e) = false -> node_ok cost (keep e now x).
Proof.
  intros [H1 H2 H3] Hg Hs. destruct (keep_effect e now x) as (Es & Ef & Ev). split.
  - unfold min_stamp_cost in *. by rewrite Ev.
  - rewrite Es. by apply map_Forall_insert_2.
  - intros dir Hd. rewrite Ef in Hd. destruct (message_files (messaging x)) as [d|]; [|done]. injection Hd as <-.
    rewrite Es. apply mirrors_save; [by apply H3|].
    apply orb_false_iff in Hs as [Hs _]. unfold PropagationStore.has in Hs. apply bool_decide_eq_false in Hs.
    by apply eq_None_not_Some.
Qed.

Lemma remove_message_effect x id :
  propagation_store (remove_message x id) = (PropagationStore.remove id (propagation_store x)).1 /\
  propagation_validation (remove_message x id) = propagation_validation x /\
  message_files (messaging (remove_message x id)) =
    match PropagationStore.entries (propagation_store x) !! id with
    | Some e => match PropagationStore.filenames (propagation_store x) !! pe_transient_id e with
                | Some name => delete name
                | None => filter (fun kv => String.prefix (hex_encode (pe_transient_id e) +:+ "_") kv.1 = false)
                end <$> message_files (messaging x)
    | None => message_files (messaging x)
    end.
Proof.
  unfold remove_message, remove_propagation_entry_exact, on_disk, with_messaging, message_files, PropagationStore.get,
    PropagationStore.filename.
  destruct x as [m ? ? ? ? ? ? st]. cbn [propagation_store messaging].
  destruct (PropagationStore.entries st !! id) as [e|]; [|done].
  destruct (PropagationStore.filenames st !! pe_transient_id e);
    destruct m as [? ? ? ? ? ? ? ? ? [[]|] ? ? ?]; done.
Qed.

Lemma remove_message_ok cost x id : node_ok cost x -> node_ok cost (remove_message x id).
Proof.
  intros [H1 H2 H3]. destruct (remove_message_effect x id) as (Es & Ev & Ef). split.
  - unfold min_stamp_cost in *. by rewrite Ev.
  - rewrite Es. by apply map_Forall_delete.
  - intros dir Hd. rewrite Ef in Hd. rewrite Es.
    destruct (PropagationStore.entries (propagation_store x) !! id) as [e|] eqn:He.
    + destruct (message_files (messaging x)) as [d|]; [|done]. pose proof (H3 d eq_refl) as Hm.
      pose proof (mi_names _ _ Hm _ _ He) as Hn. pose proof (mi_keyed _ _ Hm _ _ He) as Hk. cbn in Hn, Hk.
      rewrite Hk, Hn in Hd. injection Hd as <-. by apply mirrors_remove.
    + apply mirrors_remove_absent; [by apply H3|done].
Qed.

Lemma remove_messages_ok cost ids : forall x, node_ok cost x -> node_ok cost (foldl remove_message x ids).
Proof. induction ids as [|id ids IH]; intros x Hx; [done|]. cbn [foldl]. by apply IH, remove_message_ok. Qed.

(** * Every operation keeps the invariant *)

Lemma process_propagated_ok cost ts data now source c x : node_ok cost x ->
  node_ok cost (process_propagated ts data now source c x).1.
Proof.
  intros Hx. unfold process_propagated. cbv zeta. destruct (checked_entry x _) as [e|] eqn:Hc; [|done].
  destruct (seen x (pe_transient_id e)) eqn:Hs; [done|]. cbn [fst].
  pose proof (held_count e source c x) as Hh. apply keep_ok.
  - by eapply node_ok_held.
  - eapply checked_entry_good; [apply Hx|done].
  - unfold seen, count_received in *. cbv zeta. rewrite <- Hs.
    destruct c, source; try destruct (bool_decide (is_Some (peers x !! _))); by destruct x.
Qed.

Lemma process_all_ok cost ts msgs now source c : forall x, node_ok cost x ->
  node_ok cost (process_all ts msgs now source c x).1.
Proof.
  induction msgs as [|msg msgs IH]; intros x Hx; [done|]. cbn [process_all].
  pose proof (process_propagated_ok cost ts msg now source c x Hx) as H1.
  destruct (process_propagated ts msg now source c x) as [x1 id]. specialize (IH x1 H1).
  by destruct (process_all ts msgs now source c x1).
Qed.

Lemma process_resource_ok cost remote key msgs limit now x : node_ok cost x ->
  node_ok cost (process_propagation_resource remote key msgs limit now x).1.
Proof.
  intros Hx. unfold process_propagation_resource. cbv zeta.
  repeat match goal with |- context [if ?b then _ else _] => destruct b; [|]; try done end.
  all: try (by apply process_all_ok). destruct remote; [|done]. eapply node_ok_held; [apply held_on_peer|done].
Qed.

Lemma handle_resource_ok cost remote key limit payload now x : node_ok cost x ->
  node_ok cost (handle_propagation_resource_payload remote key limit payload now x).1.
Proof.
  intros Hx. unfold handle_propagation_resource_payload. destruct (decode_propagation_resource_payload _) as [msgs|]; [|done].
  pose proof (process_resource_ok cost remote key msgs limit now x Hx) as H1.
  by destruct (process_propagation_resource remote key msgs limit now x).
Qed.

Lemma apply_item_ok cost now item acc : node_ok cost acc.1.1.1 -> node_ok cost (apply_item now acc item).1.1.1.
Proof.
  destruct acc as [[[x del] inv] rec]. cbn [fst]. intros Hx. unfold apply_item. cbv zeta.
  destruct (propagation_entry_from_bytes item) as [e|]; [|done].
  destruct (checked_entry x e) as [e'|] eqn:Hc; [|done]. cbn [fst].
  destruct (seen x (pe_transient_id e')) eqn:Hs; [done|]. apply keep_ok; [done| |done].
  eapply checked_entry_good; [apply Hx|done].
Qed.

Lemma apply_items_ok cost now items : forall acc, node_ok cost acc.1.1.1 ->
  node_ok cost (foldl (apply_item now) acc items).1.1.1.
Proof. induction items as [|it items IH]; intros acc Ha; [done|]. cbn [foldl]. by apply IH, apply_item_ok. Qed.

Lemma apply_payload_ok cost id resp now x : node_ok cost x -> node_ok cost (apply_peer_sync_payload id resp now x).1.
Proof.
  intros Hx. unfold apply_peer_sync_payload. cbv zeta.
  set (items := match resp with RPayload items => items | _ => [] end).
  pose proof (apply_items_ok cost now items (x, [], 0, 0) Hx) as H1.
  destruct (foldl _ _ items) as [[[x1 del] inv] rec]. cbn [fst] in *. eapply node_ok_held; [apply held_on_peer|done].
Qed.

Lemma handle_ack_ok cost id req now x : node_ok cost x -> node_ok cost (handle_peer_sync_ack id req now x).1.
Proof.
  intros Hx. unfold handle_peer_sync_ack. destruct req; try done. cbn [fst].
  eapply node_ok_held; [apply held_on_peer|]. by apply remove_messages_ok.
Qed.

Lemma request_bytes_ok cost id payload now x : node_ok cost x ->
  node_ok cost (handle_peer_sync_request_bytes id payload now x).1.
Proof.
  intros Hx. unfold handle_peer_sync_request_bytes. cbv zeta.
  set (y := on_peer id now (Peer.mark_heard now) x).
  assert (Hy : node_ok cost y) by (eapply node_ok_held; [apply held_on_peer|done]). clearbody y.
  destruct (decode_peer_sync_request payload) as [req|]; [|done]. destruct req as [key av| |w h l|del].
  - pose proof (held_handle_offer id (Offer key av) now y) as H1.
    destruct (handle_peer_sync_offer id (Offer key av) now y) as [y1 resp]. cbn [fst] in H1.
    pose proof (held_message_get id resp None now y1) as H2.
    destruct (peer_sync_message_get id resp None now y1) as [y2 [get|]]; cbn [fst] in *.
    + apply (node_ok_held cost y); [|done]. rewrite <- H1, <- H2. by destruct y2.
    + apply (node_ok_held cost y); [congruence|done].
  - apply Hy.
  - pose proof (held_handle_get id (MessageGet w h l) y) as H1.
    destruct (handle_peer_sync_message_get id (MessageGet w h l) y) as [y1 resp]. cbn [fst] in *.
    by apply (node_ok_held cost y).
  - pose proof (handle_ack_ok cost id (MessageAck del) now y Hy) as H1.
    by destruct (handle_peer_sync_ack id (MessageAck del) now y).
Qed.

Lemma request_ok cost id req now x : node_ok cost x -> node_ok cost (handle_peer_sync_request id req now x).1.
Proof.
  intros Hx. unfold handle_peer_sync_request. destruct (value_to_bytes _) as [payload|]; [|done].
  pose proof (request_bytes_ok cost id payload now x Hx) as H1. by destruct (handle_peer_sync_request_bytes _ _ _ _).
Qed.

Lemma response_peer_ok cost rid payload now x : node_ok cost x ->
  node_ok cost (handle_peer_sync_response_bytes_with_peer rid payload now x).1.
Proof.
  intros Hx. unfold handle_peer_sync_response_bytes_with_peer.
  destruct (peer_sync_pending x !! rid) as [pend|]; [|done]. cbv zeta.
  set (y := x {{ peer_sync_pending := delete rid (peer_sync_pending x) }}).
  assert (Hy : node_ok cost y) by (apply (node_ok_held cost x); [by destruct x|done]). clearbody y.
  destruct (decode_peer_sync_response payload) as [resp|]; [|done].
  assert (Hpay : node_ok cost (let '(z, ack) := apply_peer_sync_payload (sp_peer_id pend) resp now y in
    match ack with
    | Some ack_req => let '(z, r) := build_peer_sync_request (sp_peer_id pend) ack_req now z in
        (z, req ← r; Ok (Some (sp_peer_id pend, req)))
    | None => (z, Ok None)
    end).1).
  { pose proof (apply_payload_ok cost (sp_peer_id pend) resp now y Hy) as H1.
    destruct (apply_peer_sync_payload _ _ _ y) as [z [ack|]]; [|done]. cbn [fst] in H1.
    pose proof (held_build (sp_peer_id pend) ack now z) as H2.
    destruct (build_peer_sync_request _ ack now z) as [z2 r]. by apply (node_ok_held cost z). }
  destruct (sp_request pend); try done; cbn [fst].
  - apply (node_ok_held cost y); [apply held_on_peer|done].
  - apply (node_ok_held cost y); [apply held_on_peer|done].
Qed.

Lemma response_bytes_ok cost rid payload now x : node_ok cost x ->
  node_ok cost (handle_peer_sync_response_bytes rid payload now x).1.
Proof.
  intros Hx. unfold handle_peer_sync_response_bytes. cbv zeta.
  set (y := match peer_sync_pending x !! rid with Some _ => _ | None => x end).
  assert (Hy : node_ok cost y).
  { subst y. destruct (peer_sync_pending x !! rid); [|done]. apply (node_ok_held cost x); [apply held_on_peer|done]. }
  pose proof (response_peer_ok cost rid payload now y Hy) as H1.
  by destruct (handle_peer_sync_response_bytes_with_peer rid payload now y).
Qed.

Lemma make_room_ok cost need weighted : forall done x, node_ok cost x -> node_ok cost (make_room need done weighted x).1.
Proof.
  induction weighted as [|[[w id] n] weighted IH]; intros got x Hx; [exact Hx|]. cbn [make_room].
  destruct (_ <=? _); [exact Hx|]. destruct (PropagationStore.has _ _); [|by apply IH].
  pose proof (IH (sat_add64 got (Z.of_nat n)) _ (remove_message_ok cost x id Hx)) as H1.
  by destruct (make_room _ _ weighted _).
Qed.

Lemma clean_store_ok cost now x : node_ok cost x -> node_ok cost (clean_propagation_store now x).1.
Proof.
  intros Hx. unfold clean_propagation_store. cbv zeta. set (ids := expired_ids _ x).
  pose proof (remove_messages_ok cost ids x Hx) as H1. set (y := foldl remove_message x ids) in *. clearbody y.
  destruct (propagation_store_limit_bytes y) as [limit|]; [|done]. destruct (_ <? _); [|done].
  pose proof (make_room_ok cost (Z.of_nat (PropagationStore.total_size_bytes (propagation_store y)) - limit)
    (weighted_entries (TicketStore.now_s now) y) 0 y H1) as H2.
  by destruct (make_room _ _ _ y).
Qed.

Lemma with_messaging_ok cost f x : message_files (f (messaging x)) = message_files (messaging x) ->
  node_ok cost x -> node_ok cost (with_messaging f x).
Proof. intros Hf. by apply node_ok_held, held_messaging. Qed.

Lemma control_ok cost id req now x : node_ok cost x ->
  node_ok cost (let '(x, r) := handle_control_request id req now x in push_control id r x).
Proof.
  intros Hx. pose proof (held_control id req now x) as H1. destruct (handle_control_request id req now x) as [x1 r].
  apply (node_ok_held cost x); [|done]. by rewrite held_push_control.
Qed.

Lemma process_received_ok cost rcv now sv x : node_ok cost x -> node_ok cost (process_received rcv now sv x).1.
Proof.
  intros Hx. destruct rcv as [msg|ts data fl src cnt|payload src|req src|resp src|req src]; cbn [process_received].
  - pose proof (files_inbound msg now sv false (messaging x)) as H1.
    destruct (LxmfRouter.process_inbound_message msg now sv false (messaging x)) as [m acc].
    apply (node_ok_held cost x); [|done]. by apply (held_messaging (fun _ => m)).
  - by apply process_propagated_ok.
  - by apply handle_resource_ok.
  - destruct (bool_decide _).
    + destruct src as [id|]; [|done]. pose proof (request_ok cost id req now x Hx) as H1.
      destruct (handle_peer_sync_request id req now x) as [x1 [r|e]]; [|done].
      apply (node_ok_held cost x1); [by destruct x1|done].
    + destruct (propagation_node_enabled x), src as [id|]; try done.
      pose proof (control_ok cost id req now x Hx) as H1. by destruct (handle_control_request id req now x).
  - destruct (value_to_bytes _) as [payload|]; [|done].
    pose proof (response_peer_ok cost (resp_request_id resp) payload now x Hx) as H1.
    destruct (handle_peer_sync_response_bytes_with_peer _ payload now x) as [x1 [[n|]|[e|]]]; try done.
    apply (node_ok_held cost x1); [by destruct x1|done].
  - destruct (propagation_node_enabled x); [|done]. destruct src as [id|].
    + pose proof (control_ok cost id req now x Hx) as H1. by destruct (handle_control_request id req now x).
    + cbn [fst]. apply (node_ok_held cost x); [apply held_push_control|done].
Qed.

Lemma process_inbound_loop_ok cost queued now sv : forall x, node_ok cost x ->
  node_ok cost (process_inbound_loop queued now sv x).1.
Proof.
  induction queued as [|rcv queued IH]; intros x Hx; [done|]. cbn [process_inbound_loop]. cbv zeta.
  match goal with |- context [with_messaging ?f x] => set (y := with_messaging f x) end.
  assert (Hy : node_ok cost y) by (apply with_messaging_ok; [by destruct (messaging x)|done]). clearbody y.
  pose proof (process_received_ok cost rcv now sv y Hy) as H1.
  destruct (process_received rcv now sv y) as [z [acc|e]]; [|done]. specialize (IH z H1).
  by destruct (process_inbound_loop queued now sv z).
Qed.

Lemma job_ok cost (ran : bool) (job : Router.t S -> Router.t S) x :
  (node_ok cost x -> node_ok cost (job x)) -> node_ok cost x -> node_ok cost (if ran then job x else x).
Proof. destruct ran; auto. Qed.

Lemma tick_jobs_ok cost key_draws locked tk now x :
  node_ok cost x -> node_ok cost (tick_jobs key_draws locked tk now x).
Proof.
  intros Hx. unfold tick_jobs.
  eapply node_ok_held; [apply held_request_timeouts|].
  apply (job_ok cost _ (with_messaging (LxmfRouter.stamps_job locked)));
    [apply with_messaging_ok, files_stamps_job|].
  apply (job_ok cost _ flush_queues); [apply node_ok_held, held_flush_queues|].
  apply (job_ok cost _ rotate_peers); [apply node_ok_held, held_rotate|].
  apply (job_ok cost _ (fun y => (clean_propagation_store now y).1)); [apply clean_store_ok|].
  apply (job_ok cost _ (fun y => schedule_peer_sync key_draws now (poll_peer_sync_timeouts now
    (with_messaging (fun m => (LxmfRouter.clean_transient_id_caches now m).1) y)))).
  { intros Hy. eapply node_ok_held; [apply held_schedule|]. eapply node_ok_held; [apply held_peer_timeouts|].
    apply with_messaging_ok; [apply files_clean_caches|done]. }
  destruct (links_ran tk); [|done]. apply (node_ok_held cost x); [by destruct x|done].
Qed.

Lemma tick_ok cost draws key_draws locked now x x' tk : node_ok cost x ->
  tick draws key_draws locked now x = Some (Ok (x', tk)) -> node_ok cost x'.
Proof.
  intros Hx. unfold tick. destruct (LxmfRuntime.tick draws now (runtime x)) as [[[rt t0]|e]|]; [|done..].
  set (y := with_messaging _ x).
  assert (Hy : node_ok cost y) by (apply with_messaging_ok; [by destruct (messaging x)|exact Hx]).
  pose proof (tick_jobs_ok cost key_draws locked t0 now y Hy) as Hz. set (z := tick_jobs _ _ _ _ y) in *. clearbody z.
  intros [= <- _]. apply (node_ok_held cost z); [by destruct z|done].
Qed.

Lemma files_outbound locked fresh msg mode now m :
  message_files (LxmfRouter.handle_outbound locked fresh msg mode now m).1 = message_files m.
Proof.
  unfold LxmfRouter.handle_outbound.
  assert (Hs : message_files (LxmfRouter.settle_outbound fresh msg now m).1 = message_files m).
  { unfold LxmfRouter.settle_outbound, LxmfRouter.include_ticket. cbv zeta.
    destruct (LXMessage.m_include_ticket _); [|done].
    destruct (TicketStore.generate_ticket _ _ _ _ _) as [tickets [e|]]; cbn [fst]; rewrite ?files_tickets; by destruct m. }
  destruct (LxmfRouter.settle_outbound fresh msg now m) as [m1 msg1]. cbn [fst] in Hs. rewrite <- Hs.
  destruct (LXMessage.m_defer_stamp msg1); [by destruct m1|].
  pose proof (files_enqueue msg1 mode m1) as He. by destruct (LxmfRouter.enqueue msg1 mode m1).
Qed.

Lemma files_thread m : message_files (LxmfRouter.thread_body m) = message_files m.
Proof. unfold LxmfRouter.thread_body. destruct (LxmfRouter.deferred_outbound_shared m); by destruct m. Qed.

Lemma files_deferred n : forall m, message_files (LxmfRouter.process_deferred_stamps n m).1 = message_files m.
Proof.
  induction n as [|n IH]; intros m; [done|]. cbn [LxmfRouter.process_deferred_stamps].
  destruct (LxmfRouter.deferred_outbound m) as [|item rest]; [done|].
  pose proof (files_enqueue (LxmfRouter.release item) (df_mode item) (m {{ LxmfRouter.deferred_outbound := rest }})) as He.
  destruct (LxmfRouter.enqueue _ _ _) as [m1 id]. cbn [fst] in He. specialize (IH m1).
  destruct (LxmfRouter.process_deferred_stamps n m1) as [m2 k]. cbn [fst] in *. rewrite IH, He. by destruct m.
Qed.

Lemma files_ticket_delivered id now m : message_files (LxmfRouter.mark_ticket_delivered id now m) = message_files m.
Proof. unfold LxmfRouter.mark_ticket_delivered. rewrite files_tickets. by destruct m. Qed.

Lemma files_stamp_cost id cost now m : message_files (LxmfRouter.set_outbound_stamp_cost id cost now m) = message_files m.
Proof.
  unfold LxmfRouter.set_outbound_stamp_cost. destruct cost as [c|]; [destruct (0 <? c)|]; rewrite files_costs; by destruct m.
Qed.

(** * The life of a node *)

(** What may happen to a node: messages are sent and received, peers talk to
    it, it is driven by its tick, reconfigured, and restarted from its disk.
    Two operations are left out: [clear_propagation_validation], which drops
    the rule the invariant is about, and [cleanup_propagation], which leaves
    the files of the messages it removes. *)
Inductive node_step (floor : Z) : Router.t S -> Router.t S -> Prop :=
| ns_router x f : node_step floor x (with_router f x)
| ns_outbound x locked fresh msg mode now :
    node_step floor x (with_messaging (fun m => (LxmfRouter.handle_outbound locked fresh msg mode now m).1) x)
| ns_deferred x n : node_step floor x (with_messaging (fun m => (LxmfRouter.process_deferred_stamps n m).1) x)
| ns_thread x : node_step floor x (with_messaging LxmfRouter.thread_body x)
| ns_ticket_delivered x id now : node_step floor x (with_messaging (LxmfRouter.mark_ticket_delivered id now) x)
| ns_stamp_cost x id cost now : node_step floor x (with_messaging (LxmfRouter.set_outbound_stamp_cost id cost now) x)
| ns_processed x id now : node_step floor x (mark_locally_processed id now x)
| ns_inbound x now sv : node_step floor x (process_inbound_queue now sv x).1
| ns_propagated x ts data now source c : node_step floor x (process_propagated ts data now source c x).1
| ns_resource x remote key limit payload now :
    node_step floor x (handle_propagation_resource_payload remote key limit payload now x).1
| ns_request x id req now : node_step floor x (handle_peer_sync_request id req now x).1
| ns_response x resp now : node_step floor x (handle_peer_sync_response resp now x).1
| ns_dispatch x reqs now : node_step floor x (dispatch_peer_sync_requests reqs now x).1
| ns_request_sync x id now : node_step floor x (request_peer_sync id now x).1
| ns_sync_peers x draws random now : node_step floor x (sync_peers draws random now x)
| ns_unpeer x id : node_step floor x (unpeer id x).1
| ns_rotate x : node_step floor x (rotate_peers x)
| ns_distribute x id from : node_step floor x (flush_queues (enqueue_peer_distribution id from x))
| ns_clean x now : node_step floor x (clean_propagation_store now x).1
| ns_tick x draws key_draws locked now x' tk :
    tick draws key_draws locked now x = Some (Ok (x', tk)) -> node_step floor x x'
| ns_announce x now x' : announce_propagation_node now x = Ok x' -> node_step floor x x'
| ns_enable x b now : node_step floor x (enable_propagation_node b now x)
| ns_storage_limit x kb mb gb : node_step floor x (set_message_storage_limit kb mb gb x)
| ns_prioritise x id : node_step floor x (prioritise_destination id x)
| ns_peering_rule x local cost : node_step floor x (set_peering_validation local cost x)
| ns_stamp_rule x cost flex : floor <= sat_sub cost flex -> node_step floor x (set_propagation_validation cost flex x)
| ns_drop x : node_step floor x (drop_router x)
| ns_restart x disk delivery store config now :
    LxmfRouter.persistence (messaging x) = Some disk -> dated (propagation_store x) ->
    node_step floor x (with_store_and_root delivery store disk config now).

(** [cleanup_propagation] forgets messages and leaves their files, which the
    next restart reads. *)
Lemma cleanup_leaves_files now max_age x :
  message_files (messaging (cleanup_propagation now max_age x).1) = message_files (messaging x).
Proof. unfold cleanup_propagation. destruct (PropagationStore.remove_older_than _ _ _). by destruct x. Qed.

Lemma remove_messages_entries ids : forall x id,
  PropagationStore.entries (propagation_store (foldl remove_message x ids)) !! id =
  if decide (id ∈ ids) then None else PropagationStore.entries (propagation_store x) !! id.
Proof.
  induction ids as [|k ids IH]; intros x id; [by rewrite decide_False by set_solver|]. cbn [foldl]. rewrite IH.
  destruct (remove_message_effect x k) as (-> & _ & _). cbn [PropagationStore.remove fst PropagationStore.entries].
  destruct (decide (id ∈ ids)) as [Hin|Hout]; [by rewrite decide_True by set_solver|].
  destruct (decide (id = k)) as [->|Hne].
  - rewrite decide_True by set_solver. apply lookup_delete_eq.
  - rewrite decide_False by set_solver. by apply lookup_delete_ne.
Qed.

Lemma remove_messages_limit ids : forall x,
  propagation_store_limit_bytes (foldl remove_message x ids) = propagation_store_limit_bytes x.
Proof.
  induction ids as [|k ids IH]; intros x; [done|]. cbn [foldl]. rewrite IH. unfold remove_message.
  destruct (PropagationStore.get _ k); by destruct x.
Qed.

(** What starting from a disk does, before and after the cleaning. *)
Lemma restart_effect delivery store disk config now :
  exists y, with_store_and_root delivery store disk config now =
      with_messaging LxmfRouter.save_local_caches (clean_propagation_store now y).1 /\
    propagation_store y = (PropagationFiles.load_propagation_store disk).2 /\
    message_files (messaging y) = Some (FileMessageStore.propagation_dir (PropagationFiles.load_propagation_store disk).1) /\
    min_stamp_cost y = Some 13 /\ propagation_store_limit_bytes y = None.
Proof.
  unfold with_store_and_root. destruct (PropagationFiles.load_propagation_store disk) as [disk1 propagated].
  cbv zeta. match goal with |- context [clean_propagation_store now (with_messaging ?f ?x)] =>
    exists (with_messaging f x); split; [reflexivity|]; pose proof (held_messaging f x) as Hh end.
  cbv beta in Hh. rewrite files_clean_caches, files_clean_costs, files_clean_tickets in Hh. specialize (Hh eq_refl).
  unfold held in Hh. cbn [fst snd]. split_and!; [done|..]; [|done..].
  etransitivity; [exact (f_equal (fun t => t.1.2) Hh)|done].
Qed.

Context `{FL : !F64TextLaws}.

Lemma restart_loaded x disk : node_ok 13 x -> dated (propagation_store x) -> LxmfRouter.persistence (messaging x) = Some disk ->
  mirrors (PropagationFiles.load_propagation_store disk).2
    (FileMessageStore.propagation_dir (PropagationFiles.load_propagation_store disk).1) /\
  forall id, PropagationStore.entries (PropagationFiles.load_propagation_store disk).2 !! id =
    match PropagationStore.entries (propagation_store x) !! id with
    | Some e => if datable (pe_timestamp e) then Some (reloaded e) else None
    | None => None
    end.
Proof.
  intros Hx Hv Hd. assert (Hm : message_files (messaging x) = Some (FileMessageStore.propagation_dir disk))
    by (unfold message_files; by rewrite Hd).
  pose proof (load_mirror _ _ (no_disk _ _ Hx _ Hm) Hv) as Hl.
  by destruct (PropagationFiles.load_propagation_store disk).
Qed.

Lemma restart_ok x disk delivery store config now : node_ok 13 x -> dated (propagation_store x) ->
  LxmfRouter.persistence (messaging x) = Some disk ->
  node_ok 13 (with_store_and_root delivery store disk config now).
Proof.
  intros Hx Hv Hd. destruct (restart_loaded x disk Hx Hv Hd) as [Hm Hl].
  destruct (restart_effect delivery store disk config now) as (y & -> & Hs & Hf & Hc & _).
  apply with_messaging_ok; [apply files_local_caches|]. apply clean_store_ok. split.
  - exists 13. split; [done|lia].
  - rewrite Hs. intros id e. rewrite Hl.
    destruct (PropagationStore.entries (propagation_store x) !! id) as [e0|] eqn:He; [|done].
    destruct (datable _); [|done]. intros [= <-]. apply (no_good _ _ Hx _ _ He).
  - intros dir. rewrite Hf, Hs. by intros [= <-].
Qed.

Lemma expired_ids_spec now_s x id : id ∈ expired_ids now_s x <->
  exists e, PropagationStore.entries (propagation_store x) !! id = Some e /\ entry_expired now_s e = true.
Proof.
  unfold expired_ids. rewrite list_elem_of_fmap. split.
  - intros ([k e] & -> & [He Hin]%list_elem_of_filter). exists e. by split; [apply elem_of_hash_iter|].
  - intros (e & He & Hx). exists (id, e). split; [done|]. apply list_elem_of_filter.
    by split; [|apply elem_of_hash_iter].
Qed.

Lemma not_expired_datable now_s e : entry_expired now_s e = false -> datable (pe_timestamp e) = true.
Proof.
  unfold entry_expired, datable. intros [[H1 H2]%orb_false_iff _]%orb_false_iff.
  by rewrite H2, (proj1 (negb_false_iff _) H1).
Qed.

(** The messages of a node started from the disk of another: all that are not
    out of date. *)
Definition after_restart (now_s : f64) (o : option PropagationEntry) : option PropagationEntry :=
  match o with Some e => if entry_expired now_s e then None else Some (reloaded e) | None => None end.

Lemma restart_entries x disk delivery store config now id : node_ok 13 x -> dated (propagation_store x) ->
  LxmfRouter.persistence (messaging x) = Some disk ->
  PropagationStore.entries (propagation_store (with_store_and_root delivery store disk config now)) !! id =
  after_restart (TicketStore.now_s now) (PropagationStore.entries (propagation_store x) !! id).
Proof.
  intros Hx Hv Hd. destruct (restart_loaded x disk Hx Hv Hd) as [Hm Hl].
  destruct (restart_effect delivery store disk config now) as (y & -> & Hs & _ & _ & Hlim).
  transitivity (PropagationStore.entries (propagation_store (clean_propagation_store now y).1) !! id);
    [by destruct (clean_propagation_store now y).1|].
  unfold clean_propagation_store. cbv zeta. rewrite remove_messages_limit, Hlim. cbn [fst].
  rewrite remove_messages_entries.
  assert (Hin := expired_ids_spec (TicketStore.now_s now) y id).
  rewrite Hs, Hl in *. unfold after_restart.
  destruct (PropagationStore.entries (propagation_store x) !! id) as [e|] eqn:He; [|by destruct (decide _)].
  destruct (entry_expired (TicketStore.now_s now) e) eqn:Hx'.
  - destruct (decide _) as [|Hout]; [done|]. destruct (datable (pe_timestamp e)) eqn:Hd'; [|done].
    contradict Hout. apply Hin. by exists (reloaded e).
  - apply not_expired_datable in Hx' as Hdt. rewrite Hdt in *. destruct (decide _) as [(e' & [= <-] & H)%Hin|]; [|done].
    change (entry_expired (TicketStore.now_s now) e = true) in H. congruence.
Qed.

Lemma node_step_ok x x' : node_step 13 x x' -> node_ok 13 x -> node_ok 13 x'.
Proof.
  destruct 1; intros Hx.
  all: try (apply with_messaging_ok; [|exact Hx]).
  - by destruct (messaging x).
  - apply files_outbound.
  - apply files_deferred.
  - apply files_thread.
  - apply files_ticket_delivered.
  - apply files_stamp_cost.
  - apply files_processed.
  - by apply process_inbound_loop_ok.
  - by apply process_propagated_ok.
  - by apply handle_resource_ok.
  - by apply request_ok.
  - unfold handle_peer_sync_response. destruct (value_to_bytes _); [|done]. by apply response_bytes_ok.
  - by eapply node_ok_held; [apply held_dispatch|].
  - by eapply node_ok_held; [apply held_request_sync|].
  - by eapply node_ok_held; [apply held_sync_peers|].
  - by eapply node_ok_held; [apply held_unpeer|].
  - by eapply node_ok_held; [apply held_rotate|].
  - eapply node_ok_held; [apply held_flush_queues|]. apply (node_ok_held 13 x); [by destruct x|done].
  - by apply clean_store_ok.
  - by eapply tick_ok.
  - revert H. unfold announce_propagation_node. destruct (get_propagation_node_app_data x); cbn; [|done].
    intros [= <-]. apply (node_ok_held 13 x); [by destruct x|done].
  - apply (node_ok_held 13 x); [by destruct x|done].
  - apply (node_ok_held 13 x); [by destruct x|done].
  - apply (node_ok_held 13 x); [by destruct x|done].
  - apply (node_ok_held 13 x); [by destruct x|done].
  - destruct Hx as [H1 H2 H3]. split; [|by destruct x..]. exists (sat_sub cost flex). split; [by destruct x|lia].
  - unfold message_files. destruct (messaging x) as [? ? ? ? ? ? ? ? ? [[]|] ? ? ?]; done.
  - by eapply restart_ok.
Qed.

(** A node started from a disk without messages. *)
Lemma fresh_ok delivery store disk config now : FileMessageStore.propagation_dir disk = ∅ ->
  node_ok 13 (with_store_and_root delivery store disk config now).
Proof.
  intros Hd. destruct (restart_effect delivery store disk config now) as (y & -> & Hs & Hf & Hc & _).
  unfold PropagationFiles.load_propagation_store in Hs, Hf. rewrite Hd, hash_iter_empty in Hs, Hf. cbn in Hs, Hf.
  apply with_messaging_ok; [apply files_local_caches|]. apply clean_store_ok. split.
  - exists 13. split; [done|lia].
  - rewrite Hs. apply map_Forall_empty.
  - intros dir. rewrite Hf, Hs. intros [= <-]. destruct disk. apply mirrors_new.
Qed.


End Node.

(** * A node in operation *)

(** Text of a double for examples: the decimal digits of its code number. *)
Definition code_display : F64Display := fun x => pretty (Zpos (countable.encode x)).
Definition code_parse : F64Parse := fun l => digits_value 0 l ≫= (fun z => countable.decode (Z.to_pos z)).

Lemma code_text_laws : @F64TextLaws code_display code_parse.
Proof.
  split.
  - intros x _. unfold f64_parse, code_parse, f64_display, code_display. rewrite pretty_value by lia.
    cbn [mbind option_bind Z.to_pos]. apply countable.decode_encode.
  - intros x. apply (digits_value_plain _ 0 (Zpos (countable.encode x))), pretty_value. lia.
Qed.

#[local] Existing Instance toy_features.
#[local] Existing Instance toy_crypto.
#[local] Existing Instance toy_identity.
#[local] Existing Instance bit_codec.
#[local] Existing Instance key_order.
#[local] Existing Instance code_display.
#[local] Existing Instance code_parse.
#[local] Existing Instance code_text_laws.

Definition stamped_data : list byte := replicate 150 x01 ++ replicate 32 x00.

Definition sample_node : Router.t InMemoryStore.t :=
  Router.with_store_and_root sample_outbound InMemoryStore.new FileMessageStore.new RuntimeConfig_default 1000.
Definition sample_holder : Router.t InMemoryStore.t :=
  (Router.process_propagated (f64_of_Z 1000) stamped_data 1000000 None true sample_node).1.

Lemma sample_holds_one :
  map_to_list (PropagationStore.entries (Router.propagation_store sample_holder)) =
  [(full_hash (replicate 150 x01),
    mkPropEntry (full_hash (replicate 150 x01)) stamped_data (f64_of_Z 1000) (Some (arr_of 16 (replicate 16 x01)))
      None (Some 182))].
Proof. vm_compute. reflexivity. Qed.

Lemma sample_messages (P : TransientId -> PropagationEntry -> Prop) :
  (forall id e, (id, e) ∈ map_to_list (PropagationStore.entries (Router.propagation_store sample_holder)) -> P id e) ->
  map_Forall P (PropagationStore.entries (Router.propagation_store sample_holder)).
Proof. intros H id e He. by apply H, elem_of_map_to_list. Qed.

Lemma sample_ok : node_ok 13 sample_holder.
Proof. apply process_propagated_ok, fresh_ok. reflexivity. Qed.

