(* ===== verification/Cleaning.v ===== *)
(** Cleaning of a propagation node's store ([clean_propagation_store] of
    [lxmf-rs/src/rns/router.rs]): what is out of date goes, then the messages
    that weigh most, and no more of them than the limit asks for. *)

From Stdlib Require Import ZArith Lia Permutation.
From Stdlib Require Import Strings.Byte.
From stdpp Require Import base gmap strings numbers relations list.
From coqutil Require Import Datatypes.RecordSetters.
From S2P Require Import Prelude Float Msgpack Crypto Buffer Packet Identity Destination Link Stamp Message Rns.
From S2P Require Import Delivery Requests PnDirectory PropStore Peer PeerCodec StorageCodec StorageTables MessageStore.
From S2P Require Import PropDisk Links Tickets Outbound Runtime Messaging Router Propagation.
Import DoubleBraceUpdate.

Local Open Scope Z_scope.

Section Cleaning.
Context `{F : Features} `{IC : IdentityCrypto} `{M : Msgpack} `{D : F64Display} `{P : F64Parse} `{HI : HashIter}.
Context {S : Type} `{MS : MessageStore S}.
Import Router.
Implicit Types x : Router.t S.

Abbreviation messages x := (PropagationStore.entries (propagation_store x)).
Abbreviation total x := (PropagationStore.total_size_bytes (propagation_store x)).

(** The identifiers and the bytes of weighted messages. *)
Definition weighted_ids (l : list (f64 * TransientId * nat)) : list TransientId := l.*1.*2.
Definition weighted_bytes (l : list (f64 * TransientId * nat)) : nat := sum_list l.*2.

Lemma weighted_ids_cons w id n l : weighted_ids ((w, id, n) :: l) = id :: weighted_ids l.
Proof. done. Qed.

Lemma weighted_bytes_cons w id n l : weighted_bytes ((w, id, n) :: l) = (n + weighted_bytes l)%nat.
Proof. done. Qed.

Lemma total_size_perm (s : PropagationStore.t) :
  PropagationStore.total_size_bytes s =
  sum_list (map (fun kv => length (pe_lxm_data kv.2)) (map_to_list (PropagationStore.entries s))).
Proof.
  unfold PropagationStore.total_size_bytes, hash_values. rewrite hash_iter_perm.
  change (?l.*2) with (map snd l). by rewrite map_map.
Qed.

Lemma remove_message_messages x id : messages (remove_message x id) = delete id (messages x).
Proof. by destruct (remove_message_effect x id) as (-> & _). Qed.

Lemma remove_message_total x id e : messages x !! id = Some e ->
  (total (remove_message x id) + length (pe_lxm_data e) = total x)%nat.
Proof.
  intros He. rewrite !total_size_perm, remove_message_messages.
  rewrite <- (map_to_list_delete (messages x) id e He). cbn [map sum_list snd]. apply Nat.add_comm.
Qed.

Lemma remove_messages_total ids : forall x, (total (foldl remove_message x ids) <= total x)%nat.
Proof.
  induction ids as [|id ids IH]; intros x; [done|]. cbn [foldl]. etransitivity; [apply IH|].
  destruct (messages x !! id) as [e|] eqn:He; [pose proof (remove_message_total x id e He); lia|].
  rewrite !total_size_perm, remove_message_messages, delete_id by done. done.
Qed.

Lemma remove_message_size x id : is_Some (messages x !! id) ->
  (size (messages (remove_message x id)) + 1 = size (messages x))%nat.
Proof.
  intros [e He]. rewrite remove_message_messages, map_size_delete_Some by eauto.
  assert (0 < size (messages x))%nat; [|lia].
  apply Nat.neq_0_lt_0. rewrite map_size_empty_iff. intros Hem. rewrite Hem, lookup_empty in He. done.
Qed.

Lemma remove_messages_size ids : forall x, NoDup ids -> (forall id, id ∈ ids -> is_Some (messages x !! id)) ->
  (size (messages (foldl remove_message x ids)) + length ids = size (messages x))%nat.
Proof.
  induction ids as [|id ids IH]; intros x Hn Hin; [cbn; lia|]. apply NoDup_cons in Hn as [Hout Hn]. cbn [foldl length].
  pose proof (remove_message_size x id (Hin id ltac:(set_solver))) as H1.
  pose proof (IH (remove_message x id) Hn) as H2. lapply H2; [lia|].
  intros k Hk. rewrite remove_message_messages, lookup_delete_ne by (intros ->; done). apply Hin. set_solver.
Qed.

(** The loop takes messages from the front of the list, and stops as soon as
    enough bytes are gone. *)
Lemma make_room_spec need weighted : forall got x,
  NoDup (weighted_ids weighted) ->
  (forall w id n, (w, id, n) ∈ weighted -> exists e, messages x !! id = Some e /\ n = length (pe_lxm_data e)) ->
  0 <= got -> got + Z.of_nat (weighted_bytes weighted) <= u64_max ->
  let '(x', k) := make_room need got weighted x in
  (k <= length weighted)%nat /\
  (forall id, messages x' !! id = if decide (id ∈ weighted_ids (take k weighted)) then None else messages x !! id) /\
  (total x' + weighted_bytes (take k weighted) = total x)%nat /\
  (size (messages x') + k = size (messages x))%nat /\
  ((k < length weighted)%nat -> need <= got + Z.of_nat (weighted_bytes (take k weighted))) /\
  (forall j, (j < k)%nat -> got + Z.of_nat (weighted_bytes (take j weighted)) < need).
Proof.
  induction weighted as [|[[w id] n] weighted IH]; intros got x Hn Hin Hgot Hfit.
  { cbn. split_and!; try lia; intros; try lia. by rewrite decide_False by set_solver. }
  cbn [make_room]. destruct (Z.leb_spec need got) as [Hle|Hlt].
  { cbn. split_and!; try lia; intros; try lia. by rewrite decide_False by set_solver. }
  destruct (Hin w id n ltac:(set_solver)) as (e & He & ->).
  unfold PropagationStore.has. rewrite bool_decide_true by eauto.
  rewrite weighted_ids_cons in Hn. apply NoDup_cons in Hn as [Hout Hn]. rewrite weighted_bytes_cons in Hfit.
  assert (Hsat : sat_add64 got (Z.of_nat (length (pe_lxm_data e))) = got + Z.of_nat (length (pe_lxm_data e)))
    by (unfold sat_add64; lia). rewrite Hsat.
  specialize (IH (got + Z.of_nat (length (pe_lxm_data e))) (remove_message x id) Hn).
  lapply IH; clear IH; [intros IH|].
  2: { intros w' id' n' Hi. rewrite remove_message_messages, lookup_delete_ne; [apply (Hin w' id' n'); set_solver|].
       intros ->. apply Hout. apply list_elem_of_fmap. exists (w', id'). split; [done|]. apply list_elem_of_fmap. by exists (w', id', n'). }
  specialize (IH ltac:(lia) ltac:(lia)).
  destruct (make_room need _ weighted (remove_message x id)) as [x' k]. destruct IH as (I1 & I2 & I3 & I4 & I5 & I6).
  pose proof (remove_message_total x id e He). pose proof (remove_message_size x id ltac:(eauto)).
  cbn [length take]. rewrite weighted_bytes_cons, weighted_ids_cons. split_and!; try lia.
  - intros k'. rewrite I2, remove_message_messages.
    destruct (decide (k' ∈ _)) as [Hk|Hk]; [by rewrite decide_True by set_solver|].
    destruct (decide (k' = id)) as [->|Hne]; [rewrite lookup_delete_eq; by rewrite decide_True by set_solver|].
    by rewrite lookup_delete_ne, decide_False by set_solver.
  - intros [|j] Hj; cbn [take]; [cbn; lia|]. rewrite weighted_bytes_cons. specialize (I6 j ltac:(lia)). lia.
Qed.

Lemma weighted_perm now_s x : weighted_entries now_s x ≡ₚ
  map (fun kv => (message_weight now_s (propagation_prioritised x) kv.2, kv.1, length (pe_lxm_data kv.2)))
    (hash_iter (messages x)).
Proof. apply sort_by_perm. Qed.

Lemma weighted_ids_perm now_s x : weighted_ids (weighted_entries now_s x) ≡ₚ hash_keys (messages x).
Proof.
  unfold weighted_ids, hash_keys. rewrite weighted_perm. change (map ?f ?l) with (f <$> l).
  rewrite <- !list_fmap_compose. done.
Qed.

Lemma weighted_bytes_total now_s x : weighted_bytes (weighted_entries now_s x) = total x.
Proof.
  unfold weighted_bytes, PropagationStore.total_size_bytes, hash_values. rewrite weighted_perm.
  change (map ?f ?l) with (f <$> l). by rewrite <- !list_fmap_compose.
Qed.

Lemma weighted_in_store now_s x w id n : (w, id, n) ∈ weighted_entries now_s x ->
  exists e, messages x !! id = Some e /\ n = length (pe_lxm_data e).
Proof.
  rewrite weighted_perm. intros ([k e] & [= _ -> ->] & Hin)%list_elem_of_fmap. exists e.
  by split; [apply elem_of_hash_iter|].
Qed.

Lemma expired_ids_nodup now_s x : NoDup (expired_ids now_s x).
Proof.
  unfold expired_ids. apply (sublist_NoDup _ (hash_keys (messages x))); [apply NoDup_hash_keys|].
  apply fmap_sublist, sublist_filter.
Qed.

(** The store after the messages out of date are gone. *)
Definition current now_s x : Router.t S := foldl remove_message x (expired_ids now_s x).

Lemma current_lookup now_s x id : messages (current now_s x) !! id =
  match messages x !! id with Some e => if entry_expired now_s e then None else Some e | None => None end.
Proof.
  unfold current. rewrite remove_messages_entries. pose proof (expired_ids_spec now_s x id) as Hs.
  destruct (decide _) as [Hin|Hout].
  - apply Hs in Hin as (e & -> & ->). done.
  - destruct (messages x !! id) as [e|] eqn:He; [|done]. destruct (entry_expired now_s e) eqn:Hx; [|done].
    contradict Hout. apply Hs. eauto.
Qed.

Lemma current_size now_s x :
  (size (messages (current now_s x)) + length (expired_ids now_s x) = size (messages x))%nat.
Proof.
  apply remove_messages_size; [apply expired_ids_nodup|]. intros id (e & He & _)%expired_ids_spec. eauto.
Qed.

(** C16. Cleaning the store.  What is left was there before, and nothing of it
    is out of date.  With a limit, the messages left fit it; the messages that
    had to go for space are the first of those still current, ordered by
    weight, and one fewer would not have been enough.  The number reported is
    the number of messages removed. *)
Theorem store_cleaned (now : Z) x (Hfit : Z.of_nat (total x) <= u64_max)
  (Hlimit : forall limit, propagation_store_limit_bytes x = Some limit -> 0 <= limit) :
  let now_s := TicketStore.now_s now in
  let '(x', n) := clean_propagation_store now x in
  let queue := weighted_entries now_s (current now_s x) in
  exists k,
    (forall id, messages x' !! id =
       match messages x !! id with
       | Some e => if entry_expired now_s e || bool_decide (id ∈ weighted_ids (take k queue)) then None else Some e
       | None => None
       end) /\
    (size (messages x') + n = size (messages x))%nat /\
    match propagation_store_limit_bytes x with
    | Some limit => Z.of_nat (total x') <= limit /\
        forall j, (j < k)%nat -> limit < Z.of_nat (total (current now_s x)) - Z.of_nat (weighted_bytes (take j queue))
    | None => k = O
    end.
Proof.
  cbv zeta. unfold clean_propagation_store. cbv zeta. fold (current (TicketStore.now_s now) x).
  set (now_s := TicketStore.now_s now). set (y := current now_s x).
  assert (Hlim : propagation_store_limit_bytes y = propagation_store_limit_bytes x) by apply remove_messages_limit.
  pose proof (current_size now_s x) as Hsize. fold y in Hsize.
  assert (Hnone : forall id, messages y !! id = match messages x !! id with
    | Some e => if entry_expired now_s e || bool_decide (id ∈ weighted_ids (take 0 (weighted_entries now_s y)))
                then None else Some e
    | None => None end).
  { intros id. unfold y. rewrite current_lookup. destruct (messages x !! id) as [e|]; [|done].
    rewrite bool_decide_false by set_solver. by rewrite orb_false_r. }
  rewrite Hlim. destruct (propagation_store_limit_bytes x) as [limit|]; [|exists O; split_and!; [done|lia|done]].
  specialize (Hlimit _ eq_refl). destruct (Z.ltb_spec limit (Z.of_nat (total y))) as [Hlt|Hle].
  2: { exists O. split_and!; [done|lia|lia|intros; lia]. }
  pose proof (make_room_spec (Z.of_nat (total y) - limit) (weighted_entries now_s y) 0 y) as Hroom.
  rewrite weighted_ids_perm, weighted_bytes_total in Hroom.
  assert (Hty : (total y <= total x)%nat) by apply remove_messages_total.
  specialize (Hroom (NoDup_hash_keys _) (weighted_in_store now_s y) ltac:(lia) ltac:(lia)).
  destruct (make_room _ 0 _ y) as [x' k]. destruct Hroom as (R1 & R2 & R3 & R4 & R5 & R6). exists k. split_and!.
  - intros id. rewrite R2, Hnone. destruct (messages x !! id) as [e|]; [|by destruct (decide _)].
    cbn [take weighted_ids]. destruct (entry_expired now_s e); [by destruct (decide _)|]. cbn [orb].
    rewrite (bool_decide_false (id ∈ weighted_ids [])) by set_solver.
    destruct (decide _); [by rewrite bool_decide_true|by rewrite bool_decide_false].
  - lia.
  - destruct (decide (k < length (weighted_entries now_s y))%nat) as [Hk|Hk]; [specialize (R5 Hk); lia|].
    rewrite take_ge, weighted_bytes_total in R3 by lia. lia.
  - intros j Hj. specialize (R6 j Hj). lia.
Qed.

End Cleaning.

#[local] Existing Instance toy_features.
#[local] Existing Instance toy_crypto.
#[local] Existing Instance toy_identity.
#[local] Existing Instance bit_codec.
#[local] Existing Instance bit_codec_laws.
#[local] Existing Instance key_order.
#[local] Existing Instance code_display.
#[local] Existing Instance code_parse.

(** A node whose only message is over its limit. *)
Definition full_node : Router.t InMemoryStore.t :=
  sample_holder {{ Router.propagation_store_limit_bytes := Some 100 }}.

Lemma store_cleaned_witness :
  let x' := (Router.clean_propagation_store 2000000 full_node).1 in
  (size (PropagationStore.entries (Router.propagation_store full_node)) = 1)%nat /\
  Z.of_nat (PropagationStore.total_size_bytes (Router.propagation_store x')) <= 100.
Proof.
  pose proof (store_cleaned 2000000 full_node) as H.
  lapply H; [clear H; intros H|apply Z.leb_le; vm_compute; reflexivity].
  lapply H; [clear H; intros H|intros l Hl; vm_compute in Hl; injection Hl as <-; lia]. cbv zeta in H.
  split; [vm_compute; reflexivity|]. cbv zeta.
  destruct (Router.clean_propagation_store 2000000 full_node) as [x' n]. destruct H as (k & _ & _ & Hlim).
  change (Router.propagation_store_limit_bytes full_node) with (Some 100) in Hlim. apply Hlim.
Defined.
