(* ===== verification/PeerSync.v ===== *)
(** Two propagation nodes synchronise: the offer, the request for the messages
    that are missing, the messages, and their acknowledgement, each as the
    bytes one [Router] builds and the other handles. *)

From Stdlib Require Import ZArith Lia Permutation.
From Stdlib Require Import Strings.Byte.
From stdpp Require Import base gmap strings numbers relations list.
From coqutil Require Import Datatypes.RecordSetters.
From S2P Require Import Prelude Float Msgpack Crypto Buffer Packet Identity Destination Link Stamp Message Rns.
From S2P Require Import Delivery Requests PnDirectory PropStore Peer PeerCodec StorageCodec StorageTables MessageStore.
From S2P Require Import PropDisk Links Tickets Outbound Runtime Messaging Router Propagation.
Import DoubleBraceUpdate.

Local Open Scope Z_scope.

Section Sync.
Context `{F : Features} `{IC : IdentityCrypto} `{M : Msgpack} `{D : F64Display} `{P : F64Parse} `{HI : HashIter}.
Context `{ML : !MsgpackLaws}.
Context {S : Type} `{MS : MessageStore S}.
Import Router.
Implicit Types x : Router.t S.

Abbreviation messages x := (PropagationStore.entries (propagation_store x)).

(** * The exchange *)

(** One synchronisation of [alice], whom [bob] knows as [a], with [bob], whom
    she knows as [b].  Requests are built and dispatched by the one and handled
    by the other; [bob]'s request for messages waits in his queue until a tick
    takes it. *)
Definition synchronise (a b : arr 16) (key : list byte) (now : Z) (alice bob : Router.t S) :
    option (Router.t S * Router.t S) :=
  let '(alice, offer) := peer_sync_offer b key now alice in
  match dispatch_peer_sync_requests [(b, offer)] now alice with
  | (alice, Ok [(offer, _)]) =>
      match handle_peer_sync_request a offer now bob with
      | (bob, Ok answer) =>
          let '(alice, _) := handle_peer_sync_response answer now alice in
          let queued := peer_sync_queue bob in
          match dispatch_peer_sync_requests queued now (bob {{ peer_sync_queue := [] }}) with
          | (bob, Ok [(get, _)]) =>
              match handle_peer_sync_request b get now alice with
              | (alice, Ok payload) =>
                  match handle_peer_sync_response payload now bob with
                  | (bob, Ok (Some ack)) =>
                      match handle_peer_sync_request b ack now alice with
                      | (alice, Ok answer) =>
                          Some (alice, (handle_peer_sync_response answer now bob).1)
                      | _ => None
                      end
                  | _ => None
                  end
              | _ => None
              end
          | _ => None
          end
      | _ => None
      end
  | _ => None
  end.

(** What [bob] lacks of [alice]'s messages, in the order she lists them. *)
Definition missing (alice bob : Router.t S) : list TransientId :=
  filter (fun id => PropagationStore.has (propagation_store bob) id = false)
    (PropagationStore.list_ids (propagation_store alice)).

(** * What a step of the exchange depends on *)

Definition core x := (held x, LxmfRouter.locally_processed (messaging x), peering_validation x, peer_sync_queue x).

Lemma core_on_peer id now f x : core (on_peer id now f x) = core x.
Proof. unfold on_peer. destruct (PeerTable.upsert _ _ _). by destruct x. Qed.

Definition request_bytes_small (req : PeerSyncRequest) : Prop :=
  forall bs, encode_peer_sync_request req = Ok bs -> fits_u32 bs = true.

(** The time of a request is a double. *)
Definition time_ok (now : Z) : Prop := f64_valid (f64_div (f64_of_Z now) (f64_of_Z 1000)) = true.

Lemma build_ok id req now x : sync_request_ok req -> request_bytes_small req -> time_ok now ->
  exists x' r bs, build_peer_sync_request id req now x = (x', Ok r) /\ req_data r = Binary bs /\
    decode_peer_sync_request bs = Ok req /\ core x' = core x /\
    peer_sync_pending x' !! req_request_id r = Some (mkSyncPending id req).
Proof.
  intros Hreq Hsmall Hnow. destruct (sync_request_codec req Hreq) as (bs & He & Hd).
  unfold build_peer_sync_request, RnsRequestManager.register_request. rewrite He.
  set (path := default _ _). set (at_ := f64_div _ _).
  destruct (rns_write_read (VArray [F64 at_; Binary path; Binary bs])) as (wire & Hw & _).
  { eapply (rep_representable 2); [|unfold MAX_DEPTH; lia]. apply rep_array; [reflexivity|].
    repeat apply List.Forall_cons; [..|apply List.Forall_nil].
    - by apply rep_f64.
    - apply rep_arr. unfold u32_max. lia.
    - by apply rep_binary, Hsmall. }
  unfold encode_request_bytes. cbn [req_requested_at req_path_hash req_data]. rewrite Hw.
  eexists _, _, bs. split; [reflexivity|]. split; [done|]. split; [specialize (Hd []); by rewrite app_nil_r in Hd|].
  split; [by destruct x as [[]]|]. cbn. apply lookup_insert_eq.
Qed.

Lemma dispatch_one id req now x x' r : build_peer_sync_request id req now x = (x', Ok r) ->
  dispatch_peer_sync_requests [(id, req)] now x = (x', Ok [(r, id)]).
Proof. intros Hb. cbn [dispatch_peer_sync_requests]. by rewrite Hb. Qed.

(** The key [alice] makes for [bob] is made for her own identifier followed by
    his; [bob] checks it for his own followed by hers. *)
Lemma peering_ids_differ (alice bob : Router.t S) va vb id :
  peering_validation alice = Some va -> peering_validation bob = Some vb ->
  peering_id_for_peer (Peer.local_identity_hash vb) alice = Some id ->
  arr_list id = arr_list (Peer.local_identity_hash vb) ++ arr_list (Peer.local_identity_hash va) <->
  Peer.local_identity_hash va = Peer.local_identity_hash vb.
Proof.
  intros Ha Hb. unfold peering_id_for_peer. rewrite Ha. cbn [mbind option_bind]. intros [= <-].
  set (a := Peer.local_identity_hash va). set (b := Peer.local_identity_hash vb).
  rewrite arr_of_list by (by rewrite length_app, !arr_length). split.
  - intros Heq. apply app_inj_1 in Heq as [Heq _]; [by apply arr_eq|by rewrite !arr_length].
  - by intros ->.
Qed.

(** * Bob answers the offer *)

Definition key_accepted (x : Router.t S) (id : arr 16) (key : list byte) : Prop :=
  match peering_validation x with
  | Some v => validate_peering_key (arr_list (Peer.local_identity_hash v) ++ arr_list id) key (pv_target_cost v) = true
  | None => True
  end.

Lemma offer_answered a key available now bs x : decode_peer_sync_request bs = Ok (Offer key available) ->
  key_accepted x a key ->
  let wants := filter (fun id => PropagationStore.has (propagation_store x) id = false) available in
  wants <> [] ->
  exists x', handle_peer_sync_request_bytes a bs now x = (x', encode_peer_sync_response (RIdList wants)) /\
    held x' = held x /\ LxmfRouter.locally_processed (messaging x') = LxmfRouter.locally_processed (messaging x) /\
    peer_sync_queue x' = peer_sync_queue x ++
      [(a, MessageGet wants (PropagationStore.list_ids (propagation_store x)) None)].
Proof.
  intros Hd Hkey wants Hw. unfold handle_peer_sync_request_bytes. rewrite Hd. cbv zeta.
  set (y := on_peer a now (Peer.mark_heard now) x).
  assert (Hy : core y = core x) by apply core_on_peer.
  assert (Hst : propagation_store y = propagation_store x) by (unfold y, on_peer; destruct (PeerTable.upsert _ _ _); by destruct x).
  assert (Hpv : peering_validation y = peering_validation x) by (unfold core in Hy; congruence).
  unfold handle_peer_sync_offer. rewrite Hst, Hpv. fold wants. cbv zeta.
  replace (match peering_validation x with Some v => _ | None => false end) with false.
  2: { unfold key_accepted in Hkey. destruct (peering_validation x); [by rewrite Hkey|done]. }
  rewrite bool_decide_false by done.
  match goal with |- context [on_peer a now ?f y] => set (y1 := on_peer a now f y) end.
  assert (Hy1 : core y1 = core y) by apply core_on_peer.
  assert (Hst1 : propagation_store y1 = propagation_store x)
    by (rewrite <- Hst; unfold y1, on_peer; destruct (PeerTable.upsert _ _ (peers y)); by destruct y).
  clearbody y y1. unfold peer_sync_message_get. cbv zeta. rewrite bool_decide_false by done. rewrite Hst1.
  match goal with |- context [on_peer a now ?f y1] => set (y2 := on_peer a now f y1) end.
  assert (Hy2 : core y2 = core x) by (rewrite <- Hy, <- Hy1; apply core_on_peer). clearbody y2.
  eexists. split; [reflexivity|]. unfold core in Hy2. injection Hy2 as H1 H2 H3 H4 H5 H6 H7.
  rewrite <- H7. split_and!; [|by destruct y2..]. unfold held. rewrite <- H1, <- H2, <- H3, <- H4. by destruct y2.
Qed.

(** * Alice answers the request *)

(** The messages asked for, in order, with the bytes they travel as. *)
Definition travels (e : PropagationEntry) (bs : list byte) : Prop :=
  propagation_entry_to_bytes e = Ok bs /\ propagation_entry_from_bytes bs = Ok (entry_read e).

Lemma collect_all (batch : list (TransientId * PropagationEntry * list byte)) store : forall total,
  Forall (fun m => PropagationStore.entries store !! m.1.1 = Some m.1.2 /\ travels m.1.2 m.2) batch ->
  (collect_items store None batch.*1.*1 total).1 = batch.*2.
Proof.
  induction batch as [|[[id e] bs] batch IH]; intros total Hb; [done|].
  apply List.Forall_cons_iff in Hb as [[He [Hw _]] Hb]. cbn [collect_items fmap list_fmap fst snd] in *.
  unfold PropagationStore.get. rewrite He. cbn [mbind option_bind]. rewrite Hw. cbn [res_ok].
  specialize (IH (sat_add64 total (Z.of_nat (length bs))) Hb).
  destruct (collect_items _ _ _ _) as [items total']. cbn [fst] in *. by rewrite IH.
Qed.

Lemma get_answered b haves now bs x (batch : list (TransientId * PropagationEntry * list byte)) :
  decode_peer_sync_request bs = Ok (MessageGet batch.*1.*1 haves None) ->
  Forall (fun m => messages x !! m.1.1 = Some m.1.2 /\ travels m.1.2 m.2) batch ->
  exists x', handle_peer_sync_request_bytes b bs now x = (x', encode_peer_sync_response (RPayload batch.*2)) /\
    held x' = held x.
Proof.
  intros Hd Hb. unfold handle_peer_sync_request_bytes. rewrite Hd. cbv zeta.
  set (y := on_peer b now (Peer.mark_heard now) x). assert (Hy : held y = held x) by apply held_on_peer.
  assert (Hb' : Forall (fun m => messages y !! m.1.1 = Some m.1.2 /\ travels m.1.2 m.2) batch)
    by (unfold held in Hy; injection Hy as -> _ _ _; done).
  clearbody y. pose proof (held_handle_get b (MessageGet batch.*1.*1 haves None) y) as Hg.
  unfold handle_peer_sync_message_get in *. cbv zeta in *.
  pose proof (collect_all batch (propagation_store y) 0 Hb') as Hc. cbn [fmap option_fmap option_map] in *.
  destruct (collect_items _ _ _ _) as [items total]. cbn [fst] in Hc, Hg. subst items.
  eexists. split; [reflexivity|]. congruence.
Qed.

(** * Bob takes the messages *)

Lemma keep_processed e now x : LxmfRouter.locally_processed (messaging (keep e now x)) =
  <[pe_transient_id e := TicketStore.now_s now]> (LxmfRouter.locally_processed (messaging x)).
Proof. destruct x as [[]]. reflexivity. Qed.

(** A good message is taken as it is by a node that asks for no better stamp. *)
Lemma checked_entry_same cost x id e c : min_stamp_cost x = Some c -> 0 <= c <= cost -> good_message cost id e ->
  checked_entry x (entry_read e) = Some (entry_read e) /\ pe_transient_id (entry_read e) = id.
Proof.
  intros Hc Hle (Hid & msg & v & stamp & Hv). split; [|done].
  apply (validate_pn_stamp_antitone _ _ _ _ Hle) in Hv. unfold checked_entry. rewrite Hc. cbn [entry_read pe_lxm_data].
  rewrite Hv. cbn [mbind option_bind]. apply validate_pn_stamp_exact in Hv as (Hdata & _).
  destruct e. cbn in Hid, Hdata. subst. reflexivity.
Qed.

(** After the items of a batch: what was not in it is as before; what was in it
    and had not been seen is there. *)
Definition took (batch : list (TransientId * PropagationEntry * list byte)) (x x' : Router.t S) : Prop :=
  min_stamp_cost x' = min_stamp_cost x /\
  (forall id, id ∉ batch.*1.*1 -> messages x' !! id = messages x !! id /\ seen x' id = seen x id) /\
  Forall (fun m => messages x' !! m.1.1 = if seen x m.1.1 then messages x !! m.1.1 else Some (entry_read m.1.2)) batch.

Lemma keep_entries e now x : messages (keep e now x) = <[pe_transient_id e := e]> (messages x).
Proof. by destruct (keep_effect e now x) as (-> & _). Qed.

Lemma keep_seen e now x id : id <> pe_transient_id e -> seen (keep e now x) id = seen x id.
Proof.
  intros Hne. unfold seen, PropagationStore.has. rewrite keep_entries, keep_processed.
  by rewrite !lookup_insert_ne by congruence.
Qed.

Lemma take_one cost now x del inv rec id e bs c : min_stamp_cost x = Some c -> 0 <= c <= cost ->
  good_message cost id e -> travels e bs ->
  exists x' rec', apply_item now (x, del, inv, rec) bs = (x', del ++ [id], inv, rec') /\
    min_stamp_cost x' = min_stamp_cost x /\
    (forall k, k <> id -> messages x' !! k = messages x !! k /\ seen x' k = seen x k) /\
    messages x' !! id = if seen x id then messages x !! id else Some (entry_read e).
Proof.
  intros Hc Hle Hg [_ Hr]. destruct (checked_entry_same cost x id e c Hc Hle Hg) as [Hch Hid].
  unfold apply_item. cbv zeta. rewrite Hr, Hch, Hid.
  eexists _, _. split; [reflexivity|]. destruct (seen x id) eqn:Hs; [done|].
  split_and!.
  - unfold min_stamp_cost. by destruct (keep_effect (entry_read e) now x) as (_ & _ & ->).
  - intros k Hk. rewrite keep_entries, Hid, lookup_insert_ne by done. split; [done|].
    apply keep_seen. by rewrite Hid.
  - rewrite keep_entries, Hid. apply lookup_insert_eq.
Qed.

Lemma take_all cost now c batch : forall x del inv rec, min_stamp_cost x = Some c -> 0 <= c <= cost ->
  NoDup batch.*1.*1 -> Forall (fun m => good_message cost m.1.1 m.1.2 /\ travels m.1.2 m.2) batch ->
  exists x' rec', foldl (apply_item now) (x, del, inv, rec) batch.*2 = (x', del ++ batch.*1.*1, inv, rec') /\
    took batch x x'.
Proof.
  induction batch as [|[[id e] bs] batch IH]; intros x del inv rec Hc Hle Hn Hb.
  { exists x, rec. cbn. rewrite app_nil_r. split; [done|]. split_and!; [done..|apply List.Forall_nil]. }
  apply List.Forall_cons_iff in Hb as [[Hg Ht] Hb]. apply NoDup_cons in Hn as [Hout Hn]. cbn [fst snd] in *.
  destruct (take_one cost now x del inv rec id e bs c Hc Hle Hg Ht) as (x1 & rec1 & H1 & Hc1 & Hk1 & Hi1).
  destruct (IH x1 (del ++ [id]) inv rec1 ltac:(congruence) Hle Hn Hb) as (x2 & rec2 & H2 & Hc2 & Hk2 & Hi2).
  exists x2, rec2. cbn [fmap list_fmap foldl fst snd]. rewrite H1, H2, <- app_assoc. split; [done|]. split_and!.
  - congruence.
  - intros k Hk. cbn in Hk. destruct (Hk1 k ltac:(set_solver)) as [<- <-]. apply Hk2. set_solver.
  - apply List.Forall_cons; cbn [fst snd].
    + rewrite <- Hi1. apply Hk2. done.
    + rewrite !List.Forall_forall in *. intros [[k e'] bs'] Hin. specialize (Hi2 _ Hin). cbn in Hi2 |- *.
      assert (k <> id) as Hne.
      { intros ->. apply Hout. apply list_elem_of_fmap. exists (id, e'). split; [done|].
        apply list_elem_of_fmap. exists (id, e', bs'). split; [done|]. by apply list_elem_of_In. }
      destruct (Hk1 k Hne) as [<- <-]. done.
Qed.

Lemma held_messages x x' : held x' = held x -> messages x' = messages x.
Proof. unfold held. congruence. Qed.

Lemma held_rule x x' : held x' = held x -> min_stamp_cost x' = min_stamp_cost x.
Proof. unfold held, min_stamp_cost. congruence. Qed.

Lemma held_seen x x' id : held x' = held x ->
  LxmfRouter.locally_processed (messaging x') = LxmfRouter.locally_processed (messaging x) -> seen x' id = seen x id.
Proof. intros Hh Hp. unfold seen, PropagationStore.has. by rewrite (held_messages _ _ Hh), Hp. Qed.

Lemma took_before batch x0 x x' : held x = held x0 ->
  LxmfRouter.locally_processed (messaging x) = LxmfRouter.locally_processed (messaging x0) ->
  took batch x x' -> took batch x0 x'.
Proof.
  intros Hh Hp (H1 & H2 & H3). split_and!.
  - by rewrite H1, (held_rule _ _ Hh).
  - intros id Hid. rewrite <- (held_messages _ _ Hh), <- (held_seen _ _ id Hh Hp). by apply H2.
  - eapply List.Forall_impl; [|exact H3]. cbn. intros m Hm.
    by rewrite <- (held_messages _ _ Hh), <- (held_seen _ _ _ Hh Hp).
Qed.

(** The bytes of an answer to a request of ours. *)
Lemma response_bytes rid payload now x : exists y, held y = held x /\
  LxmfRouter.locally_processed (messaging y) = LxmfRouter.locally_processed (messaging x) /\
  peer_sync_pending y = peer_sync_pending x /\
  handle_peer_sync_response (mkResponse rid (Binary payload)) now x =
    let '(z, r) := handle_peer_sync_response_bytes_with_peer rid payload now y in
    (z, next ← r; Ok (option_map snd next)).
Proof.
  unfold handle_peer_sync_response, handle_peer_sync_response_bytes. cbn [resp_data resp_request_id value_to_bytes].
  eexists. split_and!; [..|reflexivity].
  all: destruct (peer_sync_pending x !! rid) as [p|]; [|done].
  - apply held_on_peer.
  - unfold on_peer. destruct (PeerTable.upsert _ _ _). by destruct x.
  - unfold on_peer. destruct (PeerTable.upsert _ _ _). by destruct x.
Qed.

(** The answers to an offer and to an acknowledgement change no messages. *)
Lemma plain_response rid payload pend now x : peer_sync_pending x !! rid = Some pend ->
  match sp_request pend with Offer _ _ | MessageAck _ => True | _ => False end ->
  held (handle_peer_sync_response (mkResponse rid (Binary payload)) now x).1 = held x.
Proof.
  intros Hp Hk. destruct (response_bytes rid payload now x) as (y & Hy & _ & Hpy & ->).
  rewrite <- Hpy in Hp. rewrite <- Hy. unfold handle_peer_sync_response_bytes_with_peer. rewrite Hp. cbv zeta.
  destruct (decode_peer_sync_response payload) as [resp|]; [|by destruct y].
  destruct (sp_request pend); try done; cbn [fst]; unfold apply_peer_sync_response; rewrite held_on_peer; by destruct y.
Qed.

Lemma payload_taken a rid wants haves limit payload now x cost c batch :
  peer_sync_pending x !! rid = Some (mkSyncPending a (MessageGet wants haves limit)) ->
  decode_peer_sync_response payload = Ok (RPayload batch.*2) ->
  min_stamp_cost x = Some c -> 0 <= c <= cost -> batch <> [] -> NoDup batch.*1.*1 ->
  Forall (fun m => good_message cost m.1.1 m.1.2 /\ travels m.1.2 m.2) batch ->
  sync_request_ok (MessageAck batch.*1.*1) -> request_bytes_small (MessageAck batch.*1.*1) -> time_ok now ->
  exists x' r bs, handle_peer_sync_response (mkResponse rid (Binary payload)) now x = (x', Ok (Some r)) /\
    req_data r = Binary bs /\ decode_peer_sync_request bs = Ok (MessageAck batch.*1.*1) /\ took batch x x' /\
    peer_sync_pending x' !! req_request_id r = Some (mkSyncPending a (MessageAck batch.*1.*1)).
Proof.
  intros Hp Hd Hc Hle Hne Hn Hb Hok Hsmall Hnow.
  destruct (response_bytes rid payload now x) as (y & Hy & Hly & Hpy & ->).
  rewrite <- Hpy in Hp. unfold handle_peer_sync_response_bytes_with_peer. rewrite Hp. cbv zeta. cbn [sp_peer_id sp_request].
  rewrite Hd. set (y1 := y {{ peer_sync_pending := _ }}).
  assert (Hy1 : held y1 = held x) by (rewrite <- Hy; by destruct y).
  assert (Hl1 : LxmfRouter.locally_processed (messaging y1) = LxmfRouter.locally_processed (messaging x))
    by (rewrite <- Hly; by destruct y).
  clearbody y1. unfold apply_peer_sync_payload. cbv zeta.
  destruct (take_all cost now c batch y1 [] 0 0 ltac:(by rewrite (held_rule _ _ Hy1)) Hle Hn Hb) as (x1 & rec & -> & Ht).
  cbn [app]. rewrite bool_decide_false by (by destruct batch).
  match goal with |- context [on_peer a now ?f x1] => set (x2 := on_peer a now f x1) end.
  assert (Hx2 : core x2 = core x1) by apply core_on_peer. clearbody x2.
  destruct (build_ok a (MessageAck batch.*1.*1) now x2 Hok Hsmall Hnow) as (x3 & r & bs & -> & Hr & Hdr & Hx3 & Hpend).
  exists x3, r, bs. cbn [mbind result_bind option_map snd]. split_and!; [done..| |done].
  assert (Hc3 : core x3 = core x1) by congruence. unfold core in Hc3.
  assert (Hh3 : held x3 = held x1) by congruence.
  assert (Hl3 : LxmfRouter.locally_processed (messaging x3) = LxmfRouter.locally_processed (messaging x1)) by congruence.
  apply (took_before batch x y1); [done..|]. destruct Ht as (T1 & T2 & T3). split_and!.
  - by rewrite (held_rule _ _ Hh3).
  - intros id Hid. rewrite (held_messages _ _ Hh3), (held_seen _ _ id Hh3 Hl3). by apply T2.
  - by rewrite (held_messages _ _ Hh3).
Qed.

(** * Alice hears that they arrived *)

Lemma ack_taken b ids now bs x : decode_peer_sync_request bs = Ok (MessageAck ids) ->
  exists x', handle_peer_sync_request_bytes b bs now x = (x', encode_peer_sync_response (RBool true)) /\
    forall id, messages x' !! id = if decide (id ∈ ids) then None else messages x !! id.
Proof.
  intros Hd. unfold handle_peer_sync_request_bytes. rewrite Hd. cbn [handle_peer_sync_ack]. eexists. split; [reflexivity|].
  intros id. rewrite (held_messages _ _ (held_on_peer _ _ _ _)), remove_messages_entries.
  by rewrite (held_messages _ _ (held_on_peer _ _ _ _)).
Qed.

(** * The whole exchange *)

Lemma request_answered id r bs now x x' resp rb : req_data r = Binary bs ->
  handle_peer_sync_request_bytes id bs now x = (x', encode_peer_sync_response resp) ->
  encode_peer_sync_response resp = Ok rb ->
  handle_peer_sync_request id r now x = (x', Ok (mkResponse (req_request_id r) (Binary rb))).
Proof.
  intros Hr Hh He. unfold handle_peer_sync_request. rewrite Hr. cbn [value_to_bytes]. by rewrite Hh, He.
Qed.

Lemma batch_of (Q : TransientId -> PropagationEntry -> list byte -> Prop) ids :
  Forall (fun id => exists e bs, Q id e bs) ids ->
  exists batch, batch.*1.*1 = ids /\ Forall (fun m => Q m.1.1 m.1.2 m.2) batch.
Proof.
  induction 1 as [|id ids (e & bs & Hq) _ (batch & <- & Hb)]; [by exists []|].
  exists ((id, e, bs) :: batch). split; [done|by apply List.Forall_cons].
Qed.

(** What the exchange needs: [alice]'s messages are good by [bob]'s rule, her
    key opens [bob]'s door, and everything fits its encoding. *)
Record ready (cost c : Z) (a : arr 16) (key : list byte) (now : Z) (alice bob : Router.t S) : Prop := {
  rd_good : map_Forall (good_message cost) (messages alice);
  rd_range : map_Forall (fun _ e => entry_in_range e = true) (messages alice);
  rd_items : map_Forall (fun _ e => forall bs, propagation_entry_to_bytes e = Ok bs ->
               fits_u32 bs = true /\ length bs <> 32%nat) (messages alice);
  rd_rule : min_stamp_cost bob = Some c /\ 0 <= c <= cost;
  rd_key : key_accepted bob a key /\ fits_u32 key = true;
  rd_queue : peer_sync_queue bob = [];
  rd_fits : fits_u32 (PropagationStore.list_ids (propagation_store alice)) = true /\
            fits_u32 (PropagationStore.list_ids (propagation_store bob)) = true;
  rd_small : Forall request_bytes_small
    [Offer key (PropagationStore.list_ids (propagation_store alice));
     MessageGet (missing alice bob) (PropagationStore.list_ids (propagation_store bob)) None;
     MessageAck (missing alice bob)];
  rd_time : time_ok now;
  rd_missing : missing alice bob <> []
}.

Lemma missing_spec alice bob id : id ∈ missing alice bob <-> is_Some (messages alice !! id) /\ messages bob !! id = None.
Proof.
  unfold missing. rewrite list_elem_of_filter. unfold PropagationStore.has, PropagationStore.list_ids.
  rewrite bool_decide_eq_false, <- eq_None_not_Some, elem_of_hash_keys. tauto.
Qed.

Lemma missing_fits alice bob : fits_u32 (PropagationStore.list_ids (propagation_store alice)) = true ->
  fits_u32 (missing alice bob) = true.
Proof.
  unfold fits_u32, missing. intros H. pose proof (length_filter
    (fun id => PropagationStore.has (propagation_store bob) id = false)
    (PropagationStore.list_ids (propagation_store alice))). lia.
Qed.

Lemma ready_batch cost c a key now alice bob : ready cost c a key now alice bob ->
  exists batch, batch.*1.*1 = missing alice bob /\
    Forall (fun m => messages alice !! m.1.1 = Some m.1.2 /\ good_message cost m.1.1 m.1.2 /\ travels m.1.2 m.2 /\
                     fits_u32 m.2 = true /\ length m.2 <> 32%nat) batch.
Proof.
  intros R. apply (batch_of (fun id e bs => messages alice !! id = Some e /\ good_message cost id e /\ travels e bs /\
    fits_u32 bs = true /\ length bs <> 32%nat)).
  apply List.Forall_forall. intros id [[e He] _]%list_elem_of_In%missing_spec.
  destruct (propagation_entry_roundtrip e (rd_range _ _ _ _ _ _ _ R _ _ He)) as (bs & Hw & Hr).
  exists e, bs. specialize (Hr []). rewrite app_nil_r in Hr.
  destruct (rd_items _ _ _ _ _ _ _ R _ _ He bs Hw). by pose proof (rd_good _ _ _ _ _ _ _ R _ _ He).
Qed.

Lemma payload_codec (batch : list (TransientId * PropagationEntry * list byte)) :
  fits_u32 batch.*1.*1 = true -> batch <> [] ->
  Forall (fun m => fits_u32 m.2 = true /\ length m.2 <> 32%nat) batch ->
  exists bs, encode_peer_sync_response (RPayload batch.*2) = Ok bs /\
    decode_peer_sync_response bs = Ok (RPayload batch.*2).
Proof.
  intros Hf Hne Hb. destruct (sync_response_codec (RPayload batch.*2)) as (bs & Hw & Hr).
  { split; [unfold fits_u32 in *; by rewrite !length_fmap in *|]. apply List.Forall_map.
    eapply List.Forall_impl; [|exact Hb]. cbn. tauto. }
  exists bs. split; [done|]. specialize (Hr []). rewrite app_nil_r in Hr. rewrite Hr. cbn [response_read].
  destruct batch as [|m batch]; [done|]. apply List.Forall_cons_iff in Hb as [[_ Hm] _]. cbn.
  by rewrite (proj2 (Nat.eqb_neq _ _) Hm).
Qed.

Lemma core_held x x' : core x' = core x -> held x' = held x.
Proof. unfold core. congruence. Qed.

Lemma core_processed x x' : core x' = core x ->
  LxmfRouter.locally_processed (messaging x') = LxmfRouter.locally_processed (messaging x).
Proof. unfold core. congruence. Qed.

(** The first half: the offer is made, and [bob] asks for what he lacks. *)
Lemma offer_exchanged cost c a b key now alice bob : ready cost c a key now alice bob ->
  exists alice1 offer bob1 answer bob2 get bs,
    dispatch_peer_sync_requests [(b, (peer_sync_offer b key now alice).2)] now (peer_sync_offer b key now alice).1
      = (alice1, Ok [(offer, b)]) /\
    handle_peer_sync_request a offer now bob = (bob1, Ok answer) /\
    held (handle_peer_sync_response answer now alice1).1 = held alice /\
    dispatch_peer_sync_requests (peer_sync_queue bob1) now (bob1 {{ peer_sync_queue := [] }})
      = (bob2, Ok [(get, a)]) /\
    req_data get = Binary bs /\
    decode_peer_sync_request bs
      = Ok (MessageGet (missing alice bob) (PropagationStore.list_ids (propagation_store bob)) None) /\
    held bob2 = held bob /\
    LxmfRouter.locally_processed (messaging bob2) = LxmfRouter.locally_processed (messaging bob) /\
    peer_sync_pending bob2 !! req_request_id get =
      Some (mkSyncPending a (MessageGet (missing alice bob) (PropagationStore.list_ids (propagation_store bob)) None)).
Proof.
  intros R. destruct R as [_ _ _ _ [Hkey Hkf] Hq [Hfa Hfb] Hsmall Hnow Hmiss].
  rewrite !List.Forall_cons_iff in Hsmall. destruct Hsmall as (Hs1 & Hs2 & Hs3 & _).
  unfold peer_sync_offer. cbn [fst snd]. set (available := PropagationStore.list_ids (propagation_store alice)) in *.
  match goal with |- context [on_peer b now ?f alice] => set (alice0 := on_peer b now f alice) end.
  destruct (build_ok b (Offer key available) now alice0 (conj Hkf Hfa) Hs1 Hnow)
    as (alice1 & offer & bs1 & Hb1 & Hr1 & Hd1 & Hc1 & Hp1).
  destruct (offer_answered a key available now bs1 bob Hd1 Hkey Hmiss) as (bob1 & Hh1 & Hb1h & Hb1l & Hb1q).
  destruct (sync_response_codec (RIdList (missing alice bob)) (missing_fits _ _ Hfa)) as (rb & Hrb & _).
  pose proof (request_answered _ _ _ _ _ _ _ _ Hr1 Hh1 Hrb) as Hans.
  rewrite Hq in Hb1q. cbn [app] in Hb1q. change (filter _ available) with (missing alice bob) in Hb1q.
  destruct (build_ok a (MessageGet (missing alice bob) (PropagationStore.list_ids (propagation_store bob)) None) now
    (bob1 {{ peer_sync_queue := [] }}) (conj (missing_fits _ _ Hfa) (conj Hfb eq_refl)) Hs2 Hnow)
    as (bob2 & get & bs2 & Hb2 & Hr2 & Hd2 & Hc2 & Hp2).
  exists alice1, offer, bob1, (mkResponse (req_request_id offer) (Binary rb)), bob2, get, bs2.
  rewrite (dispatch_one _ _ _ _ _ _ Hb1). rewrite Hb1q.
  rewrite (dispatch_one _ _ _ _ _ _ Hb2). split_and!; try done.
  - rewrite (plain_response _ _ _ _ _ Hp1) by done. rewrite (core_held _ _ Hc1). apply held_on_peer.
  - rewrite (core_held _ _ Hc2), <- Hb1h. by destruct bob1.
  - rewrite (core_processed _ _ Hc2), <- Hb1l. by destruct bob1.
Qed.

(** What the two stores hold once a batch of all that was missing was taken and
    acknowledged. *)
Lemma exchange_result batch (alice bob alice' bob' : Router.t S) : batch.*1.*1 = missing alice bob ->
  Forall (fun m => messages alice !! m.1.1 = Some m.1.2) batch -> took batch bob bob' ->
  (forall id, messages alice' !! id = if decide (id ∈ missing alice bob) then None else messages alice !! id) ->
  (forall id e, messages alice !! id = Some e -> seen bob id = false -> messages bob' !! id = Some (entry_read e)) /\
  (forall id e, messages bob !! id = Some e -> messages bob' !! id = Some e) /\
  (forall id e, messages bob' !! id = Some e -> messages bob !! id = Some e \/
     exists e0, messages alice !! id = Some e0 /\ e = entry_read e0) /\
  (forall id, messages alice' !! id = match messages bob !! id with Some _ => messages alice !! id | None => None end).
Proof.
  intros Hids Ha (_ & Hout & Hin) Hm.
  assert (Hmem : forall id, id ∈ missing alice bob -> exists e, messages alice !! id = Some e /\
    messages bob' !! id = if seen bob id then messages bob !! id else Some (entry_read e)).
  { intros id. rewrite <- Hids. intros ([k e] & -> & ([[k' e'] bs] & [= -> ->] & Hi)%list_elem_of_fmap)%list_elem_of_fmap.
    rewrite List.Forall_forall in Ha, Hin. apply list_elem_of_In in Hi. exists e'. split; [apply (Ha _ Hi)|apply (Hin _ Hi)]. }
  split_and!.
  - intros id e He Hs. assert (Hid : id ∈ missing alice bob).
    { apply missing_spec. split; [eauto|]. unfold seen, PropagationStore.has in Hs. apply orb_false_iff in Hs as [Hs _].
      apply bool_decide_eq_false in Hs. by apply eq_None_not_Some. }
    destruct (Hmem id Hid) as (e' & He' & ->). rewrite Hs. congruence.
  - intros id e He. destruct (Hout id) as [-> _]; [|done]. rewrite Hids. intros [_ Hn]%missing_spec. congruence.
  - intros id e He. destruct (decide (id ∈ missing alice bob)) as [Hid|Hid].
    + destruct (Hmem id Hid) as (e0 & He0 & Hb'). rewrite Hb' in He. destruct (seen bob id); [by left|].
      right. exists e0. split; [done|]. congruence.
    + left. destruct (Hout id) as [<- _]; [by rewrite Hids|done].
  - intros id. rewrite Hm. pose proof (missing_spec alice bob id) as Hs.
    destruct (messages bob !! id) eqn:Hb.
    + rewrite decide_False; [done|]. intros [_ ?]%Hs. congruence.
    + destruct (decide _) as [|Hno]; [done|]. destruct (messages alice !! id) eqn:Ea; [|done].
      contradict Hno. apply Hs. eauto.
Qed.

(** C6. Two nodes synchronise.  [alice] offers what she has; [bob] asks for
    what he lacks, gets it, and acknowledges it.  With a key [bob] accepts,
    messages good by his rule, and everything within the limits of its
    encoding, no step fails.  Afterwards [bob] has every message of [alice]'s
    that he had not seen before, byte for byte, still has all of his own, and
    has nothing else; [alice] is left with the messages [bob] had already: what
    she sent is gone from her store. *)
Theorem peers_synchronise (cost c : Z) (a b : arr 16) (key : list byte) (now : Z) (alice bob : Router.t S)
  (R : ready cost c a key now alice bob) :
  exists alice' bob', synchronise a b key now alice bob = Some (alice', bob') /\
    (forall id e, messages alice !! id = Some e -> seen bob id = false -> messages bob' !! id = Some (entry_read e)) /\
    (forall id e, messages bob !! id = Some e -> messages bob' !! id = Some e) /\
    (forall id e, messages bob' !! id = Some e -> messages bob !! id = Some e \/
       exists e0, messages alice !! id = Some e0 /\ e = entry_read e0) /\
    (forall id, messages alice' !! id = match messages bob !! id with Some _ => messages alice !! id | None => None end).
Proof.
  destruct (offer_exchanged cost c a b key now alice bob R)
    as (alice1 & offer & bob1 & answer & bob2 & get & bs & Hdo & Hho & Hra & Hdg & Hgd & Hgb & Hb2 & Hl2 & Hp2).
  unfold synchronise. destruct (peer_sync_offer b key now alice) as [alice0 req0]. cbn [fst snd] in Hdo.
  rewrite Hdo, Hho. destruct (handle_peer_sync_response answer now alice1) as [alice2 r2]. cbn [fst] in Hra.
  cbv zeta. rewrite Hdg.
  destruct (ready_batch _ _ _ _ _ _ _ R) as (batch & Hids & Hb).
  destruct R as [_ _ _ [Hc Hle] _ _ [Hfa _] Hsmall Hnow Hmiss].
  rewrite !List.Forall_cons_iff in Hsmall. destruct Hsmall as (_ & _ & Hs3 & _).
  rewrite <- Hids in Hgb, Hs3. assert (Hne : batch <> []) by (intros ->; by rewrite <- Hids in Hmiss).
  pose proof (missing_fits alice bob Hfa) as Hmf. rewrite <- Hids in Hmf.
  destruct (get_answered b _ now bs alice2 batch Hgb) as (alice3 & Hg3 & Ha3).
  { rewrite (held_messages _ _ Hra). eapply List.Forall_impl; [|exact Hb]. tauto. }
  destruct (payload_codec batch Hmf Hne) as (pb & Hpe & Hpd).
  { eapply List.Forall_impl; [|exact Hb]. tauto. }
  rewrite (request_answered _ _ _ _ _ _ _ _ Hgd Hg3 Hpe).
  rewrite <- (held_rule _ _ Hb2) in Hc.
  destruct (payload_taken a _ _ _ _ pb now bob2 cost c batch Hp2 Hpd Hc Hle Hne) as (bob3 & ack & abs & Hr3 & Had & Hab & Ht & Hp3);
    [rewrite Hids; apply NoDup_filter, NoDup_hash_keys| |done..|].
  { eapply List.Forall_impl; [|exact Hb]. tauto. }
  rewrite Hr3. destruct (ack_taken b _ now abs alice3 Hab) as (alice4 & Ha4 & Hm4).
  destruct (sync_response_codec (RBool true) I) as (fb & Hfb & _).
  rewrite (request_answered _ _ _ _ _ _ _ _ Had Ha4 Hfb). eexists _, _. split; [reflexivity|].
  rewrite (held_messages _ _ (plain_response _ _ _ _ _ Hp3 I)).
  apply (took_before batch bob bob2 bob3 Hb2 Hl2) in Ht. apply exchange_result with (batch := batch); try done.
  - eapply List.Forall_impl; [|exact Hb]. tauto.
  - intros id. by rewrite Hm4, Hids, (held_messages _ _ Ha3), (held_messages _ _ Hra).
Qed.

End Sync.

#[local] Existing Instance toy_features.
#[local] Existing Instance toy_crypto.
#[local] Existing Instance toy_identity.
#[local] Existing Instance bit_codec.
#[local] Existing Instance bit_codec_laws.
#[local] Existing Instance key_order.
#[local] Existing Instance code_display.
#[local] Existing Instance code_parse.

(** A node that lets anyone synchronise, and one with a message for it. *)
Definition open_node : Router.t InMemoryStore.t := Router.clear_peering_validation sample_node.

Definition small_bytes {E} (r : result E (list byte)) : bool :=
  match r with Ok bs => fits_u32 bs && negb (Nat.eqb (length bs) 32) | Err _ => true end.

Lemma small_bytes_spec {E} (r : result E (list byte)) bs : small_bytes r = true -> r = Ok bs ->
  fits_u32 bs = true /\ length bs <> 32%nat.
Proof.
  intros H ->. cbn in H. apply andb_true_iff in H as [H1 H2]. split; [done|]. by apply Nat.eqb_neq, negb_true_iff.
Qed.

Lemma sample_ready : ready 13 13 (arr_zero 16) [] 1000 sample_holder open_node.
Proof.
  constructor.
  - apply (no_good _ _ sample_ok).
  - apply sample_messages. intros id e. rewrite sample_holds_one. intros [= -> ->]%list_elem_of_singleton.
    vm_compute. reflexivity.
  - apply sample_messages. intros id e. rewrite sample_holds_one. intros [= -> ->]%list_elem_of_singleton bs.
    apply small_bytes_spec. vm_compute. reflexivity.
  - split; [vm_compute; reflexivity|lia].
  - split; [exact I|reflexivity].
  - reflexivity.
  - split; vm_compute; reflexivity.
  - repeat apply List.Forall_cons; try apply List.Forall_nil; intros bs Hbs.
    all: refine (proj1 (small_bytes_spec _ _ _ Hbs)); vm_compute; reflexivity.
  - vm_compute. reflexivity.
  - intros H. apply (f_equal length) in H. revert H. vm_compute. discriminate.
Qed.

Lemma peers_synchronise_witness :
  exists alice' bob' e, synchronise (arr_zero 16) (arr_zero 16) [] 1000 sample_holder open_node = Some (alice', bob') /\
    PropagationStore.entries (Router.propagation_store bob') !! full_hash (replicate 150 x01) = Some e /\
    PropagationStore.entries (Router.propagation_store alice') !! full_hash (replicate 150 x01) = None.
Proof.
  destruct (peers_synchronise 13 13 (arr_zero 16) (arr_zero 16) [] 1000 sample_holder open_node sample_ready)
    as (alice' & bob' & Hs & Hnew & _ & _ & Hgone).
  assert (He : PropagationStore.entries (Router.propagation_store sample_holder) !! full_hash (replicate 150 x01) = Some _)
    by (apply elem_of_map_to_list; rewrite sample_holds_one; by apply list_elem_of_singleton).
  eexists alice', bob', _. split; [exact Hs|]. split.
  - apply (Hnew _ _ He). vm_compute. reflexivity.
  - rewrite Hgone. vm_compute (PropagationStore.entries (Router.propagation_store open_node) !! _). reflexivity.
Defined.
