(* ===== verification/Peering.v ===== *)
(** A node's peers ([Router]): which of them rotation drops, and how new
    messages are distributed to the others. *)

From Stdlib Require Import ZArith Lia Permutation.
From Stdlib Require Import Strings.Byte.
From stdpp Require Import base gmap strings numbers relations list.
From coqutil Require Import Datatypes.RecordSetters.
From S2P Require Import Prelude Float Msgpack Crypto Buffer Packet Identity Destination Link Stamp Message Rns.
From S2P Require Import Delivery Requests PnDirectory PropStore Peer PeerCodec StorageCodec StorageTables MessageStore.
From S2P Require Import PropDisk Links Tickets Outbound Runtime Messaging Router Propagation.
Import DoubleBraceUpdate.

Local Open Scope Z_scope.

Section Peering.
Context `{F : Features} `{IC : IdentityCrypto} `{M : Msgpack} `{D : F64Display} `{P : F64Parse} `{HI : HashIter}.
Context {S : Type} `{MS : MessageStore S}.
Import Router.
Implicit Types x : Router.t S.

(** * Rotation *)

Lemma unpeer_lookup r x id : peers (unpeer r x).1 !! id = if decide (id = r) then None else peers x !! id.
Proof.
  unfold unpeer. destruct (peers x !! r) as [p|] eqn:Hr; cbn [fst].
  - transitivity (delete r (peers x) !! id); [by destruct x|]. destruct (decide (id = r)) as [->|Hne].
    + apply lookup_delete_eq.
    + by apply lookup_delete_ne.
  - destruct (decide (id = r)) as [->|]; done.
Qed.

Lemma unpeer_all_lookup ids : forall x id,
  peers (unpeer_all ids x) !! id = if decide (id ∈ ids) then None else peers x !! id.
Proof.
  unfold unpeer_all. induction ids as [|r ids IH]; intros x id; [by rewrite decide_False by set_solver|].
  cbn [foldl]. rewrite IH, unpeer_lookup. destruct (decide (id ∈ ids)); [by rewrite decide_True by set_solver|].
  destruct (decide (id = r)); [by rewrite decide_True by set_solver|by rewrite decide_False by set_solver].
Qed.

Lemma unpeer_all_size ids : forall x, NoDup ids -> (forall id, id ∈ ids -> is_Some (peers x !! id)) ->
  (size (peers (unpeer_all ids x)) + length ids = size (peers x))%nat.
Proof.
  unfold unpeer_all. induction ids as [|r ids IH]; intros x Hn Hin; [cbn; lia|].
  apply NoDup_cons in Hn as [Hout Hn]. cbn [foldl length].
  assert (Hp : peers (unpeer r x).1 = delete r (peers x)).
  { apply map_eq. intros id. rewrite unpeer_lookup. destruct (decide (id = r)) as [->|].
    - by rewrite lookup_delete_eq.
    - by rewrite lookup_delete_ne. }
  specialize (IH (unpeer r x).1 Hn). rewrite Hp in IH.
  destruct (Hin r ltac:(set_solver)) as [p Hr].
  rewrite map_size_delete_Some in IH by eauto.
  assert (0 < size (peers x))%nat.
  { apply Nat.neq_0_lt_0. rewrite map_size_empty_iff. intros He. by rewrite He in Hr. }
  lapply IH; [lia|]. intros id Hid. rewrite lookup_delete_ne by (intros ->; done). apply Hin. set_solver.
Qed.

(** A peer that may be dropped. *)
Definition droppable x (id : arr 16) (p : Peer) : Prop :=
  peers x !! id = Some p /\ id ∉ static_peers x /\ p_state p = Idle.

Lemma drop_pool_spec x id p : (id, p) ∈ drop_pool x -> droppable x id p.
Proof.
  unfold drop_pool. cbv zeta. set (synced := filter _ (hash_iter (peers x))).
  set (base := if bool_decide (synced = []) then _ else _). set (pool := filter _ base).
  assert (Hp : (id, p) ∈ pool -> droppable x id p).
  { intros [[Hs Hi] Hb]%list_elem_of_filter. split; [|done]. apply elem_of_hash_iter. unfold base in Hb.
    destruct (bool_decide _); [done|]. by apply list_elem_of_filter in Hb as [_ Hb]. }
  clearbody pool. destruct (bool_decide (filter _ pool = [])); [by intros [_ H]%list_elem_of_filter; auto|].
  intros [[_ H]%list_elem_of_filter|H]%elem_of_app; [auto|].
  destruct (prioritise_rotating_unreachable_peers x); [by apply not_elem_of_nil in H|].
  apply list_elem_of_filter in H as [_ H]. auto.
Qed.

Lemma NoDup_hash_iter {K V} `{Countable K} (m : gmap K V) : NoDup (hash_iter m).
Proof. rewrite hash_iter_perm. apply NoDup_map_to_list. Qed.

Lemma drop_pool_nodup x : NoDup (drop_pool x).*1.
Proof.
  apply NoDup_fmap_fst.
  { intros id p q [Hp _]%drop_pool_spec [Hq _]%drop_pool_spec. congruence. }
  unfold drop_pool. cbv zeta. set (synced := filter _ (hash_iter (peers x))).
  set (base := if bool_decide (synced = []) then _ else _). set (pool := filter _ base).
  assert (Hpool : NoDup pool).
  { apply NoDup_filter. unfold base. destruct (bool_decide _); [apply NoDup_hash_iter|]. apply NoDup_filter, NoDup_hash_iter. }
  clearbody pool. destruct (bool_decide (filter _ pool = [])); [by apply NoDup_filter|].
  destruct (prioritise_rotating_unreachable_peers x); [rewrite app_nil_r; by apply NoDup_filter|].
  apply NoDup_app. split_and!; [by apply NoDup_filter| |by apply NoDup_filter].
  intros kv [H1 _]%list_elem_of_filter [[H2 _] _]%list_elem_of_filter. done.
Qed.

Definition unpopular (p : Peer) : Prop :=
  f64_ltb (f64_mul (Peer.acceptance_rate p) (f64_of_Z 100)) (f64_mul ROTATION_AR_MAX (f64_of_Z 100)) = true.

(** The candidates that are looked at. *)
Definition candidates x (n : nat) : list (arr 16 * Peer) :=
  filter (fun kv => unpopular kv.2) (take n (sort_by by_acceptance (drop_pool x))).

Lemma candidates_spec x n :
  NoDup (candidates x n).*1 /\ (length (candidates x n) <= n)%nat /\
  forall id p, (id, p) ∈ candidates x n -> droppable x id p /\ unpopular p.
Proof.
  assert (Hsub : candidates x n `sublist_of` sort_by by_acceptance (drop_pool x)).
  { unfold candidates. etransitivity; [apply sublist_filter|apply sublist_take]. }
  split_and!.
  - eapply sublist_NoDup; [|by apply fmap_sublist]. rewrite sort_by_perm. apply drop_pool_nodup.
  - unfold candidates. etransitivity; [apply length_filter|]. rewrite length_take. lia.
  - intros id p Hin. split.
    + apply drop_pool_spec. rewrite <- (sort_by_perm by_acceptance). by eapply elem_of_sublist.
    + by apply list_elem_of_filter in Hin as [? _].
Qed.

(** C18. Rotation of peers.  A node that is not a propagation node, or has no
    limit on its peers, drops none.  A peer that is dropped is not a static one,
    is idle, and took less than half of what it was offered; no more are dropped
    than are needed to get below the limit with headroom, and at least two peers
    stay; all others are untouched. *)
Theorem rotation_safe x (Hfit : Z.of_nat (size (peers x)) <= u32_max) :
  let dropped := rotated x in
  let x' := rotate_peers x in
  NoDup dropped /\
  (forall id, peers x' !! id = if decide (id ∈ dropped) then None else peers x !! id) /\
  (size (peers x') + length dropped = size (peers x))%nat /\
  (forall id, id ∈ dropped -> exists p, droppable x id p /\ unpopular p) /\
  (dropped <> [] -> propagation_node_enabled x = true /\ (2 <= size (peers x'))%nat /\
     exists max, max_peers x = Some max /\
       Z.of_nat (length dropped) <= Z.of_nat (size (peers x)) - sat_sub max (rotation_headroom max)).
Proof.
  cbv zeta.
  assert (Hspec : NoDup (rotated x) /\ (forall id, id ∈ rotated x -> exists p, droppable x id p /\ unpopular p)).
  { unfold rotated. destruct (max_peers x) as [max|]; [|split; [constructor|set_solver]].
    cbv zeta. destruct (_ || _); [split; [constructor|set_solver]|].
    match goal with |- context [take ?n _] => destruct (candidates_spec x n) as (H1 & _ & H3);
      fold (candidates x n) end.
    split; [done|]. intros id ([k p] & -> & Hin)%list_elem_of_fmap. exists p. by apply H3. }
  destruct Hspec as [Hnd Hin].
  assert (Hsize : (size (peers (rotate_peers x)) + length (rotated x) = size (peers x))%nat).
  { apply unpeer_all_size; [done|]. intros id (p & (Hp & _) & _)%Hin. eauto. }
  split_and!; [done|intros id; apply unpeer_all_lookup|done|done|].
  intros Hne. revert Hne Hsize. generalize (size (peers (rotate_peers x))) as left. intros left. unfold rotated.
  destruct (max_peers x) as [max|]; [|done]. cbv zeta.
  destruct (propagation_node_enabled x); [|done]. cbn [negb orb].
  destruct (required_drops max x =? 0) eqn:E1; [done|]. cbn [orb].
  destruct (sat_sub _ (required_drops max x) <=? 1) eqn:E2; [done|]. cbn [orb].
  destruct (rotation_headroom max <=? _); [done|]. intros _.
  match goal with |- context [take ?n _] => destruct (candidates_spec x n) as (_ & H2 & _);
    fold (candidates x n); rewrite length_fmap; assert (Hk : Z.of_nat n <= Z.max 0 (required_drops max x)) by lia; set (k := n) in * end.
  clearbody k. change (length (filter _ (take k _))) with (length (candidates x k)). intros Hsize.
  assert (Hcount : as_u32 (Z.of_nat (size (peers x))) = Z.of_nat (size (peers x))).
  { unfold as_u32. apply Z.mod_small. unfold u32_max in Hfit. lia. }
  unfold required_drops in *. rewrite Hcount in *.
  apply Z.eqb_neq in E1. apply Z.leb_gt in E2. unfold sat_sub in *.
  split; [done|]. split; [lia|]. exists max. split; [done|]. lia.
Qed.

(** * Choosing a peer *)

(** A peer counts as unresponsive only when it is idle and not alive, and an
    idle peer is always alive: the pool of unresponsive peers that
    [sync_peers] falls back on is empty. *)
Lemma never_unresponsive now_s static p : classify_peer now_s static p <> Unresponsive.
Proof.
  unfold classify_peer, Peer.is_alive. destruct (_ <? now_s); [by destruct static|].
  destruct (bool_decide (p_state p = Idle)) eqn:Hi; [|done]. apply bool_decide_eq_true in Hi. rewrite Hi.
  by destruct (Nat.ltb _ _).
Qed.

(** * Distribution *)

(** Every peer is filed under its own identifier. *)
Definition keyed x : Prop := map_Forall (fun id p => p_id p = id) (peers x).

Definition emptied (p : Peer) : Peer := p {{ handled_messages_queue := []; unhandled_messages_queue := [] }}.

(** The marks of a message for a peer after the peer's queues are processed. *)
Definition marked_handled (p : Peer) (s : PropagationStore.t) (id : TransientId) : bool :=
  PropagationStore.is_peer_handled s id (p_id p) || hit (p_id p) (handled_messages_queue p) s id (p_id p).
Definition marked_unhandled (p : Peer) (s : PropagationStore.t) (id : TransientId) : bool :=
  (PropagationStore.is_peer_unhandled s id (p_id p) && negb (hit (p_id p) (handled_messages_queue p) s id (p_id p)))
  || (negb (PropagationStore.is_peer_handled s id (p_id p)) && negb (PropagationStore.is_peer_unhandled s id (p_id p))
      && hit (p_id p) (unhandled_messages_queue p) s id (p_id p)).

(** The marks of [q], and its messages, are the same in both stores. *)
Definition same_marks (q : arr 16) (s s' : PropagationStore.t) : Prop :=
  same_messages s s' /\ forall id,
    PropagationStore.is_peer_handled s' id q = PropagationStore.is_peer_handled s id q /\
    PropagationStore.is_peer_unhandled s' id q = PropagationStore.is_peer_unhandled s id q.

Lemma same_marks_refl q s : same_marks q s s.
Proof. by split. Qed.

Lemma same_marks_trans q s1 s2 s3 : same_marks q s1 s2 -> same_marks q s2 s3 -> same_marks q s1 s3.
Proof.
  intros [M1 H1] [M2 H2]. split; [by eapply same_messages_trans|]. intros id.
  destruct (H1 id) as [<- <-]. apply H2.
Qed.

Lemma process_queues_others p s q : q <> p_id p -> same_marks q s (Peer.process_queues p s).2.
Proof.
  intros Hq. assert (Hhit : forall ids id, hit (p_id p) ids s id q = false).
  { intros ids id. unfold hit. rewrite (bool_decide_false (q = p_id p)) by done. by rewrite andb_false_r. }
  split.
  - pose proof (process_queues_exact p s (arr_zero 32) q) as H. by destruct (Peer.process_queues p s); destruct_and!.
  - intros id. pose proof (process_queues_exact p s id q) as H. destruct (Peer.process_queues p s) as [p' s'].
    destruct H as (_ & _ & _ & H1 & H2). cbn [snd]. rewrite H1, H2, !Hhit.
    by rewrite !andb_false_r, !orb_false_r, andb_true_r.
Qed.

Lemma flush_peer_others x r q : keyed x -> q <> r ->
  keyed (flush_peer x r) /\ peers (flush_peer x r) !! q = peers x !! q /\
  same_marks q (propagation_store x) (propagation_store (flush_peer x r)).
Proof.
  intros Hk Hq. unfold flush_peer. destruct (peers x !! r) as [p|] eqn:Hr; [|split_and!; [done..|apply same_marks_refl]].
  destruct (Peer.queued_items p); [|split_and!; [done..|apply same_marks_refl]].
  pose proof (Hk _ _ Hr) as Hp. cbn in Hp.
  pose proof (process_queues_others p (propagation_store x) q ltac:(congruence)) as Hm.
  assert (Hp' : p_id (Peer.process_queues p (propagation_store x)).1 = p_id p) by by destruct p.
  destruct (Peer.process_queues p _) as [p' s']. cbn [fst snd] in *. split_and!.
  - unfold keyed. replace (peers (x {{ peers := _; propagation_store := _ }})) with (<[r := p']> (peers x)) by by destruct x.
    apply map_Forall_insert_2; [congruence|done].
  - transitivity (<[r := p']> (peers x) !! q); [by destruct x|]. by apply lookup_insert_ne.
  - by destruct x.
Qed.

Lemma flush_peer_self x q p : keyed x -> peers x !! q = Some p ->
  peers (flush_peer x q) !! q = Some (emptied p) /\ keyed (flush_peer x q) /\
  same_messages (propagation_store x) (propagation_store (flush_peer x q)) /\
  forall id, PropagationStore.is_peer_handled (propagation_store (flush_peer x q)) id q =
      marked_handled p (propagation_store x) id /\
    PropagationStore.is_peer_unhandled (propagation_store (flush_peer x q)) id q =
      marked_unhandled p (propagation_store x) id.
Proof.
  intros Hk Hq. pose proof (Hk _ _ Hq) as Hp. cbn in Hp. unfold flush_peer. rewrite Hq.
  destruct (Peer.queued_items p) eqn:Hi.
  - pose proof (fun id => process_queues_exact p (propagation_store x) id (p_id p)) as He.
    assert (Hp' : (Peer.process_queues p (propagation_store x)).1 = emptied p) by done.
    destruct (Peer.process_queues p _) as [p' s']. cbn [fst] in Hp'. subst p'. split_and!.
    + transitivity (<[q := emptied p]> (peers x) !! q); [by destruct x|]. apply lookup_insert_eq.
    + unfold keyed. replace (peers (x {{ peers := _; propagation_store := _ }})) with (<[q := emptied p]> (peers x)) by by destruct x.
      apply map_Forall_insert_2; [by destruct p|done].
    + destruct (He (arr_zero 32)) as (_ & _ & Hs & _). by destruct x.
    + intros id. destruct (He id) as (_ & _ & _ & H1 & H2). rewrite <- Hp. split; [etransitivity; [|exact H1]|etransitivity; [|exact H2]]; by destruct x.
  - unfold Peer.queued_items in Hi. apply orb_false_iff in Hi as [Hh Hu].
    apply negb_false_iff, bool_decide_eq_true in Hh, Hu.
    assert (emptied p = p) as -> by (destruct p; cbn in *; by subst).
    split_and!; [done|done|by split_and!|]. intros id. unfold marked_handled, marked_unhandled. rewrite Hh, Hu, !hit_nil, Hp.
    by rewrite !andb_false_r, !orb_false_r, andb_true_r.
Qed.

Lemma marks_same p s s' id : same_marks (p_id p) s s' ->
  marked_handled p s' id = marked_handled p s id /\ marked_unhandled p s' id = marked_unhandled p s id.
Proof.
  intros [Hm H]. destruct (H id) as [H1 H2]. unfold marked_handled, marked_unhandled, hit.
  by rewrite H1, H2, (same_messages_has _ _ id Hm).
Qed.

Lemma flush_all_others ids q : forall x, keyed x -> q ∉ ids ->
  keyed (foldl flush_peer x ids) /\ peers (foldl flush_peer x ids) !! q = peers x !! q /\
  same_marks q (propagation_store x) (propagation_store (foldl flush_peer x ids)).
Proof.
  induction ids as [|r ids IH]; intros x Hk Hq; [split_and!; [done..|apply same_marks_refl]|]. cbn [foldl].
  destruct (flush_peer_others x r q Hk ltac:(set_solver)) as (K1 & P1 & M1).
  destruct (IH (flush_peer x r) K1 ltac:(set_solver)) as (K2 & P2 & M2).
  split_and!; [done|congruence|by eapply same_marks_trans].
Qed.

Lemma flush_all_self ids q p : forall x, keyed x -> NoDup ids -> q ∈ ids -> peers x !! q = Some p ->
  peers (foldl flush_peer x ids) !! q = Some (emptied p) /\
  same_messages (propagation_store x) (propagation_store (foldl flush_peer x ids)) /\
  forall id, PropagationStore.is_peer_handled (propagation_store (foldl flush_peer x ids)) id q =
      marked_handled p (propagation_store x) id /\
    PropagationStore.is_peer_unhandled (propagation_store (foldl flush_peer x ids)) id q =
      marked_unhandled p (propagation_store x) id.
Proof.
  induction ids as [|r ids IH]; intros x Hk Hn Hin Hp; [set_solver|]. cbn [foldl].
  apply NoDup_cons in Hn as [Hout Hn]. destruct (decide (q = r)) as [<-|Hne].
  - destruct (flush_peer_self x q p Hk Hp) as (P1 & K1 & S1 & M1).
    destruct (flush_all_others ids q (flush_peer x q) K1 Hout) as (_ & P2 & S2 & M2).
    split_and!; [congruence|by eapply same_messages_trans|]. intros id. destruct (M2 id) as [-> ->]. apply M1.
  - destruct (flush_peer_others x r q Hk Hne) as (K1 & P1 & M1).
    destruct (IH (flush_peer x r) K1 Hn ltac:(set_solver) ltac:(congruence)) as (P2 & S2 & M2).
    split_and!; [done|eapply same_messages_trans; [apply M1|done]|].
    pose proof (Hk _ _ Hp) as Hid. cbn in Hid. intros id. rewrite <- Hid in M1.
    destruct (marks_same p _ _ id M1) as [<- <-]. apply M2.
Qed.

(** The messages queued for a peer: all but those it sent itself. *)
Definition news x (q : arr 16) : list TransientId :=
  (filter (fun e => e.2 <> Some q) (peer_distribution_queue x)).*1.

Lemma distribute_spec es q : forall p, distribute es q p =
  p {{ unhandled_messages_queue := unhandled_messages_queue p ++ (filter (fun e => e.2 <> Some q) es).*1 }}.
Proof.
  unfold distribute. induction es as [|[id from] es IH]; intros p; cbn [foldl].
  - destruct p. cbn. unfold constant. by rewrite app_nil_r.
  - cbn [snd fst]. destruct (decide (from = Some q)) as [->|Hne].
    + rewrite bool_decide_true by done. rewrite IH. by rewrite filter_cons_False by (cbn; tauto).
    + rewrite bool_decide_false by done. rewrite IH. rewrite filter_cons_True by done.
      destruct p. cbn. unfold constant. by rewrite <- app_assoc.
Qed.

Lemma distributed_lookup x q : peers (flush_peer_distribution_queue x) !! q =
  (fun p => p {{ unhandled_messages_queue := unhandled_messages_queue p ++ news x q }}) <$> peers x !! q.
Proof.
  transitivity (map_imap (fun id p => Some (distribute (peer_distribution_queue x) id p)) (peers x) !! q); [by destruct x|].
  rewrite map_lookup_imap. destruct (peers x !! q) as [p|]; [|done]. cbn. by rewrite distribute_spec.
Qed.

Lemma flush_all_queue ids : forall x, peer_distribution_queue (foldl flush_peer x ids) = peer_distribution_queue x.
Proof.
  induction ids as [|r ids IH]; intros x; [done|]. cbn [foldl]. rewrite IH. unfold flush_peer.
  destruct (peers x !! r) as [p|]; [|done]. destruct (Peer.queued_items p); [|done].
  destruct (Peer.process_queues p _). by destruct x.
Qed.


(** * Announces *)

(** Numbers of their Rust width. *)
Record announce_ok x : Prop := {
  ao_started : is_u64 (propagation_started_ms x) = true;
  ao_stamp : forall v, propagation_validation x = Some v ->
    is_u32 (prop_stamp_cost v) = true /\ is_u32 (prop_stamp_cost_flex v) = true;
  ao_peering : forall v, peering_validation x = Some v -> is_u32 (pv_target_cost v) = true;
  ao_name : forall n, name x = Some n -> utf8_string n = true /\ fits_u32 (bytes_of_string n) = true
}.

Definition announced_cost x : Z :=
  match propagation_validation x with Some v => prop_stamp_cost v | None => DEFAULT_PROPAGATION_STAMP_COST end.

Lemma announce_rep x : announce_ok x -> rep 3 (announce_value x).
Proof.
  intros [H1 H2 H3 H4]. unfold announce_value. cbv zeta. apply rep_array; [reflexivity|].
  assert (Hstarted : 0 <= propagation_started_ms x / 1000 <= u64_max).
  { unfold is_u64 in H1. split; [apply Z.div_pos; lia|]. apply Z.div_le_upper_bound; lia. }
  assert (Hlimit : forall f d, rep (Datatypes.S d) (Integer (f64_to_u64 f))).
  { intros f d. pose proof (f64_to_u64_range f) as Hr. unfold is_u64 in Hr. apply rep_int. lia. }
  repeat apply List.Forall_cons; try apply List.Forall_nil; try apply rep_bool; try apply Hlimit.
  - apply rep_int. lia.
  - apply rep_array; [reflexivity|]. repeat apply List.Forall_cons; try apply List.Forall_nil; apply rep_u32.
    + destruct (propagation_validation x) as [v|]; [by apply (H2 v)|done].
    + destruct (propagation_validation x) as [v|]; [by apply (H2 v)|done].
    + destruct (peering_validation x) as [v|]; [by apply (H3 v)|done].
  - unfold get_propagation_node_announce_metadata. destruct (name x) as [n|] eqn:En; [|by apply rep_map; [|constructor]].
    destruct (H4 n eq_refl) as [_ Hf]. apply rep_map; [reflexivity|]. apply List.Forall_cons; [|constructor].
    split; cbn; [by apply rep_u8|by apply rep_binary].
Qed.

Context `{ML : !MsgpackLaws}.

(** C25. A node's announce is understood.  The data can always be encoded, the
    announce is handed out twenty seconds after it was scheduled and not before,
    and a directory that receives it takes it for a valid announce and records
    the node under its name and the stamp cost the node asks for. *)
Theorem announce_understood x (now later : Z) (dir : PnDirectory) (d : arr 16) (Hx : announce_ok x)
  (Hq : pn_announce_queue x = []) (Hnow : 0 <= now /\ is_u64 (now + 20000) = true) :
  exists app x1, get_propagation_node_app_data x = Ok app /\ announce_propagation_node now x = Ok x1 /\
    (pop_pn_announce later x1).2 = (if now + 20000 <=? later then Some app else None) /\
    let '(dir', r) := PnDir.upsert_announce d app later dir in
    r = Ok tt /\ exists e, dir' !! d = Some e /\ e_name e = name x /\ e_stamp_cost e = Some (announced_cost x).
Proof.
  pose proof (rep_representable 3 _ (announce_rep x Hx) ltac:(unfold MAX_DEPTH; lia)) as Hrep.
  destruct (write_value_ok _ Hrep) as (app & Hw). pose proof (read_write_eq _ _ Hrep Hw) as Hr.
  assert (Happ : get_propagation_node_app_data x = Ok app) by (unfold get_propagation_node_app_data; by rewrite Hw).
  unfold announce_propagation_node. rewrite Happ. eexists app, _. split; [done|]. split; [reflexivity|].
  assert (Htime : as_u64 (now + NODE_ANNOUNCE_DELAY * 1000) = now + 20000).
  { unfold as_u64, NODE_ANNOUNCE_DELAY. apply Z.mod_small. unfold is_u64, u64_max in Hnow. lia. }
  split.
  { unfold pop_pn_announce. rewrite Hq, Htime. destruct x. cbn. by destruct (_ <=? later). }
  assert (Hdata : read_array app = Some (match announce_value x with VArray l => l | _ => [] end))
    by (unfold read_array; by rewrite Hr).
  unfold PnDir.upsert_announce.
  assert (Hvalid : pn_announce_data_is_valid app = true) by (unfold pn_announce_data_is_valid; by rewrite Hdata).
  rewrite Hvalid. cbn [negb]. split; [done|]. eexists. split; [apply lookup_insert_eq|]. cbn [e_name e_stamp_cost]. split.
  - unfold pn_name_from_app_data. rewrite Hvalid, Hdata. cbn. unfold get_propagation_node_announce_metadata.
    destruct (name x) as [n|] eqn:En; [|done]. destruct Hx as [_ _ _ H4]. destruct (H4 n En) as [Hu _]. cbn.
    unfold string_from_utf8. unfold utf8_string in Hu. by rewrite Hu, string_of_bytes_of_string.
  - unfold pn_stamp_cost_from_app_data. rewrite Hdata. cbn. unfold announced_cost. destruct Hx as [_ H2 _ _].
    destruct (propagation_validation x) as [v|]; [|done]. destruct (H2 v eq_refl) as [Hc _]. cbn.
    unfold integer_as_u64. unfold is_u32, is_u64, u32_max, u64_max in *. by rewrite (proj2 (andb_true_iff _ _)) by lia.
Qed.

End Peering.

#[local] Existing Instance toy_features.
#[local] Existing Instance toy_crypto.
#[local] Existing Instance toy_identity.
#[local] Existing Instance bit_codec.
#[local] Existing Instance bit_codec_laws.
#[local] Existing Instance key_order.
#[local] Existing Instance code_display.
#[local] Existing Instance code_parse.

Definition nth_id (n : nat) : arr 16 := arr_of 16 (replicate 15 x00 ++ [byte_of_Z (Z.of_nat n)]).

(** Four idle peers that took nothing of what they were offered, with room for
    three. *)
Definition lazy_peer (n : nat) : Peer :=
  (Peer.new (nth_id n) 5) {{ last_attempt_ms := 5; messages_offered := 10 }}.
Definition crowded_node : Router.t InMemoryStore.t :=
  sample_node {{ Router.peers := list_to_map (map (fun n => (nth_id n, lazy_peer n)) (seq 1 4));
                 Router.max_peers := Some 3; Router.propagation_node_enabled := true }}.

Lemma rotation_safe_witness :
  length (Router.rotated crowded_node) = 2%nat /\ (2 <= size (Router.peers (Router.rotate_peers crowded_node)))%nat.
Proof.
  assert (Hl : length (Router.rotated crowded_node) = 2%nat) by (vm_compute; reflexivity). split; [done|].
  apply (rotation_safe crowded_node); [apply Z.leb_le; vm_compute; reflexivity|]. intros He. rewrite He in Hl. discriminate Hl.
Defined.

(** A peer, and a message that is to be distributed. *)
Definition sharing_node : Router.t InMemoryStore.t :=
  sample_holder {{ Router.peers := {[nth_id 1 := Peer.new (nth_id 1) 5]};
                   Router.peer_distribution_queue := [(full_hash (replicate 150 x01), None)] }}.


Definition named_node : Router.t InMemoryStore.t := Router.set_name (Some "node") sample_node.

Lemma announce_understood_witness :
  exists app, Router.get_propagation_node_app_data named_node = Ok app /\
    pn_name_from_app_data app = Some "node"%string.
Proof.
  destruct (announce_understood named_node 1000 50000 PnDir.new (arr_zero 16)) as (app & x1 & Happ & _ & _ & H).
  - constructor.
    + reflexivity.
    + intros v [= <-]. split; reflexivity.
    + intros v [= <-]. reflexivity.
    + intros n [= <-]. split; reflexivity.
  - reflexivity.
  - split; [lia|reflexivity].
  - exists app. split; [exact Happ|]. unfold PnDir.upsert_announce in H.
    destruct (pn_announce_data_is_valid app) eqn:Hv; cbn [negb] in H; [|by destruct H as [? _]].
    destruct H as [_ (e & He & Hn & _)]. rewrite lookup_insert_eq in He. injection He as <-. exact Hn.
Defined.
