(* ===== verification/DaemonFiles.v ===== *)
(** Files and texts of the daemon [lxmd-rs]: Unix paths and a file system of
    files and directories as [std::path] and [std::fs] present them, trimming
    and splitting of texts, and from [main.rs] what works on files: where the
    configuration is, the identity file, the files of hashes.

    A path is its components, which is what [PathBuf] compares.  Two paths that
    reach one file through [..] or a link are different paths here. *)

From Stdlib Require Import ZArith Lia.
From Stdlib Require Import Strings.Byte.
From stdpp Require Import base gmap strings numbers list.
From S2P Require Import Prelude Float Msgpack Crypto Buffer Packet Identity Delivery.

Local Open Scope Z_scope.

(** * Paths *)

Record Path : Type := mkPath {
  has_root : bool;
  components : list string
}.

#[export] Instance Path_eq_dec : EqDecision Path.
Proof. solve_decision. Defined.
#[export] Program Instance Path_countable : Countable Path :=
  inj_countable' (fun p => (has_root p, components p)) (fun q => mkPath q.1 q.2) _.
Next Obligation. by intros []. Qed.

Module Path.

(** The pieces between slashes. *)
Fixpoint split (l : list byte) : list (list byte) :=
  match l with
  | [] => [[]]
  | b :: l =>
      if bool_decide (b = x2f) then [] :: split l
      else match split l with
           | piece :: pieces => (b :: piece) :: pieces
           | [] => [[b]]
           end
  end.

(** Empty pieces and [.] are not components, except a [.] at the start. *)
Definition of_string (s : string) : Path :=
  let pieces := map string_of_bytes (split (bytes_of_string s)) in
  match pieces with
  | "" :: _ :: _ => mkPath true (filter (fun p => p <> "" /\ p <> ".") pieces)
  | "." :: pieces => mkPath false ("." :: filter (fun p => p <> "" /\ p <> ".") pieces)
  | _ => mkPath false (filter (fun p => p <> "" /\ p <> ".") pieces)
  end.

Definition empty : Path := mkPath false [].

(** [base.join(rel)] *)
Definition join (base rel : Path) : Path :=
  if has_root rel then rel
  else match components base, components rel with
       | [], _ => mkPath (has_root base) (if has_root base then filter (fun p => p <> ".") (components rel)
                                          else components rel)
       | cs, rel => mkPath (has_root base) (cs ++ filter (fun p => p <> ".") rel)
       end.

Definition parent (p : Path) : option Path :=
  match reverse (components p) with
  | [] => None
  | _ :: rest => Some (mkPath (has_root p) (reverse rest))
  end.

Definition file_name (p : Path) : option string :=
  match last (components p) with
  | Some name => if bool_decide (name = "..") || bool_decide (name = ".") then None else Some name
  | None => None
  end.

End Path.

(** * The file system *)

Inductive IoError : Type :=
| IoNotFound
| IoBlocked
| IoInvalidData (text : string).

Module Fs.

Record t : Type := mk {
  files : gmap Path (list byte);
  dirs : gset Path
}.

Definition is_file (p : Path) (fs : t) : bool := bool_decide (is_Some (files fs !! p)).

(** The root and the working directory are there. *)
Definition is_dir (p : Path) (fs : t) : bool :=
  bool_decide (p ∈ dirs fs) || bool_decide (p = mkPath true []) || bool_decide (p = mkPath false ["."]).

Definition exists_ (p : Path) (fs : t) : bool := is_file p fs || is_dir p fs.

(** The path and the directories above it, without the empty path. *)
Definition ancestors (p : Path) : list Path :=
  filter (fun q => q <> Path.empty) (map (fun n => mkPath (has_root p) (take n (components p)))
                                       (seq 0 (S (length (components p))))).

Definition create_dir_all (p : Path) : stres t IoError unit := fun fs =>
  if forallb (fun q => negb (is_file q fs)) (ancestors p)
  then (mk (files fs) (list_to_set (ancestors p) ∪ dirs fs), Ok tt)
  else (fs, Err IoBlocked).

(** The parent must be a directory; the empty path is the working directory. *)
Definition write (p : Path) (data : list byte) : stres t IoError unit := fun fs =>
  match Path.parent p with
  | Some dir =>
      if is_dir p fs then (fs, Err IoBlocked)
      else if bool_decide (dir = Path.empty) || is_dir dir fs
      then (mk (<[p := data]> (files fs)) (dirs fs), Ok tt)
      else (fs, Err IoNotFound)
  | None => (fs, Err IoBlocked)
  end.

Definition read_to_string (p : Path) (fs : t) : result IoError (list byte) :=
  match files fs !! p with
  | Some data => if utf8_valid data then Ok data else Err (IoInvalidData "stream did not contain valid UTF-8")
  | None => Err (if is_dir p fs then IoBlocked else IoNotFound)
  end.

End Fs.

(** * Texts *)

Module Text.

(** One character with the property [White_Space], at the front of a text and
    at the front of a reversed text. *)
Definition white1 (a : byte) : bool := ((9 <=? u8 a) && (u8 a <=? 13)) || (u8 a =? 32).
Definition white2 (a b : byte) : bool := (u8 a =? 0xC2) && ((u8 b =? 0x85) || (u8 b =? 0xA0)).
Definition white3 (a b c : byte) : bool :=
  ((u8 a =? 0xE1) && (u8 b =? 0x9A) && (u8 c =? 0x80))
  || ((u8 a =? 0xE2) && (u8 b =? 0x80)
      && (((0x80 <=? u8 c) && (u8 c <=? 0x8A)) || (u8 c =? 0xA8) || (u8 c =? 0xA9) || (u8 c =? 0xAF)))
  || ((u8 a =? 0xE2) && (u8 b =? 0x81) && (u8 c =? 0x9F))
  || ((u8 a =? 0xE3) && (u8 b =? 0x80) && (u8 c =? 0x80)).

Fixpoint trim_start (l : list byte) : list byte :=
  match l with
  | a :: l1 =>
      if white1 a then trim_start l1 else
      match l1 with
      | b :: l2 =>
          if white2 a b then trim_start l2 else
          match l2 with
          | c :: l3 => if white3 a b c then trim_start l3 else l
          | [] => l
          end
      | [] => l
      end
  | [] => []
  end.

Fixpoint trim_rev (l : list byte) : list byte :=
  match l with
  | a :: l1 =>
      if white1 a then trim_rev l1 else
      match l1 with
      | b :: l2 =>
          if white2 b a then trim_rev l2 else
          match l2 with
          | c :: l3 => if white3 c b a then trim_rev l3 else l
          | [] => l
          end
      | [] => l
      end
  | [] => []
  end.

(** [str::trim] *)
Definition trim (l : list byte) : list byte := reverse (trim_rev (reverse (trim_start l))).

(** [str::lines]: the texts up to each line feed, without it and without one
    carriage return before it; what follows the last line feed if anything
    does. *)
Definition strip_cr (line : list byte) : list byte :=
  match reverse line with
  | c :: rest => if bool_decide (c = x0d) then reverse rest else line
  | [] => line
  end.

Fixpoint lines_from (line l : list byte) : list (list byte) :=
  match l with
  | [] => match line with [] => [] | _ => [line] end
  | b :: l => if bool_decide (b = x0a) then strip_cr line :: lines_from [] l else lines_from (line ++ [b]) l
  end.
Definition lines (l : list byte) : list (list byte) := lines_from [] l.

Definition starts_with_hash (l : list byte) : bool :=
  match l with b :: _ => bool_decide (b = x23) | [] => false end.

End Text.

(** * Configuration ([config.rs]) *)

Module LxmfConfig.
Record t : Type := mk {
  display_name : option string;
  announce_at_start : option bool;
  announce_interval : option Z;
  delivery_transfer_max_accepted_size : option f64;
  on_inbound : option string
}.
End LxmfConfig.

Module PropagationConfig.
Record t : Type := mk {
  enable_node : option bool;
  node_name : option string;
  auth_required : option bool;
  announce_at_start : option bool;
  autopeer : option bool;
  autopeer_maxdepth : option Z;
  announce_interval : option Z;
  message_storage_limit : option f64;
  propagation_transfer_max_accepted_size : option f64;
  propagation_message_max_accepted_size : option f64;
  propagation_sync_max_accepted_size : option f64;
  propagation_stamp_cost_target : option Z;
  propagation_stamp_cost_flexibility : option Z;
  peering_cost : option Z;
  remote_peering_cost_max : option Z;
  prioritise_destinations : option (list string);
  control_allowed : option (list string);
  static_peers : option (list string);
  max_peers : option Z;
  from_static_only : option bool
}.
End PropagationConfig.

Module LoggingConfig.
Record t : Type := mk { loglevel : option Z }.
End LoggingConfig.

Module DaemonConfig.
Record t : Type := mk {
  storage_path : option Path;
  identity_path : option Path;
  inbound_dir : option Path;
  bind_addr : option string;
  forward_addr : option string;
  tick_interval_ms : option Z;
  node_name : option string;
  lxmf : option LxmfConfig.t;
  propagation : option PropagationConfig.t;
  logging : option LoggingConfig.t
}.
End DaemonConfig.

(** [toml::from_str] at the type of the configuration. *)
Class TomlParse : Type := toml_from_str : list byte -> result string DaemonConfig.t.

(** * Where the files are ([main.rs]) *)

Definition DEFAULT_INBOUND_DIR : string := "messages".
Definition DEFAULT_CONFIG_FILE : string := "config".
Definition DEFAULT_CONFIG_DIR_NAME : string := ".lxmd".
Definition DEFAULT_CONFIG_DIR_ALT : string := ".config/lxmd".
Definition DEFAULT_CONFIG_SYSTEM : string := "/etc/lxmd".

Record ConfigPaths : Type := mkPaths {
  config_dir : Path;
  config_path : Path;
  storage_dir : Path;
  identity_path : Path;
  inbound_dir : Path
}.

(** [home] is the variable [HOME]. *)
Definition default_config_dir (home : option string) (fs : Fs.t) : Path :=
  let system := Path.of_string DEFAULT_CONFIG_SYSTEM in
  let file := Path.of_string DEFAULT_CONFIG_FILE in
  if Fs.exists_ (Path.join system file) fs then system
  else
    let home := default "" home in
    if bool_decide (home = "") then Path.of_string DEFAULT_CONFIG_DIR_NAME
    else
      let alt := Path.join (Path.of_string home) (Path.of_string DEFAULT_CONFIG_DIR_ALT) in
      if Fs.exists_ (Path.join alt file) fs then alt
      else Path.join (Path.of_string home) (Path.of_string DEFAULT_CONFIG_DIR_NAME).

(** [path.parent().map(|p| p.to_path_buf()).unwrap_or_else(|| PathBuf::from("."))] *)
Definition containing_dir (path : Path) : Path := default (Path.of_string ".") (Path.parent path).

Definition resolve_config_location (home : option string) (config_arg : option Path) (fs : Fs.t) : Path * Path :=
  let file := Path.of_string DEFAULT_CONFIG_FILE in
  match config_arg with
  | Some path =>
      if Fs.exists_ path fs then
        if Fs.is_dir path fs then (path, Path.join path file) else (containing_dir path, path)
      else if bool_decide (Path.file_name path = Some DEFAULT_CONFIG_FILE) then (containing_dir path, path)
      else (path, Path.join path file)
  | None => let dir := default_config_dir home fs in (dir, Path.join dir file)
  end.

(** [if let Some(parent) = path.parent() { create_dir_all(parent)? }] *)
Definition create_parent (path : Path) : stres Fs.t IoError unit :=
  match Path.parent path with Some parent => Fs.create_dir_all parent | None => mret tt end.

(** [example] is the file [lxmd.example.toml], which the binary holds. *)
Definition ensure_default_config (example : list byte) (path : Path) : stres Fs.t IoError unit := fun fs =>
  if Fs.exists_ path fs then (fs, Ok tt)
  else
    (_ ← create_parent path; Fs.write path example) fs.

Inductive DaemonError : Type :=
| IoFailed (e : IoError)
| TomlFailed (text : string).

(** [m.map_err(f)] of an operation on a state. *)
Definition st_map_err {S E E' A} (f : E -> E') (m : stres S E A) : stres S E' A := fun s =>
  let '(s, r) := m s in (s, map_err f r).

Definition read_config `{TomlParse} (example : list byte) (path : Path) : stres Fs.t DaemonError DaemonConfig.t :=
  _ ← st_map_err IoFailed (ensure_default_config example path);
  config_text ← st_get (fun fs => map_err IoFailed (Fs.read_to_string path fs));
  st_lift (map_err TomlFailed (toml_from_str config_text)).

Definition resolve_paths (dir path : Path) (config : DaemonConfig.t) : ConfigPaths :=
  let storage := default (Path.join dir (Path.of_string "storage")) (DaemonConfig.storage_path config) in
  mkPaths dir path storage
    (default (Path.join dir (Path.of_string "identity")) (DaemonConfig.identity_path config))
    (default (Path.join storage (Path.of_string DEFAULT_INBOUND_DIR)) (DaemonConfig.inbound_dir config)).

(** * The identity file *)

(** [secret] and [sign_key] are what [new_from_rand] draws. *)
Definition load_or_create_identity `{F : Features} `{IC : IdentityCrypto} (secret : arr 32) (sign_key : SigningKey)
    (path : Path) : stres Fs.t (fault IoError) PrivateIdentity.t := fun fs =>
  if Fs.exists_ path fs then
    (data ← st_map_err Fails (st_get (Fs.read_to_string path));
     st_lift (map_err (fault_map (fun e => IoInvalidData ("identity decode: " +:+ RetError_debug e)))
                (PrivateIdentity.new_from_hex_string (Text.trim data)))) fs
  else
    let identity := PrivateIdentity.new secret sign_key in
    (_ ← st_map_err Fails (create_parent path);
     _ ← st_map_err Fails (Fs.write path (PrivateIdentity.to_hex_string identity));
     mret identity) fs.

(** * Hashes in texts *)

(** [if let Ok(address) = AddressHash::new_from_hex_string(item) { out.push(bytes) }]
    for each text: too short a text is skipped, an unreadable digit panics. *)
Fixpoint hashes_of (items : list (list byte)) : result (fault RetError) (list (arr 16)) :=
  match items with
  | [] => Ok []
  | item :: items =>
      match AddressHash.new_from_hex_string item with
      | Err Panics => Err Panics
      | Err (Fails _) => hashes_of items
      | Ok address => out ← hashes_of items; Ok (address :: out)
      end
  end.

Definition parse_hash_list (list_ : option (list string)) : result (fault RetError) (list (arr 16)) :=
  match list_ with
  | None => Ok []
  | Some values => hashes_of (map bytes_of_string values)
  end.

(** The lines that are neither empty nor comments. *)
Definition hash_lines (data : list byte) : list (list byte) :=
  filter (fun l => l <> [] /\ Text.starts_with_hash l = false) (map Text.trim (Text.lines data)).

Definition read_hash_file (path : Path) (fs : Fs.t) : result (fault RetError) (list (arr 16)) :=
  match Fs.read_to_string path fs with
  | Err _ => Ok []
  | Ok data => hashes_of (hash_lines data)
  end.

Definition parse_destination_bytes (hex : string) : result (fault IoError) (arr 16) :=
  map_err (fault_map (fun e => IoInvalidData ("reticulum error: " +:+ RetError_debug e)))
    (AddressHash.new_from_hex_string (bytes_of_string hex)).

(** The beginning of [main]: the configuration and the identity. *)
Definition start_up `{F : Features} `{IC : IdentityCrypto} `{TomlParse} (example : list byte) (home : option string)
    (config_arg identity_arg : option Path) (secret : arr 32) (sign_key : SigningKey) :
    stres Fs.t (fault DaemonError) (ConfigPaths * DaemonConfig.t * PrivateIdentity.t) := fun fs =>
  let '(dir, path) := resolve_config_location home config_arg fs in
  (config ← st_map_err Fails (read_config example path);
   let paths := resolve_paths dir path config in
   identity ← st_map_err (fault_map IoFailed)
     (load_or_create_identity secret sign_key (default (identity_path paths) identity_arg));
   mret (paths, config, identity)) fs.

(** * Lemmas on texts *)

Definition plain (b : byte) : Prop := Text.white1 b = false /\ u8 b < 0x80.

Lemma white2_plain a b : plain b -> Text.white2 a b = false.
Proof. intros [_ H]. unfold Text.white2. lia. Qed.

Lemma white3_plain a b c : plain c -> Text.white3 a b c = false.
Proof. intros [_ H]. unfold Text.white3. lia. Qed.

Lemma trim_start_white ws l : Forall (fun b => Text.white1 b = true) ws ->
  Text.trim_start (ws ++ l) = Text.trim_start l.
Proof. induction 1 as [|b ws Hb _ IH]; [done|]. cbn [app Text.trim_start]. by rewrite Hb. Qed.

Lemma trim_rev_white ws l : Forall (fun b => Text.white1 b = true) ws -> Text.trim_rev (ws ++ l) = Text.trim_rev l.
Proof. induction 1 as [|b ws Hb _ IH]; [done|]. cbn [app Text.trim_rev]. by rewrite Hb. Qed.

Lemma trim_start_plain b l : plain b -> Text.trim_start (b :: l) = b :: l.
Proof.
  intros [Hw Hb]. cbn [Text.trim_start]. rewrite Hw. destruct l as [|c l]; [done|].
  assert (Text.white2 b c = false) as -> by (unfold Text.white2; lia). destruct l as [|d l]; [done|].
  by assert (Text.white3 b c d = false) as -> by (unfold Text.white3; lia).
Qed.

Lemma trim_rev_plain b l : plain b -> Text.trim_rev (b :: l) = b :: l.
Proof.
  intros Hb. cbn [Text.trim_rev]. rewrite (proj1 Hb). destruct l as [|c l]; [done|].
  rewrite white2_plain by done. destruct l as [|d l]; [done|]. by rewrite white3_plain.
Qed.

(** A plain character at the far end is never reached. *)
Lemma trim_rev_last b l : plain b -> exists l', Text.trim_rev (l ++ [b]) = l' ++ [b].
Proof.
  intros Hb. remember (length l) as n eqn:Hn. assert (Hle : (length l <= n)%nat) by lia. clear Hn.
  induction n as [|n IH] in l, Hle |- *.
  { destruct l; [|cbn in Hle; lia]. exists []. cbn [app]. by rewrite trim_rev_plain. }
  destruct l as [|a [|c [|d l3]]]; cbn [app].
  - exists []. by rewrite trim_rev_plain.
  - cbn [Text.trim_rev]. destruct (Text.white1 a); [apply (IH []); cbn; lia|].
    assert (Text.white2 b a = false) as -> by (unfold plain, Text.white2 in *; lia). by exists [a].
  - cbn [Text.trim_rev]. destruct (Text.white1 a); [apply (IH [c]); cbn in *; lia|].
    destruct (Text.white2 c a); [apply (IH []); cbn; lia|].
    assert (Text.white3 b c a = false) as -> by (unfold plain, Text.white3 in *; lia). by exists [a; c].
  - cbn [Text.trim_rev]. destruct (Text.white1 a); [apply (IH (c :: d :: l3)); cbn in *; lia|].
    destruct (Text.white2 c a); [apply (IH (d :: l3)); cbn in *; lia|].
    destruct (Text.white3 d c a); [apply (IH l3); cbn in *; lia|]. by exists (a :: c :: d :: l3).
Qed.

(** A text whose first and last characters are plain loses only what is around
    it. *)
Lemma trim_plain before b l c after :
  Forall (fun b => Text.white1 b = true) before -> Forall (fun b => Text.white1 b = true) after ->
  plain b -> plain c -> Text.trim (before ++ (b :: l ++ [c]) ++ after) = b :: l ++ [c].
Proof.
  intros Hbefore Hafter Hb Hc. unfold Text.trim. rewrite trim_start_white by done. cbn [app].
  rewrite trim_start_plain by done.
  replace (reverse (b :: (l ++ [c]) ++ after)) with (reverse after ++ c :: reverse l ++ [b]).
  - rewrite trim_rev_white by (by rewrite reverse_Permutation). rewrite trim_rev_plain by done.
    rewrite reverse_cons, reverse_app, reverse_involutive. done.
  - rewrite reverse_cons, reverse_app, reverse_app. cbn. by rewrite <- !app_assoc.
Qed.

Lemma trim_white ws : Forall (fun b => Text.white1 b = true) ws -> Text.trim ws = [].
Proof.
  intros H. unfold Text.trim. rewrite <- (app_nil_r ws), trim_start_white by done. done.
Qed.

(** A text that begins with a plain character still does. *)
Lemma trim_head before b l : Forall (fun b => Text.white1 b = true) before -> plain b ->
  exists l', Text.trim (before ++ b :: l) = b :: l'.
Proof.
  intros Hw Hb. unfold Text.trim. rewrite trim_start_white by done. rewrite trim_start_plain by done.
  rewrite reverse_cons. destruct (trim_rev_last b (reverse l) Hb) as [l' ->]. exists (reverse l').
  by rewrite reverse_app.
Qed.

Lemma hex_byte_text b : exists c d, AddressHash.hex_byte b = [c; d] /\ plain c /\ plain d.
Proof. exists (AddressHash.hex_digit (u8 b / 16)), (AddressHash.hex_digit (u8 b mod 16)). by destruct b. Qed.

Lemma hex_text l : Forall plain (concat (map AddressHash.hex_byte l)).
Proof.
  induction l as [|b l IH]; [constructor|]. cbn [map concat]. destruct (hex_byte_text b) as (c & d & -> & Hc & Hd).
  apply Forall_app. split; [|done]. apply Forall_cons. split; [done|]. apply Forall_cons. by split.
Qed.

(** A text of at least two plain characters, its ends apart. *)
Lemma plain_ends l : Forall plain l -> (2 <= length l)%nat ->
  exists b m c, l = b :: m ++ [c] /\ plain b /\ plain c.
Proof.
  intros Hl Hlen. destruct l as [|b l]; [cbn in Hlen; lia|]. apply Forall_cons in Hl as [Hb Hl].
  destruct l as [|c m _] using rev_ind; [cbn in Hlen; lia|]. apply Forall_app in Hl as [_ Hc].
  exists b, m, c. split_and!; [done..|]. by inversion Hc.
Qed.

Lemma trim_text before l after :
  Forall (fun b => Text.white1 b = true) before -> Forall (fun b => Text.white1 b = true) after ->
  Forall plain l -> (2 <= length l)%nat -> Text.trim (before ++ l ++ after) = l.
Proof. intros H1 H2 Hl Hlen. destruct (plain_ends l Hl Hlen) as (b & m & c & -> & Hb & Hc). by apply trim_plain. Qed.

Lemma trim_itself l : Forall plain l -> (2 <= length l)%nat -> Text.trim l = l.
Proof. intros Hl Hlen. rewrite <- (trim_text [] l [] ltac:(constructor) ltac:(constructor) Hl Hlen) at 2. cbn. by rewrite app_nil_r. Qed.

Lemma plain_utf8 l : Forall plain l -> utf8_valid l = true.
Proof.
  induction 1 as [|b l [_ Hb] _ IH]; [done|]. cbn [utf8_valid].
  by assert (u8 b <? 0x80 = true) as -> by lia.
Qed.

Lemma lines_from_line line l rest : x0a ∉ l ->
  Text.lines_from line (l ++ x0a :: rest) = Text.strip_cr (line ++ l) :: Text.lines_from [] rest.
Proof.
  induction l as [|b l IH] in line |- *; intros Hn; cbn [app Text.lines_from].
  - by rewrite app_nil_r.
  - rewrite bool_decide_false by set_solver. rewrite IH by set_solver. by rewrite <- app_assoc.
Qed.

(** * Files of hashes *)

(** A line of such a file: a hash in hexadecimal, a comment or nothing, with
    white space around it. *)
Inductive HashLine : Type :=
| HashItem (before after : list byte) (hash : arr 16)
| HashComment (before rest : list byte)
| HashBlank (white : list byte).

(** White space within a line: a carriage return is one. *)
Definition white_in_line (l : list byte) : Prop := Forall (fun b => Text.white1 b = true) l /\ x0a ∉ l.

Definition hash_line_ok (line : HashLine) : Prop :=
  match line with
  | HashItem before after _ => white_in_line before /\ white_in_line after
  | HashComment before rest => white_in_line before /\ x0a ∉ rest
  | HashBlank white => white_in_line white
  end.

Definition print_hash_line (line : HashLine) : list byte :=
  match line with
  | HashItem before after hash => before ++ AddressHash.to_hex_string hash ++ after
  | HashComment before rest => before ++ x23 :: rest
  | HashBlank white => white
  end.

Definition print_hash_file (lines : list HashLine) : list byte :=
  concat (map (fun line => print_hash_line line ++ [x0a]) lines).

Definition line_hash (line : HashLine) : option (arr 16) :=
  match line with HashItem _ _ hash => Some hash | _ => None end.

(** The carriage return that [lines] drops would be trimmed. *)
Lemma trim_start_cr l :
  Text.trim_start (l ++ [x0d]) = Text.trim_start l ++ [x0d] \/
  Text.trim_start (l ++ [x0d]) = [] /\ Text.trim_start l = [].
Proof.
  remember (length l) as n eqn:Hn. assert (Hle : (length l <= n)%nat) by lia. clear Hn.
  induction n as [|n IH] in l, Hle |- *; [destruct l; [by right|cbn in Hle; lia]|].
  destruct l as [|a [|b [|c l]]]; cbn [app].
  - by right.
  - cbn [Text.trim_start]. destruct (Text.white1 a); [by right|].
    assert (Text.white2 a x0d = false) as -> by (unfold Text.white2; by rewrite andb_false_r). by left.
  - cbn [Text.trim_start]. destruct (Text.white1 a); [apply (IH [b]); cbn in *; lia|].
    destruct (Text.white2 a b); [by right|].
    assert (Text.white3 a b x0d = false) as -> by (unfold Text.white3; by rewrite !andb_false_r). by left.
  - cbn [Text.trim_start]. destruct (Text.white1 a); [apply (IH (b :: c :: l)); cbn in *; lia|].
    destruct (Text.white2 a b); [apply (IH (c :: l)); cbn in *; lia|].
    destruct (Text.white3 a b c); [apply (IH l); cbn in *; lia|]. by left.
Qed.

Lemma trim_strip_cr line : Text.trim (Text.strip_cr line) = Text.trim line.
Proof.
  unfold Text.strip_cr. destruct (reverse line) as [|c rest] eqn:E; [done|].
  destruct (bool_decide_reflect (c = x0d)) as [->|]; [|done].
  assert (line = reverse rest ++ [x0d]) as -> by (by rewrite <- (reverse_involutive line), E, reverse_cons).
  unfold Text.trim. destruct (trim_start_cr (reverse rest)) as [->|[-> ->]]; [|done].
  rewrite reverse_app. cbn [app reverse]. by rewrite (trim_rev_white [x0d] (reverse _)) by (by constructor).
Qed.

(** The trimmed form of a line is its hash, or is passed over. *)
Lemma print_hash_line_trim line : hash_line_ok line ->
  match line_hash line with
  | Some hash => Text.trim (print_hash_line line) = AddressHash.to_hex_string hash
  | None => Text.trim (print_hash_line line) = [] \/ Text.starts_with_hash (Text.trim (print_hash_line line)) = true
  end.
Proof.
  destruct line as [before after hash|before rest|white]; cbn [hash_line_ok line_hash print_hash_line].
  - intros [[Hb _] [Ha _]]. apply trim_text; [done..|apply hex_text|]. unfold AddressHash.to_hex_string.
    rewrite length_hex, arr_length. lia.
  - intros [[Hb _] _]. right. destruct (trim_head before x23 rest Hb) as [l' ->]; [by split|done].
  - intros [Hw _]. left. by apply trim_white.
Qed.

Lemma print_hash_line_single line : hash_line_ok line -> x0a ∉ print_hash_line line.
Proof.
  destruct line as [before after hash|before rest|white]; cbn [hash_line_ok print_hash_line].
  - intros [[_ Hb] [_ Ha]]. pose proof (hex_text (arr_list hash)) as Hx. rewrite Forall_forall in Hx.
    intros [H|[H|H]%elem_of_app]%elem_of_app; [done| |done]. apply Hx in H as [H _]. done.
  - intros [[_ Hb] Hr]. intros [H|[H|H]%elem_of_cons]%elem_of_app; done.
  - by intros [_ H].
Qed.

Lemma hashes_of_hex hash items : hashes_of (AddressHash.to_hex_string hash :: items) =
  out ← hashes_of items; Ok (hash :: out).
Proof. cbn [hashes_of]. by rewrite (proj1 (address_hex_roundtrip hash [])). Qed.

Lemma hash_lines_print lines rest : Forall hash_line_ok lines ->
  hash_lines (print_hash_file lines ++ rest) =
  omap (fun line => AddressHash.to_hex_string <$> line_hash line) lines ++ hash_lines rest.
Proof.
  intros H. induction H as [|line lines Hl _ IH]; [done|].
  unfold print_hash_file, hash_lines, Text.lines in *. cbn [map concat].
  rewrite <- !app_assoc. cbn [app]. rewrite lines_from_line by (by apply print_hash_line_single).
  cbn [map app omap list_omap]. rewrite trim_strip_cr.
  pose proof (print_hash_line_trim line Hl) as Ht. destruct (line_hash line) as [hash|]; cbn [fmap option_fmap option_map].
  - rewrite Ht, filter_cons_True, IH; [done|].
    assert (Hlen : length (AddressHash.to_hex_string hash) = 32%nat)
      by (unfold AddressHash.to_hex_string; by rewrite length_hex, arr_length).
    split; [by destruct (AddressHash.to_hex_string hash)|].
    pose proof (hex_text (arr_list hash)) as Hx. unfold AddressHash.to_hex_string.
    destruct (arr_list hash) as [|b l] eqn:E; [unfold AddressHash.to_hex_string in Hlen; by rewrite E in Hlen|].
    cbn. by destruct b.
  - rewrite filter_cons_False, IH; [done|]. intros [H1 H2]. destruct Ht; congruence.
Qed.

Lemma hashes_of_print lines items : 
  hashes_of (omap (fun line => AddressHash.to_hex_string <$> line_hash line) lines ++ items) =
  out ← hashes_of items; Ok (omap line_hash lines ++ out).
Proof.
  induction lines as [|line lines IH]; cbn [omap list_omap app]; [by destruct (hashes_of items)|].
  destruct (line_hash line) as [hash|]; cbn [fmap option_fmap option_map app]; [|done].
  rewrite hashes_of_hex, IH. by destruct (hashes_of items).
Qed.

Lemma hash_lines_word word : Forall plain word -> (2 <= length word)%nat -> Text.starts_with_hash word = false ->
  hash_lines (word ++ [x0a]) = [word].
Proof.
  intros Hw Hlen Hh. unfold hash_lines, Text.lines.
  rewrite lines_from_line; [|intros H; rewrite Forall_forall in Hw; by destruct (Hw _ H)].
  cbn [map app Text.lines_from]. rewrite trim_strip_cr, trim_itself by done. rewrite filter_cons_True; [done|].
  split; [by destruct word; [cbn in Hlen; lia|]|done].
Qed.

(** The files [ignored] and [allowed].  Whatever white space, comments and
    blank lines stand around them, the hashes written one to a line are read
    back in order.  A further word that is too short for a hash is passed over;
    one of 32 characters or more that has a wrong digit makes the reader panic,
    though the code means to skip it. *)
Theorem hash_file_exact (path : Path) (lines : list HashLine) (fs : Fs.t) (word : list byte)
  (Hlines : Forall hash_line_ok lines)
  (Hword : word = [] \/ Forall plain word /\ (2 <= length word)%nat /\ Text.starts_with_hash word = false)
  (Hfile : Fs.files fs !! path = Some (print_hash_file lines ++ match word with [] => [] | _ => word ++ [x0a] end))
  (Hutf8 : utf8_valid (print_hash_file lines ++ match word with [] => [] | _ => word ++ [x0a] end) = true) :
  read_hash_file path fs =
  if Nat.ltb (length word) 32 then Ok (omap line_hash lines)
  else match AddressHash.hex_pairs 16 word with
       | Ok bytes => Ok (omap line_hash lines ++ [arr_of 16 bytes])
       | Err _ => Err Panics
       end.
Proof.
  unfold read_hash_file, Fs.read_to_string. rewrite Hfile, Hutf8, hash_lines_print, hashes_of_print by done.
  destruct Hword as [->|(Hp & Hlen & Hh)]; [cbn; by rewrite app_nil_r|].
  destruct word as [|c w] eqn:Ew; [cbn in Hlen; lia|]. rewrite <- Ew in *.
  rewrite hash_lines_word by done. cbn [hashes_of]. unfold AddressHash.new_from_hex_string, ADDRESS_HASH_SIZE.
  change (16 * 2)%nat with 32%nat. destruct (Nat.ltb (length word) 32); [cbn; by rewrite app_nil_r|].
  destruct (AddressHash.hex_pairs 16 word) as [bytes|e] eqn:E; [done|]. cbn [mbind result_bind].
  by rewrite (hex_pairs_fault _ _ _ E).
Qed.

Definition sample_hash_line : HashLine := HashItem [x20] [x0d] (arr_of 16 (replicate 16 x01)).
Definition sample_hash_fs : Fs.t :=
  Fs.mk {[Path.of_string "/c/ignored" := print_hash_file [HashComment [] [x61]; sample_hash_line; HashBlank []]
            ++ replicate 33 x67 ++ [x0a]]} ∅.

Lemma hash_file_exact_witness : read_hash_file (Path.of_string "/c/ignored") sample_hash_fs = Err Panics.
Proof.
  refine (hash_file_exact (Path.of_string "/c/ignored") [HashComment [] [x61]; sample_hash_line; HashBlank []]
    sample_hash_fs (replicate 33 x67) _ _ _ _).
  - repeat first [apply Forall_cons; split | apply Forall_nil; done];
      repeat split; try (by repeat constructor); cbn; set_solver.
  - right. split_and!; [by apply Forall_replicate|cbn; lia|done].
  - vm_compute. reflexivity.
  - vm_compute. reflexivity.
Defined.

(** * Starting twice *)

(** Every file and directory is in a directory. *)
Definition tree (fs : Fs.t) : Prop :=
  forall p dir, Path.parent p = Some dir -> Fs.exists_ p fs = true -> dir = Path.empty \/ Fs.is_dir dir fs = true.

(** Nothing is lost or changed: files keep their contents, directories stay,
    and no file becomes a directory. *)
Record grows (fs fs' : Fs.t) : Prop := {
  gr_files : forall p data, Fs.files fs !! p = Some data -> Fs.files fs' !! p = Some data;
  gr_dirs : forall p, Fs.is_dir p fs = true -> Fs.is_dir p fs' = true;
  gr_kind : forall p, Fs.is_file p fs = true -> Fs.is_dir p fs' = Fs.is_dir p fs;
  gr_empty : Fs.exists_ Path.empty fs' = Fs.exists_ Path.empty fs
}.

#[export] Instance grows_refl : Reflexive grows.
Proof. by split. Qed.

Lemma grows_file fs fs' p : grows fs fs' -> Fs.is_file p fs = true -> Fs.is_file p fs' = true.
Proof. unfold Fs.is_file. rewrite !bool_decide_eq_true. intros Hg [data Hd]. exists data. by apply Hg. Qed.

#[export] Instance grows_trans : Transitive grows.
Proof.
  intros a b c Hab Hbc. split.
  - intros p data H. by apply Hbc, Hab.
  - intros p H. by apply Hbc, Hab.
  - intros p H. rewrite (gr_kind _ _ Hbc) by (by eapply grows_file). by apply Hab.
  - by rewrite (gr_empty _ _ Hbc), (gr_empty _ _ Hab).
Qed.

Lemma is_dir_set fs files ds p :
  Fs.is_dir p (Fs.mk files (ds ∪ Fs.dirs fs)) = bool_decide (p ∈ ds) || Fs.is_dir p fs.
Proof.
  assert (Hu : bool_decide (p ∈ ds ∪ Fs.dirs fs) = bool_decide (p ∈ ds) || bool_decide (p ∈ Fs.dirs fs))
    by (rewrite <- bool_decide_or; apply bool_decide_ext, elem_of_union).
  unfold Fs.is_dir. by rewrite !orb_assoc, <- Hu.
Qed.

Lemma ancestors_self p : p <> Path.empty -> p ∈ Fs.ancestors p.
Proof.
  intros Hp. unfold Fs.ancestors. apply list_elem_of_filter. split; [done|]. apply list_elem_of_fmap.
  exists (length (components p)). split; [rewrite firstn_all; by destruct p|]. apply elem_of_seq. lia.
Qed.

Lemma create_dir_all_effect p fs fs' : Fs.create_dir_all p fs = (fs', Ok tt) ->
  grows fs fs' /\ Fs.files fs' = Fs.files fs /\ (p = Path.empty \/ Fs.is_dir p fs' = true) /\
  forall q, q ∉ Fs.ancestors p -> Fs.is_dir q fs' = Fs.is_dir q fs.
Proof.
  unfold Fs.create_dir_all. destruct (forallb _ _) eqn:Hf; [|done]. intros [= <-].
  assert (Hfiles : forall q, q ∈ Fs.ancestors p -> Fs.is_file q fs = false).
  { intros q Hq. rewrite forallb_forall in Hf. apply negb_true_iff, Hf. by apply list_elem_of_In. }
  split_and!; [split| | |].
  - intros q data. by destruct fs.
  - intros q Hq. by rewrite is_dir_set, Hq, orb_true_r.
  - intros q Hq. rewrite is_dir_set, bool_decide_false; [done|]. rewrite elem_of_list_to_set. intros Hin.
    by rewrite Hfiles in Hq.
  - unfold Fs.exists_. rewrite is_dir_set, bool_decide_false; [by destruct fs|].
    rewrite elem_of_list_to_set. unfold Fs.ancestors. by intros [? _]%list_elem_of_filter.
  - by destruct fs.
  - destruct (decide (p = Path.empty)) as [|Hp]; [by left|]. right. rewrite is_dir_set, bool_decide_true; [done|].
    by apply elem_of_list_to_set, ancestors_self.
  - intros q Hq. rewrite is_dir_set, bool_decide_false; [done|]. by rewrite elem_of_list_to_set.
Qed.

Lemma write_effect p data fs fs' : Fs.exists_ p fs = false -> Fs.write p data fs = (fs', Ok tt) ->
  grows fs fs' /\ Fs.files fs' !! p = Some data /\ (forall q, Fs.is_dir q fs' = Fs.is_dir q fs) /\
  forall dir, Path.parent p = Some dir -> dir = Path.empty \/ Fs.is_dir dir fs = true.
Proof.
  intros Hnew. unfold Fs.write. destruct (Path.parent p) as [dir|] eqn:Hp; [|done].
  destruct (Fs.is_dir p fs) eqn:Hd; [done|]. destruct (bool_decide _ || _) eqn:Hpar; [|done]. intros [= <-].
  assert (Hdirs : forall q, Fs.is_dir q (Fs.mk (<[p := data]> (Fs.files fs)) (Fs.dirs fs)) = Fs.is_dir q fs) by done.
  apply orb_false_iff in Hnew as [Hnew _]. split_and!; [split| |done|].
  - intros q d Hq. cbn. apply lookup_insert_Some. right.
    split; [|done]. intros <-. unfold Fs.is_file in Hnew. apply bool_decide_eq_false in Hnew. destruct Hnew. by exists d.
  - intros q. by rewrite Hdirs.
  - intros q _. by rewrite Hdirs.
  - unfold Fs.exists_. rewrite Hdirs. f_equal. unfold Fs.is_file. cbn [Fs.files].
    rewrite lookup_insert_ne; [done|]. intros ->. done.
  - apply lookup_insert_eq.
  - intros dir' [= <-]. apply orb_true_iff in Hpar as [H%bool_decide_eq_true|H]; auto.
Qed.

Lemma parent_not_above p dir : Path.parent p = Some dir -> p ∉ Fs.ancestors dir.
Proof.
  unfold Path.parent. destruct (reverse (components p)) as [|c rest] eqn:E; [done|]. intros [= <-].
  unfold Fs.ancestors. intros [_ Hn]%list_elem_of_filter. apply list_elem_of_fmap in Hn as [n [Hn _]]. cbn [components] in Hn.
  assert (Hc : components p = reverse rest ++ [c]) by (by rewrite <- (reverse_involutive (components p)), E, reverse_cons).
  apply (f_equal (fun q => length (components q))) in Hn. cbn [components] in Hn.
  rewrite Hc, length_app, length_take in Hn. cbn in Hn. lia.
Qed.

Lemma create_file_effect p data fs fs' : Fs.exists_ p fs = false ->
  (_ ← create_parent p; Fs.write p data) fs = (fs', Ok tt) ->
  grows fs fs' /\ Fs.files fs' !! p = Some data /\ Fs.is_dir p fs' = false /\
  forall dir, Path.parent p = Some dir -> dir = Path.empty \/ Fs.is_dir dir fs' = true.
Proof.
  intros Hnew. unfold create_parent. destruct (Path.parent p) as [dir|] eqn:Hp; cycle 1.
  { cbn. unfold Fs.write. by rewrite Hp. }
  unfold mbind, stres_bind. destruct (Fs.create_dir_all dir fs) as [fs1 [[]|]] eqn:Hc; [|done].
  destruct (create_dir_all_effect _ _ _ Hc) as (Hg & Hfiles & Hd & Hother). intros Hw.
  assert (Hsame : Fs.is_dir p fs1 = Fs.is_dir p fs) by (by apply Hother, parent_not_above).
  assert (Hnew1 : Fs.exists_ p fs1 = false) by (unfold Fs.exists_, Fs.is_file in *; by rewrite Hfiles, Hsame).
  destruct (write_effect _ _ _ _ Hnew1 Hw) as (Hg' & Hdata & Hdirs & Hpar).
  split_and!; [by transitivity fs1|done| |].
  - rewrite Hdirs. by apply orb_false_iff in Hnew1 as [_ ?].
  - intros dir' Hdir'. rewrite Hdirs. apply Hpar. congruence.
Qed.

(** What the first steps leave: the location is found again, the files are
    there. *)
Lemma ensure_effect example path fs fs' : ensure_default_config example path fs = (fs', Ok tt) ->
  grows fs fs' /\ Fs.exists_ path fs' = true /\
  (Fs.exists_ path fs = false -> Fs.is_dir path fs' = false /\
     forall dir, Path.parent path = Some dir -> dir = Path.empty \/ Fs.is_dir dir fs' = true).
Proof.
  unfold ensure_default_config. destruct (Fs.exists_ path fs) eqn:Hx; [by intros [= <-]|]. intros H.
  destruct (create_file_effect _ _ _ _ Hx H) as (Hg & Hdata & Hd & Hpar). split_and!; [done| |done].
  unfold Fs.exists_, Fs.is_file. by rewrite bool_decide_true by by exists example.
Qed.

Lemma read_config_effect `{TomlParse} example path fs fs' config : read_config example path fs = (fs', Ok config) ->
  ensure_default_config example path fs = (fs', Ok tt) /\
  exists text, Fs.read_to_string path fs' = Ok text /\ toml_from_str text = Ok config.
Proof.
  unfold read_config, mbind, stres_bind, st_map_err, st_get, st_lift.
  destruct (ensure_default_config example path fs) as [fs1 [[]|e]]; cbn [map_err]; [|done].
  destruct (Fs.read_to_string path fs1) as [text|e] eqn:Hr; cbn [map_err]; [|done].
  destruct (toml_from_str text) as [c|e] eqn:Ht; cbn [map_err]; [|done]. intros [= <- <-]. eauto.
Qed.

Lemma read_to_string_grows fs fs' path text : grows fs fs' -> Fs.read_to_string path fs = Ok text ->
  Fs.read_to_string path fs' = Ok text.
Proof.
  intros Hg. unfold Fs.read_to_string. destruct (Fs.files fs !! path) as [data|] eqn:Hf; [|done].
  by rewrite (gr_files _ _ Hg _ _ Hf).
Qed.

Lemma exists_grows fs fs' p : grows fs fs' -> Fs.exists_ p fs = true -> Fs.exists_ p fs' = true.
Proof.
  intros Hg. unfold Fs.exists_. rewrite !orb_true_iff. intros [H|H]; [left; by eapply grows_file|right; by apply Hg].
Qed.

Lemma parent_snoc r cs c : Path.parent (mkPath r (cs ++ [c])) = Some (mkPath r cs).
Proof. unfold Path.parent. cbn [components has_root]. rewrite reverse_snoc. by rewrite reverse_involutive. Qed.

Lemma join_file dir : Path.join dir (Path.of_string DEFAULT_CONFIG_FILE) = mkPath (has_root dir) (components dir ++ ["config"]).
Proof. by destruct dir as [[] [|c cs]]. Qed.

Lemma parent_join_file dir : Path.parent (Path.join dir (Path.of_string DEFAULT_CONFIG_FILE)) = Some dir.
Proof. rewrite join_file, parent_snoc. by destruct dir. Qed.

(** The configuration is found in the same place once it has been read. *)
Lemma location_stable `{TomlParse} example home home' arg fs fs1 fs2 dir path config :
  tree fs -> resolve_config_location home (Some arg) fs = (dir, path) ->
  read_config example path fs = (fs1, Ok config) -> grows fs1 fs2 ->
  resolve_config_location home' (Some arg) fs2 = (dir, path).
Proof.
  intros Htree Hres [Hens (text & Hread & _)]%read_config_effect Hg2.
  destruct (ensure_effect _ _ _ _ Hens) as (Hg1 & Hx1 & Hnew). cbn [resolve_config_location] in *.
  assert (Hg : grows fs fs2) by (by transitivity fs1).
  destruct (Fs.exists_ arg fs) eqn:Hx.
  - rewrite (exists_grows _ _ _ Hg Hx). destruct (Fs.is_dir arg fs) eqn:Hd; [by rewrite (gr_dirs _ _ Hg _ Hd)|].
    unfold Fs.exists_ in Hx. rewrite Hd, orb_false_r in Hx. by rewrite (gr_kind _ _ Hg _ Hx), Hd.
  - destruct (bool_decide_reflect (Path.file_name arg = Some DEFAULT_CONFIG_FILE)) as [Hname|Hname].
    + injection Hres as <- <-. destruct (Hnew Hx) as [Hd _]. rewrite (exists_grows _ _ _ Hg2 Hx1).
      unfold Fs.exists_ in Hx1. rewrite Hd, orb_false_r in Hx1. by rewrite (gr_kind _ _ Hg2 _ Hx1), Hd.
    + injection Hres as <- <-. destruct (decide (arg = Path.empty)) as [->|Hne].
      { by rewrite (gr_empty _ _ Hg), Hx. }
      assert (Hcfg : Fs.exists_ (Path.join arg (Path.of_string DEFAULT_CONFIG_FILE)) fs = false).
      { apply not_true_iff_false. intros E. destruct (Htree _ _ (parent_join_file arg) E) as [|Hd]; [done|].
        unfold Fs.exists_ in Hx. by rewrite Hd, orb_true_r in Hx. }
      destruct (Hnew Hcfg) as [_ Hpar]. destruct (Hpar _ (parent_join_file arg)) as [|Hd]; [done|].
      apply (gr_dirs _ _ Hg2) in Hd. by unfold Fs.exists_; rewrite Hd, orb_true_r.
Qed.

(** The configuration is read again without a change. *)
Lemma read_config_again `{TomlParse} example path fs fs1 fs2 config :
  read_config example path fs = (fs1, Ok config) -> grows fs1 fs2 -> read_config example path fs2 = (fs2, Ok config).
Proof.
  intros (Hens & text & Hr & Ht)%read_config_effect Hg. destruct (ensure_effect _ _ _ _ Hens) as (_ & Hx & _).
  unfold read_config, mbind, stres_bind, st_map_err, st_get, st_lift, ensure_default_config.
  rewrite (exists_grows _ _ _ Hg Hx). cbn [map_err]. rewrite (read_to_string_grows _ _ _ _ Hg Hr). cbn [map_err].
  by rewrite Ht.
Qed.

Section Identities.
Context `{F : Features} `{IC : IdentityCrypto} `{IL : !IdentityLaws}.

Lemma private_hex_text (i : PrivateIdentity.t) : Forall plain (PrivateIdentity.to_hex_string i) /\
  length (PrivateIdentity.to_hex_string i) = 128%nat.
Proof.
  unfold PrivateIdentity.to_hex_string. split; [apply Forall_app; split; apply hex_text|].
  by rewrite length_app, !length_hex, !arr_length.
Qed.

(** Once there is an identity, it is the one found. *)
Lemma identity_stable secret sk secret' sk' path fs fs' i :
  load_or_create_identity secret sk path fs = (fs', Ok i) ->
  grows fs fs' /\ load_or_create_identity secret' sk' path fs' = (fs', Ok i).
Proof.
  unfold load_or_create_identity at 1. destruct (Fs.exists_ path fs) eqn:Hx.
  - unfold mbind, stres_bind, st_map_err, st_get, st_lift.
    destruct (Fs.read_to_string path fs) as [data|e] eqn:Hr; cbn [map_err]; [|done]. intros Heq.
    assert (fs = fs') as <- by congruence. split; [done|]. unfold load_or_create_identity. rewrite Hx.
    unfold mbind, stres_bind, st_map_err, st_get, st_lift. by rewrite Hr.
  - intros Heq. assert (Hc : (_ ← create_parent path; Fs.write path
      (PrivateIdentity.to_hex_string (PrivateIdentity.new secret sk))) fs = (fs', Ok tt) /\ i = PrivateIdentity.new secret sk).
    { revert Heq. unfold mbind, stres_bind, st_map_err. destruct (create_parent path fs) as [fs1 [[]|]]; cbn [map_err]; [|done].
      destruct (Fs.write path _ fs1) as [fs2 [[]|]]; cbn [map_err]; [|done]. by intros [= -> <-]. }
    destruct Hc as [Hc ->]. destruct (create_file_effect _ _ _ _ Hx Hc) as (Hg & Hdata & Hd & _). split; [done|].
    unfold load_or_create_identity, Fs.exists_, Fs.is_file. rewrite bool_decide_true by by eexists.
    destruct (private_hex_text (PrivateIdentity.new secret sk)) as [Hp Hlen].
    unfold mbind, stres_bind, st_map_err, st_get, st_lift, Fs.read_to_string. cbn [orb].
    rewrite Hdata, plain_utf8 by done. cbn [map_err].
    rewrite trim_itself; [|done|lia].
    by rewrite (proj2 (identity_hex_roundtrip (arr_zero 32) (verifying_key sk) secret sk)).
Qed.
End Identities.

(** C27. Starting the daemon again finds what the first start made.  With a
    configuration path, whether it names a file, a directory or nothing yet, a
    start that succeeds (creating the configuration, its directories and the
    identity if they are missing) leaves a disk from which every later start
    takes the same paths, the same configuration and the same identity, whatever
    it would draw, and changes nothing. *)
Theorem start_up_stable `{Features} `{IdentityCrypto} `{!IdentityLaws} `{TomlParse} (example : list byte)
  (home home' : option string) (config_arg : Path) (identity_arg : option Path)
  (secret secret' : arr 32) (sk sk' : SigningKey) (fs fs' : Fs.t)
  (found : ConfigPaths * DaemonConfig.t * PrivateIdentity.t)
  (Htree : tree fs)
  (Hstart : start_up example home (Some config_arg) identity_arg secret sk fs = (fs', Ok found)) :
  grows fs fs' /\
  start_up example home' (Some config_arg) identity_arg secret' sk' fs' = (fs', Ok found).
Proof.
  revert Hstart. unfold start_up. destruct (resolve_config_location home (Some config_arg) fs) as [dir path] eqn:Hres.
  unfold mbind, stres_bind, st_map_err. destruct (read_config example path fs) as [fs1 [config|e]] eqn:Hread;
    cbn [map_err]; [|done].
  set (ipath := default _ identity_arg). destruct (load_or_create_identity secret sk ipath fs1) as [fs2 [i|e]] eqn:Hid;
    cbn [map_err]; [|done]. intros [= <- <-].
  destruct (identity_stable _ _ secret' sk' _ _ _ _ Hid) as [Hg Hid'].
  rewrite (location_stable _ _ home' _ _ _ _ _ _ _ Htree Hres Hread Hg).
  destruct (read_config_effect _ _ _ _ _ Hread) as [Hens _]. destruct (ensure_effect _ _ _ _ Hens) as (Hg1 & _).
  split; [by transitivity fs1|]. rewrite (read_config_again _ _ _ _ _ _ Hread Hg). cbn [map_err]. fold ipath.
  by rewrite Hid'.
Qed.

#[local] Existing Instance toy_features.
#[local] Existing Instance toy_crypto.
#[local] Existing Instance toy_identity.
#[local] Existing Instance toy_identity_laws.

(** A parser that answers an empty configuration, and a disk with nothing on
    it. *)
Definition sample_config : DaemonConfig.t := DaemonConfig.mk None None None None None None None None None None.
Definition sample_toml : TomlParse := fun _ => Ok sample_config.
#[local] Existing Instance sample_toml.

Definition empty_disk : Fs.t := Fs.mk ∅ ∅.

Lemma empty_disk_tree : tree empty_disk.
Proof.
  intros p dir Hp. unfold Fs.exists_, Fs.is_file, Fs.is_dir. cbn [Fs.files Fs.dirs empty_disk].
  rewrite lookup_empty, bool_decide_false by (by intros []). rewrite bool_decide_false by set_solver. cbn [orb].
  rewrite orb_true_iff, !bool_decide_eq_true. intros [->| ->]; [done|]. injection Hp as <-. by left.
Qed.

Definition sample_start : Fs.t * result (fault DaemonError) (ConfigPaths * DaemonConfig.t * PrivateIdentity.t) :=
  start_up [x23] None (Some (Path.of_string "/c")) None (arr_zero 32) (toy_secret x05) empty_disk.

Lemma sample_start_ok : match sample_start.2 with Ok _ => true | Err _ => false end = true.
Proof. vm_compute. reflexivity. Qed.

Lemma start_up_stable_witness : exists found, sample_start = (sample_start.1, Ok found) /\
  start_up [x23] None (Some (Path.of_string "/c")) None (arr_of 32 [x01]) (toy_secret x06) sample_start.1 =
    (sample_start.1, Ok found).
Proof.
  pose proof sample_start_ok as Hok. destruct sample_start as [fs' [found|e]] eqn:E; [|discriminate Hok].
  exists found. split; [reflexivity|].
  exact (proj2 (start_up_stable [x23] None None (Path.of_string "/c") None _ (arr_of 32 [x01]) _ (toy_secret x06) _ _ _
    empty_disk_tree E)).
Defined.
