(* ===== verification/Daemon.v ===== *)
(** The daemon of [lxmd-rs/src/main.rs]: the router it builds from its
    configuration and the loop that joins the LXMF router to the node.

    Every call of the node in the loop has its number, by which the clocks and
    the random draws are indexed.  [println!] and the command run for a message
    are recorded. *)

From Stdlib Require Import ZArith Lia Floats.SpecFloat.
From Stdlib Require Import Strings.Byte.
From stdpp Require Import base gmap strings pretty numbers relations list.
From coqutil Require Import Datatypes.RecordSetters.
From S2P Require Import Prelude Float Msgpack Crypto Buffer Packet Resource ReqTracker Identity Destination Link Transport.
From S2P Require Import Stamp Message Rns Delivery Node Requests PnDirectory PropStore Peer PeerCodec StorageCodec.
From S2P Require Import StorageTables MessageStore PropDisk Links Tickets Outbound Runtime Messaging Router Propagation.
From S2P Require Import DaemonFiles.
Import DoubleBraceUpdate.

Local Open Scope Z_scope.

Module Lxmd.

Definition DEFAULT_TICK_INTERVAL_MS : Z := 1000.
(** [0.38] and [0.005] *)
Definition MIN_TRANSFER_LIMIT_KB : f64 := f64_div (f64_of_Z 38) (f64_of_Z 100).
Definition MIN_MESSAGE_STORE_MB : f64 := f64_div (f64_of_Z 5) (f64_of_Z 1000).

(** The command line. *)
Module Args.
Record t : Type := mk {
  config : option Path;
  rnsconfig : option Path;
  propagation_node : bool;
  on_inbound : option string;
  verbose : Z;
  quiet : Z;
  service : bool;
  status : bool;
  peers : bool;
  sync : option string;
  unpeer : option string;
  timeout : option f64;
  remote : option string;
  identity : option Path;
  exampleconfig : bool
}.
End Args.

(** * Logging *)

Definition effective_log_level (config : DaemonConfig.t) (args : Args.t) : Z :=
  let base := default 3 (DaemonConfig.logging config ≫= LoggingConfig.loglevel) in
  as_u8 (Z.max (base + Args.verbose args - Args.quiet args) 0).

Inductive LevelFilter : Type := LevelError | LevelWarn | LevelInfo | LevelDebug | LevelTrace.

Definition level_filter (level : Z) : LevelFilter :=
  if level =? 0 then LevelError else if level =? 1 then LevelWarn else if level =? 2 then LevelInfo
  else if level =? 3 then LevelDebug else LevelTrace.

(** * The router *)

Section Setup.
Context `{F : Features} `{IC : IdentityCrypto} `{M : Msgpack} `{D : F64Display} `{P : F64Parse} `{HI : HashIter}.
Context {S : Type} `{MS : MessageStore S}.
Abbreviation node := (Router.t S).

Definition local_hash (x : node) : arr 16 := Router.local_identity_hash (LxmfRuntime.router (Router.runtime x)).

Definition transfer_limit (configured : option f64) (or_else : f64) : f64 :=
  f64_max (default or_else configured) MIN_TRANSFER_LIMIT_KB.

(** The limits, which have defaults without a [propagation] section. *)
Definition apply_limits (config : DaemonConfig.t) (x : node) : node :=
  let lxmf_cfg := DaemonConfig.lxmf config in
  let propagation_cfg := DaemonConfig.propagation config in
  let x := Router.set_transfer_limits_kb
    (transfer_limit (lxmf_cfg ≫= LxmfConfig.delivery_transfer_max_accepted_size) (f64_of_Z 1000))
    (transfer_limit (match propagation_cfg ≫= PropagationConfig.propagation_message_max_accepted_size with
                     | Some limit => Some limit
                     | None => propagation_cfg ≫= PropagationConfig.propagation_transfer_max_accepted_size
                     end) (f64_of_Z 256))
    (transfer_limit (propagation_cfg ≫= PropagationConfig.propagation_sync_max_accepted_size)
       (f64_mul (f64_of_Z 256) (f64_of_Z 40))) x in
  let storage_limit_mb :=
    f64_max (default (f64_of_Z 500) (propagation_cfg ≫= PropagationConfig.message_storage_limit)) MIN_MESSAGE_STORE_MB in
  Router.set_message_storage_limit (Some (f64_to_u64 (f64_mul storage_limit_mb (f64_of_Z 1000)))) None None x.

(** What the [propagation] section sets. *)
Definition apply_propagation (cfg : PropagationConfig.t) (x : node) : result (fault RetError) node :=
  let x := Router.set_propagation_validation
             (default 16 (PropagationConfig.propagation_stamp_cost_target cfg))
             (default 3 (PropagationConfig.propagation_stamp_cost_flexibility cfg)) x in
  let x := Router.set_peering_validation (local_hash x) (default 18 (PropagationConfig.peering_cost cfg)) x in
  let x := Router.set_max_peering_cost (default 26 (PropagationConfig.remote_peering_cost_max cfg)) x in
  let x := Router.set_autopeer_maxdepth (PropagationConfig.autopeer_maxdepth cfg) x in
  let x := Router.set_max_peers (PropagationConfig.max_peers cfg) x in
  let x := Router.set_from_static_only (default false (PropagationConfig.from_static_only cfg)) x in
  let x := Router.set_authentication (default false (PropagationConfig.auth_required cfg)) x in
  static_peers ← parse_hash_list (PropagationConfig.static_peers cfg);
  let x := if bool_decide (static_peers = []) then x else Router.set_static_peers static_peers x in
  allowed ← parse_hash_list (PropagationConfig.control_allowed cfg);
  let allowed := if bool_decide (local_hash x ∈ allowed) then allowed else allowed ++ [local_hash x] in
  let x := Router.set_control_allowed allowed x in
  prioritised ← parse_hash_list (PropagationConfig.prioritise_destinations cfg);
  Ok (foldl (fun x id => Router.prioritise_destination id x) x prioritised).

(** The router's configuration; a text of 32 characters or more that is not a
    hash panics. *)
Definition apply_router_config (config : DaemonConfig.t) (now_ms : Z) (x : node) : result (fault RetError) node :=
  let x := apply_limits config x in
  x ← match DaemonConfig.propagation config with Some cfg => apply_propagation cfg x | None => Ok x end;
  Ok (Router.enable_propagation_node
        (default false (DaemonConfig.propagation config ≫= PropagationConfig.enable_node)) now_ms x).

End Setup.

Section Build.
Context `{F : Features} `{IC : IdentityCrypto} `{M : Msgpack} `{D : F64Display} `{P : F64Parse} `{HI : HashIter}.
Abbreviation node := (Router.t FileMessageStore.t).

(** [LxmfRouter::with_store] *)
Definition with_store (delivery : RnsOutbound.t) (store : FileMessageStore.t) (config : RuntimeConfig)
    (system_now_ms : Z) : node :=
  Router.with_config (RnsRouter.with_store delivery store) config system_now_ms.

(** [hook] is the encryptor with what it draws; [store] the storage directory;
    [created_ms] and [now_ms] the two readings of the clock. *)
Definition build_router (hook : EncryptHook) (identity : PrivateIdentity.t) (config : DaemonConfig.t)
    (store : FileMessageStore.t) (created_ms now_ms : Z) : result (fault RetError) node :=
  let outbound := RnsOutbound.with_encryptor identity (PrivateIdentity.identity identity) hook in
  apply_router_config config now_ms (with_store outbound store RuntimeConfig_default created_ms).

(** What [main] sets up before its loop: the command line can turn the
    propagation node on, and two files in the configuration directory hold
    hashes. *)
Definition prepare (args : Args.t) (config : DaemonConfig.t) (dir : Path) (now_ms : Z) (fs : Fs.t) (x : node) :
    result (fault RetError) node :=
  let enable_pn := Args.propagation_node args
                   || default false (DaemonConfig.propagation config ≫= PropagationConfig.enable_node) in
  let x := Router.enable_propagation_node enable_pn now_ms x in
  ignored ← read_hash_file (Path.join dir (Path.of_string "ignored")) fs;
  let x := foldl (fun x hash => Router.with_messaging (LxmfRouter.ignore_destination hash) x) x ignored in
  if Router.auth_required x then
    allowed ← read_hash_file (Path.join dir (Path.of_string "allowed")) fs;
    Ok (if bool_decide (allowed = []) then x else Router.set_allowed_identities allowed x)
  else Ok x.

End Build.

(** * The loop *)

(** What the daemon prints and runs. *)
Inductive Shown : Type :=
| InboundWritten (path : Path)
| InboundNotWritten
| PaperDelivery (uri : string)
| CommandRun (command : string) (path : Path).

(** What the program is given from outside: the clocks and draws by the number
    of the call, the options, where messages are written. *)
Record World : Type := mkWorld {
  instant : nat -> Z;
  wall_ms : nat -> Z;
  call_ivs : nat -> nat -> AddressHash -> arr 16;
  inbound_path : Path;
  inbound_command : option string
}.

Record t `{IC : IdentityCrypto} : Type := mk {
  router : Router.t FileMessageStore.t;
  node_router : RnsNodeRouter.t;
  disk : Fs.t;
  sent : list Output;
  shown : list Shown;
  calls : nat
}.

(** What one turn of the loop receives: the time, draws and lock of the tick,
    and the events of the links. *)
Record Turn : Type := mkTurn {
  turn_now_ms : Z;
  turn_draws : Z -> Z -> Z -> arr 32;
  turn_key_draws : Z -> arr 32;
  turn_locked : bool;
  turn_in_events : list LinkEventData;
  turn_out_events : list LinkEventData;
  turn_retry_ivs : arr 16 -> nat -> AddressHash -> arr 16
}.

Section Loop.
Context `{F : Features} `{IC : IdentityCrypto} `{M : Msgpack} `{R : Rmp} `{D : F64Display} `{P : F64Parse} `{HI : HashIter}.
Variable w : World.

(** [let _ = node_router.call(...).await]: an error leaves the node as it was,
    a panic ends the program. *)
Definition attempt (r : RnsNodeRouter.effect RnsNodeRouter.t) (d : t) : result (fault RnsError) (t * bool) :=
  match r with
  | Ok (n, outs) => Ok (d {{ node_router := n; sent := sent d ++ outs; calls := Datatypes.S (calls d) }}, true)
  | Err (Fails _) => Ok (d {{ calls := Datatypes.S (calls d) }}, false)
  | Err Panics => Err Panics
  end.

Definition send_delivery (delivery : QueuedDelivery) (d : t) : result (fault RnsError) (t * bool) :=
  match qd_delivery delivery with
  | OutPacket packet =>
      let '(h, outs) := Transport.send_packet (instant w (calls d)) packet (RnsNodeRouter.transport (node_router d)) in
      attempt (Ok ((node_router d) {{ RnsNodeRouter.transport := h }}, outs)) d
  | OutResource destination _ data =>
      attempt (RnsNodeRouter.send_resource_payload destination data (call_ivs w (calls d)) (instant w (calls d))
                 (node_router d)) d
  | OutPaperUri uri => Ok (d {{ shown := shown d ++ [PaperDelivery uri] }}, true)
  end.

Fixpoint dispatch_deliveries (deliveries : list QueuedDelivery) (d : t) : result (fault RnsError) (t * nat) :=
  match deliveries with
  | [] => Ok (d, 0%nat)
  | delivery :: deliveries =>
      match send_delivery delivery d with
      | Err e => Err e
      | Ok (d, ok) => '(d, n) ← dispatch_deliveries deliveries d; Ok (d, if ok : bool then Datatypes.S n else n)
      end
  end.

Definition send_request (peer_id : arr 16) (request : RnsRequest) (d : t) : result (fault RnsError) t :=
  '(d, _) ← attempt (RnsNodeRouter.send_request_to_hash peer_id request (call_ivs w (calls d)) (instant w (calls d))
                       (node_router d)).2 d;
  Ok d.

Definition send_response (peer_id : arr 16) (response : RnsResponse) (d : t) : result (fault RnsError) t :=
  '(d, _) ← attempt (RnsNodeRouter.send_response_to_hash peer_id response (call_ivs w (calls d)) (instant w (calls d))
                       (node_router d)) d;
  Ok d.

(** A loop over what is to be sent. *)
Fixpoint send_all {A} (send : A -> t -> result (fault RnsError) t) (l : list A) (d : t) : result (fault RnsError) t :=
  match l with
  | [] => Ok d
  | a :: l => d ← send a d; send_all send l d
  end.

Definition write_inbound_message (now_ms : Z) (msg : LXMessage.t) (fs : Fs.t) : Fs.t * option Path :=
  match Fs.create_dir_all (inbound_path w) fs with
  | (fs, Err _) => (fs, None)
  | (fs, Ok _) =>
      let filename := match LXMessage.m_message_id msg with
                      | Some id => hex_encode id
                      | None => "lxm-" +:+ pretty now_ms
                      end in
      let path := Path.join (inbound_path w) (mkPath false [filename +:+ ".lxm"]) in
      match (LXMessage.encode_with_signature msg).2 with
      | Err _ => (fs, None)
      | Ok bytes => match Fs.write path bytes fs with
                    | (fs, Ok _) => (fs, Some path)
                    | (fs, Err _) => (fs, None)
                    end
      end
  end.

Definition receive_message (d : t) (msg : LXMessage.t) : t :=
  let '(fs, path) := write_inbound_message (wall_ms w (calls d)) msg (disk d) in
  let lines := match path with
               | Some path => InboundWritten path ::
                   match inbound_command w with Some command => [CommandRun command path] | None => [] end
               | None => [InboundNotWritten]
               end in
  d {{ disk := fs; shown := shown d ++ lines; calls := Datatypes.S (calls d) }}.

(** [while let Some(item) = router.pop_...() { send }]: sending does not touch
    the router. *)
Definition drain_control (d : t) : result (fault RnsError) t :=
  let queued := Router.control_responses (router d) in
  send_all (fun kv d => if forallb (fun b => bool_decide (b = x00)) (arr_list kv.1) then Ok d
                        else send_response kv.1 kv.2 d) queued
    (d {{ router := (router d) {{ Router.control_responses := [] }} }}).
Definition drain_responses (d : t) : result (fault RnsError) t :=
  let queued := Router.peer_sync_responses (router d) in
  send_all (fun kv d => send_response kv.1 kv.2 d) queued
    (d {{ router := (router d) {{ Router.peer_sync_responses := [] }} }}).
Definition drain_outbound (d : t) : result (fault RnsError) t :=
  let queued := Router.peer_sync_outbound (router d) in
  send_all (fun kv d => send_request kv.1 kv.2 d) queued
    (d {{ router := (router d) {{ Router.peer_sync_outbound := [] }} }}).

(** [for received in node_router.poll_inbound().await { router.receive_inbound(received) }] *)
Definition poll (turn : Turn) (d : t) : result (fault RnsError) t :=
  match RnsNodeRouter.poll_inbound (turn_in_events turn) (turn_out_events turn) (turn_retry_ivs turn)
          (call_ivs w (calls d)) (instant w (calls d)) (node_router d) with
  | Err e => Err e
  | Ok (n, received, outs) =>
      Ok (d {{ router := foldl (fun x r => Router.receive_inbound r x) (router d) received;
               node_router := n; sent := sent d ++ outs; calls := Datatypes.S (calls d) }})
  end.

(** One turn of [loop]; [None] only if the tick's own loop did not end. *)
Definition turn (i : Turn) (d : t) : option (result (fault RnsError) t) :=
  let now_ms := turn_now_ms i in
  match Router.tick (turn_draws i) (turn_key_draws i) (turn_locked i) now_ms (router d) with
  | None => None
  | Some (Err e) => Some (Err e)
  | Some (Ok (x, tk)) =>
      let '(x, requests) := Router.dispatch_peer_sync_requests (peer_sync_requests tk) now_ms x in
      Some (
        peer_requests ← requests;
        '(d, _) ← dispatch_deliveries (deliveries tk) (d {{ router := x }});
        d ← send_all (fun rp d => send_request rp.2 rp.1 d) peer_requests d;
        d ← poll i d;
        let '(x, messages) := Router.process_inbound_queue now_ms false (router d) in
        messages ← messages;
        let d := foldl receive_message (d {{ router := x }}) messages in
        d ← drain_control d;
        d ← drain_responses d;
        drain_outbound d)
  end.

Fixpoint run (turns : list Turn) (d : t) : option (result (fault RnsError) t) :=
  match turns with
  | [] => Some (Ok d)
  | i :: turns => match turn i d with
                  | Some (Ok d) => run turns d
                  | r => r
                  end
  end.

End Loop.
End Lxmd.

(** * The configured router *)

(** A positive minimum is kept by the router, which takes the larger of the
    limit and zero. *)
Lemma at_least_minimum m e x :
  f64_leb (S754_finite false m e) (f64_max (f64_max x (S754_finite false m e)) f64_zero) = true.
Proof.
  assert (Hrefl : f64_leb (S754_finite false m e) (S754_finite false m e) = true).
  { unfold f64_leb, SFleb, SFcompare. by rewrite Z.compare_refl, Pos.compare_cont_refl. }
  destruct x as [s|[]| |[] mx ex]; try exact Hrefl; try done.
  assert (Hin : f64_max (S754_finite false mx ex) (S754_finite false m e) =
    if f64_ltb (S754_finite false mx ex) (S754_finite false m e) then S754_finite false m e else S754_finite false mx ex)
    by done. rewrite Hin. clear Hin. destruct (f64_ltb _ _) eqn:Hlt; [exact Hrefl|].
  change (f64_max (S754_finite false mx ex) f64_zero) with (S754_finite false mx ex).
  unfold f64_ltb, f64_leb, SFltb, SFleb, SFcompare in *. rewrite (Z.compare_antisym ex e).
  destruct (ex ?= e); cbn [CompOpp] in *; [|done..].
  pose proof (Pos.compare_cont_antisym mx m Eq) as Ha. cbn [CompOpp] in Ha. rewrite <- Ha.
  by destruct (Pos.compare_cont Eq mx m).
Qed.

Section Hashes.

(** The hash a text stands for. *)
Definition names (texts : option (list string)) (id : arr 16) : Prop :=
  exists l text, texts = Some l /\ text ∈ l /\ AddressHash.new_from_hex_string (bytes_of_string text) = Ok id.

Definition unreadable (texts : option (list string)) : Prop :=
  exists l text, texts = Some l /\ text ∈ l /\ AddressHash.new_from_hex_string (bytes_of_string text) = Err Panics.

Lemma hashes_of_spec items :
  match hashes_of items with
  | Ok ids => (forall id, id ∈ ids <-> exists item, item ∈ items /\ AddressHash.new_from_hex_string item = Ok id) /\
              forall item, item ∈ items -> AddressHash.new_from_hex_string item <> Err Panics
  | Err e => e = Panics /\ exists item, item ∈ items /\ AddressHash.new_from_hex_string item = Err Panics
  end.
Proof.
  induction items as [|item items IH]; cbn [hashes_of]; [split; set_solver|].
  destruct (AddressHash.new_from_hex_string item) as [a|[e|]] eqn:E.
  - destruct (hashes_of items) as [ids|e]; cbn [mbind result_bind].
    + destruct IH as [IH1 IH2]. split.
      * intros id. rewrite elem_of_cons, IH1. split.
        -- intros [->|(it & Hin & He)]; [exists item; set_solver|exists it; set_solver].
        -- intros (it & [->|Hin]%elem_of_cons & He); [left; congruence|right; by exists it].
      * intros it [->|Hin]%elem_of_cons; [congruence|by apply IH2].
    + destruct IH as [-> (it & Hin & He)]. split; [done|]. exists it. set_solver.
  - destruct (hashes_of items) as [ids|e']; [destruct IH as [IH1 IH2]; split|].
    + intros id. rewrite IH1. split; [intros (it & Hin & He); exists it; set_solver|].
      intros (it & [->|Hin]%elem_of_cons & He); [congruence|by exists it].
    + intros it [->|Hin]%elem_of_cons; [congruence|by apply IH2].
    + destruct IH as [-> (it & Hin & He)]. split; [done|]. exists it. set_solver.
  - split; [done|]. exists item. set_solver.
Qed.

Lemma parse_hash_list_spec texts :
  match parse_hash_list texts with
  | Ok ids => (forall id, id ∈ ids <-> names texts id) /\ ~ unreadable texts
  | Err e => e = Panics /\ unreadable texts
  end.
Proof.
  unfold parse_hash_list, names, unreadable. destruct texts as [l|]; [|split; [set_solver|by intros (? & ? & ? & _)]].
  pose proof (hashes_of_spec (map bytes_of_string l)) as H.
  assert (Hmap : forall r, (exists item, item ∈ map bytes_of_string l /\ AddressHash.new_from_hex_string item = r) <->
    exists l' text, Some l = Some l' /\ text ∈ l' /\ AddressHash.new_from_hex_string (bytes_of_string text) = r).
  { intros r. split.
    - intros (item & (text & -> & Hin)%list_elem_of_fmap & He). by exists l, text.
    - intros (l' & text & [= <-] & Hin & He). exists (bytes_of_string text). split; [|done]. apply list_elem_of_fmap. eauto. }
  destruct (hashes_of (map bytes_of_string l)) as [ids|e].
  - destruct H as [H1 H2]. split; [intros id; by rewrite H1, Hmap|]. rewrite <- Hmap. intros (item & Hin & He).
    by apply (H2 item).
  - destruct H as [-> H]. split; [done|]. by apply Hmap.
Qed.

End Hashes.

Section Configured.
Context `{F : Features} `{IC : IdentityCrypto} `{M : Msgpack} `{D : F64Display} `{P : F64Parse} `{HI : HashIter}.
Context {S : Type} `{MS : MessageStore S}.
Import Router.
Implicit Types x : Router.t S.

(** The limits a peer or a sender is held to. *)
Definition limits_ok x : Prop :=
  f64_leb Lxmd.MIN_TRANSFER_LIMIT_KB (delivery_transfer_limit_kb x) = true /\
  f64_leb Lxmd.MIN_TRANSFER_LIMIT_KB (propagation_transfer_limit_kb x) = true /\
  f64_leb Lxmd.MIN_TRANSFER_LIMIT_KB (propagation_sync_limit_kb x) = true.

Lemma apply_limits_ok config x : limits_ok (Lxmd.apply_limits config x).
Proof.
  unfold limits_ok, Lxmd.apply_limits, Lxmd.transfer_limit.
  assert (Hm : forall y, f64_leb Lxmd.MIN_TRANSFER_LIMIT_KB (f64_max (f64_max y Lxmd.MIN_TRANSFER_LIMIT_KB) f64_zero) = true)
    by (intros y; apply at_least_minimum).
  destruct x. cbn. unfold constant. split_and!; apply Hm.
Qed.

(** What the limits leave alone, and what the rest leaves of the limits. *)
Definition rules x := (messaging x, peers x, propagation_store x, propagation_validation x, static_peers x,
  control_allowed x, propagation_prioritised x).

Lemma apply_limits_rules config x : rules (Lxmd.apply_limits config x) = rules x.
Proof. by destruct x. Qed.

Lemma prioritise_all ids : forall x, exists p, foldl (fun x id => prioritise_destination id x) x ids =
  x {{ propagation_prioritised := p }} /\ p = list_to_set ids ∪ propagation_prioritised x.
Proof.
  induction ids as [|id ids IH]; intros x; cbn [foldl].
  - exists (propagation_prioritised x). split; [by destruct x|set_solver].
  - destruct (IH (prioritise_destination id x)) as (p & -> & ->). eexists (list_to_set (id :: ids) ∪ propagation_prioritised x).
    split; [|done].
    replace (list_to_set (id :: ids) ∪ propagation_prioritised x)
      with (list_to_set ids ∪ propagation_prioritised (prioritise_destination id x)); [by destruct x|].
    replace (propagation_prioritised (prioritise_destination id x)) with ({[id]} ∪ propagation_prioritised x)
      by (by destruct x). set_solver.
Qed.

(** The section's part in one record update. *)
Lemma apply_propagation_effect cfg x :
  match Lxmd.apply_propagation cfg x with
  | Ok x' => exists static allowed prioritised,
      parse_hash_list (PropagationConfig.static_peers cfg) = Ok static /\
      parse_hash_list (PropagationConfig.control_allowed cfg) = Ok allowed /\
      parse_hash_list (PropagationConfig.prioritise_destinations cfg) = Ok prioritised /\
      messaging x' = messaging x /\ peers x' = peers x /\ propagation_store x' = propagation_store x /\
      propagation_validation x' = Some (mkPropagationValidation
        (default 16 (PropagationConfig.propagation_stamp_cost_target cfg))
        (default 3 (PropagationConfig.propagation_stamp_cost_flexibility cfg))) /\
      static_peers x' = (if bool_decide (static = []) then static_peers x else list_to_set static) /\
      control_allowed x' = {[Lxmd.local_hash x]} ∪ list_to_set allowed /\
      propagation_prioritised x' = list_to_set prioritised ∪ propagation_prioritised x /\
      (limits_ok x -> limits_ok x')
  | Err e => e = Panics /\ (unreadable (PropagationConfig.static_peers cfg) \/
      unreadable (PropagationConfig.control_allowed cfg) \/ unreadable (PropagationConfig.prioritise_destinations cfg))
  end.
Proof.
  unfold Lxmd.apply_propagation.
  pose proof (parse_hash_list_spec (PropagationConfig.static_peers cfg)) as H1.
  pose proof (parse_hash_list_spec (PropagationConfig.control_allowed cfg)) as H2.
  pose proof (parse_hash_list_spec (PropagationConfig.prioritise_destinations cfg)) as H3.
  destruct (parse_hash_list (PropagationConfig.static_peers cfg)) as [static|e]; cbn [mbind result_bind]; [|tauto].
  destruct (parse_hash_list (PropagationConfig.control_allowed cfg)) as [allowed|e]; cbn [mbind result_bind]; [|tauto].
  destruct (parse_hash_list (PropagationConfig.prioritise_destinations cfg)) as [prioritised|e];
    cbn [mbind result_bind]; [|tauto].
  match goal with |- context [foldl _ ?y prioritised] => destruct (prioritise_all prioritised y) as (p & -> & ->) end.
  exists static, allowed, prioritised. split_and!; [done..| | | | | | | |]; clear; destruct x; cbn.
  all: destruct (bool_decide (static = [])); cbn; unfold constant, limits_ok, Lxmd.local_hash, runtime; cbn; try done.
  all: unfold set_control_allowed; cbn; case_bool_decide; set_solver.
Qed.

Lemma parsed_spec texts ids : parse_hash_list texts = Ok ids -> forall id, id ∈ ids <-> names texts id.
Proof. intros H. pose proof (parse_hash_list_spec texts) as Hs. rewrite H in Hs. apply Hs. Qed.

(** C19. What the configuration file does to the router.  Whatever numbers it has,
    not-a-number included, the three transfer limits end at the minimum or
    above it; the node itself may always control the daemon, and besides it
    exactly the identities listed; stamps are asked for at the configured cost
    less the flexibility; prioritised and static destinations are those listed.
    The configuration is refused, by a panic, only for a listed text of 32
    characters or more that is not a hash. *)
Theorem router_configured (config : DaemonConfig.t) (now_ms : Z) (x : Router.t S) :
  match Lxmd.apply_router_config config now_ms x with
  | Ok x' =>
      limits_ok x' /\ Lxmd.local_hash x' = Lxmd.local_hash x /\
      propagation_node_enabled x' = default false (DaemonConfig.propagation config ≫= PropagationConfig.enable_node) /\
      match DaemonConfig.propagation config with
      | Some cfg =>
          min_stamp_cost x' = Some (sat_sub (default 16 (PropagationConfig.propagation_stamp_cost_target cfg))
                                      (default 3 (PropagationConfig.propagation_stamp_cost_flexibility cfg))) /\
          (forall id, id ∈ control_allowed x' <->
             id = Lxmd.local_hash x \/ names (PropagationConfig.control_allowed cfg) id) /\
          (forall id, id ∈ propagation_prioritised x' <->
             id ∈ propagation_prioritised x \/ names (PropagationConfig.prioritise_destinations cfg) id) /\
          ((exists id, names (PropagationConfig.static_peers cfg) id) ->
             forall id, id ∈ static_peers x' <-> names (PropagationConfig.static_peers cfg) id)
      | None => rules x' = rules x
      end
  | Err e => e = Panics /\ exists cfg, DaemonConfig.propagation config = Some cfg /\
      (unreadable (PropagationConfig.static_peers cfg) \/ unreadable (PropagationConfig.control_allowed cfg) \/
       unreadable (PropagationConfig.prioritise_destinations cfg))
  end.
Proof.
  unfold Lxmd.apply_router_config. pose proof (apply_limits_ok config x) as Hl.
  pose proof (apply_limits_rules config x) as Hr. cbv zeta. set (y := Lxmd.apply_limits config x) in *. clearbody y.
  unfold rules in Hr. injection Hr as Hm Hp Hst Hv Hs Hc Hpr.
  destruct (DaemonConfig.propagation config) as [cfg|]; cbn [mbind result_bind option_bind].
  - pose proof (apply_propagation_effect cfg y) as H. destruct (Lxmd.apply_propagation cfg y) as [z|e].
    + destruct H as (static & allowed & prioritised & P1 & P2 & P3 & Em & Ep & Es & Ev & Est & Ec & Epr & El).
      assert (Hz : Lxmd.local_hash z = Lxmd.local_hash x /\ Lxmd.local_hash y = Lxmd.local_hash x)
        by (unfold Lxmd.local_hash, runtime; by rewrite Em, Hm).
      cbn [mbind result_bind]. split_and!.
      * specialize (El Hl). by destruct z.
      * rewrite <- (proj1 Hz). by destruct z.
      * by destruct z.
      * unfold min_stamp_cost. replace (propagation_validation _) with (propagation_validation z) by (by destruct z).
        by rewrite Ev.
      * intros id. replace (control_allowed _) with (control_allowed z) by (by destruct z).
        rewrite Ec, (proj2 Hz), <- (parsed_spec _ _ P2). set_solver.
      * intros id. replace (propagation_prioritised (enable_propagation_node _ _ _)) with (propagation_prioritised z)
          by (by destruct z). rewrite Epr, Hpr, <- (parsed_spec _ _ P3). set_solver.
      * intros [id0 H0] id. apply (parsed_spec _ _ P1) in H0. rewrite <- (parsed_spec _ _ P1).
        replace (static_peers _) with (static_peers z) by (by destruct z). rewrite Est, bool_decide_false by (intros ->; by apply not_elem_of_nil in H0).
        apply elem_of_list_to_set.
    + destruct H as [-> H]. split; [done|]. by exists cfg.
  - assert (Hlh : Lxmd.local_hash y = Lxmd.local_hash x) by (unfold Lxmd.local_hash, runtime; by rewrite Hm).
    split_and!; [by destruct y|rewrite <- Hlh; by destruct y|by destruct y|].
    transitivity (rules y); [by destruct y|]. unfold rules. by rewrite Hm, Hp, Hst, Hv, Hs, Hc, Hpr.
Qed.

End Configured.

(** * The loop keeps the node sound *)

Section Sound.
Context `{F : Features} `{IC : IdentityCrypto} `{M : Msgpack} `{R : Rmp} `{D : F64Display} `{P : F64Parse} `{HI : HashIter}.
Variable w : Lxmd.World.
Import Lxmd.
Implicit Types d : Lxmd.t.

Lemma attempt_router r d d' b : attempt r d = Ok (d', b) -> router d' = router d /\ disk d' = disk d.
Proof. unfold attempt. destruct r as [[n outs]|[e|]]; [| |done]; intros [= <- _]; by destruct d. Qed.

Lemma send_delivery_router q d d' b : send_delivery w q d = Ok (d', b) -> router d' = router d /\ disk d' = disk d.
Proof.
  unfold send_delivery. destruct (qd_delivery q).
  - destruct (Transport.send_packet _ _ _). apply attempt_router.
  - apply attempt_router.
  - intros [= <- _]. by destruct d.
Qed.

Lemma dispatch_deliveries_router qs : forall d d' n,
  dispatch_deliveries w qs d = Ok (d', n) -> router d' = router d /\ disk d' = disk d.
Proof.
  induction qs as [|q qs IH]; intros d d' n; cbn [dispatch_deliveries]; [by intros [= -> _]|].
  destruct (send_delivery w q d) as [[d1 b]|e] eqn:E; [|done].
  destruct (dispatch_deliveries w qs d1) as [[d2 k]|e] eqn:E2; cbn [mbind result_bind]; [|done]. intros [= <- _].
  apply send_delivery_router in E as [<- <-]. by apply (IH _ _ _ E2).
Qed.

Lemma send_request_router id req d d' : send_request w id req d = Ok d' -> router d' = router d /\ disk d' = disk d.
Proof.
  unfold send_request. destruct (attempt _ d) as [[d1 b]|e] eqn:E; cbn [mbind result_bind]; [|done].
  intros [= <-]. by apply attempt_router in E.
Qed.

Lemma send_response_router id resp d d' : send_response w id resp d = Ok d' -> router d' = router d /\ disk d' = disk d.
Proof.
  unfold send_response. destruct (attempt _ d) as [[d1 b]|e] eqn:E; cbn [mbind result_bind]; [|done].
  intros [= <-]. by apply attempt_router in E.
Qed.

Lemma send_all_router {A} (send : A -> Lxmd.t -> result (fault RnsError) Lxmd.t) l :
  (forall a d d', send a d = Ok d' -> router d' = router d /\ disk d' = disk d) ->
  forall d d', send_all send l d = Ok d' -> router d' = router d /\ disk d' = disk d.
Proof.
  intros Hs. induction l as [|a l IH]; intros d d'; cbn [send_all]; [by intros [= ->]|].
  destruct (send a d) as [d1|e] eqn:E; cbn [mbind result_bind]; [|done]. intros H.
  destruct (Hs _ _ _ E) as [<- <-]. by apply IH.
Qed.

Lemma receive_message_router d m : router (receive_message w d m) = router d.
Proof. unfold receive_message. destruct (write_inbound_message _ _ _ _). by destruct d. Qed.

Lemma receive_messages_router ms : forall d, router (foldl (receive_message w) d ms) = router d.
Proof. induction ms as [|m ms IH]; intros d; [done|]. cbn [foldl]. by rewrite IH, receive_message_router. Qed.

Lemma drains_ok cost d d1 d2 d3 : node_ok cost (router d) ->
  drain_control w d = Ok d1 -> drain_responses w d1 = Ok d2 -> drain_outbound w d2 = Ok d3 ->
  node_ok cost (router d3) /\ disk d3 = disk d.
Proof.
  intros Hd H1 H2 H3. unfold drain_control, drain_responses, drain_outbound in *.
  apply send_all_router in H1 as [E1 F1];
    [|intros [id r] a b; cbn [fst snd]; destruct (forallb _ _); [by intros [= ->]|apply send_response_router]].
  apply send_all_router in H2 as [E2 F2]; [|intros [id r] a b; apply send_response_router].
  apply send_all_router in H3 as [E3 F3]; [|intros [id r] a b; apply send_request_router].
  split; cycle 1.
  { rewrite F3. transitivity (disk d2); [by destruct d2|]. rewrite F2. transitivity (disk d1); [by destruct d1|].
    rewrite F1. by destruct d. }
  rewrite E3. apply (node_ok_held cost (router d2)); [by destruct d2 as [[]]|]. rewrite E2.
  apply (node_ok_held cost (router d1)); [by destruct d1 as [[]]|]. rewrite E1.
  apply (node_ok_held cost (router d)); [by destruct d as [[]]|done].
Qed.

Lemma receive_all_ok cost rs : forall x : Router.t FileMessageStore.t, node_ok cost x ->
  node_ok cost (foldl (fun x r => Router.receive_inbound r x) x rs).
Proof.
  induction rs as [|r rs IH]; intros x Hx; [done|]. cbn [foldl]. apply IH.
  apply with_messaging_ok; [by destruct (Router.messaging x)|done].
Qed.

Lemma poll_ok cost i d d' : node_ok cost (router d) -> poll w i d = Ok d' ->
  node_ok cost (router d') /\ disk d' = disk d.
Proof.
  intros Hd. unfold poll. destruct (RnsNodeRouter.poll_inbound _ _ _ _ _ _) as [[[n rs] outs]|e]; [|done].
  intros [= <-]. split; [|by destruct d]. pose proof (receive_all_ok cost rs _ Hd). by destruct d.
Qed.

(** A turn that ends well keeps what holds of the propagated messages. *)
Lemma turn_ok cost i d d' : node_ok cost (router d) -> turn w i d = Some (Ok d') -> node_ok cost (router d').
Proof.
  intros Hd. unfold turn. cbv zeta.
  destruct (Router.tick _ _ _ _ _) as [[[x tk]|e]|] eqn:Ht; [|done..]. apply (tick_ok cost) in Ht as Hx; [|done].
  pose proof (held_dispatch (peer_sync_requests tk) (turn_now_ms i) x) as Hh.
  destruct (Router.dispatch_peer_sync_requests _ _ x) as [x1 reqs]. cbn [fst] in Hh.
  apply (node_ok_held cost _ _ Hh) in Hx. destruct reqs as [reqs|e]; [|done]. cbn [mbind result_bind].
  destruct (dispatch_deliveries w _ _) as [[d1 n]|e] eqn:E1; [|done]. cbn [mbind result_bind].
  apply dispatch_deliveries_router in E1 as [R1 _].
  destruct (send_all _ reqs d1) as [d2|e] eqn:E2; [|done]. cbn [mbind result_bind].
  apply send_all_router in E2 as [R2 _]; [|intros [q id] a b; apply send_request_router].
  assert (Hd2 : node_ok cost (router d2)) by (rewrite R2, R1; by destruct d).
  destruct (poll w i d2) as [d3|e] eqn:E3; [|done]. cbn [mbind result_bind]. apply (poll_ok cost) in E3 as [Hd3 _]; [|done].
  unfold Router.process_inbound_queue.
  pose proof (process_inbound_loop_ok cost (RnsRouter.inbound (LxmfRuntime.router (Router.runtime (router d3))))
    (turn_now_ms i) false (router d3) Hd3) as Hd4.
  destruct (Router.process_inbound_loop _ _ _ _) as [x4 ms]. cbn [fst] in Hd4. destruct ms as [ms|e]; [|done].
  cbn [mbind result_bind]. set (d5 := foldl _ _ ms).
  assert (Hd5 : node_ok cost (router d5)) by (subst d5; rewrite receive_messages_router; by destruct d3).
  destruct (drain_control w d5) as [d6|e] eqn:E6; [|done]. cbn [mbind result_bind].
  destruct (drain_responses w d6) as [d7|e] eqn:E7; [|done]. cbn [mbind result_bind]. intros [= E8].
  exact (proj1 (drains_ok cost _ _ _ _ Hd5 E6 E7 E8)).
Qed.

Lemma run_ok cost turns : forall d d', node_ok cost (router d) -> run w turns d = Some (Ok d') -> node_ok cost (router d').
Proof.
  induction turns as [|i turns IH]; intros d d' Hd; cbn [run]; [by intros [= <-]|].
  destruct (turn w i d) as [[d1|e]|] eqn:E; [|done..]. apply IH. by eapply turn_ok.
Qed.

Lemma turn_ends i d : is_u32 (max_attempts (RnsRouter.retry (LxmfRuntime.router (Router.runtime (router d))))) = true ->
  turn w i d <> None.
Proof.
  intros Hm. unfold turn. cbv zeta. unfold Router.tick, LxmfRuntime.tick. cbv zeta.
  destruct (outbound_job_cases (turn_draws i) (turn_now_ms i) (as_u64 (LxmfRuntime.processing_count (Router.runtime (router d)) + 1))
    (Router.runtime (router d)) Hm) as [Hne _].
  destruct (LxmfRuntime.outbound_job _ _ _ _) as [[[[[r ds] es] last]|e]|]; [|done..].
  destruct (LxmfRuntime.elapsed _ (LxmfRuntime.last_inflight_ms _) _); [destruct (RnsRouter.poll_timeouts _ _)|].
  all: destruct (LxmfRuntime.elapsed _ (LxmfRuntime.last_request_ms _) _); [destruct (RnsRequestManager.poll_timeouts _ _)|].
  all: by destruct (Router.dispatch_peer_sync_requests _ _ _).
Qed.

End Sound.

(** * A daemon from its start *)

Section Start.
Context `{F : Features} `{IC : IdentityCrypto} `{M : Msgpack} `{R : Rmp} `{D : F64Display} `{P : F64Parse} `{HI : HashIter}.
Import Lxmd.

(** The least stamp value a configured node accepts. *)
Definition configured_cost (config : DaemonConfig.t) : Z :=
  match DaemonConfig.propagation config with
  | Some cfg => sat_sub (default 16 (PropagationConfig.propagation_stamp_cost_target cfg))
                  (default 3 (PropagationConfig.propagation_stamp_cost_flexibility cfg))
  | None => sat_sub DEFAULT_PROPAGATION_STAMP_COST DEFAULT_PROPAGATION_STAMP_FLEX
  end.

Lemma build_effect hook identity config store created now x :
  build_router hook identity config store created now = Ok x ->
  Router.propagation_store x = PropagationStore.new /\ Router.peers x = ∅ /\
  Router.messaging x = LxmfRouter.with_config (RnsRouter.with_store
    (RnsOutbound.with_encryptor identity (PrivateIdentity.identity identity) hook) store) RuntimeConfig_default /\
  Router.min_stamp_cost x = Some (configured_cost config).
Proof.
  unfold build_router, apply_router_config, configured_cost. cbv zeta.
  set (x0 := with_store _ _ _ _). pose proof (apply_limits_rules config x0) as Hr.
  revert Hr. generalize (apply_limits config x0) as y. intros y Hr. unfold rules in Hr.
  injection Hr as Hm Hp Hst Hv _ _ _. destruct (DaemonConfig.propagation config) as [cfg|]; cbn [mbind result_bind option_bind].
  - pose proof (apply_propagation_effect cfg y) as H. destruct (apply_propagation cfg y) as [z|e]; [|done].
    destruct H as (_ & _ & _ & _ & _ & _ & Em & Ep & Es & Ev & _). cbn [mbind result_bind]. intros [= <-].
    unfold Router.min_stamp_cost. rewrite Hm in Em. rewrite Hp in Ep. rewrite Hst in Es. destruct z. cbn in *. by subst.
  - intros [= <-]. unfold Router.min_stamp_cost. destruct y. cbn in *. by subst.
Qed.

Lemma ignore_all_held ids : forall x : Router.t FileMessageStore.t,
  held (foldl (fun x hash => Router.with_messaging (LxmfRouter.ignore_destination hash) x) x ids) = held x.
Proof.
  induction ids as [|id ids IH]; intros x; [done|]. cbn [foldl]. rewrite IH.
  apply held_messaging. by destruct (Router.messaging x).
Qed.

Lemma prepare_held args config dir now fs x x' : prepare args config dir now fs x = Ok x' -> held x' = held x.
Proof.
  unfold prepare. cbv zeta. destruct (read_hash_file (Path.join dir (Path.of_string "ignored")) fs) as [ignored|e]; cbn [mbind result_bind]; [|done].
  set (y := foldl _ _ ignored). assert (Hy : held y = held x) by (subst y; rewrite ignore_all_held; by destruct x).
  clearbody y. rewrite <- Hy. destruct (Router.auth_required y); [|by intros [= <-]].
  destruct (read_hash_file _ fs) as [allowed|e]; cbn [mbind result_bind]; [|done]. intros [= <-].
  case_bool_decide; [done|]. by destruct y.
Qed.

Lemma configured_cost_nonneg config : 0 <= configured_cost config.
Proof. unfold configured_cost, sat_sub. destruct (DaemonConfig.propagation config); lia. Qed.

Lemma built_ok hook identity config store created now x :
  build_router hook identity config store created now = Ok x -> node_ok (configured_cost config) x.
Proof.
  intros (Hs & _ & Hm & Hc)%build_effect. pose proof (configured_cost_nonneg config). split.
  - exists (configured_cost config). split; [done|lia].
  - rewrite Hs. apply map_Forall_empty.
  - intros dir. by rewrite Hm.
Qed.

(** Built, prepared and run for some turns: the messages are good, and another
    turn ends. *)
Lemma started_sound (w : World) hook identity config store created now now' args dir fs fs' n built ready turns (d : Lxmd.t) :
  build_router hook identity config store created now = Ok built -> prepare args config dir now' fs built = Ok ready ->
  run w turns (mk _ _ ready n fs' [] [] 0) = Some (Ok d) ->
  map_Forall (good_message (configured_cost config)) (PropagationStore.entries (Router.propagation_store (router d))) /\
  (is_u32 (max_attempts (RnsRouter.retry (LxmfRuntime.router (Router.runtime (router d))))) = true ->
   forall i, turn w i d <> None).
Proof.
  intros Hbuild Hprepare Hrun. assert (Hr : node_ok (configured_cost config) ready).
  { eapply node_ok_held; [by eapply prepare_held|]. by eapply built_ok. }
  pose proof (run_ok w _ turns (mk _ _ ready n fs' [] [] 0) d Hr Hrun) as Hd. split; [apply Hd|]. intros Hm i. by apply turn_ends.
Qed.

End Start.

(** * Messages for the user *)

Section Inbound.
Context `{F : Features} `{IC : IdentityCrypto} `{M : Msgpack} `{ML : !MsgpackLaws} `{R : Rmp} `{D : F64Display}.
Context `{P : F64Parse} `{HI : HashIter}.
Variable w : Lxmd.World.
Import Lxmd.

(** Where a message is written. *)
Definition inbound_file (id : arr 32) : Path := Path.join (inbound_path w) (mkPath false [hex_encode id +:+ ".lxm"]).

Lemma inbound_file_eq id :
  inbound_file id = mkPath (has_root (inbound_path w)) (components (inbound_path w) ++ [hex_encode id +:+ ".lxm"]).
Proof.
  assert (Hne : hex_encode id +:+ ".lxm" <> ".").
  { intros H. apply (f_equal (fun s => length (bytes_of_string s))) in H. revert H. unfold bytes_of_string.
    destruct (hex_encode id) as [|? [|]]; done. }
  unfold inbound_file, Path.join. cbn [has_root components]. rewrite filter_cons_True, filter_nil by done.
  by destruct (inbound_path w) as [[] [|c cs]].
Qed.

Lemma inbound_file_inj id id' : inbound_file id = inbound_file id' -> id = id'.
Proof.
  rewrite !inbound_file_eq. intros [= [_ H]%app_inj_2]; [|done]. injection H as H.
  apply (f_equal bytes_of_string) in H. rewrite !bytes_of_string_app in H. apply app_inj_2 in H as [H _]; [|done].
  unfold hex_encode in H. rewrite !bytes_of_string_of_bytes in H. apply (f_equal hex_decode) in H.
  rewrite !hex_decode_encode in H. apply arr_eq. by injection H.
Qed.

Lemma inbound_file_parent id : Path.parent (inbound_file id) = Some (inbound_path w).
Proof. rewrite inbound_file_eq, parent_snoc. by destruct (inbound_path w). Qed.

(** A disk on which the messages can be written: no file is in the way of the
    directory, no directory in the way of a message. *)
Definition writable (fs : Fs.t) : Prop :=
  forallb (fun q => negb (Fs.is_file q fs)) (Fs.ancestors (inbound_path w)) = true /\
  forall id, Fs.is_dir (inbound_file id) fs = false.

Definition saved (m : LXMessage.t) (id : arr 32) (fs : Fs.t) : Prop :=
  exists bytes r, Fs.files fs !! inbound_file id = Some bytes /\ LXMessage.decode bytes = Ok r /\
    LXMessage.m_destination_hash r = LXMessage.m_destination_hash m /\
    LXMessage.m_source_hash r = LXMessage.m_source_hash m /\
    LXMessage.payload_values r = LXMessage.payload_values m /\
    LXMessage.m_signature r = LXMessage.m_signature m /\ LXMessage.m_stamp r = LXMessage.m_stamp m.

Lemma write_inbound_saves now m id fs : writable fs -> message_ok m = true -> is_Some (LXMessage.m_signature m) ->
  LXMessage.m_message_id m = Some id ->
  exists fs', write_inbound_message w now m fs = (fs', Some (inbound_file id)) /\ writable fs' /\ saved m id fs' /\
    forall q, q <> inbound_file id -> Fs.files fs' !! q = Fs.files fs !! q.
Proof.
  intros [Hdir Hfree] Hm [sg Hsg] Hid. unfold write_inbound_message.
  destruct (Fs.create_dir_all (inbound_path w) fs) as [fs1 r1] eqn:Hc.
  assert (r1 = Ok tt) as -> by (unfold Fs.create_dir_all in Hc; rewrite Hdir in Hc; congruence).
  destruct (create_dir_all_effect _ _ _ Hc) as (_ & Hfiles & Hd & Hother).
  assert (Hfree1 : forall i, Fs.is_dir (inbound_file i) fs1 = false).
  { intros i. rewrite Hother; [done|]. by eapply parent_not_above, inbound_file_parent. }
  rewrite Hid. fold (inbound_file id).
  destruct (decode_encode_with_signature m sg Hm Hsg) as (bytes & bs & He & _ & Hdec). rewrite He. cbn [snd].
  unfold Fs.write. rewrite inbound_file_parent, Hfree1.
  assert (bool_decide (inbound_path w = Path.empty) || Fs.is_dir (inbound_path w) fs1 = true) as ->
    by (destruct Hd as [->| ->]; [done|apply orb_true_r]).
  eexists. split; [reflexivity|]. split_and!.
  - split; [|exact Hfree1]. rewrite forallb_forall in *. intros q Hq. specialize (Hdir q Hq).
    unfold Fs.is_file in *. cbn [Fs.files]. rewrite lookup_insert_ne, Hfiles; [done|]. intros <-.
    apply list_elem_of_In in Hq. revert Hq. by eapply parent_not_above, inbound_file_parent.
  - specialize (Hdec []). rewrite app_nil_r in Hdec. eexists _, _. split; [apply lookup_insert_eq|].
    split; [exact Hdec|]. by rewrite Hsg.
  - intros q Hq. cbn [Fs.files]. by rewrite lookup_insert_ne, Hfiles.
Qed.

Lemma receive_saves m id d : writable (disk d) -> message_ok m = true -> is_Some (LXMessage.m_signature m) ->
  LXMessage.m_message_id m = Some id ->
  let d' := receive_message w d m in
  writable (disk d') /\ saved m id (disk d') /\
  (forall q, q <> inbound_file id -> Fs.files (disk d') !! q = Fs.files (disk d) !! q) /\
  (exists more, shown d' = shown d ++ InboundWritten (inbound_file id) :: more).
Proof.
  intros Hw Hm Hsg Hid. destruct (write_inbound_saves (wall_ms w (calls d)) m id (disk d) Hw Hm Hsg Hid)
    as (fs' & He & Hw' & Hs & Hq). cbv zeta. unfold receive_message. rewrite He. destruct d. split_and!; try done.
  eexists. reflexivity.
Qed.

Lemma saved_later m id fs fs' : Fs.files fs' !! inbound_file id = Fs.files fs !! inbound_file id ->
  saved m id fs -> saved m id fs'.
Proof. intros H (bytes & r & Hb & Hr). exists bytes, r. by rewrite H. Qed.

Lemma receive_keeps ms : forall d q,
  (forall m id, m ∈ ms -> LXMessage.m_message_id m = Some id -> q <> inbound_file id) -> writable (disk d) ->
  Forall (fun m => message_ok m = true /\ is_Some (LXMessage.m_signature m) /\ is_Some (LXMessage.m_message_id m)) ms ->
  Fs.files (disk (foldl (receive_message w) d ms)) !! q = Fs.files (disk d) !! q /\
  exists more, shown (foldl (receive_message w) d ms) = shown d ++ more.
Proof.
  induction ms as [|m ms IH]; intros d q Hq Hw Hok; [split; [done|]; exists []; by rewrite app_nil_r|].
  apply Forall_cons in Hok as [(Hm & Hsg & [id Hid]) Hok]. cbn [foldl].
  destruct (receive_saves m id d Hw Hm Hsg Hid) as (Hw' & _ & Hk & more & Hs).
  destruct (IH (receive_message w d m) q) as [-> [more' ->]]; [|done..|].
  - intros m' id' Hin. apply Hq. set_solver.
  - split; [apply Hk, (Hq m); set_solver|]. rewrite Hs, <- app_assoc. by eexists.
Qed.

End Inbound.

(** C26. Every message the daemon accepts reaches the user.  When the inbound
    directory can be made and nothing stands in the way of the files, then after
    the messages of a turn have been handled, each of them is in a file named
    after its identifier, the file decodes to the message (addresses, timestamp,
    title, content, fields, signature and stamp), and its path has been
    announced. *)
Theorem inbound_messages_saved `{Features} `{IdentityCrypto} `{Msgpack} `{!MsgpackLaws} `{Rmp} `{F64Display} `{F64Parse}
  `{HashIter} (w : Lxmd.World) (d : Lxmd.t) (ms : list LXMessage.t) (Hwritable : writable w (Lxmd.disk d))
  (Hok : Forall (fun m => message_ok m = true /\ is_Some (LXMessage.m_signature m) /\
                          is_Some (LXMessage.m_message_id m)) ms)
  (Hdistinct : NoDup (map LXMessage.m_message_id ms)) (m : LXMessage.t) (id : arr 32)
  (Hin : m ∈ ms) (Hid : LXMessage.m_message_id m = Some id) :
  let d' := foldl (Lxmd.receive_message w) d ms in
  saved w m id (Lxmd.disk d') /\ Lxmd.InboundWritten (inbound_file w id) ∈ Lxmd.shown d'.
Proof.
  cbv zeta. apply list_elem_of_split in Hin as (before & after & ->). rewrite foldl_app. cbn [foldl].
  apply Forall_app in Hok as [Hb [(Hm & Hsg & _) Ha]%Forall_cons].
  assert (Hw1 : writable w (Lxmd.disk (foldl (Lxmd.receive_message w) d before))).
  { clear Ha Hdistinct. revert d Hwritable. induction before as [|b before IH]; intros d Hd; [done|].
    apply Forall_cons in Hb as [(Hbm & Hbs & [bid Hbi]) Hb]. cbn [foldl].
    apply IH; [done|]. by eapply receive_saves. }
  set (d1 := foldl _ d before) in *. destruct (receive_saves w m id d1 Hw1 Hm Hsg Hid) as (Hw2 & Hs & _ & more & Hsh).
  destruct (receive_keeps w after (Lxmd.receive_message w d1 m) (inbound_file w id)) as [Hf [more' Hsh']]; [|done..|].
  - intros m' id' Hin' Hid' ->%inbound_file_inj. rewrite map_app in Hdistinct. cbn in Hdistinct.
    apply NoDup_app in Hdistinct as (_ & _ & [Hn _]%NoDup_cons). apply Hn. rewrite Hid, <- Hid'.
    apply list_elem_of_fmap. eauto.
  - split; [by eapply saved_later|]. rewrite Hsh', Hsh. set_solver.
Qed.

(** * A daemon at work *)

#[local] Existing Instance toy_features.
#[local] Existing Instance toy_crypto.
#[local] Existing Instance toy_identity.
#[local] Existing Instance bit_codec.
#[local] Existing Instance bit_codec_laws.
#[local] Existing Instance key_order.
#[local] Existing Instance toy_rmp.
#[local] Existing Instance code_display.
#[local] Existing Instance code_parse.

Definition daemon_identity : PrivateIdentity.t := PrivateIdentity.new (arr_zero 32) (toy_secret x02).
Definition sample_world : Lxmd.World :=
  Lxmd.mkWorld (fun _ => 0) (fun _ => 1000) (fun _ _ _ => arr_zero 16) (Path.of_string "/in") None.
Definition sample_turn : Lxmd.Turn :=
  Lxmd.mkTurn 2000 (fun _ _ _ => arr_zero 32) (fun _ => arr_zero 32) false [] [] (fun _ _ _ => arr_zero 16).
Definition sample_daemon (x : Router.t FileMessageStore.t) : Lxmd.t :=
  Lxmd.mk _ _ x (RnsNodeRouter.new_udp daemon_identity) empty_disk [] [] 0.

(** Two messages with their signatures and identifiers. *)
Definition sample_accepted (id : byte) : LXMessage.t :=
  LXMessage.set_identity (Some (arr_zero 64)) (Some (arr_of 32 [id])) sample_message.

Lemma sample_writable : writable sample_world empty_disk.
Proof. split; [vm_compute; reflexivity|]. intros id. rewrite inbound_file_eq. by vm_compute. Qed.

Lemma inbound_messages_saved_witness :
  let x := Lxmd.with_store sample_outbound FileMessageStore.new RuntimeConfig_default 1000 in
  let d := foldl (Lxmd.receive_message sample_world) (sample_daemon x) [sample_accepted x01; sample_accepted x02] in
  saved sample_world (sample_accepted x01) (arr_of 32 [x01]) (Lxmd.disk d) /\
  Lxmd.InboundWritten (inbound_file sample_world (arr_of 32 [x01])) ∈ Lxmd.shown d.
Proof.
  intros x d. apply inbound_messages_saved.
  - apply sample_writable.
  - repeat constructor; by eexists.
  - apply NoDup_cons. split; [|apply NoDup_singleton]. intros H. apply list_elem_of_singleton in H. discriminate H.
  - by left.
  - reflexivity.
Defined.
