(* ===== verification/Remote.v ===== *)
(** The requests [lxmd-rs/src/main.rs] sends to a daemon elsewhere, with
    [--remote]: the status, a synchronisation, the end of a peering; and what
    becomes of the packets that daemons send each other. *)

From Stdlib Require Import ZArith Lia.
From Stdlib Require Import Strings.Byte.
From stdpp Require Import base gmap strings pretty numbers relations list.
From coqutil Require Import Datatypes.RecordSetters.
From S2P Require Import Prelude Float Msgpack Crypto Buffer Packet Resource ReqTracker Identity Destination Link Transport.
From S2P Require Import Stamp Message Rns Delivery Node Requests DaemonFiles.
Import DoubleBraceUpdate.

Local Open Scope Z_scope.

Inductive RemoteError : Type :=
| RemoteIo (e : IoError)
| RemoteRns (e : RnsError)
| EmptyResponse
| RemoteFailed
| RemoteTimedOut.

(** One round of the waiting loop: the time at which the links are polled, what
    they hold, and the time waited so far when the answer is looked at. *)
Record Round : Type := mkRound {
  round_now : Z;
  round_waited : Z;
  round_in_events : list LinkEventData;
  round_out_events : list LinkEventData;
  round_retry_ivs : arr 16 -> nat -> AddressHash -> arr 16;
  round_ivs : nat -> AddressHash -> arr 16
}.

Module Remote.

Definition CONTROL_STATS_PATH : string := "/pn/get/stats".
Definition CONTROL_SYNC_PATH : string := "/pn/peer/sync".
Definition CONTROL_UNPEER_PATH : string := "/pn/peer/unpeer".

Section Requests.
Context `{F : Features} `{IC : IdentityCrypto} `{M : Msgpack} `{R : Rmp} `{HI : HashIter}.

(** The loop; [None] while it goes on after the given rounds. *)
Fixpoint await_response (timeout : Z) (receipt : nat) (rounds : list Round) (n : RnsNodeRouter.t) :
    option (result (fault RemoteError) Value) :=
  match rounds with
  | [] => None
  | r :: rounds =>
      match RnsNodeRouter.poll_inbound (round_in_events r) (round_out_events r) (round_retry_ivs r) (round_ivs r)
              (round_now r) n with
      | Err e => Some (Err (fault_map RemoteRns e))
      | Ok (n, _, _) =>
          match RequestTracker.receipts (RnsNodeRouter.request_tracker n) !! receipt with
          | None => Some (Err Panics)
          | Some rc =>
              match rq_status rc with
              | ReqReady =>
                  Some (bytes ← ok_or (rq_response rc) (Fails EmptyResponse);
                        response ← map_err (fun e => Fails (RemoteRns e)) (decode_response_bytes bytes);
                        Ok (resp_data response))
              | ReqFailed => Some (Err (Fails RemoteFailed))
              | _ => if timeout <=? round_waited r then Some (Err (Fails RemoteTimedOut))
                     else await_response timeout receipt rounds n
              end
          end
      end
  end.

(** [now_ms] is the wall clock, [sent_at] the instant of sending. *)
Definition remote_control_request (identity : PrivateIdentity.t) (remote path : string) (data : Value)
    (timeout now_ms sent_at : Z) (ivs : nat -> AddressHash -> arr 16) (rounds : list Round) :
    option (result (fault RemoteError) Value) :=
  match parse_destination_bytes remote with
  | Err e => Some (Err (fault_map RemoteIo e))
  | Ok destination =>
      let node_router := RnsNodeRouter.new_udp identity in
      match RnsRequestManager.register_request destination (Some path) data now_ms 5000 RnsRequestManager.new with
      | (_, Err e) => Some (Err (fault_map RemoteRns e))
      | (_, Ok req) =>
          match RnsNodeRouter.send_request_with_receipt_to_hash destination req timeout ivs sent_at node_router with
          | (_, _, Err e) => Some (Err (fault_map RemoteRns e))
          | (_, n, Ok (receipt, _)) => await_response timeout receipt rounds n
          end
      end
  end.

Definition remote_stats (identity : PrivateIdentity.t) (remote : string) :=
  remote_control_request identity remote CONTROL_STATS_PATH Nil.

Definition remote_peer_control (identity : PrivateIdentity.t) (remote path peer_hex : string)
    (timeout now_ms sent_at : Z) (ivs : nat -> AddressHash -> arr 16) (rounds : list Round) :
    option (result (fault RemoteError) Value) :=
  match parse_destination_bytes peer_hex with
  | Err e => Some (Err (fault_map RemoteIo e))
  | Ok target => remote_control_request identity remote path (Binary target) timeout now_ms sent_at ivs rounds
  end.

End Requests.
End Remote.

(** * Waiting *)

Section Waiting.
Context `{F : Features} `{IC : IdentityCrypto} `{M : Msgpack} `{R : Rmp} `{HI : HashIter}.
Implicit Types n : RnsNodeRouter.t.

(** A node that transfers nothing. *)
Definition at_rest n : Prop :=
  ResourceTracker.incoming (RnsNodeRouter.resource_tracker n) = ∅ /\ RnsNodeRouter.resource_outgoing n = ∅.

(** Polling such a node does what the requests call for. *)
Lemma poll_at_rest ins outs ivs aivs now n s : at_rest n ->
  handle_events (ins ++ outs) now (mkInner [] [] (RnsNodeRouter.request_tracker n) (RnsNodeRouter.resource_tracker n) ∅) =
    Ok s -> actions s = [] -> resources s = RnsNodeRouter.resource_tracker n -> outgoing s = ∅ ->
  RnsNodeRouter.poll_inbound ins outs ivs aivs now n =
    Ok (n {{ RnsNodeRouter.request_tracker := RequestTracker.poll_timeouts now (requests s) }}, out s, []).
Proof.
  intros [Hres Hout] He Ha Hr Ho. unfold RnsNodeRouter.poll_inbound. cbv zeta. rewrite Hout, He. cbn [map_err mbind result_bind].
  replace (ResourceTracker.poll_timeouts now (resources (with_requests (RequestTracker.poll_timeouts now) s)))
    with (RnsNodeRouter.resource_tracker n, @nil ResourceTimeout).
  - cbn [foldl]. unfold RnsNodeRouter.retry_outgoing_resources. destruct n as [i h rt rs ro]. destruct s as [o a q rr og].
    cbn -[hash_iter] in *. subst. unfold constant. rewrite hash_iter_empty. done.
  - replace (resources _) with (RnsNodeRouter.resource_tracker n) by (by destruct s).
    unfold ResourceTracker.poll_timeouts, hash_keys. by rewrite Hres, hash_iter_empty.
Qed.

(** The tracker of a node with one request under way. *)
Definition one_request (id : arr 16) (sent_at timeout : Z) : RequestTracker.t :=
  RequestTracker.mk [mkRequestReceipt id ReqDelivered None (f32_of_Z 0) sent_at None timeout no_callbacks]
    {[id := 0%nat]} [].

Lemma hash_iter_one {K} `{Countable K} {V} (k : K) (v : V) : hash_iter {[k := v]} = [(k, v)].
Proof. apply Permutation_singleton_r. rewrite hash_iter_perm. by rewrite map_to_list_singleton. Qed.

Lemma one_request_early id sent_at timeout now : sat_sub now sent_at < timeout ->
  RequestTracker.poll_timeouts now (one_request id sent_at timeout) = one_request id sent_at timeout.
Proof.
  intros Hearly. unfold RequestTracker.poll_timeouts. cbv zeta. cbn [RequestTracker.pending one_request].
  rewrite hash_iter_one, filter_cons_False, filter_nil; [done|].
  cbn. unfold RequestTracker.timed_out. cbn [rq_timeout rq_sent_at]. rewrite (proj2 (Z.leb_gt _ _)) by done.
  by rewrite andb_false_r.
Qed.

Lemma one_request_late id sent_at timeout now : timeout <= sat_sub now sent_at ->
  rq_status <$> RequestTracker.receipts (RequestTracker.poll_timeouts now (one_request id sent_at timeout)) !! 0%nat =
    Some ReqFailed.
Proof.
  intros Hlate. unfold RequestTracker.poll_timeouts. cbv zeta. cbn [RequestTracker.pending one_request].
  rewrite hash_iter_one, filter_cons_True, filter_nil.
  - cbn [fmap list_fmap fst foldl]. unfold RequestTracker.mark_failed.
    change (RequestTracker.pending (one_request id sent_at timeout)) with ({[id := 0%nat]} : gmap (arr 16) nat).
    by rewrite lookup_singleton_eq.
  - cbn. unfold RequestTracker.timed_out. cbn [rq_timeout rq_sent_at]. rewrite (proj2 (Z.leb_le _ _)) by done. done.
Qed.

(** The node after a request that fits a packet. *)
Lemma request_sent identity destination req payload timeout ivs now :
  encode_request_bytes req = Ok payload -> (length payload <= PACKET_MDU)%nat ->
  exists req' n outs,
    RnsNodeRouter.send_request_with_receipt_to_hash destination req timeout ivs now (RnsNodeRouter.new_udp identity) =
      (req', n, Ok (0%nat, outs)) /\ at_rest n /\
    RnsNodeRouter.request_tracker n = one_request (request_id_for_destination destination payload) now timeout.
Proof.
  intros He Hlen. unfold RnsNodeRouter.send_request_with_receipt_to_hash. cbv zeta.
  rewrite He, (proj2 (Nat.leb_le _ _) Hlen). unfold build_request_packet_for_hash. rewrite He. cbn [mbind result_bind].
  destruct (packet_of_payload destination payload Single Request Hlen) as (p & -> & _). cbn [mbind result_bind].
  destruct req as [rid rat rph rd]. eexists _, _, _. split; [reflexivity|]. split; [done|].
  unfold RequestTracker.mark_delivered. cbn. unfold constant. rewrite lookup_insert_eq. done.
Qed.

Lemma quiet_round r ivs aivs n id sent_at timeout : at_rest n ->
  RnsNodeRouter.request_tracker n = one_request id sent_at timeout ->
  RnsNodeRouter.poll_inbound [] [] ivs aivs r n =
    Ok (n {{ RnsNodeRouter.request_tracker := RequestTracker.poll_timeouts r (one_request id sent_at timeout) }}, [], []).
Proof. intros Hr Hq. rewrite (poll_at_rest [] [] ivs aivs r n _ Hr eq_refl); [|done..]. by rewrite Hq. Qed.

(** Rounds in which nothing arrives and the time is not up. *)
Definition quiet (sent_at timeout : Z) (r : Round) : Prop :=
  round_in_events r = [] /\ round_out_events r = [] /\ sat_sub (round_now r) sent_at < timeout /\ round_waited r < timeout.

Lemma await_quiet timeout rounds rest n id sent_at : at_rest n ->
  RnsNodeRouter.request_tracker n = one_request id sent_at timeout -> Forall (quiet sent_at timeout) rounds ->
  exists n', Remote.await_response timeout 0 (rounds ++ rest) n = Remote.await_response timeout 0 rest n' /\
    at_rest n' /\ RnsNodeRouter.request_tracker n' = one_request id sent_at timeout.
Proof.
  intros Hr Hq Hrounds. revert n Hr Hq. induction Hrounds as [|r rounds (H1 & H2 & H3 & H4) _ IH]; intros n Hr Hq.
  { by exists n. }
  cbn [app Remote.await_response]. rewrite H1, H2, (quiet_round _ _ _ _ id sent_at timeout) by done.
  rewrite one_request_early by done. cbn [RnsNodeRouter.request_tracker].
  match goal with |- context [Remote.await_response timeout 0 (rounds ++ rest) ?m] => destruct (IH m) as (n' & He & Hn') end.
  - by destruct n.
  - by destruct n.
  - exists n'. rewrite <- He. split; [|done]. destruct n. cbn. unfold constant.
    by rewrite (proj2 (Z.leb_gt _ _)).
Qed.

(** The round in which the response arrives over a link. *)
Lemma await_answer timeout rounds n id sent_at r link address peer bytes data : at_rest n ->
  RnsNodeRouter.request_tracker n = one_request id sent_at timeout ->
  round_in_events r = [] -> round_out_events r = [frame_event link address peer bytes Response] ->
  (length bytes <= PACKET_MDU)%nat -> decode_response_bytes bytes = Ok (mkResponse id data) ->
  Remote.await_response timeout 0 (r :: rounds) n = Some (Ok data).
Proof.
  intros Hr Hq Hin Hout Hlen Hdec. cbn [Remote.await_response]. rewrite Hin, Hout.
  assert (He : handle_events ([] ++ [frame_event link address peer bytes Response]) (round_now r)
    (mkInner [] [] (RnsNodeRouter.request_tracker n) (RnsNodeRouter.resource_tracker n) ∅) =
    Ok (mkInner [RcvResponse (mkResponse id data) (source_hash_from_event (frame_event link address peer bytes Response))] []
      (RequestTracker.record_response id bytes (round_now r) (one_request id sent_at timeout)).1
      (RnsNodeRouter.resource_tracker n) ∅)).
  { cbn [app handle_events]. unfold handle_link_event_inner, frame_event. cbn [ev_event].
    rewrite payload_slice by done. cbn [mbind result_bind]. unfold on_response. rewrite Hdec. by rewrite Hq. }
  rewrite (poll_at_rest _ _ _ _ _ _ _ Hr He); [|done..]. cbn [requests RnsNodeRouter.request_tracker].
  assert (Hrec : exists rc, RequestTracker.receipts (RequestTracker.poll_timeouts (round_now r)
    (RequestTracker.record_response id bytes (round_now r) (one_request id sent_at timeout)).1) !! 0%nat = Some rc /\
    rq_status rc = ReqReady /\ rq_response rc = Some bytes).
  { unfold RequestTracker.record_response.
    change (RequestTracker.pending (one_request id sent_at timeout)) with ({[id := 0%nat]} : gmap (arr 16) nat).
    rewrite lookup_singleton_eq. cbv zeta. cbn -[delete hash_iter]. rewrite bool_decide_false by done.
    unfold constant, RequestTracker.poll_timeouts. cbv zeta. cbn -[delete hash_iter]. rewrite delete_singleton_eq, hash_iter_empty. cbn. eexists. by split. }
  destruct Hrec as (rc & Hrc & Hst & Hre). destruct n as [i h rt rs ro]. cbn -[RequestTracker.poll_timeouts RequestTracker.record_response]
    in *. unfold constant. rewrite Hrc, Hst, Hre. cbn [ok_or mbind result_bind]. by rewrite Hdec.
Qed.

(** The round in which the time is up. *)
Lemma await_expiry timeout rounds n id sent_at r : at_rest n ->
  RnsNodeRouter.request_tracker n = one_request id sent_at timeout ->
  round_in_events r = [] -> round_out_events r = [] ->
  timeout <= sat_sub (round_now r) sent_at \/ timeout <= round_waited r ->
  Remote.await_response timeout 0 (r :: rounds) n = Some (Err (Fails RemoteFailed)) \/
  Remote.await_response timeout 0 (r :: rounds) n = Some (Err (Fails RemoteTimedOut)).
Proof.
  intros Hr Hq Hin Hout Hup. cbn [Remote.await_response]. rewrite Hin, Hout, (quiet_round _ _ _ _ id sent_at timeout) by done.
  destruct (Z.ltb_spec (sat_sub (round_now r) sent_at) timeout) as [Hlt|Hge].
  - rewrite one_request_early by done. right. destruct n. cbn. unfold constant. by rewrite (proj2 (Z.leb_le _ _)) by lia.
  - left. pose proof (one_request_late id sent_at timeout (round_now r) Hge) as Hf.
    destruct n as [i h rt rs ro]. cbn -[RequestTracker.poll_timeouts] in *. unfold constant.
    destruct (RequestTracker.receipts _ !! 0%nat) as [rc|]; [|done]. injection Hf as ->. done.
Qed.

End Waiting.

(** C28. A request to a remote daemon always ends.  The program registers the
    request, sends it and polls.  If, after any number of rounds in which
    nothing arrives, the response to the request's identifier arrives over a
    link, the program returns the data of the response; if instead the time runs
    out, it reports that the request failed or timed out.  It never waits on. *)
Theorem remote_request_concludes `{Features} `{IdentityCrypto} `{Msgpack} `{!MsgpackLaws} `{Rmp} `{HashIter}
  (identity : PrivateIdentity.t) (remote path : string) (data : Value) (timeout now_ms sent_at : Z)
  (ivs : nat -> AddressHash -> arr 16) (rounds rest : list Round) (r : Round) (destination : arr 16) (payload : list byte)
  (Hdest : parse_destination_bytes remote = Ok destination)
  (Hpayload : encode_request_bytes (mkRequest (arr_zero 16) (f64_div (f64_of_Z now_ms) (f64_of_Z 1000))
                (request_path_hash path) data) = Ok payload)
  (Hfit : (length payload <= PACKET_MDU)%nat) (Hquiet : Forall (quiet sent_at timeout) rounds)
  (Hin : round_in_events r = []) :
  let id := request_id_for_destination destination payload in
  let result := Remote.remote_control_request identity remote path data timeout now_ms sent_at ivs (rounds ++ r :: rest) in
  (forall answer bytes link address peer,
     representable (VArray [Binary id; answer]) = true ->
     encode_response_bytes (mkResponse id answer) = Ok bytes -> (length bytes <= PACKET_MDU)%nat ->
     round_out_events r = [frame_event link address peer bytes Response] -> result = Some (Ok answer)) /\
  (round_out_events r = [] -> timeout <= sat_sub (round_now r) sent_at \/ timeout <= round_waited r ->
     result = Some (Err (Fails RemoteFailed)) \/ result = Some (Err (Fails RemoteTimedOut))).
Proof.
  intros id result.
  assert (Hawait : exists n, result = Remote.await_response timeout 0 (r :: rest) n /\ at_rest n /\
    RnsNodeRouter.request_tracker n = one_request id sent_at timeout).
  { subst result. unfold Remote.remote_control_request. rewrite Hdest. unfold RnsRequestManager.register_request. cbv zeta.
    change (default (arr_zero 16) (request_path_hash <$> Some path)) with (request_path_hash path). rewrite Hpayload.
    destruct (request_sent identity destination (mkRequest id (f64_div (f64_of_Z now_ms) (f64_of_Z 1000))
      (request_path_hash path) data) payload timeout ivs sent_at Hpayload Hfit) as (req' & n & outs & Hs & Hr & Hq).
    fold id. rewrite Hs. destruct (await_quiet timeout rounds (r :: rest) n id sent_at Hr Hq Hquiet) as (n' & -> & Hn').
    by exists n'. }
  destruct Hawait as (n & -> & Hr & Hq). split.
  - intros answer bytes link address peer Hrep Henc Hlen Hout. eapply await_answer; try done.
    revert Henc. unfold encode_response_bytes, decode_response_bytes. cbn [resp_request_id resp_data]. intros Hw.
    destruct (rns_write_read _ Hrep) as (bs & Hw' & Hrd). rewrite Hw in Hw'. injection Hw' as <-.
    specialize (Hrd []). rewrite app_nil_r in Hrd. rewrite Hrd. cbn [mbind result_bind].
    by rewrite value_to_fixed_bytes_arr.
  - intros Hout Hup. by eapply await_expiry.
Qed.

(** * Packets between daemons *)

Section Unheard.
Context `{F : Features} `{IC : IdentityCrypto} `{M : Msgpack} `{R : Rmp} `{HI : HashIter}.

Lemma payload_packet_header h payload ty ctx p :
  packet_from_payload_hash_with_context h payload ty ctx = Ok p -> header p = data_header ty.
Proof.
  unfold packet_from_payload_hash_with_context. destruct (StaticBuffer.write _ _) as [b [n|e]]; [|done]. by intros [= <-].
Qed.

Lemma packet_or_resource_header dest payload m m' p :
  RnsOutbound.deliver_as_packet_or_resource dest payload Single m = (m', Ok (OutPacket p)) -> header p = data_header Single.
Proof.
  unfold RnsOutbound.deliver_as_packet_or_resource, packet_from_payload. destruct (Nat.leb _ _); [|done].
  destruct (packet_from_payload_hash_with_context _ _ _ _) as [q|e] eqn:E; [|done]. intros [= _ <-].
  by eapply payload_packet_header.
Qed.

(** Whatever the mode, a message in a packet is data for a single destination. *)
Lemma deliver_packet_header o draws mode m m' p :
  RnsOutbound.deliver o draws mode m = (m', Ok (OutPacket p)) -> header p = data_header Single.
Proof.
  unfold RnsOutbound.deliver, mbind, stres_bind, st_lift, st_modify, st_get, RnsOutbound.set_method.
  destruct (RnsOutbound.check_outbound _ _ _) as [[]|e]; cbn [map_err]; [|done].
  destruct (RnsOutbound.encode_for o draws _) as [m1 [packed|e]]; [|done]. destruct mode.
  - apply packet_or_resource_header.
  - apply packet_or_resource_header.
  - destruct (hook_encrypt _ _ _) as [enc|e]; [|done].
    unfold st_modify. cbv beta iota. destruct (LXMessage.propagation_packed_from_encrypted _ _ _ _) as [prop|e]; cbn [map_err]; [|done].
    apply packet_or_resource_header.
  - destruct (hook_encrypt _ _ _) as [enc|e]; [|done]. done.
Qed.

(** What tells the LXMF layer of something. *)
Definition posted (o : Output) : bool :=
  match o with InLinkEvent _ | OutLinkEvent _ | Announced _ _ => true | ToIface _ _ | Received_ _ => false end.

Lemma iface_send_posts_nothing message ifs : filter (fun o => posted o = true) (Transport.iface_send message ifs) = [].
Proof.
  unfold Transport.iface_send. induction (filter _ ifs) as [|i l IH]; [done|]. cbn [map].
  by rewrite filter_cons_False.
Qed.

Lemma single_data_unheard rtt_bytes secret ivs now addr p h : header p = data_header Single ->
  exists h' outs, Transport.receive rtt_bytes secret ivs now (mkRx addr p) h = Ok (h', outs) /\
    filter (fun o => posted o = true) outs = [] /\
    in_links h' = in_links h /\ out_links h' = out_links h /\
    single_in_destinations h' = single_in_destinations h /\ single_out_destinations h' = single_out_destinations h.
Proof.
  intros Hp. unfold Transport.receive. cbv zeta. cbn [rx_packet rx_address].
  destruct (if broadcast h then _ else _) as [h1 outs1] eqn:Hs. unfold Transport.handle_data. rewrite Hp. cbn [packet_type data_header].
  change (destination_type (data_header Single)) with Single. rewrite bool_decide_false by done. cbn [mbind result_bind].
  eexists _, _. split; [reflexivity|]. rewrite filter_cons_False, app_nil_r by done.
  destruct (broadcast h); injection Hs as <- <-; [rewrite iface_send_posts_nothing; by destruct h|done].
Qed.

End Unheard.


#[local] Existing Instance toy_features.
#[local] Existing Instance toy_crypto.
#[local] Existing Instance toy_identity.
#[local] Existing Instance bit_codec.
#[local] Existing Instance bit_codec_laws.
#[local] Existing Instance key_order.
#[local] Existing Instance toy_rmp.

Definition sample_remote : arr 16 := arr_of 16 (replicate 16 x0a).
Definition sample_remote_text : string := string_of_bytes (AddressHash.to_hex_string sample_remote).
Definition sample_request : RnsRequest :=
  mkRequest (arr_zero 16) (f64_div (f64_of_Z 1000) (f64_of_Z 1000)) (request_path_hash Remote.CONTROL_STATS_PATH) Nil.
Definition sample_payload : list byte := match encode_request_bytes sample_request with Ok p => p | Err _ => [] end.
Definition sample_id : arr 16 := request_id_for_destination sample_remote sample_payload.
Definition sample_answer : list byte :=
  match encode_response_bytes (mkResponse sample_id (Boolean true)) with Ok p => p | Err _ => [] end.
Definition sample_round (waited : Z) (events : list LinkEventData) : Round :=
  mkRound waited waited [] events (fun _ _ _ => arr_zero 16) (fun _ _ => arr_zero 16).

Lemma remote_request_concludes_witness :
  Remote.remote_control_request (PrivateIdentity.new (arr_zero 32) (toy_secret x02)) sample_remote_text
    Remote.CONTROL_STATS_PATH Nil 5000 1000 0 (fun _ _ => arr_zero 16)
    ([sample_round 50 []] ++ [sample_round 100 [frame_event (arr_zero 16) (arr_zero 16) None sample_answer Response]]) =
  Some (Ok (Boolean true)).
Proof.
  refine (proj1 (remote_request_concludes (PrivateIdentity.new (arr_zero 32) (toy_secret x02)) sample_remote_text
    Remote.CONTROL_STATS_PATH Nil 5000 1000 0 (fun _ _ => arr_zero 16) [sample_round 50 []] []
    (sample_round 100 [frame_event (arr_zero 16) (arr_zero 16) None sample_answer Response]) sample_remote sample_payload
    _ _ _ _ _) (Boolean true) sample_answer (arr_zero 16) (arr_zero 16) None _ _ _ _).
  all: try (vm_compute; reflexivity).
  - apply Nat.leb_le. vm_compute. reflexivity.
  - repeat constructor.
  - apply Nat.leb_le. vm_compute. reflexivity.
Defined.

