(* ===== verification/Status.v ===== *)
(** The status report of [lxmd-rs/src/main.rs] ([--status], [--peers]): the text
    made from the statistics of a node, its own or those a remote one answered
    with.  [{:.2}] of a double and [{:?}] of a value are parameters. *)

From Stdlib Require Import ZArith Lia.
From Stdlib Require Import Strings.Byte.
From stdpp Require Import base gmap strings pretty numbers list.
From S2P Require Import Prelude Float Msgpack Crypto Buffer Packet Identity Destination Link Stamp Message Rns.
From S2P Require Import Delivery Requests PnDirectory PropStore Peer PeerCodec StorageCodec StorageTables MessageStore.
From S2P Require Import PropDisk Links Tickets Outbound Runtime Messaging Router Propagation Peering.

Local Open Scope Z_scope.

Class F64Fixed : Type := f64_fixed2 : f64 -> string.
Class ValueDebug : Type := value_debug : Value -> string.

Module Status.

(** * Reading a value *)

Definition key_is (key : string) (k : Value) : bool :=
  match k with
  | VString s => utf8_string s && String.eqb s key
  | Binary b => utf8_valid b && String.eqb (string_of_bytes b) key
  | _ => false
  end.

Fixpoint extract_map_value (map : list (Value * Value)) (key : string) : option Value :=
  match map with
  | [] => None
  | (k, v) :: map => if key_is key k then Some v else extract_map_value map key
  end.

Definition value_as_f64 (v : Value) : option f64 :=
  match v with
  | F64 x => Some x
  | F32 x => Some (f64_of_f32 x)
  | Integer i => f64_of_Z <$> integer_as_i64 i
  | _ => None
  end.

Definition value_as_bool (v : Value) : option bool := match v with Boolean b => Some b | _ => None end.

(** [extract_map_value(map, key).and_then(read).unwrap_or(or_else)] *)
Definition field {A} (map : list (Value * Value)) (key : string) (read : Value -> option A) (or_else : A) : A :=
  default or_else (extract_map_value map key ≫= read).

(** * Formatting *)

Definition nl : string := String (Ascii.ascii_of_nat 10) "".

Definition pretty_hex (bytes : list byte) : string := hex_encode bytes.

Definition size_units : list string := ["B"; "KB"; "MB"; "GB"; "TB"].

(** The loop over the units: the size in the unit, and which unit it is. *)
Fixpoint scale_size (size : f64) (idx : nat) (units : list string) : f64 * nat :=
  match units with
  | _ :: (_ :: _) as units =>
      if f64_leb (f64_of_Z 1000) size then scale_size (f64_div size (f64_of_Z 1000)) (S idx) units else (size, idx)
  | _ => (size, idx)
  end.

Definition prettytime (seconds : f64) : string :=
  let secs := f64_to_u64 (f64_max seconds f64_zero) in
  let days := secs / 86400 in
  let secs := secs mod 86400 in
  let hours := secs / 3600 in
  let secs := secs mod 3600 in
  let mins := secs / 60 in
  let secs := secs mod 60 in
  if 0 <? days then pretty days +:+ "d " +:+ pretty hours +:+ "h"
  else if 0 <? hours then pretty hours +:+ "h " +:+ pretty mins +:+ "m"
  else if 0 <? mins then pretty mins +:+ "m " +:+ pretty secs +:+ "s"
  else pretty secs +:+ "s".

Section Report.
Context `{FX : F64Fixed} `{VD : ValueDebug}.

Definition prettysize (bytes : f64) : string :=
  let '(size, idx) := scale_size bytes 0 size_units in
  let unit := default "" (size_units !! idx) in
  if Nat.eqb idx 0 then pretty (f64_to_u64 size) +:+ " " +:+ unit else f64_fixed2 size +:+ " " +:+ unit.

Definition kilobytes (x : f64) : string := prettysize (f64_mul x (f64_of_Z 1000)).

(** The message store. *)
Definition store_text (map : list (Value * Value)) : string :=
  match extract_map_value map "messagestore" with
  | Some (VMap store) =>
      let bytes := field store "bytes" value_as_f64 f64_zero in
      let limit := field store "limit" value_as_f64 f64_zero in
      let util := if f64_ltb f64_zero limit then f64_mul (f64_div bytes limit) (f64_of_Z 100) else f64_zero in
      "Messagestore contains " +:+ pretty (field store "count" value_as_i64 0) +:+ " messages, " +:+ prettysize bytes
        +:+ " (" +:+ f64_fixed2 util +:+ "% utilised of " +:+ prettysize limit +:+ ")" +:+ nl
  | _ => ""
  end.

(** A counter of the clients' part. *)
Definition client_count (map : list (Value * Value)) (key : string) : Z :=
  field map "clients" (fun v => match v with VMap m => extract_map_value m key ≫= value_as_i64 | _ => None end) 0.

Definition rules_text (map : list (Value * Value)) : string :=
  "Required propagation stamp cost is " +:+ pretty (field map "target_stamp_cost" value_as_i64 0)
    +:+ ", flexibility is " +:+ pretty (field map "stamp_cost_flexibility" value_as_i64 0) +:+ nl
    +:+ "Peering cost is " +:+ pretty (field map "peering_cost" value_as_i64 0)
    +:+ ", max remote peering cost is " +:+ pretty (field map "max_peering_cost" value_as_i64 0) +:+ nl
    +:+ "Accepting propagated messages from "
    +:+ (if field map "from_static_only" value_as_bool false then "static peers only" else "all nodes") +:+ nl
    +:+ kilobytes (field map "propagation_limit" value_as_f64 f64_zero) +:+ " message limit, "
    +:+ kilobytes (field map "sync_limit" value_as_f64 f64_zero) +:+ " sync limit" +:+ nl +:+ nl.

Definition peers_text (map : list (Value * Value)) : string :=
  "Peers   : " +:+ pretty (field map "total_peers" value_as_i64 0) +:+ " total (peer limit is "
    +:+ pretty (field map "max_peers" value_as_i64 0) +:+ ")" +:+ nl
    +:+ "          " +:+ pretty (field map "discovered_peers" value_as_i64 0) +:+ " discovered, "
    +:+ pretty (field map "static_peers" value_as_i64 0) +:+ " static" +:+ nl +:+ nl.

Definition traffic_text (map : list (Value * Value)) : string :=
  let unpeered := field map "unpeered_propagation_incoming" value_as_i64 0 in
  let rx := field map "unpeered_propagation_rx_bytes" value_as_f64 f64_zero in
  let received := client_count map "client_propagation_messages_received" in
  "Traffic : " +:+ pretty (as_i64 (unpeered + received)) +:+ " messages received in total (" +:+ prettysize rx +:+ ")" +:+ nl
    +:+ "          " +:+ pretty unpeered +:+ " messages received from unpeered nodes (" +:+ prettysize rx +:+ ")" +:+ nl
    +:+ "          " +:+ pretty received +:+ " propagation messages received directly from clients" +:+ nl
    +:+ "          " +:+ pretty (client_count map "client_propagation_messages_served")
    +:+ " propagation messages served to clients" +:+ nl +:+ nl.

(** A number, or the text when there is none. *)
Definition number_or (map : list (Value * Value)) (key text : string) : string :=
  default text (pretty <$> (extract_map_value map key ≫= value_as_i64)).

Definition hops_text (hops : Z) : string :=
  if hops <? 0 then "hops unknown" else if hops =? 1 then "1 hop away" else pretty hops +:+ " hops away".

Definition key_text (v : option Value) : string :=
  match v with
  | None | Some Nil => "Not generated"
  | Some (Binary bytes) => "Generated, value is " +:+ pretty_hex bytes
  | Some _ => "unknown"
  end.

Definition peer_text (now_s : f64) (id_hex : string) (map : list (Value * Value)) : string :=
  let counts := match extract_map_value map "messages" with Some (VMap m) => m | _ => [] end in
  let last_sync := field map "last_sync_attempt" value_as_f64 f64_zero in
  let age x := prettytime (f64_max (f64_sub now_s x) f64_zero) in
  "  " +:+ default "unknown" (extract_map_value map "type" ≫= value_as_str) +:+ " peer     " +:+ id_hex +:+ nl
    +:+ "    Status     : " +:+ (if field map "alive" value_as_bool false then "Available" else "Unreachable") +:+ ", "
    +:+ hops_text (field map "network_distance" value_as_i64 (-1)) +:+ ", last heard "
    +:+ age (field map "last_heard" value_as_f64 f64_zero) +:+ " ago" +:+ nl
    +:+ "    Costs      : Propagation " +:+ number_or map "target_stamp_cost" "unknown" +:+ " (flex "
    +:+ number_or map "stamp_cost_flexibility" "unknown" +:+ "), peering " +:+ number_or map "peering_cost" "unknown" +:+ nl
    +:+ "    Sync key   : " +:+ key_text (extract_map_value map "peering_key") +:+ nl
    +:+ "    Limits     : "
    +:+ default "Unknown" (kilobytes <$> (extract_map_value map "transfer_limit" ≫= value_as_f64)) +:+ " message limit, "
    +:+ default "unknown" (kilobytes <$> (extract_map_value map "sync_limit" ≫= value_as_f64)) +:+ " sync limit" +:+ nl
    +:+ "    Messages   : " +:+ pretty (field counts "offered" value_as_i64 0) +:+ " offered, "
    +:+ pretty (field counts "outgoing" value_as_i64 0) +:+ " outgoing, "
    +:+ pretty (field counts "incoming" value_as_i64 0) +:+ " incoming, "
    +:+ f64_fixed2 (f64_mul (field map "acceptance_rate" value_as_f64 f64_zero) (f64_of_Z 100)) +:+ "% acceptance rate" +:+ nl
    +:+ "    Sync state : " +:+ pretty (field counts "unhandled" value_as_i64 0) +:+ " unhandled message(s), "
    +:+ (if f64_leb last_sync f64_zero then "never synced" else "last synced " +:+ age last_sync +:+ " ago") +:+ nl +:+ nl.

Definition peer_entry (now_s : f64) (entry : Value * Value) : string :=
  match entry.2 with
  | VMap map => peer_text now_s (match entry.1 with Binary bytes => pretty_hex bytes | _ => "unknown" end) map
  | _ => ""
  end.

(** [now_s] is the clock in seconds. *)
Definition format_stats_output (now_s : f64) (stats : Value) (show_status show_peers : bool) : string :=
  match stats with
  | VMap map =>
      nl +:+ "LXMF Propagation Node running on "
        +:+ field map "destination_hash" (fun v => match v with Binary bytes => Some (pretty_hex bytes) | _ => None end) "unknown"
        +:+ ", uptime is " +:+ prettytime (field map "uptime" value_as_f64 f64_zero) +:+ nl
        +:+ (if show_status then store_text map +:+ rules_text map +:+ peers_text map +:+ traffic_text map else "")
        +:+ (if show_peers then
               match extract_map_value map "peers" with
               | Some (VMap peers) => foldr (fun e text => peer_entry now_s e +:+ text) "" peers
               | _ => ""
               end
             else "")
  | _ => "stats: " +:+ value_debug stats +:+ nl
  end.

Section Node.
Context `{F : Features} `{IC : IdentityCrypto} `{M : Msgpack} `{D : F64Display} `{P : F64Parse} `{HI : HashIter}.
Context {S : Type} `{MS : MessageStore S}.
Definition format_status (now_s : f64) (x : Router.t S) (now_ms : Z) (show_status show_peers : bool) : string :=
  format_stats_output now_s (Router.compile_stats now_ms x) show_status show_peers.
End Node.

End Report.
End Status.

(** * The report is about the node *)

Section Exact.
Context `{FX : F64Fixed} `{VD : ValueDebug}.
Context `{F : Features} `{IC : IdentityCrypto} `{M : Msgpack} `{D : F64Display} `{P : F64Parse} `{HI : HashIter}.
Context {S : Type} `{MS : MessageStore S}.
Import Router Status.
Implicit Types x : Router.t S.

(** What the text should say, from the node's own fields. *)

Definition stamp_rule_of x : PropagationValidation :=
  default (mkPropagationValidation DEFAULT_PROPAGATION_STAMP_COST DEFAULT_PROPAGATION_STAMP_FLEX) (propagation_validation x).
Definition peering_cost_of x : Z :=
  match peering_validation x with Some v => pv_target_cost v | None => DEFAULT_PEERING_COST end.
Definition stored_messages x : Z := Z.of_nat (size (PropagationStore.entries (propagation_store x))).
Definition stored_bytes x : Z := Z.of_nat (PropagationStore.total_size_bytes (propagation_store x)).
Definition store_limit x : Z := default 0 (propagation_store_limit_bytes x).

Definition report_store x : string :=
  let used := f64_of_Z (stored_bytes x) in
  let limit := f64_of_Z (store_limit x) in
  "Messagestore contains " +:+ pretty (stored_messages x) +:+ " messages, " +:+ prettysize used +:+ " ("
    +:+ f64_fixed2 (if f64_ltb f64_zero limit then f64_mul (f64_div used limit) (f64_of_Z 100) else f64_zero)
    +:+ "% utilised of " +:+ prettysize limit +:+ ")" +:+ nl.

Definition report_rules x : string :=
  "Required propagation stamp cost is " +:+ pretty (prop_stamp_cost (stamp_rule_of x))
    +:+ ", flexibility is " +:+ pretty (prop_stamp_cost_flex (stamp_rule_of x)) +:+ nl
    +:+ "Peering cost is " +:+ pretty (peering_cost_of x)
    +:+ ", max remote peering cost is " +:+ pretty (max_peering_cost x) +:+ nl
    +:+ "Accepting propagated messages from "
    +:+ (if from_static_only x then "static peers only" else "all nodes") +:+ nl
    +:+ kilobytes (propagation_transfer_limit_kb x) +:+ " message limit, "
    +:+ kilobytes (propagation_sync_limit_kb x) +:+ " sync limit" +:+ nl +:+ nl.

Definition report_peers x : string :=
  let total := Z.of_nat (size (peers x)) in
  let static := Z.of_nat (size (static_peers x)) in
  "Peers   : " +:+ pretty total +:+ " total (peer limit is " +:+ pretty (default 0 (max_peers x)) +:+ ")" +:+ nl
    +:+ "          " +:+ pretty (Z.max (total - static) 0) +:+ " discovered, " +:+ pretty static +:+ " static" +:+ nl +:+ nl.

Definition report_traffic x : string :=
  let s := node_stats x in
  let rx := prettysize (f64_of_Z (unpeered_propagation_rx_bytes s)) in
  "Traffic : " +:+ pretty (unpeered_propagation_incoming s + client_propagation_messages_received s)
    +:+ " messages received in total (" +:+ rx +:+ ")" +:+ nl
    +:+ "          " +:+ pretty (unpeered_propagation_incoming s) +:+ " messages received from unpeered nodes (" +:+ rx +:+ ")" +:+ nl
    +:+ "          " +:+ pretty (client_propagation_messages_received s)
    +:+ " propagation messages received directly from clients" +:+ nl
    +:+ "          " +:+ pretty (client_propagation_messages_served s) +:+ " propagation messages served to clients" +:+ nl +:+ nl.

Definition report_peer (now_s : f64) x (id : arr 16) (p : Peer) : string :=
  let age ms := prettytime (f64_max (f64_sub now_s (f64_of_Z (ms / 1000))) f64_zero) in
  "  " +:+ (if bool_decide (id ∈ static_peers x) then "static" else "discovered") +:+ " peer     " +:+ hex_encode id +:+ nl
    +:+ "    Status     : " +:+ (if bool_decide (p_state p = Backoff) then "Unreachable" else "Available")
    +:+ ", hops unknown, last heard " +:+ age (last_heard_ms p) +:+ " ago" +:+ nl
    +:+ "    Costs      : Propagation " +:+ pretty (prop_stamp_cost (stamp_rule_of x)) +:+ " (flex "
    +:+ pretty (prop_stamp_cost_flex (stamp_rule_of x)) +:+ "), peering " +:+ pretty (peering_cost_of x) +:+ nl
    +:+ "    Sync key   : " +:+ match Peer.peering_key p with
                               | Some key => "Generated, value is " +:+ hex_encode key
                               | None => "Not generated"
                               end +:+ nl
    +:+ "    Limits     : " +:+ kilobytes (propagation_transfer_limit_kb x) +:+ " message limit, "
    +:+ kilobytes (propagation_sync_limit_kb x) +:+ " sync limit" +:+ nl
    +:+ "    Messages   : " +:+ pretty (messages_offered p) +:+ " offered, " +:+ pretty (messages_outgoing p) +:+ " outgoing, "
    +:+ pretty (messages_incoming p) +:+ " incoming, "
    +:+ f64_fixed2 (f64_mul (if 0 <? messages_offered p then
                               f64_div (f64_of_Z (messages_incoming p)) (f64_of_Z (messages_offered p)) else f64_zero)
                      (f64_of_Z 100)) +:+ "% acceptance rate" +:+ nl
    +:+ "    Sync state : " +:+ pretty (messages_unhandled p) +:+ " unhandled message(s), "
    +:+ (if f64_leb (f64_of_Z (last_attempt_ms p / 1000)) f64_zero then "never synced" else "last synced " +:+ age (last_attempt_ms p) +:+ " ago") +:+ nl +:+ nl.

Definition report (now_s : f64) (now_ms : Z) x (show_status show_peers : bool) : string :=
  nl +:+ "LXMF Propagation Node running on " +:+ hex_encode (local_identity_hash (LxmfRuntime.router (runtime x)))
    +:+ ", uptime is "
    +:+ prettytime (f64_div (f64_of_Z (sat_add64 (sat_sub now_ms (propagation_started_ms x)) 1)) (f64_of_Z 1000)) +:+ nl
    +:+ (if show_status then report_store x +:+ report_rules x +:+ report_peers x +:+ report_traffic x else "")
    +:+ (if show_peers then foldr (fun kv text => report_peer now_s x kv.1 kv.2 +:+ text) "" (hash_iter (peers x)) else "").

(** The numbers of a node that fit a signed 64-bit integer. *)
Definition small (z : Z) : Prop := 0 <= z < 2 ^ 63.

Record countable_node x : Prop := {
  cn_rule : small (prop_stamp_cost (stamp_rule_of x)) /\ small (prop_stamp_cost_flex (stamp_rule_of x));
  cn_peering : small (peering_cost_of x) /\ small (max_peering_cost x);
  cn_store : small (stored_messages x) /\ small (stored_bytes x) /\ small (store_limit x);
  cn_peers : small (Z.of_nat (size (peers x))) /\ small (Z.of_nat (size (static_peers x))) /\ small (default 0 (max_peers x));
  cn_traffic : small (unpeered_propagation_incoming (node_stats x) + client_propagation_messages_received (node_stats x)) /\
    small (unpeered_propagation_incoming (node_stats x)) /\ small (unpeered_propagation_rx_bytes (node_stats x)) /\
    small (client_propagation_messages_received (node_stats x)) /\ small (client_propagation_messages_served (node_stats x));
  cn_each : map_Forall (fun _ p => small (messages_offered p) /\ small (messages_outgoing p) /\ small (messages_incoming p) /\
    small (messages_unhandled p) /\ small (last_heard_ms p) /\ small (last_attempt_ms p)) (peers x)
}.

Lemma extract_hit key v map : utf8_string key = true -> extract_map_value ((VString key, v) :: map) key = Some v.
Proof. intros H. cbn. by rewrite H, String.eqb_refl. Qed.

Lemma extract_miss s key v map : String.eqb s key = false ->
  extract_map_value ((VString s, v) :: map) key = extract_map_value map key.
Proof. intros H. cbn. by rewrite H, andb_false_r. Qed.

Lemma as_i64_of z : small z -> value_as_i64 (Integer (as_i64 z)) = Some z.
Proof. intros H. rewrite as_i64_small by done. apply value_as_i64_int. unfold small, is_i64 in *. lia. Qed.

Lemma i64_of z : small z -> value_as_i64 (Integer z) = Some z.
Proof. intros H. apply value_as_i64_int. unfold small, is_i64 in *. lia. Qed.

Lemma f64_of_i64 z : small z -> value_as_f64 (Integer (as_i64 z)) = Some (f64_of_Z z).
Proof. intros H. rewrite as_i64_small by done. unfold value_as_f64, integer_as_i64. by assert (is_i64 z = true) as -> by (unfold small, is_i64 in *; lia). Qed.

Lemma seconds_of z : small z -> value_as_f64 (Integer (Z.quot (as_i64 z) 1000)) = Some (f64_of_Z (z / 1000)).
Proof.
  intros H. rewrite as_i64_small, Z.quot_div_nonneg by (unfold small in H; lia).
  unfold value_as_f64, integer_as_i64. unfold small in H.
  pose proof (Z.div_pos z 1000 ltac:(lia) ltac:(lia)). pose proof (Z.div_le_upper_bound z 1000 z ltac:(lia) ltac:(lia)).
  by assert (is_i64 (z / 1000) = true) as -> by (unfold is_i64; lia).
Qed.

Lemma f64_of_f64 y : value_as_f64 (F64 y) = Some y.
Proof. done. Qed.

(** Look the fields of the statistics up. *)
Ltac look_up :=
  unfold client_count, field, number_or;
  repeat (
    progress (repeat first [rewrite extract_hit by reflexivity | rewrite extract_miss by reflexivity | rewrite f64_of_f64]);
    cbn [mbind option_bind default from_option fmap option_fmap option_map value_as_bool id]).

Lemma store_text_exact now_ms x map : countable_node x -> compile_stats now_ms x = VMap map -> store_text map = report_store x.
Proof.
  intros Hx [= <-]. unfold store_text, report_store. look_up. destruct (cn_store _ Hx) as (H1 & H2 & H3).
  by rewrite as_i64_of, !f64_of_i64 by done.
Qed.

Lemma rules_text_exact now_ms x map : countable_node x -> compile_stats now_ms x = VMap map -> rules_text map = report_rules x.
Proof.
  intros Hx [= <-]. unfold rules_text, report_rules. look_up.
  destruct (cn_rule _ Hx) as [H1 H2], (cn_peering _ Hx) as [H3 H4]. by rewrite !i64_of by done.
Qed.

Lemma max_peers_read o : small (default 0 o) -> default 0 (value_as_i64 match o with Some n => Integer n | None => Nil end) = default 0 o.
Proof. destruct o as [n|]; [|done]. intros H. by rewrite i64_of. Qed.

Lemma peers_text_exact now_ms x map : countable_node x -> compile_stats now_ms x = VMap map -> peers_text map = report_peers x.
Proof.
  intros Hx [= <-]. unfold peers_text, report_peers. look_up. destruct (cn_peers _ Hx) as (H1 & H2 & H3).
  rewrite max_peers_read, !as_i64_of by (unfold small, sat_sub in *; lia || done). done.
Qed.

Lemma traffic_text_exact now_ms x map : countable_node x -> compile_stats now_ms x = VMap map ->
  traffic_text map = report_traffic x.
Proof.
  intros Hx [= <-]. unfold traffic_text, report_traffic. look_up.
  destruct (cn_traffic _ Hx) as (H1 & H2 & H3 & H4 & H5). rewrite !as_i64_of, f64_of_i64 by done.
  cbn [default from_option id]. by rewrite (as_i64_small (_ + _)) by done.
Qed.

Lemma peer_text_exact now_s x i p map : countable_node x -> peers x !! i = Some p -> peer_stats x i p = VMap map ->
  peer_text now_s (hex_encode i) map = report_peer now_s x i p.
Proof.
  intros Hx Hp [= <-]. unfold peer_text, report_peer. look_up.
  destruct (cn_each _ Hx _ _ Hp) as (H1 & H2 & H3 & H4 & H5 & H6).
  destruct (cn_rule _ Hx) as [R1 R2], (cn_peering _ Hx) as [R3 R4].
  change (value_as_i64 (Integer (-1))) with (Some (-1)). rewrite !as_i64_of, !seconds_of, !i64_of by done. cbn [default from_option id fmap option_fmap option_map].
  destruct (bool_decide (i ∈ static_peers x)), (bool_decide (p_state p = Backoff)), (Peer.peering_key p); reflexivity.
Qed.

Lemma entries_exact now_s x (l : list (arr 16 * Peer)) : countable_node x ->
  (forall kv, kv ∈ l -> peers x !! kv.1 = Some kv.2) ->
  foldr (fun e text => peer_entry now_s e +:+ text) "" (map (fun kv => (Binary (arr_list kv.1), peer_stats x kv.1 kv.2)) l) =
  foldr (fun kv text => report_peer now_s x kv.1 kv.2 +:+ text) "" l.
Proof.
  intros Hx. induction l as [|[id p] l IH]; intros Hl; [done|]. cbn [map foldr].
  rewrite IH by (intros kv Hkv; apply Hl; by right). f_equal. unfold peer_entry. cbn [fst snd].
  specialize (Hl (id, p) ltac:(by left)). cbn [fst snd] in Hl.
  destruct (peer_stats x id p) as [| | | | | | | |map|] eqn:E; try discriminate E.
  by eapply peer_text_exact.
Qed.

End Exact.


#[local] Existing Instance toy_features.
#[local] Existing Instance toy_crypto.
#[local] Existing Instance toy_identity.
#[local] Existing Instance bit_codec.
#[local] Existing Instance key_order.
#[local] Existing Instance code_display.
#[local] Existing Instance code_parse.
#[local] Instance whole_part : F64Fixed := fun x => pretty (f64_to_u64 x).
#[local] Instance no_debug : ValueDebug := fun _ => "?".

