(* ===== verification/Main.v ===== *)
(** The whole of [lxmd-rs/src/main.rs]: what each use of the command line does,
    up to the loop of the daemon.

    A remote request waits in rounds, so that [main] is [None] while the rounds
    given are not enough.  The addresses of the sockets and the name of the node,
    which nothing here reads, are left out. *)

From Stdlib Require Import ZArith Lia Floats.SpecFloat.
From Stdlib Require Import Strings.Byte.
From stdpp Require Import base gmap strings pretty numbers relations list.
From S2P Require Import Prelude Float Msgpack Crypto Buffer Packet Resource ReqTracker Identity Destination Link Transport.
From S2P Require Import Stamp Message Rns Delivery Node Requests PnDirectory PropStore Peer PeerCodec StorageCodec.
From S2P Require Import StorageTables MessageStore PropDisk Links Tickets Outbound Runtime Messaging Router Propagation.
From S2P Require Import DaemonFiles Daemon Remote Status.

Local Open Scope Z_scope.

(** * Durations *)

(** [a / b] to the nearest integer, ties to the even one. *)
Definition div_nearest (a b : Z) : Z :=
  let q := a / b in
  match 2 * (a mod b) ?= b with
  | Lt => q
  | Gt => q + 1
  | Eq => if Z.even q then q else q + 1
  end.

(** [Duration::from_secs_f64], in nanoseconds; [None] where it panics. *)
Definition duration_from_secs_f64 (x : f64) : option Z :=
  match x with
  | S754_zero _ => Some 0
  | S754_finite false m e =>
      let nanos := if 0 <=? e then Zpos m * 10 ^ 9 * 2 ^ e else div_nearest (Zpos m * 10 ^ 9) (2 ^ (- e)) in
      if nanos <? 2 ^ 64 * 10 ^ 9 then Some nanos else None
  | _ => None
  end.

(** The clocks are read in whole milliseconds, so a duration has passed when as
    many milliseconds as cover it have. *)
Definition millis_up (nanos : Z) : Z := (nanos + 999999) / 1000000.

Module Main.

Inductive MainError : Type :=
| StartFailed (e : DaemonError)
| RemoteRequestFailed (e : RemoteError)
| BadPeer (e : IoError).

(** What a use of the program comes to. *)
Inductive Outcome `{IC : IdentityCrypto} : Type :=
| Printed (text : string)
| Starts (w : Lxmd.World) (tick_interval : Z) (d : Lxmd.t).

(** What the program is given from outside: the example configuration compiled
    into it, the home directory, what a new identity is drawn from, the encryptor,
    the storage directory at a path, the clocks, and the rounds of a remote
    request. *)
Record Env `{IC : IdentityCrypto} : Type := mkEnv {
  example : list byte;
  home : option string;
  secret : arr 32;
  sign_key : SigningKey;
  hook : EncryptHook;
  storage : Path -> FileMessageStore.t;
  created_ms : Z;
  built_ms : Z;
  now_ms : Z;
  now_s : f64;
  sent_at : Z;
  request_ivs : nat -> AddressHash -> arr 16;
  rounds : list Round;
  instant : nat -> Z;
  wall_ms : nat -> Z;
  call_ivs : nat -> nat -> AddressHash -> arr 16
}.

Section Main.
Context `{F : Features} `{IC : IdentityCrypto} `{M : Msgpack} `{R : Rmp} `{D : F64Display} `{P : F64Parse} `{HI : HashIter}.
Context `{TP : TomlParse} `{FX : F64Fixed} `{VD : ValueDebug}.
Variable env : Env.

Abbreviation answer := (option (result (fault MainError) Outcome)).

Definition timeout_of (args : Lxmd.Args.t) (or_else : Z) : result (fault MainError) Z :=
  match duration_from_secs_f64 (default (f64_of_Z or_else) (Lxmd.Args.timeout args)) with
  | Some nanos => Ok (millis_up nanos)
  | None => Err Panics
  end.

(** A remote request with its timeout, and what is printed of its answer. *)
Definition ask_remote (args : Lxmd.Args.t) (or_else : Z) (show : Value -> string)
    (request : Z -> Z -> Z -> (nat -> AddressHash -> arr 16) -> list Round -> option (result (fault RemoteError) Value)) :
    answer :=
  match timeout_of args or_else with
  | Err e => Some (Err e)
  | Ok timeout =>
      (fun r => Printed ∘ show <$> map_err (fault_map RemoteRequestFailed) r)
        <$> request timeout (now_ms env) (sent_at env) (request_ivs env) (rounds env)
  end.

Definition the_router (identity : PrivateIdentity.t) (config : DaemonConfig.t) (paths : ConfigPaths) :
    result (fault MainError) (Router.t FileMessageStore.t) :=
  match Lxmd.build_router (hook env) identity config (storage env (storage_dir paths)) (created_ms env) (built_ms env) with
  | Ok x => Ok x
  | Err _ => Err Panics
  end.

(** [--status] and [--peers] *)
Definition status_command (args : Lxmd.Args.t) (paths : ConfigPaths) (config : DaemonConfig.t) (identity : PrivateIdentity.t) :
    answer :=
  let show := Status.format_stats_output (now_s env) in
  match Lxmd.Args.remote args with
  | Some remote =>
      ask_remote args 5 (fun stats => show stats (Lxmd.Args.status args) (Lxmd.Args.peers args))
        (Remote.remote_stats identity remote)
  | None =>
      Some (router ← the_router identity config paths;
            Ok (Printed (Status.format_status (now_s env) router (now_ms env) (Lxmd.Args.status args) (Lxmd.Args.peers args))))
  end.

(** [--sync] and [--break]: the request to a remote node, or the operation on a
    router of the command's own. *)
Definition peer_command (args : Lxmd.Args.t) (path word done_text target : string)
    (op : arr 16 -> Router.t FileMessageStore.t -> Router.t FileMessageStore.t * bool)
    (paths : ConfigPaths) (config : DaemonConfig.t) (identity : PrivateIdentity.t) : answer :=
  match Lxmd.Args.remote args with
  | Some remote =>
      ask_remote args 10 (fun response => word +:+ " response: " +:+ value_debug response +:+ Status.nl)
        (Remote.remote_peer_control identity remote path target)
  | None =>
      Some (target_bytes ← map_err (fault_map BadPeer) (parse_destination_bytes target);
            router ← the_router identity config paths;
            Ok (Printed ((if (op target_bytes router).2 then done_text +:+ target
                          else "The requested peer was not found") +:+ Status.nl)))
  end.

(** The daemon proper. *)
Definition daemon_command (args : Lxmd.Args.t) (paths : ConfigPaths) (config : DaemonConfig.t)
    (identity : PrivateIdentity.t) (fs : Fs.t) : answer :=
  let node_router := RnsNodeRouter.new_udp identity in
  Some (router ← the_router identity config paths;
        router ← map_err (fun _ => Panics) (Lxmd.prepare args config (config_dir paths) (now_ms env) fs router);
        let on_inbound := match Lxmd.Args.on_inbound args with
                          | Some command => Some command
                          | None => DaemonConfig.lxmf config ≫= LxmfConfig.on_inbound
                          end in
        let tick_interval_ms := default Lxmd.DEFAULT_TICK_INTERVAL_MS (DaemonConfig.tick_interval_ms config) in
        Ok (Starts (Lxmd.mkWorld (instant env) (wall_ms env) (call_ivs env) (inbound_dir paths) on_inbound)
              (Z.max tick_interval_ms 1) (Lxmd.mk _ _ router node_router fs [] [] 0))).

Definition main (args : Lxmd.Args.t) (fs : Fs.t) : Fs.t * answer :=
  if Lxmd.Args.exampleconfig args then (fs, Some (Ok (Printed (string_of_bytes (example env)))))
  else
    match start_up (example env) (home env) (Lxmd.Args.config args) (Lxmd.Args.identity args) (secret env) (sign_key env) fs with
    | (fs, Err e) => (fs, Some (Err (fault_map StartFailed e)))
    | (fs, Ok (paths, config, identity)) =>
        (fs, if Lxmd.Args.status args || Lxmd.Args.peers args then status_command args paths config identity
             else match Lxmd.Args.sync args, Lxmd.Args.unpeer args with
                  | Some target, _ =>
                      peer_command args Remote.CONTROL_SYNC_PATH "sync" "Sync requested for peer " target
                        (fun id => Router.request_peer_sync id (now_ms env)) paths config identity
                  | None, Some target =>
                      peer_command args Remote.CONTROL_UNPEER_PATH "unpeer" "Broke peering with " target Router.unpeer
                        paths config identity
                  | None, None => daemon_command args paths config identity fs
                  end)
    end.

End Main.
End Main.

(** * From the command line to the loop *)

Section Whole.
Context `{F : Features} `{IC : IdentityCrypto} `{M : Msgpack} `{R : Rmp} `{D : F64Display} `{P : F64Parse} `{HI : HashIter}.
Context `{TP : TomlParse} `{FX : F64Fixed} `{VD : ValueDebug}.
Import Main.
Variable env : Env.

(** The configuration and the identity with which a use of the program works. *)
Definition starts_with (args : Lxmd.Args.t) (fs fs' : Fs.t) (paths : ConfigPaths) (config : DaemonConfig.t)
    (identity : PrivateIdentity.t) : Prop :=
  start_up (example env) (home env) (Lxmd.Args.config args) (Lxmd.Args.identity args) (secret env) (sign_key env) fs =
    (fs', Ok (paths, config, identity)).

Definition daemon_asked (args : Lxmd.Args.t) : Prop :=
  Lxmd.Args.exampleconfig args = false /\ Lxmd.Args.status args = false /\ Lxmd.Args.peers args = false /\
  Lxmd.Args.sync args = None /\ Lxmd.Args.unpeer args = None.

Lemma ask_remote_prints args or_else show request w tick d : ask_remote env args or_else show request <> Some (Ok (Starts w tick d)).
Proof.
  unfold ask_remote. destruct (timeout_of args or_else); [|done]. by destruct (request _ _ _ _ _) as [[]|].
Qed.

Lemma peer_command_prints args path word text target op paths config identity w tick d :
  peer_command env args path word text target op paths config identity <> Some (Ok (Starts w tick d)).
Proof.
  unfold peer_command. destruct (Lxmd.Args.remote args); [apply ask_remote_prints|].
  destruct (parse_destination_bytes target); [|done]. cbn [map_err mbind result_bind].
  by destruct (the_router env identity config paths).
Qed.

(** The loop starts only when nothing else was asked for. *)
Lemma main_starts args fs fs' w tick d : main env args fs = (fs', Some (Ok (Starts w tick d))) ->
  daemon_asked args /\ exists paths config identity, starts_with args fs fs' paths config identity /\
    daemon_command env args paths config identity fs' = Some (Ok (Starts w tick d)).
Proof.
  unfold main, daemon_asked, starts_with. destruct (Lxmd.Args.exampleconfig args); [done|].
  destruct (start_up _ _ _ _ _ _ fs) as [fs1 [[[paths config] identity]|e]]; [|done]. intros [= -> H].
  destruct (Lxmd.Args.status args), (Lxmd.Args.peers args); cbn [orb] in H.
  1-3: exfalso; revert H; unfold status_command; destruct (Lxmd.Args.remote args); [apply ask_remote_prints|];
    by destruct (the_router env identity config paths).
  destruct (Lxmd.Args.sync args); [by apply peer_command_prints in H|].
  destruct (Lxmd.Args.unpeer args); [by apply peer_command_prints in H|]. split; [done|]. by exists paths, config, identity.
Qed.

Lemma the_router_built identity config paths x : the_router env identity config paths = Ok x ->
  Lxmd.build_router (hook env) identity config (storage env (storage_dir paths)) (created_ms env) (built_ms env) = Ok x.
Proof. unfold the_router. destruct (Lxmd.build_router _ _ _ _ _ _); [|done]. by intros [= ->]. Qed.

Lemma daemon_command_starts args paths config identity fs w tick d :
  daemon_command env args paths config identity fs = Some (Ok (Starts w tick d)) ->
  exists built ready, the_router env identity config paths = Ok built /\
    Lxmd.prepare args config (config_dir paths) (now_ms env) fs built = Ok ready /\
    Lxmd.inbound_path w = inbound_dir paths /\ 1 <= tick /\
    d = Lxmd.mk _ _ ready (RnsNodeRouter.new_udp identity) fs [] [] 0.
Proof.
  unfold daemon_command. cbv zeta. destruct (the_router env identity config paths) as [built|e]; [|done].
  cbn [mbind result_bind]. destruct (Lxmd.prepare _ _ _ _ _ built) as [ready|e] eqn:E; cbn [map_err mbind result_bind]; [|done].
  intros [= <- <- <-]. exists built, ready. split_and!; try done. lia.
Qed.

Lemma fresh_router_empty identity config paths x : the_router env identity config paths = Ok x ->
  PropagationStore.entries (Router.propagation_store x) = ∅ /\ Router.peers x = ∅ /\
  LxmfRouter.persistence (Router.messaging x) = None.
Proof. intros (Hs & Hp & Hm & _)%the_router_built%build_effect. by rewrite Hs, Hp, Hm. Qed.

End Whole.

(** C7. The daemon from its command line.  The loop is entered only when no
    other use was asked for, with the configuration and identity of the start
    and the inbound directory they give; it then runs for any number of turns,
    in each of which its clock, its links and its draws do what they like.  If
    it has not panicked, every propagated message it holds is filed under its
    hash and carries a stamp good for the configured cost, and the next turn
    comes to an end: the loop never hangs. *)
Theorem daemon_sound `{Features} `{IdentityCrypto} `{Msgpack} `{Rmp} `{F64Display} `{F64Parse} `{HashIter} `{TomlParse}
  `{F64Fixed} `{ValueDebug} (env : Main.Env) (args : Lxmd.Args.t) (fs fs' : Fs.t) (w : Lxmd.World) (tick : Z)
  (d0 d : Lxmd.t) (turns : list Lxmd.Turn)
  (Hmain : Main.main env args fs = (fs', Some (Ok (Main.Starts w tick d0))))
  (Hrun : Lxmd.run w turns d0 = Some (Ok d)) :
  daemon_asked args /\ 1 <= tick /\
  exists paths config identity, starts_with env args fs fs' paths config identity /\
    Lxmd.inbound_path w = inbound_dir paths /\
    map_Forall (good_message (configured_cost config)) (PropagationStore.entries (Router.propagation_store (Lxmd.router d))) /\
    (is_u32 (max_attempts (RnsRouter.retry (LxmfRuntime.router (Router.runtime (Lxmd.router d))))) = true ->
     forall i, Lxmd.turn w i d <> None).
Proof.
  apply main_starts in Hmain as [Hasked (paths & config & identity & Hs & Hd)].
  apply daemon_command_starts in Hd as (built & ready & Hb & Hp & Hw & Ht & ->).
  apply the_router_built in Hb. destruct (started_sound w _ _ _ _ _ _ _ _ _ _ _ _ _ _ _ _ Hb Hp Hrun) as [Hgood Hends].
  split; [done|]. split; [done|]. by exists paths, config, identity.
Qed.

(** What the daemon forgets.  The router is built over the storage directory
    with [with_store], which reads the queue of outgoing messages and nothing
    else.  So whatever the directory holds, [--status] and [--peers] report on a
    node without propagated messages and without peers, and [--sync] and
    [--break] answer that the peer is not found, for every peer. *)
Theorem daemon_forgets `{Features} `{IdentityCrypto} `{Msgpack} `{Rmp} `{F64Display} `{F64Parse} `{HashIter} `{TomlParse}
  `{F64Fixed} `{ValueDebug} (env : Main.Env) (args : Lxmd.Args.t) (fs fs' : Fs.t) (paths : ConfigPaths)
  (config : DaemonConfig.t) (identity : PrivateIdentity.t) (x : Router.t FileMessageStore.t)
  (Hexample : Lxmd.Args.exampleconfig args = false) (Hlocal : Lxmd.Args.remote args = None)
  (Hstart : starts_with env args fs fs' paths config identity)
  (Hbuild : Main.the_router env identity config paths = Ok x) :
  PropagationStore.entries (Router.propagation_store x) = ∅ /\ Router.peers x = ∅ /\
  LxmfRouter.persistence (Router.messaging x) = None /\
  (Lxmd.Args.status args || Lxmd.Args.peers args = true -> Main.main env args fs = (fs', Some (Ok (Main.Printed
     (Status.format_status (Main.now_s env) x (Main.now_ms env) (Lxmd.Args.status args) (Lxmd.Args.peers args)))))) /\
  (Lxmd.Args.status args || Lxmd.Args.peers args = false ->
   forall target id, Lxmd.Args.sync args = Some target \/ Lxmd.Args.sync args = None /\ Lxmd.Args.unpeer args = Some target ->
     parse_destination_bytes target = Ok id ->
     Main.main env args fs = (fs', Some (Ok (Main.Printed ("The requested peer was not found" +:+ Status.nl))))).
Proof.
  destruct (fresh_router_empty _ _ _ _ _ Hbuild) as (Hs & Hp & Hm). split_and!; [done..| |];
    unfold Main.main; rewrite Hexample, Hstart; intros ->.
  - unfold Main.status_command. by rewrite Hlocal, Hbuild.
  - intros target id Ht Hid.
    assert (Hnot : forall path word text op, (op id x).2 = false ->
      Main.peer_command env args path word text target op paths config identity =
      Some (Ok (Main.Printed ("The requested peer was not found" +:+ Status.nl)))).
    { intros path word text op Hop. unfold Main.peer_command. rewrite Hlocal, Hid. cbn [map_err mbind result_bind].
      by rewrite Hbuild; cbn [mbind result_bind]; rewrite Hop. }
    destruct Ht as [->|[-> ->]]; rewrite Hnot; try done; unfold Router.request_peer_sync, Router.unpeer;
      by rewrite Hp, lookup_empty.
Qed.

(** * A daemon at work *)

#[local] Existing Instance toy_features.
#[local] Existing Instance toy_crypto.
#[local] Existing Instance toy_identity.
#[local] Existing Instance bit_codec.
#[local] Existing Instance key_order.
#[local] Existing Instance toy_rmp.
#[local] Existing Instance code_display.
#[local] Existing Instance code_parse.
#[local] Existing Instance sample_toml.
#[local] Existing Instance whole_part.
#[local] Existing Instance no_debug.

Definition sample_args (sync : option string) : Lxmd.Args.t :=
  Lxmd.Args.mk (Some (Path.of_string "/c")) None true None 0 0 false false false sync None None None None false.
Definition sample_env : Main.Env :=
  Main.mkEnv _ _ [x23] None (arr_zero 32) (toy_secret x05) NullEncryptor (fun _ => FileMessageStore.new) 1000 1000 1000 (f64_of_Z 1) 0
    (fun _ _ => arr_zero 16) [] (fun _ => 0) (fun _ => 1000) (fun _ _ _ => arr_zero 16).

Lemma daemon_sound_witness : exists w tick d0 d,
  (Main.main sample_env (sample_args None) empty_disk).2 = Some (Ok (Main.Starts w tick d0)) /\
  Lxmd.run w [sample_turn] d0 = Some (Ok d) /\ 1 <= tick.
Proof.
  assert (Hok : match (Main.main sample_env (sample_args None) empty_disk).2 with
                | Some (Ok (Main.Starts w _ d0)) => match Lxmd.run w [sample_turn] d0 with Some (Ok _) => true | _ => false end
                | _ => false
                end = true) by (vm_compute; reflexivity).
  destruct (Main.main sample_env (sample_args None) empty_disk) as [fs' [[[text|w tick d0]|e]|]] eqn:Em; try discriminate Hok.
  cbn [snd] in *. destruct (Lxmd.run w [sample_turn] d0) as [[d|e]|] eqn:Er; try discriminate Hok.
  exists w, tick, d0, d. split; [reflexivity|]. split; [exact Er|].
  exact (proj1 (proj2 (daemon_sound sample_env (sample_args None) empty_disk fs' w tick d0 d [sample_turn] Em Er))).
Defined.

Definition sample_peer_text : string := string_of_bytes (AddressHash.to_hex_string (arr_of 16 (replicate 16 x0a))).

Lemma daemon_forgets_witness :
  (Main.main sample_env (sample_args (Some sample_peer_text)) empty_disk).2 =
    Some (Ok (Main.Printed ("The requested peer was not found" +:+ Status.nl))).
Proof.
  assert (Hok : match start_up [x23] None (Some (Path.of_string "/c")) None (arr_zero 32) (toy_secret x05) empty_disk with
                | (_, Ok (paths, config, identity)) =>
                    match Main.the_router sample_env identity config paths with Ok _ => true | Err _ => false end
                | _ => false
                end = true) by (vm_compute; reflexivity).
  destruct (start_up [x23] None (Some (Path.of_string "/c")) None (arr_zero 32) (toy_secret x05) empty_disk)
    as [fs' [[[paths config] identity]|e]] eqn:Es; [|discriminate Hok].
  destruct (Main.the_router sample_env identity config paths) as [x|e] eqn:Eb; [|discriminate Hok].
  destruct (parse_destination_bytes sample_peer_text) as [id|e] eqn:Ei.
  - destruct (daemon_forgets sample_env (sample_args (Some sample_peer_text)) empty_disk fs' paths config identity x eq_refl
      eq_refl Es Eb) as (_ & _ & _ & _ & H).
    by rewrite (H eq_refl sample_peer_text id (or_introl eq_refl) Ei).
  - exfalso. assert (Hp : match parse_destination_bytes sample_peer_text with Ok _ => true | Err _ => false end = true)
      by (vm_compute; reflexivity). rewrite Ei in Hp. discriminate Hp.
Defined.
