(* ===== verification/Kaonic.v ===== *)
(** The radio interface, [reticulum-patched/src/iface/kaonic.rs] and
    [iface/kaonic/kaonic_grpc.rs]: packets as frames of 32-bit words, and the
    tasks around the client of the radio's gRPC service.

    The service is not part of the code: what it answers and streams are the
    events of the steps, with the messages of [proto/kaonic/kaonic.proto].
    [BUFFER_SIZE] is twice the size of a [Packet] in memory, a parameter as in
    [Iface]. *)

From Stdlib Require Import ZArith Lia.
From Stdlib Require Import Strings.Byte.
From stdpp Require Import base numbers relations list strings.
From coqutil Require Import Datatypes.RecordSetters.
From S2P Require Import Prelude Crypto Buffer Packet Iface Resource.
Import DoubleBraceUpdate.

(** * Messages of the service *)

Module proto.

Record RadioPhyConfigOfdm : Type := mkOfdm { mcs : Z; opt : Z }.

Record RadioPhyConfigFsk : Type := mkFsk {
  bt : Z; midxs : Z; midx : Z; mord : Z; preamble_length : Z; freq_inversion : bool; srate : Z; pdtm : Z; rxo : Z;
  rxpto : Z; mse : Z; preamble_inversion : bool; fecs : Z; fecie : bool; sfdt : Z; pdt : Z; sftq : bool; sfd32 : Z;
  rawbit : bool; csfd1 : Z; csfd0 : Z; sfd0 : Z; sfd1 : Z; sfd : Z; dw : Z; pe : bool; en : bool; fskpe0 : Z;
  fskpe1 : Z; fskpe2 : Z
}.

Inductive PhyConfig : Type := Ofdm (o : RadioPhyConfigOfdm) | Fsk (f : RadioPhyConfigFsk).

Record ConfigurationRequest : Type := mkConfig {
  cfg_module : Z;
  freq : Z;
  cfg_channel : Z;
  channel_spacing : Z;
  tx_power : Z;
  phy_config : option PhyConfig
}.

#[export] Instance ofdm_eq_dec : EqDecision RadioPhyConfigOfdm.
Proof. solve_decision. Defined.
#[export] Instance fsk_eq_dec : EqDecision RadioPhyConfigFsk.
Proof. solve_decision. Defined.
#[export] Instance phy_config_eq_dec : EqDecision PhyConfig.
Proof. solve_decision. Defined.
#[export] Instance radio_config_eq_dec : EqDecision ConfigurationRequest.
Proof. solve_decision. Defined.

Record RadioFrame : Type := mkFrame { fr_data : list Z; fr_length : Z }.

Record TransmitRequest : Type := mkTransmit { tr_module : Z; tr_frame : option RadioFrame }.

Record ReceiveResponse : Type := mkResponse { rs_module : Z; rs_frame : option RadioFrame; rssi : Z; latency : Z }.

(** [tonic::Code] *)
Inductive Code : Type :=
| COk | Cancelled | Unknown | CInvalidArgument | DeadlineExceeded | NotFound | AlreadyExists | PermissionDenied
| ResourceExhausted | FailedPrecondition | Aborted | OutOfRange | Unimplemented | Internal | Unavailable | DataLoss
| Unauthenticated.

End proto.
Import proto.

(** * The configuration of a radio *)

Inductive RadioModule : Type := RadioA | RadioB.

Definition module_as_i32 (m : RadioModule) : Z := match m with RadioA => 0%Z | RadioB => 1%Z end.

Definition RadioConfig : Type := ConfigurationRequest.

Definition new_for_module (m : RadioModule) : RadioConfig :=
  mkConfig (module_as_i32 m) 869535 11 200 10 (Some (Ofdm (mkOfdm 6 0))).

(** * Frames *)

Definition RADIO_FRAME_MAX_SIZE : nat := 2048.

Definition mtu : nat := 2048.

(** [for i in 0..chunk.len() { work |= (chunk[i] as u32) << (i * 8) }], from the
    [i]-th byte on. *)
Fixpoint pack (i : Z) (chunk : list byte) (work : Z) : Z :=
  match chunk with
  | [] => work
  | b :: chunk => pack (i + 1) chunk (Z.lor work (as_u32 (Z.shiftl (u8 b) (i * 8))))
  end.

Definition encode_buffer_to_frame (buffer : list byte) : RadioFrame :=
  mkFrame (map (fun chunk => pack 0 chunk 0) (chunks 4 buffer)) (as_u32 (Z.of_nat (length buffer))).

(** [((word >> i * 8) & 0xFF) as u8] *)
Definition word_byte (word : Z) (i : Z) : byte := byte_of_Z (Z.land (Z.shiftr word (i * 8)) 255).

(** The inner loop, [n] of its rounds left; whether [buffer[index]] was in range. *)
Fixpoint unpack (word : Z) (n : nat) (i : Z) (length_ index : nat) (buffer : list byte) : result (fault RetError) (nat * list byte) :=
  match n with
  | O => Ok (index, buffer)
  | S n =>
      if Nat.ltb index (length buffer) then
        let buffer := <[index := word_byte word i]> buffer in
        let index := index + 1 in
        if Nat.leb length_ index then Ok (index, buffer) else unpack word n (i + 1) length_ index buffer
      else Err Panics
  end.

Fixpoint unpack_all (words : list Z) (length_ index : nat) (buffer : list byte) : result (fault RetError) (nat * list byte) :=
  match words with
  | [] => Ok (index, buffer)
  | word :: words =>
      '(index, buffer) ← unpack word 4 0 length_ index buffer;
      if Nat.leb length_ index then Ok (index, buffer) else unpack_all words length_ index buffer
  end.

(** The buffer the frame was written to and the slice of it that is returned. *)
Definition decode_frame_to_buffer (frame : RadioFrame) (buffer : list byte) : result (fault RetError) (list byte * list byte) :=
  let length_ := Z.to_nat (fr_length frame) in
  if Nat.ltb (length buffer) length_ then Err (Fails OutOfMemory)
  else '(_, buffer) ← unpack_all (fr_data frame) length_ 0 buffer; Ok (buffer, take length_ buffer).

(** * The tasks *)

Module KaonicGrpc.

Inductive RxState : Type := RxRunning | RxEnded | RxPanicked.
#[export] Instance radio_rx_eq_dec : EqDecision RxState.
Proof. solve_decision. Defined.

(** The transmit task is started after the receive task, once the lock of the
    configuration channel has been had. *)
Inductive TxState : Type := TxWaiting | TxRunning | TxEnded.
#[export] Instance radio_tx_eq_dec : EqDecision TxState.
Proof. solve_decision. Defined.

(** [streaming]: the stream of received frames has not ended. *)
Record session : Type := mkSession {
  rx : RxState;
  streaming : bool;
  tx : TxState;
  config_task : bool;
  stop : bool;
  rx_buffer : list byte;
  tx_buffer : list byte
}.

Inductive Phase : Type :=
| Idle
| Connected (s : session)
| Ended
| Crashed.

(** [lingering] counts the configuration tasks of earlier sessions that have not
    ended yet: nothing waits for them.  [sent] and [configured] are the requests
    the radio was sent, with whether it took a configuration. *)
Record t : Type := mk {
  addr : string;
  config : RadioConfig;
  config_channel : option (list RadioConfig);
  channel : list Packet;
  phase : Phase;
  lingering : nat;
  sent : list TransmitRequest;
  configured : list (RadioConfig * bool)
}.

Inductive Event : Type :=
| LoopEnds
| Connect (connected streams : bool)
| Started
| Receive (response : result Code ReceiveResponse)
| StreamEnds
| RxStops
| Transmit (answer : result Code Z)
| TxStops
| AskConfig (c : RadioConfig)
| Configure (ok : bool)
| ConfigStops
| LingerStops
| Disconnected.

Section Tasks.
Context (BUFFER_SIZE : nat).
(** [Channel::from_shared], which refuses an address that is not a URI. *)
Variable from_shared : string -> bool.

Definition new (addr : string) (config : RadioConfig) (config_channel : option (list RadioConfig)) : t :=
  mk addr config config_channel [] Idle 0 [] [].

Definition new_session : session :=
  mkSession RxRunning true TxWaiting false false (replicate BUFFER_SIZE x00) (replicate BUFFER_SIZE x00).

(** The receive task's branch for an item of the stream; [None] is a panic. *)
Definition receive (module : Z) (result_ : result Code ReceiveResponse) (rx_buffer : list byte) : option (list byte * list Packet) :=
  match result_ with
  | Err _ => Some (rx_buffer, [])
  | Ok response =>
      match rs_frame response with
      | None => Some (rx_buffer, [])
      | Some frame =>
          if (0 <? fr_length frame)%Z && (rs_module response =? module)%Z then
            match decode_frame_to_buffer frame rx_buffer with
            | Err Panics => None
            | Err (Fails _) => Some (rx_buffer, [])
            | Ok (rx_buffer, buf) =>
                match deserialize (InputBuffer.new buf) with
                | (_, Ok packet) => Some (rx_buffer, [packet])
                | (_, Err Panics) => None
                | (_, Err _) => Some (rx_buffer, [])
                end
            end
          else Some (rx_buffer, [])
      end
  end.

(** The transmit task's branch for a packet: the request it makes, if any. *)
Definition request (module : Z) (packet : Packet) (tx_buffer : list byte) : list byte * option TransmitRequest :=
  match serialize packet (OutputBuffer.new tx_buffer) with
  | (output, Ok _) =>
      (OutputBuffer.buffer output, Some (mkTransmit module (Some (encode_buffer_to_frame (OutputBuffer.as_slice output)))))
  | (output, Err _) => (OutputBuffer.buffer output, None)
  end.

(** [err.code() == Unknown || err.code() == Unavailable] *)
Definition gives_up (answer : result Code Z) : bool :=
  match answer with Err Unknown | Err Unavailable => true | _ => false end.

Definition over (s : session) : bool :=
  negb (bool_decide (rx s = RxRunning)) && bool_decide (tx s = TxEnded).

(** What happens inside a session: the new state and the packets for the channel
    of the manager. *)
Definition session_step (cancel : bool) (e : Event) (s : session) (k : t) : option (t * list Packet) :=
  let still s := k {{ phase := Connected s }} in
  match e with
  | Started =>
      if bool_decide (tx s = TxWaiting) then
        Some (still (s {{ tx := TxRunning; config_task := match config_channel k with Some _ => true | None => false end }}), [])
      else None
  | Receive result_ =>
      if bool_decide (rx s = RxRunning) && streaming s then
        match receive (cfg_module (config k)) result_ (rx_buffer s) with
        | Some (buffer, packets) => Some (still (s {{ rx_buffer := buffer }}), packets)
        | None => Some (still (s {{ rx := RxPanicked }}), [])
        end
      else None
  | StreamEnds =>
      if bool_decide (rx s = RxRunning) && streaming s then Some (still (s {{ streaming := false }}), []) else None
  | RxStops =>
      if bool_decide (rx s = RxRunning) && (cancel || stop s)
      then Some (still (s {{ rx := RxEnded; stop := true }}), []) else None
  | Transmit answer =>
      match channel k with
      | packet :: rest =>
          if bool_decide (tx s = TxRunning) then
            match request (cfg_module (config k)) packet (tx_buffer s) with
            | (buffer, None) => Some (k {{ phase := Connected (s {{ tx_buffer := buffer }}); channel := rest }}, [])
            | (buffer, Some r) =>
                let s := s {{ tx_buffer := buffer }} in
                let s := if gives_up answer then s {{ tx := TxEnded; stop := true }} else s in
                Some (k {{ phase := Connected s; channel := rest; sent := sent k ++ [r] }}, [])
            end
          else None
      | [] => None
      end
  | TxStops =>
      if bool_decide (tx s = TxRunning) && (cancel || stop s)
      then Some (still (s {{ tx := TxEnded; stop := true }}), []) else None
  | ConfigStops =>
      if config_task s && (cancel || stop s) then Some (still (s {{ config_task := false }}), []) else None
  | Disconnected =>
      if over s then
        Some (k {{ phase := if bool_decide (rx s = RxPanicked) then Crashed else Idle;
                   lingering := lingering k + if config_task s then 1 else 0 }}, [])
      else None
  | _ => None
  end.

(** A configuration task is there to take the next configuration. *)
Definition configures (k : t) : bool :=
  Nat.ltb 0 (lingering k) || match phase k with Connected s => config_task s | _ => false end.

Definition step (cancel : bool) (e : Event) (k : t) : option (t * list Packet) :=
  match e with
  | AskConfig c =>
      match config_channel k with
      | Some queue => Some (k {{ config_channel := Some (queue ++ [c]) }}, [])
      | None => None
      end
  | Configure ok =>
      match config_channel k with
      | Some (c :: rest) =>
          if configures k then
            Some (k {{ config_channel := Some rest; config := if ok : bool then c else config k;
                       configured := configured k ++ [(c, ok)] }}, [])
          else None
      | _ => None
      end
  | LingerStops => if Nat.ltb 0 (lingering k) then Some (k {{ lingering := lingering k - 1 }}, []) else None
  | _ =>
      match phase k, e with
      | Idle, LoopEnds => if cancel then Some (k {{ phase := Ended }}, []) else None
      | Idle, Connect connected streams =>
          if cancel then None
          else if negb (from_shared (addr k)) then Some (k {{ phase := Crashed }}, [])
          else if negb connected then Some (k, [])
          else Some (k {{ phase := if streams : bool then Connected new_session else Crashed }}, [])
      | Connected s, e => session_step cancel e s k
      | _, _ => None
      end
  end.

Fixpoint run (cancel : bool) (es : list Event) (k : t) : option (t * list Packet) :=
  match es with
  | [] => Some (k, [])
  | e :: es =>
      '(k, out) ← step cancel e k;
      '(k, more) ← run cancel es k;
      Some (k, out ++ more)
  end.

End Tasks.
End KaonicGrpc.

(** * Words and bytes *)

Section Words.
Local Open Scope Z_scope.

(** The value of a chunk, its first byte the lowest. *)
Fixpoint le_val (l : list byte) : Z := match l with [] => 0 | b :: l => u8 b + 256 * le_val l end.

Lemma le_val_range l : 0 <= le_val l < 256 ^ Z.of_nat (length l).
Proof.
  induction l as [|b l IH]; cbn [le_val length]; [cbn; lia|].
  pose proof (u8_range b). rewrite Nat2Z.inj_succ, Z.pow_succ_r by lia. lia.
Qed.

Lemma lor_above a b n : 0 <= n -> 0 <= a < 2 ^ n -> Z.lor a (Z.shiftl b n) = a + b * 2 ^ n.
Proof.
  intros Hn Ha. rewrite <- Z.shiftl_mul_pow2 by lia. apply Z.bits_inj'. intros i Hi.
  rewrite Z.add_nocarry_lxor; [|apply Z.bits_inj'; intros j Hj; rewrite Z.land_spec, Z.bits_0].
  - rewrite Z.lor_spec, Z.lxor_spec. destruct (Z.ltb_spec i n).
    + by rewrite Z.shiftl_spec_low, orb_false_r, xorb_false_r by lia.
    + rewrite <- (Z.mod_small a (2 ^ n)), Z.mod_pow2_bits_high by lia. by destruct (Z.testbit (Z.shiftl b n) i).
  - destruct (Z.ltb_spec j n); [by rewrite Z.shiftl_spec_low, andb_false_r by lia|].
    by rewrite <- (Z.mod_small a (2 ^ n)), Z.mod_pow2_bits_high by lia.
Qed.

Lemma pack_val chunk : forall i work, 0 <= i -> i + Z.of_nat (length chunk) <= 4 -> 0 <= work < 2 ^ (i * 8) ->
  pack i chunk work = work + le_val chunk * 2 ^ (i * 8).
Proof.
  induction chunk as [|b chunk IH]; intros i work Hi Hl Hw; cbn [pack le_val]; [lia|].
  cbn [length] in Hl. pose proof (u8_range b) as Hb.
  assert (Hp : 2 ^ ((i + 1) * 8) = 2 ^ (i * 8) * 256).
  { replace ((i + 1) * 8) with (i * 8 + 8) by lia. by rewrite Z.pow_add_r by lia. }
  assert (Hmax : 2 ^ (i * 8) * 256 <= 2 ^ 32) by (rewrite <- Hp; apply Z.pow_le_mono_r; lia).
  unfold as_u32. rewrite Z.mod_small by (rewrite Z.shiftl_mul_pow2 by lia; nia).
  rewrite lor_above, IH by (rewrite ?Hp; nia). rewrite Hp. lia.
Qed.

Lemma word_byte_div word i : 0 <= i -> word_byte word i = byte_of_Z (word / 256 ^ i).
Proof.
  intros Hi. unfold word_byte, byte_of_Z. rewrite Z.shiftr_div_pow2 by lia.
  change 255 with (Z.ones 8). rewrite Z.land_ones by lia. change (2 ^ 8) with 256. rewrite Z.mod_mod by lia.
  replace (256 ^ i) with (2 ^ (i * 8)); [done|]. change 256 with (2 ^ 8).
  by rewrite <- Z.pow_mul_r, (Z.mul_comm 8) by lia.
Qed.

(** The bytes of a word, [n] of them from the [i]-th on. *)
Definition word_bytes (word : Z) (i : Z) (n : nat) : list byte := map (word_byte word) (seqZ i (Z.of_nat n)).

Lemma word_bytes_S word i n : word_bytes word i (S n) = word_byte word i :: word_bytes word (i + 1) n.
Proof. unfold word_bytes. rewrite seqZ_cons by lia. by rewrite Nat2Z.inj_succ, Z.pred_succ, Z.add_1_r. Qed.

Lemma length_word_bytes word i n : length (word_bytes word i n) = n.
Proof. unfold word_bytes. rewrite length_map, length_seqZ. lia. Qed.

Lemma word_bytes_val chunk : forall w i, 0 <= i -> w / 256 ^ i = le_val chunk -> word_bytes w i (length chunk) = chunk.
Proof.
  induction chunk as [|b chunk IH]; intros w i Hi Hw; [done|]. cbn [length le_val] in *. rewrite word_bytes_S. f_equal.
  - rewrite word_byte_div, Hw by done. apply u8_inj. rewrite u8_of_Z, (Z.mul_comm 256), Z.mod_add by lia.
    apply Z.mod_small, u8_range.
  - apply IH; [lia|]. rewrite Z.pow_add_r, <- Z.div_div, Hw by lia. pose proof (u8_range b).
    change (256 ^ 1) with 256. rewrite (Z.mul_comm 256), Z.div_add, Z.div_small by lia. lia.
Qed.

Lemma word_bytes_app w i m n : word_bytes w i (m + n) = word_bytes w i m ++ word_bytes w (i + Z.of_nat m) n.
Proof. unfold word_bytes. by rewrite Nat2Z.inj_add, seqZ_app, map_app by lia. Qed.

Lemma take_word_bytes chunk : (length chunk <= 4)%nat -> take (length chunk) (word_bytes (pack 0 chunk 0) 0 4) = chunk.
Proof.
  intros Hl. rewrite pack_val by (cbn; lia). replace 4%nat with (length chunk + (4 - length chunk))%nat by lia.
  rewrite word_bytes_app, take_app_length' by (by rewrite length_word_bytes). apply word_bytes_val; [lia|].
  change (256 ^ 0) with 1. rewrite Z.div_1_r. cbn. lia.
Qed.

Lemma pack_range chunk : (length chunk <= 4)%nat -> 0 <= pack 0 chunk 0 < 2 ^ 32.
Proof.
  intros Hl. rewrite pack_val by (cbn; lia). pose proof (le_val_range chunk) as Hr.
  assert (256 ^ Z.of_nat (length chunk) <= 256 ^ 4) by (apply Z.pow_le_mono_r; lia). cbn in *. lia.
Qed.

End Words.

(** * Reading a frame *)

Lemma splice_nil l i : i <= length l -> splice l i [] = l.
Proof. intros Hi. unfold splice. cbn [length app]. rewrite Nat.add_0_r. apply take_drop. Qed.

Lemma splice_cons l i b bs : i < length l -> splice l i (b :: bs) = splice (<[i := b]> l) (i + 1) bs.
Proof.
  intros Hi. unfold splice. rewrite Nat.add_1_r.
  rewrite (take_S_r (<[i := b]> l) i b), <- app_assoc by (by rewrite list_lookup_insert_eq). cbn [app length].
  rewrite take_insert_ge, drop_insert_lt by lia. by replace (i + S (length bs)) with (S i + length bs) by lia.
Qed.

Lemma splice_splice l i a b : i + length a <= length l ->
  splice (splice l i a) (i + length a) b = splice l i (a ++ b).
Proof.
  revert l i. induction a as [|x a IH]; intros l i Hl.
  - cbn [length app] in *. rewrite splice_nil by lia. by rewrite Nat.add_0_r.
  - cbn [length] in *. rewrite <- app_comm_cons, !splice_cons by lia.
    replace (i + S (length a)) with (i + 1 + length a) by lia. apply IH. rewrite length_insert. lia.
Qed.

Lemma unpack_spec word n : forall i len index buffer, index < len <= length buffer ->
  let bs := take (len - index) (word_bytes word i n) in
  unpack word n i len index buffer = Ok (index + length bs, splice buffer index bs).
Proof.
  induction n as [|n IH]; intros i len index buffer Hi bs.
  - subst bs. change (word_bytes word i 0) with (@nil byte). rewrite take_nil, splice_nil by lia. cbn. by rewrite Nat.add_0_r.
  - subst bs. cbn [unpack]. rewrite (proj2 (Nat.ltb_lt _ _)) by lia. cbv zeta. rewrite word_bytes_S.
    replace (len - index) with (S (len - (index + 1))) by lia. cbn [take length].
    rewrite splice_cons by lia. destruct (Nat.leb_spec len (index + 1)).
    + replace (len - (index + 1)) with 0 by lia. cbn [take length]. rewrite splice_nil by (rewrite length_insert; lia). done.
    + rewrite IH by (rewrite length_insert; lia). do 2 f_equal. lia.
Qed.

Definition words_bytes (words : list Z) : list byte := concat (map (fun word => word_bytes word 0 4) words).

Lemma unpack_all_spec words : forall len index buffer, index < len <= length buffer ->
  let bs := take (len - index) (words_bytes words) in
  unpack_all words len index buffer = Ok (index + length bs, splice buffer index bs).
Proof.
  induction words as [|word words IH]; intros len index buffer Hi bs; subst bs.
  - change (words_bytes []) with (@nil byte). rewrite take_nil, splice_nil by lia. cbn. by rewrite Nat.add_0_r.
  - cbn [unpack_all]. rewrite unpack_spec by done. cbn [mbind result_bind]. unfold words_bytes in *. cbn [map concat].
    rewrite take_app. pose proof (length_word_bytes word 0%Z 4) as Hw. rewrite Hw. rewrite !length_app, !length_take, !Hw.
    destruct (Nat.leb_spec len (index + (len - index) `min` 4)).
    + replace (len - index - 4) with 0 by lia. cbn [take length]. rewrite app_nil_r. repeat f_equal. lia.
    + rewrite (take_ge (word_bytes word 0 4)) by lia. rewrite Nat.min_r, IH; [..|lia].
      * rewrite length_take. replace (len - (index + 4)) with (len - index - 4) by lia.
        rewrite <- Hw at 3. rewrite splice_splice by (rewrite Hw; lia). do 2 f_equal. lia.
      * rewrite length_splice by (rewrite Hw; lia). lia.
Qed.

(** What a frame leaves in the buffer, and what is returned of it. *)
Lemma decode_frame_eq frame buffer : 0 < Z.to_nat (fr_length frame) <= length buffer ->
  let bs := take (Z.to_nat (fr_length frame)) (words_bytes (fr_data frame)) in
  decode_frame_to_buffer frame buffer = Ok (splice buffer 0 bs, bs ++ drop (length bs) (take (Z.to_nat (fr_length frame)) buffer)).
Proof.
  intros Hl bs. unfold decode_frame_to_buffer. rewrite (proj2 (Nat.ltb_ge _ _)) by lia.
  rewrite unpack_all_spec, Nat.sub_0_r by lia. cbn [mbind result_bind]. fold bs. do 2 f_equal.
  unfold splice. rewrite take_0, app_nil_l, Nat.add_0_l, take_app, skipn_firstn_comm. f_equal.
  apply take_ge. subst bs. rewrite length_take. lia.
Qed.

Lemma words_of_chunks l : Forall (fun c => length c <= 4) l -> forall n, n <= length (concat l) ->
  (forall i c, l !! i = Some c -> S i < length l -> length c = 4) ->
  take n (words_bytes (map (fun c => pack 0 c 0) l)) = take n (concat l).
Proof.
  induction 1 as [|c l Hc Hl IH]; intros n Hn Hfull; [done|]. unfold words_bytes in *. cbn [map concat] in *.
  rewrite length_app in Hn. pose proof (take_word_bytes c Hc) as Ht. rewrite !take_app, length_word_bytes.
  destruct l as [|c' l].
  - cbn [map concat] in *. rewrite !take_nil, !app_nil_r. cbn [length] in Hn.
    rewrite <- Ht at 2. rewrite take_take. by rewrite Nat.min_l by lia.
  - assert (H4 : length c = 4) by (apply (Hfull 0 c); [done|cbn; lia]). rewrite H4 in *. rewrite take_ge in Ht
      by (rewrite length_word_bytes; lia). rewrite Ht. f_equal. apply IH; [lia|].
    intros i d Hd Hi. apply (Hfull (S i) d); [done|cbn in *; lia].
Qed.

Lemma chunks_full fuel n data : 0 < n -> length data <= fuel -> forall i c,
  chunks_from fuel n data !! i = Some c -> S i < length (chunks_from fuel n data) -> length c = n.
Proof.
  intros Hn. revert data. induction fuel as [|fuel IH]; intros [|b data] Hd i c; cbn [chunks_from]; try done.
  destruct i as [|i]; cbn [lookup list_lookup length].
  - intros [= <-] Hi. rewrite length_take. destruct (Nat.le_gt_cases n (length (b :: data))); [lia|].
    rewrite (drop_ge (b :: data)) in Hi by lia. destruct fuel; cbn in Hi; lia.
  - intros Hc Hi. eapply IH; [|exact Hc|lia]. rewrite length_drop. cbn in *. lia.
Qed.

Lemma encode_words bs : take (length bs) (words_bytes (fr_data (encode_buffer_to_frame bs))) = bs.
Proof.
  unfold encode_buffer_to_frame. cbn [fr_data]. rewrite words_of_chunks.
  - rewrite concat_chunks by lia. by rewrite take_ge.
  - apply chunks_from_short.
  - rewrite concat_chunks by lia. lia.
  - intros i c Hc Hi. by eapply chunks_full; [..|exact Hc|exact Hi]; [lia|].
Qed.

Lemma fr_length_encode bs : (Z.of_nat (length bs) < 2 ^ 32)%Z -> fr_length (encode_buffer_to_frame bs) = Z.of_nat (length bs).
Proof. intros Hl. unfold encode_buffer_to_frame, as_u32. cbn [fr_length]. apply Z.mod_small. lia. Qed.

Lemma decode_encode bs buffer : (Z.of_nat (length bs) < 2 ^ 32)%Z -> 0 < length bs <= length buffer ->
  decode_frame_to_buffer (encode_buffer_to_frame bs) buffer = Ok (splice buffer 0 bs, bs).
Proof.
  intros H32 Hl. rewrite decode_frame_eq; rewrite fr_length_encode, Nat2Z.id, ?encode_words by done; [|lia].
  rewrite drop_ge by (rewrite length_take; lia). by rewrite app_nil_r.
Qed.



(** * The radio as a link *)

Import KaonicGrpc.

(** Every way a step can go. *)
Ltac radio_cases H :=
  match type of H with step _ _ _ ?e ?k = _ => destruct k as [ad cf cc ch ph li se co], e end;
  cbn in H; repeat case_match; simplify_eq; cbn in *; unfold constant in *;
  try match goal with x : session |- _ => destruct x end; cbn in *; unfold constant in *; simplify_eq.

Lemma run_cons B from_shared cancel e es k k' out : run B from_shared cancel (e :: es) k = Some (k', out) -> exists k1 o1 o2,
  step B from_shared cancel e k = Some (k1, o1) /\ run B from_shared cancel es k1 = Some (k', o2) /\ out = o1 ++ o2.
Proof.
  cbn [run]. destruct (step B from_shared cancel e k) as [[k1 o1]|]; [|done]. cbn [mbind option_bind].
  destruct (run B from_shared cancel es k1) as [[k2 o2]|] eqn:E; [|done]. cbn. intros [= <- <-]. by exists k1, o1, o2.
Qed.

Lemma run_cons_2 B from_shared cancel e es k k1 k' o1 o2 : step B from_shared cancel e k = Some (k1, o1) ->
  run B from_shared cancel es k1 = Some (k', o2) -> run B from_shared cancel (e :: es) k = Some (k', o1 ++ o2).
Proof. intros H1 H2. cbn [run]. rewrite H1. cbn [mbind option_bind]. by rewrite H2. Qed.

Section Radio.
Context (B : nat) (from_shared : string -> bool).

Definition radio_frame (p : Packet) : RadioFrame := encode_buffer_to_frame (wire p).

(** Packets that fit the buffers. *)
Definition fits (p : Packet) : Prop := wire_ok p /\ length (wire p) <= B.

(** The frames of a stream that are for a module. *)
Definition for_module (module : Z) (item : result Code ReceiveResponse) : option RadioFrame :=
  match item with
  | Ok response =>
      frame ← rs_frame response;
      if (0 <? fr_length frame)%Z && (rs_module response =? module)%Z then Some frame else None
  | Err _ => None
  end.

Lemma wire_nonempty p : 0 < length (wire p).
Proof. unfold wire. rewrite !length_app. cbn. lia. Qed.

(** Writing keeps the size of the buffer. *)
Definition keeps {A} (m : stres OutputBuffer.t RetError A) : Prop :=
  forall b, length (OutputBuffer.buffer (m b).1) = length (OutputBuffer.buffer b).

Lemma keeps_write bs : keeps (OutputBuffer.write bs).
Proof.
  intros b. unfold OutputBuffer.write. destruct (Nat.eqb _ 0); [done|].
  destruct (Nat.ltb_spec (length (OutputBuffer.buffer b)) (OutputBuffer.offset b + length bs)); [done|].
  cbn. apply length_splice. lia.
Qed.

Lemma keeps_bind {A C} (m : stres OutputBuffer.t RetError A) (f : A -> stres OutputBuffer.t RetError C) :
  keeps m -> (forall a, keeps (f a)) -> keeps (m ≫= f).
Proof.
  intros Hm Hf b. specialize (Hm b). unfold mbind, stres_bind. destruct (m b) as [b1 [a|e]]; [|done].
  by rewrite (Hf a b1).
Qed.

Lemma keeps_serialize p : keeps (serialize p).
Proof.
  unfold serialize, Header_serialize, AddressHash_serialize, PacketContext_serialize.
  repeat (apply keeps_bind; [|intros ?]); try apply keeps_write.
  rewrite serialize_transport_eq. apply keeps_write.
Qed.

Lemma request_length module p buf buf' r : request module p buf = (buf', r) -> length buf' = length buf.
Proof.
  unfold request. pose proof (keeps_serialize p (OutputBuffer.new buf)) as Hk.
  destruct (serialize p (OutputBuffer.new buf)) as [out [n|e]]; intros [= <- _]; exact Hk.
Qed.

Lemma request_fits module p buf : fits p -> length buf = B -> exists buf',
  request module p buf = (buf', Some (mkTransmit module (Some (radio_frame p)))).
Proof.
  intros [Hp Hl] Hb. unfold request.
  destruct (serialize_fits p (OutputBuffer.new buf)) as (out & -> & Hwf & Ho); [apply ob_new_wf|rewrite ob_room_new; lia|].
  change (OutputBuffer.as_slice (OutputBuffer.new _)) with (@nil byte) in Ho. rewrite app_nil_l in Ho.
  eexists. by rewrite Ho.
Qed.

Lemma decode_frame_length frame buffer buffer' bs : (0 < fr_length frame)%Z ->
  decode_frame_to_buffer frame buffer = Ok (buffer', bs) -> length buffer' = length buffer.
Proof.
  intros H0 Hd. destruct (Nat.le_gt_cases (Z.to_nat (fr_length frame)) (length buffer)) as [Hl|Hl].
  - rewrite decode_frame_eq in Hd by lia. injection Hd as <- _. apply length_splice. rewrite length_take. lia.
  - unfold decode_frame_to_buffer in Hd. by rewrite (proj2 (Nat.ltb_lt _ _)) in Hd.
Qed.

Lemma receive_length module item buf buf' ps : receive module item buf = Some (buf', ps) -> length buf' = length buf.
Proof.
  unfold receive. destruct item as [response|e]; [|by intros [= <- _]].
  destruct (rs_frame response) as [frame|]; [|by intros [= <- _]].
  destruct ((0 <? fr_length frame)%Z && _) eqn:E; [|by intros [= <- _]]. apply andb_prop in E as [E _].
  destruct (decode_frame_to_buffer frame buf) as [[buf1 bs]|[e|]] eqn:Hd; [|by intros [= <- _]|done].
  apply decode_frame_length in Hd; [|lia].
  destruct (deserialize _) as [inp [p|[e|]]]; try done; by intros [= <- _].
Qed.

(** A frame of a packet gives the packet; what is not for the module is passed over. *)
Lemma receive_frame module p item buf : fits p -> (Z.of_nat B < 2 ^ 32)%Z -> length buf = B ->
  for_module module item = Some (radio_frame p) -> exists buf' q, receive module item buf = Some (buf', [q]) /\ q ≡ p.
Proof.
  intros [Hp Hl] HB Hb. unfold for_module, receive. destruct item as [response|e]; [|done].
  destruct (rs_frame response) as [frame|]; [|done]. cbn [mbind option_bind].
  destruct ((0 <? fr_length frame)%Z && _); [|done]. intros [= ->]. unfold radio_frame.
  pose proof (wire_nonempty p). rewrite decode_encode by lia.
  destruct (deserialize_wire p Hp) as (inp & q & -> & _ & Hq). by eexists _, q.
Qed.

Lemma receive_other module item buf : for_module module item = None -> receive module item buf = Some (buf, []).
Proof.
  unfold for_module, receive. destruct item as [response|e]; [|done].
  destruct (rs_frame response) as [frame|]; [|done]. cbn [mbind option_bind]. by destruct ((0 <? fr_length frame)%Z && _).
Qed.

(** * The state of the tasks *)

Definition radio_ok (k : t) : Prop :=
  match phase k with Connected s => length (rx_buffer s) = B /\ length (tx_buffer s) = B | _ => True end.

Lemma step_radio_ok cancel e k k' out : step B from_shared cancel e k = Some (k', out) -> radio_ok k -> radio_ok k'.
Proof.
  unfold radio_ok. intros Hs Hk. radio_cases Hs; try done; try (by rewrite !length_replicate); cbn; destruct Hk as [Hrb Htb].
  all: split; cbn; try done.
  all: try by erewrite request_length by done.
  by erewrite receive_length by done.
Qed.

Lemma run_radio_ok cancel es : forall k k' out, run B from_shared cancel es k = Some (k', out) -> radio_ok k -> radio_ok k'.
Proof.
  induction es as [|e es IH]; intros k k' out Hr Hk; [cbn in Hr; by simplify_eq|].
  apply run_cons in Hr as (k1 & o1 & o2 & E & E2 & ->).
  eapply IH; [exact E2|]. by eapply step_radio_ok.
Qed.

(** A task only takes from its channel. *)
Lemma step_channel cancel e k k' out : step B from_shared cancel e k = Some (k', out) -> length (channel k') <= length (channel k).
Proof. intros Hs. radio_cases Hs; lia. Qed.

(** Cancelled, the task comes to its end. *)
Lemma radio_ends k : exists es k', length es <= 5 /\ run B from_shared true es k = Some (k', []) /\
  (phase k' = Ended \/ phase k' = Crashed).
Proof.
  destruct k as [ad cf cc ch ph li se co]. destruct ph as [|s| |].
  - exists [LoopEnds]. eexists. split; [cbn; lia|]. split; [reflexivity|]. by left.
  - destruct s as [r st tx_ ct sp rb tb].
    exists ((if bool_decide (tx_ = TxWaiting) then [Started] else []) ++ (if bool_decide (r = RxRunning) then [RxStops] else [])
      ++ (if bool_decide (tx_ = TxEnded) then [] else [TxStops])
      ++ (if bool_decide (r = RxPanicked) then [Disconnected] else [Disconnected; LoopEnds])).
    destruct r, tx_; (eexists; split; [vm_compute; lia|]; split; [reflexivity|]; cbn; auto).
  - exists []. eexists. split; [cbn; lia|]. split; [reflexivity|]. by left.
  - exists []. eexists. split; [cbn; lia|]. split; [reflexivity|]. by right.
Qed.

(** A packet taken from the channel is sent to the radio once; nothing else is. *)
Lemma step_sends cancel e k k' out : step B from_shared cancel e k = Some (k', out) -> radio_ok k -> Forall fits (channel k) ->
  exists taken, channel k = taken ++ channel k' /\
    map tr_frame (sent k') = map tr_frame (sent k) ++ map (Some ∘ radio_frame) taken.
Proof.
  unfold radio_ok. intros Hs Hk Hf. radio_cases Hs; try (exists []; by rewrite app_nil_r).
  all: apply Forall_cons in Hf as [Hp _]; destruct Hk as [_ Hb]; match goal with
    H : request ?m _ _ = _ |- _ => destruct (request_fits m _ _ Hp Hb) as (buf & E); rewrite E in H; simplify_eq end.
  all: exists [p]; split; [done|]; by rewrite map_app.
Qed.

Lemma run_sends cancel es : forall k k' out, run B from_shared cancel es k = Some (k', out) -> radio_ok k -> Forall fits (channel k) ->
  exists taken, channel k = taken ++ channel k' /\
    map tr_frame (sent k') = map tr_frame (sent k) ++ map (Some ∘ radio_frame) taken.
Proof.
  induction es as [|e es IH]; intros k k' out Hr Hk Hf.
  - cbn in Hr. simplify_eq. exists []. by rewrite app_nil_r.
  - apply run_cons in Hr as (k1 & o1 & o2 & E & E2 & ->).
    destruct (step_sends _ _ _ _ _ E Hk Hf) as (t1 & Ht1 & Hs1). rewrite Ht1, Forall_app in Hf.
    destruct (IH _ _ _ E2 (step_radio_ok _ _ _ _ _ E Hk) (proj2 Hf)) as (t2 & Ht2 & Hs2).
    exists (t1 ++ t2). by rewrite Ht1, Ht2, Hs2, Hs1, map_app, <- !app_assoc.
Qed.

(** A session that hears. *)
Definition hears (k : t) : Prop := exists s, phase k = Connected s /\ rx s = RxRunning /\ streaming s = true.

Lemma run_hears cancel ps : Forall fits ps -> (Z.of_nat B < 2 ^ 32)%Z -> forall items k, hears k -> radio_ok k ->
  omap (for_module (cfg_module (config k))) items = map radio_frame ps ->
  exists k' qs, run B from_shared cancel (map Receive items) k = Some (k', qs) /\ Forall2 equiv qs ps /\ hears k' /\
    config k' = config k /\ channel k' = channel k /\ sent k' = sent k.
Proof.
  intros Hps HB items. revert ps Hps. induction items as [|item items IH]; intros ps Hps k (s & Hph & Hrx & Hst) Hok Ho.
  - destruct ps; [|done]. exists k, []. split_and!; try done. by exists s.
  - assert (Hstep : forall buf packets, receive (cfg_module (config k)) item (rx_buffer s) = Some (buf, packets) ->
      exists k1, step B from_shared cancel (Receive item) k = Some (k1, packets) /\ hears k1 /\ radio_ok k1 /\
        config k1 = config k /\ channel k1 = channel k /\ sent k1 = sent k).
    { intros buf packets Hr. destruct k as [ad cf cc ch ph li se co], s as [r st tx_ ct sp rb tb]; cbn in *. simplify_eq.
      pose proof (receive_length _ _ _ _ _ Hr) as Hl. eexists. unfold session_step. cbn. rewrite Hr. cbn. unfold constant.
      split; [done|]. destruct Hok as [H1 H2]. cbn in *. split; [by eexists|]. split_and!; try done. cbn. congruence. }
    cbn in Ho. destruct (for_module (cfg_module (config k)) item) as [frame|] eqn:Ef.
    + destruct ps as [|p ps]; [done|]. cbn in Ho. injection Ho as -> Ho. apply Forall_cons in Hps as [Hp Hps].
      assert (Hb : length (rx_buffer s) = B) by (unfold radio_ok in Hok; rewrite Hph in Hok; apply Hok).
      destruct (receive_frame _ p item _ Hp HB Hb Ef) as (buf & q & Hr & Hq).
      destruct (Hstep _ _ Hr) as (k1 & E & Hh & Hok1 & Hc & Hch & Hse). rewrite <- Hc in Ho.
      destruct (IH ps Hps k1 Hh Hok1 Ho) as (k2 & qs & E2 & Hqs & Hh2 & Hc2 & Hch2 & Hse2).
      exists k2, (q :: qs). cbn [map run]. rewrite E. cbn. rewrite E2. cbn. split_and!; try done; try congruence. by constructor.
    + destruct (Hstep _ _ (receive_other _ _ _ Ef)) as (k1 & E & Hh & Hok1 & Hc & Hch & Hse). rewrite <- Hc in Ho.
      destruct (IH ps Hps k1 Hh Hok1 Ho) as (k2 & qs & E2 & Hqs & Hh2 & Hc2 & Hch2 & Hse2).
      exists k2, qs. cbn [map run]. rewrite E. cbn. rewrite E2. cbn. split_and!; try done; congruence.
Qed.

End Radio.

(** * The configuration *)

Section Config.
Context (B : nat) (from_shared : string -> bool).

Definition asked (e : Event) : list RadioConfig := match e with AskConfig c => [c] | _ => [] end.

(** The last configuration the radio took. *)
Definition taken_config (initial : RadioConfig) (log : list (RadioConfig * bool)) : RadioConfig :=
  foldl (fun c entry => if entry.2 : bool then entry.1 else c) initial log.

Definition queued (k : t) : list RadioConfig := default [] (config_channel k).

(** The configurations are tried in the order they were asked for, the current one is
    the last the radio took, and every request names its module at the time. *)
Lemma step_config cancel e k k' out : step B from_shared cancel e k = Some (k', out) -> exists tried,
  configured k' = configured k ++ tried /\ map fst tried ++ queued k' = queued k ++ asked e /\
  config k' = taken_config (config k) tried /\
  exists reqs, sent k' = sent k ++ reqs /\ Forall (fun r => tr_module r = cfg_module (config k)) reqs.
Proof.
  unfold queued. intros Hs. radio_cases Hs; try (exists []; rewrite !app_nil_r; split_and!; try done; exists []; by rewrite app_nil_r).
  all: try (eexists [_]; split_and!; [done|cbn; by rewrite app_nil_r|done|exists []; by rewrite app_nil_r]).
  all: exists []; rewrite !app_nil_r; split_and!; try done; eexists [_]; split; [done|]; repeat constructor.
  all: match goal with H : request _ _ _ = _ |- _ => unfold request in H;
    destruct (serialize _ _) as [? [?|?]]; by simplify_eq end.
Qed.

Lemma run_config cancel es : forall k k' out, run B from_shared cancel es k = Some (k', out) -> exists tried,
  configured k' = configured k ++ tried /\ map fst tried ++ queued k' = queued k ++ concat (map asked es) /\
  config k' = taken_config (config k) tried.
Proof.
  induction es as [|e es IH]; intros k k' out Hr.
  - cbn in Hr. simplify_eq. exists []. by rewrite !app_nil_r.
  - apply run_cons in Hr as (k1 & o1 & o2 & E & E2 & ->).
    destruct (step_config _ _ _ _ _ E) as (t1 & Hc1 & Hq1 & Hf1 & _). destruct (IH _ _ _ E2) as (t2 & Hc2 & Hq2 & Hf2).
    exists (t1 ++ t2). split_and!.
    + by rewrite Hc2, Hc1, app_assoc.
    + cbn [map concat]. by rewrite map_app, <- app_assoc, Hq2, app_assoc, Hq1, <- app_assoc.
    + unfold taken_config in *. by rewrite foldl_app, Hf2, Hf1.
Qed.

(** * A stream that has ended *)

Definition failing (e : Event) : bool :=
  match e with Transmit (Err Unknown) | Transmit (Err Unavailable) => true | _ => false end.

Lemma failing_gives_up answer : failing (Transmit answer) = gives_up answer.
Proof. by destruct answer as [?|[]]. Qed.

Definition deaf (k : t) : Prop := exists s, phase k = Connected s /\ streaming s = false /\ stop s = false /\ tx s <> TxEnded.

Lemma step_deaf e k k' out : step B from_shared false e k = Some (k', out) -> deaf k -> failing e = false -> deaf k' /\ out = [].
Proof.
  intros Hs (s & Hph & Hst & Hsp & Htx) He. unfold deaf.
  assert (Hg : forall answer, e = Transmit answer -> gives_up answer = false) by (intros answer ->; by rewrite <- failing_gives_up).
  destruct k as [ad cf cc ch ph li se co]. cbn in Hph. subst ph.
  destruct s as [r st tx_ ct sp rb tb], e; cbn in *; unfold over in *; cbn in *; subst; repeat case_match; simplify_eq; cbn in *;
    unfold constant in *; try done; repeat rewrite ?andb_false_r, ?andb_true_r in *; try done; simplify_eq.
  all: repeat match goal with H : _ && _ = true |- _ => apply andb_prop in H as [??] end; try done.
  all: repeat match goal with H : bool_decide _ = true |- _ => apply bool_decide_eq_true in H end; try done.
  all: split; [eexists; split; [done|cbn; split_and!; congruence]|done].
Qed.

Lemma run_deaf es : forall k k' out, run B from_shared false es k = Some (k', out) -> deaf k ->
  Forall (fun e => failing e = false) es -> deaf k' /\ out = [].
Proof.
  induction es as [|e es IH]; intros k k' out Hr Hd He; [cbn in Hr; by simplify_eq|].
  apply Forall_cons in He as [He Hes]. apply run_cons in Hr as (k1 & o1 & o2 & E & E2 & ->).
  destruct (step_deaf _ _ _ _ E Hd He) as [H1 ->]. by destruct (IH _ _ _ E2 H1 Hes) as [H2 ->].
Qed.

End Config.

(** C22. A radio link delivers.  A packet the transmit task takes from its channel
    is sent to the radio exactly once and in order, whatever the radio answers and
    however often the connection is lost; and when the frames another station hears
    for its module are those of some packets, among anything else the radio streams,
    it hands over those packets, in order and up to their unused bytes, and goes on
    hearing. *)
Theorem radio_link_delivers (B : nat) (from_shared : string -> bool) (HB : (Z.of_nat B < 2 ^ 32)%Z)
  (a a' : t) (ca cb : bool) (ea : list Event) (out : list Packet) (Ha : run B from_shared ca ea a = Some (a', out))
  (Hidle : phase a = Idle) (Hfits : Forall (fits B) (channel a))
  (b : t) (s : session) (items : list (result Code ReceiveResponse)) (heard : list Packet)
  (Hb : phase b = Connected s) (Hrx : rx s = RxRunning /\ streaming s = true /\ length (rx_buffer s) = B /\ length (tx_buffer s) = B)
  (Hitems : omap (for_module (cfg_module (config b))) items = map radio_frame heard) (Hheard : heard ⊆ channel a) :
  (exists taken, channel a = taken ++ channel a' /\
     map tr_frame (sent a') = map tr_frame (sent a) ++ map (Some ∘ radio_frame) taken) /\
  exists b' qs s', run B from_shared cb (map Receive items) b = Some (b', qs) /\ Forall2 equiv qs heard /\
    phase b' = Connected s' /\ rx s' = RxRunning /\ streaming s' = true /\ config b' = config b.
Proof.
  destruct Hrx as (Hr & Hst & Hlr & Hlt). split.
  - apply (run_sends B from_shared ca ea a a' out Ha); [|done]. unfold radio_ok. by rewrite Hidle.
  - assert (Hps : Forall (fits B) heard).
    { rewrite Forall_forall in *. intros p Hp. apply Hfits. by apply Hheard. }
    destruct (run_hears B from_shared cb heard Hps HB items b) as (b' & qs & E & Hqs & (s' & H1 & H2 & H3) & Hc & _);
      [by exists s|unfold radio_ok; by rewrite Hb|done|].
    exists b', qs, s'. by split_and!.
Qed.

Definition any_address : string -> bool := fun _ => true.

(** A station with a packet to send, and one that hears. *)
Definition radio_a : t := mk "http://192.168.10.1:8080" (new_for_module RadioA) None [sample_packet; sample_packet] Idle 0 [] [].
Definition radio_b : t :=
  mk "http://192.168.10.1:8080" (new_for_module RadioA) None [] (Connected (new_session 64)) 0 [] [].

Lemma sample_fits : fits 64 sample_packet.
Proof. split; [apply sample_packet_ok|]. vm_compute. lia. Qed.

Lemma radio_link_delivers_witness : exists b' qs,
  run 64 any_address false [Receive (Err Internal); Receive (Ok (mkResponse 1 (Some (radio_frame sample_packet)) 0 0));
    Receive (Ok (mkResponse 0 (Some (radio_frame sample_packet)) 0 0))] radio_b = Some (b', qs) /\
  Forall2 equiv qs [sample_packet].
Proof.
  destruct (run 64 any_address false [Connect true true; Started; Transmit (Err Unavailable); RxStops; Disconnected] radio_a)
    as [[a' out]|] eqn:E; [|vm_compute in E; discriminate E].
  destruct (radio_link_delivers 64 any_address ltac:(lia) radio_a a' false false _ out E eq_refl
    ltac:(repeat constructor; apply sample_fits) radio_b (new_session 64)
    [Err Internal; Ok (mkResponse 1 (Some (radio_frame sample_packet)) 0 0);
     Ok (mkResponse 0 (Some (radio_frame sample_packet)) 0 0)] [sample_packet] eq_refl) as (_ & b' & qs & s' & H1 & H2 & _).
  - split_and!; reflexivity.
  - reflexivity.
  - intros p Hp. apply list_elem_of_singleton in Hp as ->. left.
  - exists b', qs. split; [exact H1|exact H2].
Defined.


