(* ===== verification/Interfaces.v ===== *)
(** The life of an interface: [iface.rs] ([InterfaceManager]), the tasks of
    [iface/tcp_client.rs], [iface/tcp_server.rs] and [iface/udp.rs] around what
    [Iface] models of them.

    A task is a state and the events that can happen to it; [step] is [None] for
    an event that cannot happen in the state.  Several [select!] branches can be
    ready at once: every order of events is possible.  A cancellation token is a
    boolean; a channel of capacity one is a list of at most one packet. *)

From Stdlib Require Import ZArith Lia.
From Stdlib Require Import Strings.Byte.
From stdpp Require Import base gmap numbers relations list.
From coqutil Require Import Datatypes.RecordSetters.
From S2P Require Import Prelude Crypto Buffer Hdlc Packet Iface Identity Destination Link Transport Node Kaonic.
Import DoubleBraceUpdate.

Inductive RxState : Type := RxRunning | RxEnded | RxPanicked.
#[export] Instance rx_state_eq_dec : EqDecision RxState.
Proof. solve_decision. Defined.

(** * One connection: the receive task and the transmit task *)

Module Session.

(** [reads], [heard], [taken] and [written] record what went through. *)
Record t (State : Type) : Type := mk {
  rx : RxState;
  tx_running : bool;
  stop : bool;
  buffer : State;
  reads : list (list byte);
  heard : list Packet;
  taken : list Packet;
  written : list (list byte)
}.
Arguments mk {State}.
Arguments rx {State}.
Arguments tx_running {State}.
Arguments stop {State}.
Arguments buffer {State}.
Arguments reads {State}.
Arguments heard {State}.
Arguments taken {State}.
Arguments written {State}.

Inductive Event : Type :=
| Read (bytes : list byte)
| ReadError
| RxStops
| Send (packet : Packet)
| TxStops.

Section Session.
Context {State : Type}.
(** The receiver's state, what a read does to it (and whether the task survives),
    what is written for a packet, and whether there is a transmit task. *)
Variable (init : State) (read : list byte -> State -> State * list Packet * bool).
Variable (send : Packet -> list (list byte)) (sends : bool).

Definition new : t State := mk RxRunning sends false init [] [] [] [].

Definition over (s : t State) : bool := negb (bool_decide (rx s = RxRunning)) && negb (tx_running s).

(** The new state and the packets for the channel of the manager.  A read of no
    bytes is the end of the connection and cancels the token [stop]; an error of
    the socket ends the receive task and nothing else. *)
Definition step (cancel : bool) (e : Event) (s : t State) : option (t State * list Packet) :=
  match e with
  | Read bytes =>
      if bool_decide (rx s = RxRunning) then
        match bytes with
        | [] => Some (s {{ rx := RxEnded; stop := true }}, [])
        | _ =>
            let '(buffer', packets, ok) := read bytes (buffer s) in
            Some (s {{ rx := if ok : bool then RxRunning else RxPanicked; buffer := buffer';
                       reads := reads s ++ [bytes]; heard := heard s ++ packets }}, packets)
        end
      else None
  | ReadError => if bool_decide (rx s = RxRunning) then Some (s {{ rx := RxEnded }}, []) else None
  | RxStops =>
      if bool_decide (rx s = RxRunning) && (cancel || stop s) then Some (s {{ rx := RxEnded }}, []) else None
  | Send packet =>
      if tx_running s then Some (s {{ taken := taken s ++ [packet]; written := written s ++ send packet }}, []) else None
  | TxStops => if tx_running s && (cancel || stop s) then Some (s {{ tx_running := false }}, []) else None
  end.

Fixpoint run (cancel : bool) (es : list Event) (s : t State) : option (t State) :=
  match es with
  | [] => Some s
  | e :: es => match step cancel e s with Some (s, _) => run cancel es s | None => None end
  end.

End Session.
End Session.

(** * An interface task: connect, serve the connection, connect again *)

Module Task.

Inductive Phase (State : Type) : Type :=
| Idle
| Connected (s : Session.t State)
| Ended
| Crashed.
Arguments Idle {State}.
Arguments Connected {State}.
Arguments Ended {State}.
Arguments Crashed {State}.

(** [stream]: a connection that was accepted for the task is still to be used;
    [running]: the task would connect again. *)
Record t (State : Type) : Type := mk {
  stream : bool;
  running : bool;
  phase : Phase State;
  channel : list Packet
}.
Arguments mk {State}.
Arguments stream {State}.
Arguments running {State}.
Arguments phase {State}.
Arguments channel {State}.

Inductive Event : Type :=
| LoopEnds
| Connect (ok : bool)
| Transmit
| InSession (e : Session.Event)
| Disconnected.

Section Task.
Context {State : Type}.
Variable (init : State) (read : list byte -> State -> State * list Packet * bool).
Variable (send : Packet -> list (list byte)) (sends : bool).

Definition new (with_stream : bool) : t State := mk with_stream true Idle [].

Definition step (cancel : bool) (e : Event) (k : t State) : option (t State * list Packet) :=
  match phase k, e with
  | Idle, LoopEnds => if negb (running k) || cancel then Some (k {{ phase := Ended }}, []) else None
  | Idle, Connect ok =>
      if negb (running k) || cancel then None
      else if stream k then
        Some (k {{ stream := false; running := false; phase := Connected (Session.new init sends) }}, [])
      else if ok then Some (k {{ phase := Connected (Session.new init sends) }}, [])
      else Some (k, [])
  | Connected s, Transmit =>
      match channel k with
      | packet :: rest =>
          '(s, out) ← Session.step read send cancel (Session.Send packet) s;
          Some (k {{ phase := Connected s; channel := rest }}, out)
      | [] => None
      end
  | Connected s, InSession (Session.Send _) => None
  | Connected s, InSession e =>
      '(s, out) ← Session.step read send cancel e s; Some (k {{ phase := Connected s }}, out)
  | Connected s, Disconnected =>
      if Session.over s then
        Some (k {{ phase := if bool_decide (Session.rx s = RxPanicked) then Crashed else Idle }}, [])
      else None
  | _, _ => None
  end.

Fixpoint run (cancel : bool) (es : list Event) (k : t State) : option (t State) :=
  match es with
  | [] => Some k
  | e :: es => match step cancel e k with Some (k, _) => run cancel es k | None => None end
  end.

End Task.
End Task.

(** * The two sockets *)

Module Tcp.
Section Tcp.
Context (BUFFER_SIZE : nat).

(** The bytes of a read, up to one that makes the task panic. *)
Fixpoint read (bytes rx_buffer : list byte) : list byte * list Packet * bool :=
  match bytes with
  | [] => (rx_buffer, [], true)
  | b :: bytes =>
      match TcpClient.rx_byte BUFFER_SIZE b rx_buffer with
      | Err _ => (rx_buffer, [], false)
      | Ok (rx_buffer, packets) =>
          let '(rx_buffer, more, ok) := read bytes rx_buffer in (rx_buffer, packets ++ more, ok)
      end
  end.

Definition send (packet : Packet) : list (list byte) := option_list (TcpClient.tx BUFFER_SIZE packet).

Definition init : list byte := TcpClient.rx_new BUFFER_SIZE.
Definition session : Session.t (list byte) := Session.new init true.
Definition session_run := Session.run read send.
Definition task_step := Task.step init read send true.
Definition task_run := Task.run init read send true.

End Tcp.
End Tcp.

Module Udp.
Section Udp.
Context (BUFFER_SIZE : nat).

Definition read (datagram : list byte) (u : unit) : unit * list Packet * bool :=
  match UdpInterface.rx_datagram BUFFER_SIZE datagram with
  | Ok packets => (u, packets, true)
  | Err _ => (u, [], false)
  end.

Definition send (packet : Packet) : list (list byte) := option_list (UdpInterface.tx BUFFER_SIZE packet).

(** [forward]: there is an address to send to. *)
Definition task_step (forward : bool) := Task.step tt read send forward.

End Udp.
End Udp.

(** * The server *)

Module TcpServer.

Inductive Phase : Type := Unbound | Listening | ServerEnded.

Record t : Type := mk { phase : Phase; channel : list Packet }.

Inductive Event : Type :=
| Bind (ok : bool)
| Drop_
| Ends.

Definition new : t := mk Unbound [].

(** What the server is asked to transmit is dropped. *)
Definition step (cancel : bool) (e : Event) (s : t) : option t :=
  match phase s, e with
  | Unbound, Bind ok => if cancel then None else Some (s {{ phase := if ok : bool then Listening else Unbound }})
  | Unbound, Ends | Listening, Ends => if cancel then Some (s {{ phase := ServerEnded }}) else None
  | Listening, Drop_ => match channel s with [] => None | _ :: rest => Some (s {{ channel := rest }}) end
  | _, _ => None
  end.

End TcpServer.

(** * The manager *)

Module InterfaceManager.

(** [forward]: there is an address to send to; [uri]: the address of the radio is
    a URI.  The buffers of a radio have the size of those of a TCP client. *)
Inductive Kind : Type :=
| TcpTask (k : Task.t (list byte))
| UdpTask (forward : bool) (k : Task.t unit)
| KaonicTask (uri : bool) (k : KaonicGrpc.t)
| ServerTask (s : TcpServer.t).

(** [cancel] is cancelled when the manager is dropped; [rx_recv] holds what the
    tasks have sent. *)
Record t : Type := mk {
  counter : Z;
  ifaces : list (AddressHash * Kind);
  rx_recv : list RxMessage;
  cancel : bool
}.

Inductive Event : Type :=
| Spawn (k : Kind)
| Accept (i : nat)
| OnTcp (i : nat) (e : Task.Event)
| OnUdp (i : nat) (e : Task.Event)
| OnKaonic (i : nat) (e : KaonicGrpc.Event)
| OnServer (i : nat) (e : TcpServer.Event)
| Offer (message : TxMessage)
| Cleanup
| DropManager.

Section Manager.
Context `{C : Crypto}.
Context (TCP_BUFFER UDP_BUFFER : nat).

Definition new : t := mk 0 [] [] false.

(** A task's interface is stopped when its token is cancelled, which only the
    task of a TCP client does, at its end. *)
Definition stopped (k : Kind) : bool :=
  match k with
  | TcpTask k => match Task.phase k with Task.Ended => true | _ => false end
  | _ => false
  end.

Definition local (iface : AddressHash * Kind) : LocalInterface := mkIface iface.1 (stopped iface.2).

Definition new_channel (k : Kind) (m : t) : t :=
  let n := ((counter m + 1) mod 2 ^ 64)%Z in
  m {{ counter := n; ifaces := ifaces m ++ [(RnsNodeRouter.interface_address n, k)] }}.

Definition spawn := new_channel.

Definition cleanup (m : t) : t := m {{ ifaces := filter (fun iface => stopped iface.2 = false) (ifaces m) }}.

Definition channel (k : Kind) : list Packet :=
  match k with
  | TcpTask k => Task.channel k
  | UdpTask _ k => Task.channel k
  | KaonicTask _ k => KaonicGrpc.channel k
  | ServerTask s => TcpServer.channel s
  end.

Definition push (packet : Packet) (k : Kind) : Kind :=
  match k with
  | TcpTask k => TcpTask (k {{ Task.channel := Task.channel k ++ [packet] }})
  | UdpTask f k => UdpTask f (k {{ Task.channel := Task.channel k ++ [packet] }})
  | KaonicTask u k => KaonicTask u (k {{ KaonicGrpc.channel := KaonicGrpc.channel k ++ [packet] }})
  | ServerTask s => ServerTask (s {{ TcpServer.channel := TcpServer.channel s ++ [packet] }})
  end.

(** [tx_send.send(message).await] on one interface; [None] while it waits. *)
Definition offer_one (message : TxMessage) (iface : AddressHash * Kind) : option (AddressHash * Kind) :=
  if Transport.should_send (tx_type message) (local iface) then
    match channel iface.2 with
    | [] => Some (iface.1, push (tx_packet message) iface.2)
    | _ => None
    end
  else Some iface.

(** [send]; it waits as long as one of the interfaces has no room. *)
Definition send (message : TxMessage) (m : t) : option t :=
  ifaces' ← mapM (offer_one message) (ifaces m);
  Some (m {{ ifaces := ifaces' }}).

Definition update (i : nat) (address : AddressHash) (k : Kind) (out : list Packet) (m : t) : t :=
  m {{ ifaces := <[i := (address, k)]> (ifaces m); rx_recv := rx_recv m ++ map (mkRx address) out }}.

Definition step (e : Event) (m : t) : option t :=
  match e with
  | Spawn k => Some (spawn k m)
  | Accept i =>
      match ifaces m !! i with
      | Some (_, ServerTask s) =>
          match TcpServer.phase s with
          | TcpServer.Listening => Some (spawn (TcpTask (Task.new true)) m)
          | _ => None
          end
      | _ => None
      end
  | OnTcp i e =>
      match ifaces m !! i with
      | Some (address, TcpTask k) =>
          '(k, out) ← Tcp.task_step TCP_BUFFER (cancel m) e k; Some (update i address (TcpTask k) out m)
      | _ => None
      end
  | OnUdp i e =>
      match ifaces m !! i with
      | Some (address, UdpTask f k) =>
          '(k, out) ← Udp.task_step UDP_BUFFER f (cancel m) e k; Some (update i address (UdpTask f k) out m)
      | _ => None
      end
  | OnKaonic i e =>
      match ifaces m !! i with
      | Some (address, KaonicTask u k) =>
          '(k, out) ← KaonicGrpc.step TCP_BUFFER (fun _ => u) (cancel m) e k; Some (update i address (KaonicTask u k) out m)
      | _ => None
      end
  | OnServer i e =>
      match ifaces m !! i with
      | Some (address, ServerTask s) => s ← TcpServer.step (cancel m) e s; Some (update i address (ServerTask s) [] m)
      | _ => None
      end
  | Offer message => send message m
  | Cleanup => Some (cleanup m)
  | DropManager => Some (m {{ cancel := true }})
  end.

Fixpoint run (es : list Event) (m : t) : option t :=
  match es with
  | [] => Some m
  | e :: es => match step e m with Some m => run es m | None => None end
  end.

End Manager.
End InterfaceManager.

(** * A connection delivers *)

Section Delivers.
Context (B : nat).

Lemma read_bytes bytes : forall buf buf' ps,
  TcpClient.rx_bytes B bytes buf = Ok (buf', ps) <-> Tcp.read B bytes buf = (buf', ps, true).
Proof.
  induction bytes as [|b bytes IH]; intros buf buf' ps; cbn [TcpClient.rx_bytes Tcp.read].
  - split; intros [= -> ->]; done.
  - destruct (TcpClient.rx_byte B b buf) as [[b1 p1]|e]; cbn [mbind result_bind fst snd]; [|done].
    specialize (IH b1). destruct (TcpClient.rx_bytes B bytes b1) as [[b2 p2]|e]; cbn [mbind result_bind fst snd].
    + rewrite (proj1 (IH b2 p2) eq_refl). split; intros [= -> ->]; done.
    + destruct (Tcp.read B bytes b1) as [[b2 p2] []]; [|done]. discriminate (proj2 (IH b2 p2) eq_refl).
Qed.

Lemma read_panics bytes buf buf' ps : Tcp.read B bytes buf = (buf', ps, false) ->
  exists e, TcpClient.rx_bytes B bytes buf = Err e.
Proof.
  intros H. destruct (TcpClient.rx_bytes B bytes buf) as [[b1 p1]|e] eqn:E; [|by eexists].
  apply read_bytes in E. congruence.
Qed.

(** What a session has heard is what its reads give, unless they made it panic;
    and what it has written the frames of what it has taken. *)
Definition reads_ok (s : Session.t (list byte)) : Prop :=
  match Session.rx s with
  | RxPanicked => exists e, TcpClient.rx_bytes B (concat (Session.reads s)) (Tcp.init B) = Err e
  | _ => TcpClient.rx_bytes B (concat (Session.reads s)) (Tcp.init B) = Ok (Session.buffer s, Session.heard s)
  end.
Definition session_ok (s : Session.t (list byte)) : Prop :=
  reads_ok s /\ Session.written s = concat (map (Tcp.send B) (Session.taken s)).

Lemma session_step_ok cancel e s s' out : session_ok s -> Session.step (Tcp.read B) (Tcp.send B) cancel e s = Some (s', out) ->
  session_ok s' /\ Session.heard s' = Session.heard s ++ out.
Proof.
  intros [Hr Hw]. unfold session_ok, reads_ok, Session.step in *.
  destruct e as [bytes| | |packet|]; [destruct bytes as [|b bytes]| | | |].
  2: { case_bool_decide as Hrun; [|done]. rewrite Hrun in Hr.
    destruct (Tcp.read B (b :: bytes) (Session.buffer s)) as [[buf ps] ok] eqn:E. intros [= <- <-].
    destruct s as [r tx st bf rd hd tk wr]; cbn -[Tcp.read TcpClient.rx_bytes] in *. split; [split; [|done]|done].
    rewrite concat_app, rx_bytes_app, Hr. cbn [mbind result_bind fst snd concat]. rewrite app_nil_r. destruct ok.
    - apply read_bytes in E. by rewrite E.
    - apply read_panics in E as [e ->]. by exists e. }
  1-3: case_bool_decide as Hrun; [|done]; rewrite Hrun in Hr; try (destruct (cancel || Session.stop s); [|done]).
  4: destruct (Session.tx_running s); [|done].
  5: destruct (_ && _); [|done].
  all: intros [= <- <-]; rewrite app_nil_r; destruct s; cbn in *; subst; split_and!; try done.
  by rewrite map_app, concat_app; cbn [map concat]; rewrite app_nil_r.
Qed.

Lemma session_run_ok cancel es : forall s s', session_ok s -> Tcp.session_run B cancel es s = Some s' -> session_ok s'.
Proof.
  induction es as [|e es IH]; intros s s' Hs; cbn; [by intros [= <-]|].
  destruct (Session.step (Tcp.read B) (Tcp.send B) cancel e s) as [[s1 out]|] eqn:E; [|done].
  apply IH. by eapply session_step_ok.
Qed.

Lemma session_new_ok : session_ok (Tcp.session B).
Proof. by split. Qed.

(** The bytes of packets that can be framed. *)
Lemma sends_frames ps : Forall (fun p => wire_ok p /\ length (frame (wire p)) <= B) ps ->
  concat (concat (map (Tcp.send B) ps)) = concat (map (fun p => frame (wire p)) ps).
Proof.
  induction 1 as [|p ps [Hp Hl] _ IH]; [done|]. cbn [map concat]. unfold Tcp.send at 1. rewrite tx_frame by done.
  rewrite concat_app, IH. cbn. by rewrite app_nil_r.
Qed.

Lemma rx_prefix read rest buf buf' qs : TcpClient.rx_bytes B (read ++ rest) buf = Ok (buf', qs) ->
  exists b1 q1 q2, TcpClient.rx_bytes B read buf = Ok (b1, q1) /\ qs = q1 ++ q2 /\ (rest = [] -> q2 = []).
Proof.
  rewrite rx_bytes_app. destruct (TcpClient.rx_bytes B read buf) as [[b1 q1]|e]; cbn [mbind result_bind fst snd]; [|done].
  destruct (TcpClient.rx_bytes B rest b1) as [[b2 q2]|e] eqn:E; cbn [mbind result_bind fst snd]; [|done].
  intros [= <- <-]. exists b1, q1, q2. split_and!; [done..|]. intros ->. cbn in E. congruence.
Qed.

(** What one end has heard, when it has read a beginning of what the other wrote. *)
Lemma session_delivers (a b : Session.t (list byte)) rest : 1 <= B -> session_ok a -> session_ok b ->
  concat (Session.reads b) ++ rest = concat (Session.written a) ->
  Forall (fun p => wire_ok p /\ length (frame (wire p)) <= B) (Session.taken a) ->
  Session.rx b <> RxPanicked /\
  exists ps more, Session.taken a = ps ++ more /\ Forall2 equiv (Session.heard b) ps /\ (rest = [] -> more = []).
Proof.
  intros HB [_ Hw] [Hr _] Hread Hps.
  rewrite Hw, sends_frames in Hread by done.
  destruct (rx_bytes_frames B (Session.taken a) (Tcp.init B) Hps (rx_new_at B HB)) as (buf & qs & Hrx & Hq & _).
  rewrite <- Hread in Hrx. apply rx_prefix in Hrx as (b1 & q1 & q2 & H1 & -> & Hnil).
  unfold reads_ok in Hr. rewrite H1 in Hr. destruct (Session.rx b); [| |by destruct Hr]; (split; [done|]); injection Hr as _ <-.
  all: apply Forall2_app_inv_l in Hq as (ps & more & Hps1 & Hps2 & ->); exists ps, more; split_and!; [done..|].
  all: intros ->; rewrite (Hnil eq_refl) in Hps2; by inversion Hps2.
Qed.

End Delivers.

(** A TCP connection delivers.  Two ends of a connection run as they like,
    with packets taken, bytes written and bytes read in any pieces and in any
    order.  As long as what one end has read is a beginning of what the other has
    written, the packets it has heard are a beginning of those the other has
    taken, in order; and when it has read everything, they are all of them.  The
    receive task does not panic. *)
Theorem tcp_connection_delivers (B : nat) (ca cb : bool) (ea eb : list Session.Event) (a b : Session.t (list byte))
  (rest : list byte) (HB : 1 <= B)
  (Ha : Tcp.session_run B ca ea (Tcp.session B) = Some a) (Hb : Tcp.session_run B cb eb (Tcp.session B) = Some b)
  (Hread : concat (Session.reads b) ++ rest = concat (Session.written a))
  (Hps : Forall (fun p => wire_ok p /\ length (frame (wire p)) <= B) (Session.taken a)) :
  Session.rx b <> RxPanicked /\
  exists ps more, Session.taken a = ps ++ more /\ Forall2 equiv (Session.heard b) ps /\ (rest = [] -> more = []).
Proof.
  apply session_run_ok in Ha; [|apply session_new_ok]. apply session_run_ok in Hb; [|apply session_new_ok].
  by eapply session_delivers.
Qed.

Lemma tcp_connection_delivers_witness :
  exists a b, Tcp.session_run 64 false [Session.Send sample_packet; Session.Send sample_packet] (Tcp.session 64) = Some a /\
    Tcp.session_run 64 false [Session.Read (frame (wire sample_packet))] (Tcp.session 64) = Some b /\
    Session.rx b <> RxPanicked /\
    exists ps more, Session.taken a = ps ++ more /\ Forall2 equiv (Session.heard b) ps.
Proof.
  destruct (Tcp.session_run 64 false [Session.Send sample_packet; Session.Send sample_packet] (Tcp.session 64)) as [a|] eqn:Ea;
    [|vm_compute in Ea; discriminate Ea].
  destruct (Tcp.session_run 64 false [Session.Read (frame (wire sample_packet))] (Tcp.session 64)) as [b|] eqn:Eb;
    [|vm_compute in Eb; discriminate Eb].
  destruct (tcp_connection_delivers 64 false false _ _ a b (frame (wire sample_packet)) ltac:(lia) Ea Eb)
    as (Hr & ps & more & Ht & Hf & _).
  - vm_compute in Ea. injection Ea as <-. vm_compute in Eb. injection Eb as <-. vm_compute. reflexivity.
  - assert (Ht : Session.taken <$> Tcp.session_run 64 false [Session.Send sample_packet; Session.Send sample_packet]
      (Tcp.session 64) = Some [sample_packet; sample_packet]) by reflexivity.
    rewrite Ea in Ht. injection Ht as ->.
    assert (Hok : wire_ok sample_packet /\ length (frame (wire sample_packet)) <= 64)
      by (split; [exact sample_packet_ok|vm_compute; lia]).
    constructor; [exact Hok|]. constructor; [exact Hok|]. constructor.
  - exists a, b. split; [reflexivity|]. split; [reflexivity|]. split; [exact Hr|]. exists ps, more. split; [exact Ht|exact Hf].
Defined.

(** * The life of a task *)

Section Life.
Context (B : nat).
Implicit Types k : Task.t (list byte).

(** A session in which the receiver has ended and nobody has cancelled the
    token: the transmit task waits for ever. *)
Definition hung (s : Session.t (list byte)) : Prop :=
  Session.rx s <> RxRunning /\ Session.tx_running s = true /\ Session.stop s = false.

Lemma hung_step e s s' out : hung s -> Session.step (Tcp.read B) (Tcp.send B) false e s = Some (s', out) ->
  hung s' /\ Session.heard s' = Session.heard s.
Proof.
  intros (Hr & Ht & Hs). unfold hung, Session.step. rewrite bool_decide_false by done. rewrite Ht, Hs.
  destruct e; cbn [andb orb]; try done. intros [= <- _]. by destruct s.
Qed.

(** What can happen to a connected task. *)
Lemma connected_step cancel e k s k' out : Task.phase k = Task.Connected s ->
  Tcp.task_step B cancel e k = Some (k', out) ->
  Task.stream k' = Task.stream k /\ Task.running k' = Task.running k /\
  (Session.over s = true /\ (Task.phase k' = Task.Idle \/ Task.phase k' = Task.Crashed) /\ out = [] \/
   exists e' s', Session.step (Tcp.read B) (Tcp.send B) cancel e' s = Some (s', out) /\ Task.phase k' = Task.Connected s').
Proof.
  intros Hk. unfold Tcp.task_step, Task.step. rewrite Hk.
  destruct e as [|ok| |e|]; [done..| | |].
  - destruct (Task.channel k) as [|packet rest]; [done|].
    destruct (Session.step _ _ cancel (Session.Send packet) s) as [[s1 o]|] eqn:E; cbn [mbind option_bind]; [|done].
    intros [= <- <-]. destruct k. split_and!; try done. right. by exists (Session.Send packet), s1.
  - destruct e as [bytes| | |p|]; [..|done|];
      match goal with |- context [Session.step _ _ _ ?e' _] =>
        destruct (Session.step (Tcp.read B) (Tcp.send B) cancel e' s) as [[s1 o]|] eqn:E end;
      cbn [mbind option_bind]; try done; intros [= <- <-]; destruct k; split_and!; try done; right; eauto.
  - destruct (Session.over s); [|done]. intros [= <- <-]. destruct k. split_and!; try done. left. split_and!; try done.
    case_bool_decide; auto.
Qed.

Lemma hung_task es : forall k s k2, Task.phase k = Task.Connected s -> hung s -> Tcp.task_run B false es k = Some k2 ->
  exists s2, Task.phase k2 = Task.Connected s2 /\ hung s2 /\ Session.heard s2 = Session.heard s.
Proof.
  induction es as [|e es IH]; intros k s k2 Hk Hs; cbn; [intros [= <-]; by exists s|].
  fold (Tcp.task_step B). destruct (Tcp.task_step B false e k) as [[k1 out]|] eqn:E; [|done].
  destruct (connected_step _ _ _ _ _ _ Hk E) as (_ & _ & [[Ho _]|(e' & s1 & Hs1 & Hk1)]).
  - unfold Session.over in Ho. destruct Hs as (_ & Ht & _). by rewrite Ht, andb_false_r in Ho.
  - destruct (hung_step _ _ _ _ Hs Hs1) as [H1 H2]. intros Hrun.
    destruct (IH _ s1 k2 Hk1 H1 Hrun) as (s2 & ? & ? & ?). exists s2. split_and!; congruence.
Qed.

(** An accepted connection is used once, a connecting client goes on until it is
    cancelled. *)
Record task_ok (cancel : bool) k : Prop := {
  to_stream : Task.stream k = true -> Task.running k = true /\ (Task.phase k = Task.Idle \/ Task.phase k = Task.Ended);
  to_ended : Task.phase k = Task.Ended -> Task.running k = false \/ cancel = true;
  to_channel : length (Task.channel k) <= 1
}.

(** A task only takes from its channel. *)
Lemma task_step_channel cancel e k k' out : Tcp.task_step B cancel e k = Some (k', out) ->
  length (Task.channel k') <= length (Task.channel k).
Proof.
  unfold Tcp.task_step, Task.step. destruct (Task.phase k) as [|s| |], e as [|ok| |e|]; try done.
  - destruct (_ || _); [|done]. intros [= <- _]. by destruct k.
  - destruct (_ || _); [done|]. destruct (Task.stream k), ok; intros [= <- _]; by destruct k.
  - destruct (Task.channel k) as [|p rest] eqn:Ek; [done|].
    destruct (Session.step _ _ _ _ s) as [[s1 o]|]; cbn [mbind option_bind]; [|done]. intros [= <- _].
    destruct k; cbn in *. unfold constant. lia.
  - destruct e; try done; destruct (Session.step _ _ _ _ s) as [[s1 o]|]; cbn [mbind option_bind]; try done;
      intros [= <- _]; by destruct k.
  - destruct (Session.over s); [|done]. intros [= <- _]. by destruct k.
Qed.

Lemma task_step_ok cancel e k k' out : task_ok cancel k -> Tcp.task_step B cancel e k = Some (k', out) -> task_ok cancel k'.
Proof.
  intros [Hs He Hc] Hstep.
  assert (Hch : length (Task.channel k') <= length (Task.channel k)) by (by eapply task_step_channel).
  destruct (Task.phase k) as [|s| |] eqn:Hk.
  2: { destruct (connected_step _ _ _ _ _ _ Hk Hstep) as (E1 & E2 & Hcase). constructor; [| |lia].
    - rewrite E1. intros H. by destruct (Hs H) as [_ [|]].
    - intros H. destruct Hcase as [(_ & [|] & _)|(? & ? & _ & ?)]; congruence. }
  all: revert Hstep; unfold Tcp.task_step, Task.step; rewrite Hk; destruct e as [|ok| |e|]; try done.
  - destruct (negb (Task.running k) || cancel) eqn:Hend; [|done]. intros [= <- _].
    destruct k as [[] [] ph ch]; cbn in *; constructor; cbn; auto; intros; destruct (Hs eq_refl) as [? _]; done.
  - destruct (negb (Task.running k) || cancel) eqn:Hend; [done|].
    destruct k as [[] [] ph ch], ok; cbn in *; intros [= <- _]; constructor; cbn; auto; try done; congruence.
Qed.

Lemma task_run_ok cancel es : forall k k', task_ok cancel k -> Tcp.task_run B cancel es k = Some k' -> task_ok cancel k'.
Proof.
  induction es as [|e es IH]; intros k k' Hk; cbn; [by intros [= <-]|]. fold (Tcp.task_step B).
  destruct (Tcp.task_step B cancel e k) as [[k1 out]|] eqn:E; [|done]. apply IH. by eapply task_step_ok.
Qed.

(** Once the manager is gone, the tasks of an interface come to their end. *)
Lemma task_ends k : exists es k', length es <= 4 /\ Tcp.task_run B true es k = Some k' /\
  (Task.phase k' = Task.Ended \/ Task.phase k' = Task.Crashed).
Proof.
  destruct k as [st ru ph ch]. destruct ph as [|s| |].
  - exists [Task.LoopEnds]. eexists. split; [cbn; lia|]. cbn. rewrite orb_true_r. split; [reflexivity|]. by left.
  - assert (Hrest : forall s', Session.over s' = true -> exists es k', length es <= 2 /\
      Tcp.task_run B true es (Task.mk st ru (Task.Connected s') ch) = Some k' /\
      (Task.phase k' = Task.Ended \/ Task.phase k' = Task.Crashed)).
    { intros s' Ho. destruct (decide (Session.rx s' = RxPanicked)) as [Hp|Hp].
      - exists [Task.Disconnected]. eexists. split; [cbn; lia|]. cbn. rewrite Ho, bool_decide_true by done.
        split; [reflexivity|]. by right.
      - exists [Task.Disconnected; Task.LoopEnds]. eexists. split; [cbn; lia|]. cbn. rewrite Ho, bool_decide_false by done.
        cbn. rewrite orb_true_r. split; [reflexivity|]. by left. }
    destruct s as [rx tx stop buf rd hd tk wr]. destruct (Hrest (Session.mk (if bool_decide (rx = RxRunning) then RxEnded else rx)
      false stop buf rd hd tk wr)) as (es & k' & Hl & Hr & He).
    { unfold Session.over. cbn. by destruct rx. }
    exists ((if bool_decide (rx = RxRunning) then [Task.InSession Session.RxStops] else [])
      ++ (if tx then [Task.InSession Session.TxStops] else []) ++ es), k'.
    rewrite !length_app. split; [destruct (bool_decide _), tx; cbn; lia|]. split; [|done].
    destruct rx, tx; cbn in *; exact Hr.
  - exists []. eexists. split; [cbn; lia|]. split; [reflexivity|]. by left.
  - exists []. eexists. split; [cbn; lia|]. split; [reflexivity|]. by right.
Qed.

End Life.

(** A reset connection is never given up.  When reading from the socket fails,
    the receive task ends without cancelling the token that the transmit task
    waits for, and the task waits for both: whatever happens afterwards, short of
    the end of the manager, the task stays in that connection, hears nothing and
    does not connect again.  After a connection that the other side closed, the
    transmit task stops and the client connects again. *)
Theorem read_error_hangs (B : nat) (k k1 k2 : Task.t (list byte)) (s : Session.t (list byte)) (out : list Packet)
  (es : list Task.Event) (Hk : Task.phase k = Task.Connected s) (Htx : Session.tx_running s = true)
  (Hstop : Session.stop s = false)
  (Herror : Tcp.task_step B false (Task.InSession Session.ReadError) k = Some (k1, out))
  (Hrun : Tcp.task_run B false es k1 = Some k2) :
  (exists s2, Task.phase k2 = Task.Connected s2 /\ Session.rx s2 <> RxRunning /\ Session.over s2 = false /\
    Session.heard s2 = Session.heard s) /\
  (Session.rx s = RxRunning -> Task.phase <$> Tcp.task_run B false [Task.InSession (Session.Read []); Task.InSession Session.TxStops;
     Task.Disconnected] k = Some Task.Idle).
Proof.
  split.
  - revert Herror. unfold Tcp.task_step, Task.step. rewrite Hk. cbn [Session.step].
    case_bool_decide as Hrx; [|done]. cbn [mbind option_bind]. intros [= <- _].
    destruct (hung_task B es (Task.mk (Task.stream k) (Task.running k)
      (Task.Connected (Session.mk RxEnded (Session.tx_running s) (Session.stop s) (Session.buffer s) (Session.reads s)
         (Session.heard s) (Session.taken s) (Session.written s))) (Task.channel k)) _ k2 eq_refl) as (s2 & H1 & (H2 & H3 & _) & H4).
    + by split_and!.
    + by destruct k, s.
    + exists s2. split_and!; try done. unfold Session.over. by rewrite H3, andb_false_r.
  - intros Hrx. destruct k as [st ru ph ch], s as [rx tx stop buf rd hd tk wr]. cbn in *. by subst.
Qed.

Definition connected_client : Task.t (list byte) := Task.mk false true (Task.Connected (Tcp.session 64)) [].

Lemma read_error_hangs_witness : exists k2 s2,
  Tcp.task_run 64 false [Task.InSession Session.ReadError] connected_client = Some k2 /\
  Task.phase k2 = Task.Connected s2 /\ Session.over s2 = false.
Proof.
  destruct (Tcp.task_step 64 false (Task.InSession Session.ReadError) connected_client) as [[k1 out]|] eqn:E;
    [|discriminate E].
  destruct (read_error_hangs 64 connected_client k1 k1 (Tcp.session 64) out [] eq_refl eq_refl eq_refl E eq_refl)
    as [(s2 & H1 & _ & H2 & _) _].
  exists k1, s2. split; [|split; [exact H1|exact H2]].
  injection E as <- _. reflexivity.
Defined.

(** * The manager *)

Section Managed.
Context `{C : Crypto}.
Context (TB UB : nat).
Import InterfaceManager.
Implicit Types m : InterfaceManager.t.

(** What [spawn] is called with. *)
Definition fresh_kind (k : Kind) : Prop :=
  match k with
  | TcpTask k => exists with_stream, k = Task.new with_stream
  | UdpTask _ k => k = Task.new false
  | KaonicTask _ k => exists addr c queue, k = KaonicGrpc.new addr c queue
  | ServerTask s => s = TcpServer.new
  end.
Definition fresh_event (e : Event) : Prop := match e with Spawn k => fresh_kind k | _ => True end.

Definition kind_ok (cancel : bool) (k : Kind) : Prop :=
  match k with
  | TcpTask k => task_ok cancel k
  | KaonicTask _ k => (length (KaonicGrpc.channel k) <= 1)%nat
  | _ => True
  end.

Local Open Scope Z_scope.

Definition numbered (n : Z) (l : list (AddressHash * Kind)) : Prop := exists counters,
  Forall2 (fun iface c => iface.1 = RnsNodeRouter.interface_address c) l counters /\ NoDup counters /\
  Forall (fun c => 0 < c <= n) counters.

Record managed (n : nat) m : Prop := {
  mg_count : 0 <= counter m <= Z.of_nat n;
  mg_numbered : numbered (counter m) (ifaces m);
  mg_kinds : Forall (fun iface => kind_ok (cancel m) iface.2) (ifaces m);
  mg_heard : Forall (fun msg => exists c, 0 < c <= counter m /\ rx_address msg = RnsNodeRouter.interface_address c) (rx_recv m)
}.

Lemma fresh_kind_ok cancel k : fresh_kind k -> kind_ok cancel k.
Proof.
  destruct k; cbn; try done; [|intros (? & ? & ? & ->); cbn; lia]. intros [b ->]. constructor; cbn; auto; try done.
Qed.

Lemma numbered_filter n (f : AddressHash * Kind -> Prop) `{forall x, Decision (f x)} l :
  numbered n l -> numbered n (filter f l).
Proof.
  intros (cs & Hl & Hnd & Hc). assert (Hsub : exists cs', Forall2 (fun iface c => iface.1 = RnsNodeRouter.interface_address c)
    (filter f l) cs' /\ sublist cs' cs).
  { clear Hnd Hc. induction Hl as [|x c l cs Hx _ (cs' & IH & Hsub)]; [by exists []|]. rewrite filter_cons.
    destruct (decide (f x)); [exists (c :: cs'); by split; constructor|exists cs'; split; [done|by constructor]]. }
  destruct Hsub as (cs' & Hf & Hsub). exists cs'. split_and!; [done|by eapply sublist_NoDup|]. rewrite Forall_forall in *.
  intros c Hin. apply Hc. by eapply elem_of_sublist.
Qed.

Lemma numbered_insert n l i address k k' : l !! i = Some (address, k) -> numbered n l -> numbered n (<[i := (address, k')]> l).
Proof.
  intros Hi (cs & Hl & Hrest). exists cs. split; [|done]. destruct (Forall2_lookup_l _ _ _ _ _ Hl Hi) as (c & Hc & Hx).
  rewrite <- (list_insert_id cs i c Hc). by apply Forall2_insert.
Qed.

Lemma update_managed n m i address k k' out : managed n m -> ifaces m !! i = Some (address, k) -> kind_ok (cancel m) k' ->
  managed n (update i address k' out m).
Proof.
  intros [Hc Hn Hk Hh] Hi Hk'. constructor; [done| | |].
  - by eapply numbered_insert.
  - apply Forall_insert; [done|done].
  - destruct Hn as (cs & Hl & _ & Hcs). destruct (Forall2_lookup_l _ _ _ _ _ Hl Hi) as (c & Hlc & Hx).
    apply Forall_app. split; [done|]. apply Forall_map, Forall_true. intros p. exists c. split; [|done].
    rewrite Forall_forall in Hcs. by apply Hcs, list_elem_of_lookup_2 with i.
Qed.

Lemma spawn_managed n m k : managed n m -> Z.of_nat (S n) < 2 ^ 64 -> kind_ok (cancel m) k -> managed (S n) (spawn k m).
Proof.
  intros [Hc Hn Hk Hh] Hlt Hok. unfold spawn, new_channel. destruct m as [c l rx ca]. cbn in *.
  rewrite Z.mod_small by lia. constructor; cbn; unfold constant.
  - lia.
  - destruct Hn as (cs & Hl & Hnd & Hcs). exists (cs ++ [c + 1]). split_and!.
    + apply Forall2_app; [done|]. by repeat constructor.
    + apply NoDup_app. split_and!; [done| |apply NoDup_singleton]. intros x Hx ->%list_elem_of_singleton.
      rewrite Forall_forall in Hcs. specialize (Hcs _ Hx). lia.
    + apply Forall_app. split; [eapply Forall_impl; [done|]; cbn; lia|]. repeat constructor; lia.
  - apply Forall_app. by repeat constructor.
  - eapply Forall_impl; [done|]. intros msg (x & Hx & Ha). exists x. split; [lia|done].
Qed.

Lemma managed_more n n' m : (n <= n')%nat -> managed n m -> managed n' m.
Proof. intros Hle [Hc Hn Hk Hh]. constructor; [lia|done..]. Qed.

(** A message is put into a channel that was empty. *)
Lemma offer_one_ok message iface iface' cancel : offer_one message iface = Some iface' -> kind_ok cancel iface.2 ->
  iface'.1 = iface.1 /\ kind_ok cancel iface'.2.
Proof.
  unfold offer_one. destruct (Transport.should_send _ _); [|by intros [= <-]].
  destruct (channel iface.2) as [|p rest] eqn:E; [|done]. intros [= <-] Hk. split; [done|].
  destruct iface as [a [k|f k|u k|s]]; cbn in *; try done; [|destruct k; cbn in *; unfold constant; by subst].
  destruct Hk as [Hs He Hc]. constructor; destruct k; cbn in *; try done.
  unfold constant. subst. done.
Qed.

Lemma offer_all_ok message cancel n l : forall l', mapM (offer_one message) l = Some l' ->
  Forall (fun iface => kind_ok cancel iface.2) l -> numbered n l ->
  Forall (fun iface => kind_ok cancel iface.2) l' /\ numbered n l'.
Proof.
  intros l' Hm%mapM_Some Hk (cs & Hl & Hrest). assert (H : Forall (fun iface => kind_ok cancel iface.2) l' /\
    Forall2 (fun iface c => iface.1 = RnsNodeRouter.interface_address c) l' cs).
  { clear Hrest. revert cs Hl Hk. induction Hm as [|x y l l' Hxy _ IH]; intros cs Hl Hk; [by inversion Hl|].
    inversion Hl as [|? c ? cs' Hx Hl']; subst. apply Forall_cons in Hk as [Hkx Hk].
    destruct (offer_one_ok _ _ _ cancel Hxy Hkx) as [E1 E2]. destruct (IH cs' Hl' Hk) as [F1 F2].
    split; constructor; try done. congruence. }
  destruct H as [H1 H2]. split; [done|]. by exists cs.
Qed.

Lemma step_managed n e m m' : managed n m -> Z.of_nat (S n) < 2 ^ 64 -> fresh_event e -> step TB UB e m = Some m' ->
  managed (S n) m'.
Proof.
  intros Hm Hlt Hf. assert (Hm1 : managed (S n) m) by (eapply managed_more; [|done]; lia).
  destruct e as [k|i|i e|i e|i e|i e|message| |]; cbn [step].
  - intros [= <-]. apply spawn_managed; [done..|]. by apply fresh_kind_ok.
  - destruct (ifaces m !! i) as [[a [k|f k|u k|s]]|]; try done. destruct (TcpServer.phase s); try done. intros [= <-].
    apply spawn_managed; [done..|]. apply fresh_kind_ok. by exists true.
  - destruct (ifaces m !! i) as [[a [k|f k|u k|s]]|] eqn:Hi; try done.
    destruct (Tcp.task_step TB (cancel m) e k) as [[k' out]|] eqn:E; cbn [mbind option_bind]; [|done]. intros [= <-].
    eapply update_managed; [done..|]. cbn. eapply task_step_ok; [|exact E].
    pose proof (mg_kinds _ _ Hm) as Hk. rewrite Forall_forall in Hk. apply (Hk (a, TcpTask k)).
    by eapply list_elem_of_lookup_2.
  - destruct (ifaces m !! i) as [[a [k|f k|u k|s]]|] eqn:Hi; try done.
    destruct (Udp.task_step UB f (cancel m) e k) as [[k' out]|]; cbn [mbind option_bind]; [|done]. intros [= <-].
    by eapply update_managed.
  - destruct (ifaces m !! i) as [[a [k|f k|u k|s]]|] eqn:Hi; try done.
    destruct (KaonicGrpc.step TB _ (cancel m) e k) as [[k' out]|] eqn:E; cbn [mbind option_bind]; [|done]. intros [= <-].
    eapply update_managed; [done..|]. cbn. apply step_channel in E.
    pose proof (mg_kinds _ _ Hm) as Hk. rewrite Forall_forall in Hk.
    specialize (Hk (a, KaonicTask u k) ltac:(by eapply list_elem_of_lookup_2)). cbn in Hk. lia.
  - destruct (ifaces m !! i) as [[a [k|f k|u k|s]]|] eqn:Hi; try done.
    destruct (TcpServer.step (cancel m) e s) as [s'|]; cbn [mbind option_bind]; [|done]. intros [= <-].
    by eapply update_managed.
  - unfold send. destruct (mapM (offer_one message) (ifaces m)) as [l'|] eqn:E; cbn [mbind option_bind]; [|done]. intros [= <-].
    destruct Hm1 as [Hc Hn Hk Hh]. destruct (offer_all_ok _ _ _ _ _ E Hk Hn) as [F1 F2].
    by constructor; destruct m.
  - intros [= <-]. destruct Hm1 as [Hc Hn Hk Hh]. constructor; [done|by apply numbered_filter| |done].
    rewrite Forall_forall in *. intros x [_ Hx]%list_elem_of_filter. by apply Hk.
  - intros [= <-]. destruct Hm1 as [Hc Hn Hk Hh]. constructor; [by destruct m..| |by destruct m].
    destruct m as [c l rx ca]; cbn in *. unfold constant. eapply Forall_impl; [done|]. intros [a [k|f k|u k|s]]; try done. cbn.
    intros [Hs He Hl]. constructor; try done. auto.
Qed.

Lemma run_managed es : forall n m m', managed n m -> Z.of_nat (n + length es) < 2 ^ 64 -> Forall fresh_event es ->
  run TB UB es m = Some m' -> managed (n + length es) m'.
Proof.
  induction es as [|e es IH]; intros n m m' Hm Hlt Hf; cbn [run length]; [intros [= <-]; by rewrite Nat.add_0_r|].
  apply Forall_cons in Hf as [He Hf]. destruct (step TB UB e m) as [m1|] eqn:E; [|done].
  rewrite <- Nat.add_succ_comm. apply IH; [|cbn in Hlt; lia|done]. eapply step_managed; [done|cbn in Hlt; lia|done..].
Qed.

Lemma new_managed : managed 0 new.
Proof. constructor; cbn; [lia| |constructor..]. exists []. split_and!; constructor. Qed.

(** The manager's clean-up is the transport's. *)
Lemma cleanup_local m : map local (ifaces (cleanup m)) = Transport.cleanup (map local (ifaces m)).
Proof.
  unfold cleanup, Transport.cleanup. destruct m as [c l rx ca]. cbn. unfold constant.
  induction l as [|x l IH]; [done|]. cbn [map]. rewrite !filter_cons. cbn [local if_stopped].
  destruct (decide (stopped x.2 = false)); cbn [map]; by rewrite IH.
Qed.

End Managed.

(** C21. The interfaces of a manager.  Whatever is spawned, accepted, connected,
    transmitted, cleaned up and cancelled, in any order: every interface has the
    address of a counter of its own; every packet handed to the transport carries
    the address of an interface that existed; a client or a radio has at most one
    message waiting, and a client ends only if it served an accepted connection or
    the manager was dropped; and once the manager is dropped every client can come
    to its end, in at most four steps of its own, and every radio in five.  Cleaning up removes exactly the
    interfaces the transport no longer sends to. *)
Theorem interfaces_managed `{Crypto} (TB UB : nat) (es : list InterfaceManager.Event) (m : InterfaceManager.t)
  (Hlen : (Z.of_nat (length es) < 2 ^ 64)%Z) (Hfresh : Forall fresh_event es)
  (Hrun : InterfaceManager.run TB UB es InterfaceManager.new = Some m) :
  numbered (InterfaceManager.counter m) (InterfaceManager.ifaces m) /\
  (forall a k, (a, InterfaceManager.TcpTask k) ∈ InterfaceManager.ifaces m ->
     task_ok (InterfaceManager.cancel m) k /\
     (InterfaceManager.cancel m = true -> exists es' k', length es' <= 4 /\
        Tcp.task_run TB true es' k = Some k' /\ (Task.phase k' = Task.Ended \/ Task.phase k' = Task.Crashed))) /\
  (forall a u k, (a, InterfaceManager.KaonicTask u k) ∈ InterfaceManager.ifaces m -> length (KaonicGrpc.channel k) <= 1 /\
     (InterfaceManager.cancel m = true -> exists es' k', length es' <= 5 /\
        KaonicGrpc.run TB (fun _ => u) true es' k = Some (k', []) /\
        (KaonicGrpc.phase k' = KaonicGrpc.Ended \/ KaonicGrpc.phase k' = KaonicGrpc.Crashed))) /\
  Forall (fun msg => exists c, (0 < c <= InterfaceManager.counter m)%Z /\ rx_address msg = RnsNodeRouter.interface_address c)
    (InterfaceManager.rx_recv m) /\
  map InterfaceManager.local (InterfaceManager.ifaces (InterfaceManager.cleanup m)) =
    Transport.cleanup (map InterfaceManager.local (InterfaceManager.ifaces m)).
Proof.
  destruct (run_managed TB UB es 0 _ m new_managed Hlen Hfresh Hrun) as [Hc Hn Hk Hh]. split_and!; [done| | |done|apply cleanup_local].
  - intros a k Hin. rewrite Forall_forall in Hk. split; [exact (Hk _ Hin)|]. intros _. apply task_ends.
  - intros a u k Hin. rewrite Forall_forall in Hk. split; [exact (Hk _ Hin)|]. intros _. apply radio_ends.
Qed.

#[local] Existing Instance toy_crypto.

Definition sample_events : list InterfaceManager.Event :=
  [InterfaceManager.Spawn (InterfaceManager.ServerTask TcpServer.new);
   InterfaceManager.OnServer 0 (TcpServer.Bind true); InterfaceManager.Accept 0;
   InterfaceManager.OnTcp 1 (Task.Connect true); InterfaceManager.OnTcp 1 (Task.InSession (Session.Read []));
   InterfaceManager.DropManager].

Lemma interfaces_managed_witness : exists m, InterfaceManager.run 64 64 sample_events InterfaceManager.new = Some m /\
  numbered (InterfaceManager.counter m) (InterfaceManager.ifaces m) /\ length (InterfaceManager.ifaces m) = 2.
Proof.
  destruct (InterfaceManager.run 64 64 sample_events InterfaceManager.new) as [m|] eqn:E; [|vm_compute in E; discriminate E].
  exists m. split; [reflexivity|].
  assert (Hf : Forall fresh_event sample_events) by (repeat constructor).
  split; [exact (proj1 (interfaces_managed 64 64 sample_events m eq_refl Hf E))|].
  vm_compute in E. injection E as <-. reflexivity.
Defined.

(** * A client without a connection *)

Section Blocked.
Context `{C : Crypto}.
Context (TB UB : nat).
Import InterfaceManager.

(** A client that is trying to connect, with a message waiting. *)
Definition waiting_client (k : Task.t (list byte)) : Prop :=
  Task.phase k = Task.Idle /\ Task.running k = true /\ Task.stream k = false /\ Task.channel k <> [].
Definition blocked (m : InterfaceManager.t) : Prop :=
  cancel m = false /\ exists a k, (a, TcpTask k) ∈ ifaces m /\ waiting_client k.

(** No client gets a connection, and the manager is not dropped. *)
Definition no_connection (e : Event) : Prop :=
  match e with OnTcp _ (Task.Connect true) | DropManager => False | _ => True end.

Lemma waiting_step e k k' out : waiting_client k -> (forall ok, e = Task.Connect ok -> ok = false) ->
  Tcp.task_step TB false e k = Some (k', out) -> k' = k.
Proof.
  intros (Hp & Hr & Hs & _) Hc. unfold Tcp.task_step, Task.step. rewrite Hp, Hr, Hs. cbn [negb orb].
  destruct e as [|ok| |e|]; try done. rewrite (Hc ok eq_refl). congruence.
Qed.

Lemma blocked_send m packet : blocked m -> send (mkTx (TxBroadcast None) packet) m = None.
Proof.
  intros (_ & a & k & Hin & Hp & _ & _ & Hch). unfold send.
  destruct (mapM (offer_one (mkTx (TxBroadcast None) packet)) (ifaces m)) as [l|] eqn:E; [|done]. exfalso.
  apply mapM_Some in E. apply list_elem_of_lookup in Hin as [i Hi].
  destruct (Forall2_lookup_l _ _ _ _ _ E Hi) as (y & _ & Hy). revert Hy. unfold offer_one. cbn. rewrite Hp.
  destruct (Task.channel k); [done|]. done.
Qed.

Lemma insert_keeps {A} (l : list A) i j x y z : l !! i = Some x -> l !! j = Some y -> (i = j -> z = x) ->
  <[j := z]> l !! i = Some x.
Proof.
  intros Hi Hj Hz. destruct (decide (i = j)) as [->|Hne]; [|by rewrite list_lookup_insert_ne].
  rewrite list_lookup_insert_eq by (by eapply lookup_lt_Some). f_equal. by apply Hz.
Qed.

Lemma blocked_step e m m' : blocked m -> no_connection e -> step TB UB e m = Some m' -> blocked m'.
Proof.
  intros (Hca & a & k & Hin & Hw) Hn.
  assert (Hput : forall j b q q' out, ifaces m !! j = Some (b, q) -> (q = TcpTask k -> q' = TcpTask k) ->
    blocked (update j b q' out m)).
  { intros j b q q' out Hj Hq. apply list_elem_of_lookup in Hin as [i Hi]. split; [by destruct m|]. exists a, k.
    split; [|done]. apply list_elem_of_lookup. exists i. unfold update. destruct m as [c l rx ca]. cbn in *. unfold constant.
    eapply insert_keeps; [done..|]. intros ->. rewrite Hi in Hj. injection Hj as <- <-. by rewrite (Hq eq_refl). }
  destruct e as [q|i|i e|i e|i e|i e|message| |]; cbn [step]; [| | | | | | | |done].
  - intros [= <-]. split; [by destruct m|]. exists a, k. split; [|done]. destruct m. cbn. apply elem_of_app. by left.
  - destruct (ifaces m !! i) as [[b [q|f q|u q|s]]|]; try done. destruct (TcpServer.phase s); try done. intros [= <-].
    split; [by destruct m|]. exists a, k. split; [|done]. destruct m. cbn. apply elem_of_app. by left.
  - destruct (ifaces m !! i) as [[b [q|f q|u q|s]]|] eqn:Hi; try done. rewrite Hca.
    destruct (Tcp.task_step TB false e q) as [[q' out]|] eqn:E; cbn [mbind option_bind]; [|done]. intros [= <-].
    eapply Hput; [done|]. intros [= ->]. f_equal. eapply waiting_step; [done| |exact E]. intros [] ->; done.
  - destruct (ifaces m !! i) as [[b [q|f q|u q|s]]|] eqn:Hi; try done.
    destruct (Udp.task_step UB f (cancel m) e q) as [[q' out]|]; cbn [mbind option_bind]; [|done]. intros [= <-].
    by eapply Hput.
  - destruct (ifaces m !! i) as [[b [q|f q|u q|s]]|] eqn:Hi; try done.
    destruct (KaonicGrpc.step TB _ (cancel m) e q) as [[q' out]|]; cbn [mbind option_bind]; [|done]. intros [= <-].
    by eapply Hput.
  - destruct (ifaces m !! i) as [[b [q|f q|u q|s]]|] eqn:Hi; try done.
    destruct (TcpServer.step (cancel m) e s) as [s'|]; cbn [mbind option_bind]; [|done]. intros [= <-].
    by eapply Hput.
  - unfold send. destruct (mapM (offer_one message) (ifaces m)) as [l|] eqn:E; cbn [mbind option_bind]; [|done]. intros [= <-].
    apply mapM_Some in E. apply list_elem_of_lookup in Hin as [i Hi]. destruct (Forall2_lookup_l _ _ _ _ _ E Hi) as (y & Hy & Ho).
    assert (y = (a, TcpTask k)) as ->.
    { revert Ho. unfold offer_one. destruct (Transport.should_send _ _); [|congruence]. cbn. destruct Hw as (_ & _ & _ & Hch).
      by destruct (Task.channel k). }
    split; [by destruct m|]. exists a, k. split; [|done]. destruct m. cbn. by eapply list_elem_of_lookup_2.
  - intros [= <-]. split; [by destruct m|]. exists a, k. split; [|done]. destruct m as [c l rx ca]. cbn. unfold constant.
    apply list_elem_of_filter. split; [|done]. cbn. by destruct Hw as (-> & _).
Qed.

Lemma blocked_run es : forall m m', blocked m -> Forall no_connection es -> run TB UB es m = Some m' -> blocked m'.
Proof.
  induction es as [|e es IH]; intros m m' Hm Hes; cbn [run]; [by intros [= <-]|]. apply Forall_cons in Hes as [He Hes].
  destruct (step TB UB e m) as [m1|] eqn:E; [|done]. apply IH; [|done]. by eapply blocked_step.
Qed.

End Blocked.

(** C40. One host that cannot be reached stops all sending.  The channel of an
    interface holds one message, and a client that is trying to connect does not
    empty it: as long as no connection is made, whatever else happens, every
    further broadcast waits at that client's channel, so that no interface after
    it gets the message and the caller, who holds the transport, does not go on. *)
Theorem unreachable_host_blocks `{Crypto} (TB UB : nat) (es : list InterfaceManager.Event) (m m' : InterfaceManager.t)
  (packet : Packet) (Hblocked : blocked m) (Hes : Forall no_connection es)
  (Hrun : InterfaceManager.run TB UB es m = Some m') :
  InterfaceManager.step TB UB (InterfaceManager.Offer (mkTx (TxBroadcast None) packet)) m' = None.
Proof. cbn [InterfaceManager.step]. apply blocked_send. by eapply blocked_run. Qed.

Definition waiting_manager : InterfaceManager.t :=
  InterfaceManager.mk 1
    [(RnsNodeRouter.interface_address 1, InterfaceManager.TcpTask (Task.mk false true Task.Idle [sample_packet]))] [] false.

Lemma unreachable_host_blocks_witness :
  InterfaceManager.run 64 64 [InterfaceManager.Spawn (InterfaceManager.TcpTask (Task.new false));
    InterfaceManager.Offer (mkTx (TxBroadcast None) sample_packet)] InterfaceManager.new = Some waiting_manager /\
  InterfaceManager.step 64 64 (InterfaceManager.Offer (mkTx (TxBroadcast None) sample_packet)) waiting_manager = None.
Proof.
  split; [reflexivity|].
  apply (unreachable_host_blocks 64 64 [InterfaceManager.OnTcp 0 (Task.Connect false)] waiting_manager waiting_manager sample_packet).
  - split; [reflexivity|]. exists (RnsNodeRouter.interface_address 1), (Task.mk false true Task.Idle [sample_packet]).
    split; [by left|]. split_and!; [reflexivity..|discriminate].
  - repeat constructor.
  - reflexivity.
Defined.
