(* ===== verification/Network.v ===== *)
(** A transport at work: [manage_transport] of [reticulum-patched/src/transport.rs]
    and [Transport::new], that is [Transport] over [Interfaces].

    Five tasks run: one takes the packets the interfaces have received, four
    wait for a timer.  Each works under the lock of the handler, and sending a
    packet waits, with the locks of the handler and of the interface manager, for
    room in the channel of each interface.  So while [sending] holds sends that
    have not gone through, no other task and no request of the application
    begins, and no interface is added; the tasks of the interfaces go on.  A
    panic ends the task in which it happens. *)

From Stdlib Require Import ZArith Lia.
From Stdlib Require Import Strings.Byte.
From stdpp Require Import base gmap numbers relations list.
From coqutil Require Import Datatypes.RecordSetters.
From S2P Require Import Prelude Crypto Buffer Hdlc Packet Iface Identity Destination Link Transport Node Kaonic Interfaces.
Import DoubleBraceUpdate.

Module Network.

Inductive Loop : Type := PacketLoop | CheckLoop | ReleaseLoop | KeepLoop | CleanupLoop.
#[export] Instance loop_eq_dec : EqDecision Loop.
Proof. solve_decision. Defined.

Section Network.
Context `{F : Features} `{IC : IdentityCrypto} `{HI : HashIter}.
Context (rtt_bytes : Z -> list byte) (TCP_BUFFER UDP_BUFFER : nat).

(** [sending]: the sends under way, by the address of the interface. *)
Record t : Type := mk {
  handler : TransportHandler;
  manager : InterfaceManager.t;
  sending : list (AddressHash * TxMessage);
  posted : list Output;
  running : list Loop;
  cancel : bool
}.

(** What the application asks of the transport. *)
Inductive Request : Type :=
| AddDestination (identity : PrivateIdentity.t) (name : Hash)
| OpenLink (identity : PrivateIdentity.t) (destination : DestinationDesc) (now : Z)
| SendPacket (packet : Packet) (now : Z)
| SendToLinks (destination : AddressHash) (ivs : AddressHash -> arr 16) (payload : list byte) (context : PacketContext)
    (now : Z)
| SendAnnounce (rand : arr 32) (app_data : option (list byte)) (d : SingleInputDestination) (now : Z).

Inductive Event : Type :=
| OnIfaces (e : InterfaceManager.Event)
| Transmit
| Turn (loop : Loop) (secret : arr 32) (ivs : AddressHash -> arr 16) (now : Z)
| Asked (r : Request)
| DropTransport
| LoopEnds (loop : Loop).

Definition new (broadcast : bool) : t :=
  mk (Transport.new broadcast []) InterfaceManager.new [] []
    [PacketLoop; CheckLoop; ReleaseLoop; KeepLoop; CleanupLoop] false.

(** The handler with the interfaces its manager has. *)
Definition view (n : t) : TransportHandler :=
  (handler n) {{ ifaces := map InterfaceManager.local (InterfaceManager.ifaces (manager n)) }}.

Definition to_send (o : Output) : option (AddressHash * TxMessage) :=
  match o with ToIface iface message => Some (iface, message) | _ => None end.

(** What an operation of the handler leaves: its sends are to be made, its
    events are posted. *)
Definition finish (r : Transport.step) (n : t) : result (fault RetError) t :=
  '(h, outs) ← r;
  Ok (n {{ handler := h; sending := omap to_send outs;
           posted := posted n ++ filter (fun o => to_send o = None) outs }}).

Definition answer (r : Request) (h : TransportHandler) : Transport.step :=
  match r with
  | AddDestination identity name => Ok ((Transport.add_destination identity name h).1, [])
  | OpenLink identity destination now => Ok (Transport.link identity destination now h).1
  | SendPacket packet now => Ok (Transport.send_packet now packet h)
  | SendToLinks destination ivs payload context now =>
      Transport.send_to_out_links_with_context destination ivs payload context now h
  | SendAnnounce rand app_data d now => Transport.send_announce rand app_data d now h
  end.

(** One turn of a task: the packet task takes a message from the channel, the
    others have waited for their timer. *)
Definition turn (loop : Loop) (secret : arr 32) (ivs : AddressHash -> arr 16) (now : Z) (n : t) :
    option (result (fault RetError) t) :=
  match loop with
  | PacketLoop =>
      match InterfaceManager.rx_recv (manager n) with
      | [] => None
      | message :: rest =>
          Some (finish (Transport.receive rtt_bytes secret ivs now message (view n))
                  (n {{ manager := (manager n) {{ InterfaceManager.rx_recv := rest }} }}))
      end
  | CheckLoop => Some (finish (Transport.handle_check_links now (view n)) n)
  | ReleaseLoop => Some (finish (Ok (Transport.release_packets now (view n), [])) n)
  | KeepLoop => Some (finish (Transport.handle_keep_links now (view n)) n)
  | CleanupLoop =>
      Some (finish (Ok (Transport.handle_cleanup (view n), [])) (n {{ manager := InterfaceManager.cleanup (manager n) }}))
  end.

Definition is_at (address : AddressHash) (iface : AddressHash * InterfaceManager.Kind) : Prop := iface.1 = address.
#[export] Instance is_at_dec address iface : Decision (is_at address iface) := decide (iface.1 = address).

(** The first of the sends under way: it waits while the channel of its
    interface is full, and is given up when the interface has stopped. *)
Definition transmit (n : t) : option t :=
  match sending n with
  | [] => None
  | (address, message) :: rest =>
      match list_find (is_at address) (InterfaceManager.ifaces (manager n)) with
      | Some (i, (_, k)) =>
          if InterfaceManager.stopped k then Some (n {{ sending := rest }})
          else match InterfaceManager.channel k with
               | [] => Some (n {{ sending := rest;
                   manager := InterfaceManager.update i address (InterfaceManager.push (tx_packet message) k) [] (manager n) }})
               | _ => None
               end
      | None => Some (n {{ sending := rest }})
      end
  end.

(** What the manager may do by itself: the rest goes through the handler, and
    adding an interface takes the manager's lock. *)
Definition own_event (n : t) (e : InterfaceManager.Event) : bool :=
  match e with
  | InterfaceManager.Spawn _ | InterfaceManager.Accept _ => bool_decide (sending n = [])
  | InterfaceManager.Offer _ | InterfaceManager.Cleanup => false
  | InterfaceManager.DropManager => bool_decide (running n = [])
  | _ => true
  end.

Definition step (e : Event) (n : t) : option (result (fault RetError) t) :=
  match e with
  | OnIfaces e =>
      if own_event n e then
        m ← InterfaceManager.step TCP_BUFFER UDP_BUFFER e (manager n); Some (Ok (n {{ manager := m }}))
      else None
  | Transmit => Ok <$> transmit n
  | Turn loop secret ivs now =>
      if bool_decide (sending n = []) && bool_decide (loop ∈ running n) then turn loop secret ivs now n else None
  | Asked r => if bool_decide (sending n = []) then Some (finish (answer r (view n)) n) else None
  | DropTransport => Some (Ok (n {{ cancel := true }}))
  | LoopEnds loop =>
      if cancel n && bool_decide (loop ∈ running n)
      then Some (Ok (n {{ running := filter (fun l => l <> loop) (running n) }})) else None
  end.

Fixpoint run (es : list Event) (n : t) : option (result (fault RetError) t) :=
  match es with
  | [] => Some (Ok n)
  | e :: es => match step e n with
               | Some (Ok n) => run es n
               | Some (Err e) => Some (Err e)
               | None => None
               end
  end.

End Network.
End Network.

(** * What the interfaces hand over *)

Section Handed.
Context `{F : Features} `{IC : IdentityCrypto} `{HI : HashIter}.
Context (TB UB : nat).

Definition sound_packet (p : Packet) : Prop := StaticBuffer.wf (data p).

Lemma stres_bind_inv {S E A B} (m : stres S E A) (f : A -> stres S E B) s s' b :
  mbind f m s = (s', Ok b) -> exists s1 a, m s = (s1, Ok a) /\ f a s1 = (s', Ok b).
Proof. unfold mbind, stres_bind. destruct (m s) as [s1 [a|e]]; [|done]. intros H. by exists s1, a. Qed.

(** The payload of a packet that was read is in its buffer. *)
Lemma deserialize_sound bs inp p : deserialize (InputBuffer.new bs) = (inp, Ok p) -> sound_packet p.
Proof.
  unfold deserialize. intros H. do 4 apply stres_bind_inv in H as (? & ? & _ & H).
  apply stres_bind_inv in H as (s & buf & Hbuf & H). injection H as _ <-. unfold sound_packet. cbn [data].
  unfold deserialize_data in Hbuf. apply stres_bind_inv in Hbuf as (s1 & b1 & H1 & Hbuf).
  apply stres_bind_inv in Hbuf as (s2 & bs2 & H2 & Hbuf). injection Hbuf as _ <-.
  revert H1. unfold st_get, StaticBuffer.accuire_buf.
  assert (Hz : length (StaticBuffer.buffer (StaticBuffer.new PACKET_MDU)) = PACKET_MDU) by apply length_replicate.
  revert Hz. generalize (StaticBuffer.new PACKET_MDU) as z. intros z Hz.
  destruct (Nat.ltb_spec (length (StaticBuffer.buffer z)) (InputBuffer.bytes_left x5)); [done|].
  intros [= <- <-]. unfold reading, InputBuffer.read in H2. cbn [StaticBuffer.len] in H2.
  destruct (Nat.ltb _ _); [done|]. injection H2 as <- <-. unfold StaticBuffer.wf, StaticBuffer.fill.
  cbn [StaticBuffer.buffer StaticBuffer.len]. rewrite length_splice; [split; [exact Hz|lia]|]. rewrite length_take. lia.
Qed.

Lemma rx_frame_sound B fb ps : TcpClient.rx_frame B fb = Ok ps -> Forall sound_packet ps.
Proof.
  unfold TcpClient.rx_frame. destruct (Hdlc.decode _ _) as [out [n|e]]; [|intros [= <-]; constructor].
  destruct (deserialize _) as [inp [p|[e|]]] eqn:E; [|intros [= <-]; constructor|done].
  intros [= <-]. constructor; [by eapply deserialize_sound|constructor].
Qed.

Lemma tcp_read_sound B bytes : forall buf buf' ps ok, Tcp.read B bytes buf = (buf', ps, ok) -> Forall sound_packet ps.
Proof.
  induction bytes as [|b bytes IH]; intros buf buf' ps ok; cbn [Tcp.read]; [intros [= _ <- _]; constructor|].
  destruct (TcpClient.rx_byte B b buf) as [[b1 p1]|e] eqn:E; [|intros [= _ <- _]; constructor].
  destruct (Tcp.read B bytes b1) as [[b2 p2] ok2] eqn:E2. intros [= _ <- _]. apply Forall_app_2; [|by eapply IH].
  revert E. unfold TcpClient.rx_byte. destruct (Hdlc.find _) as [[first last_]|]; [|intros [= _ <-]; constructor].
  destruct (TcpClient.rx_frame _ _) as [ps|] eqn:Ef; [|done]. intros [= _ <-]. by eapply rx_frame_sound.
Qed.

Lemma udp_read_sound B datagram u u' ps ok : Udp.read B datagram u = (u', ps, ok) -> Forall sound_packet ps.
Proof.
  unfold Udp.read, UdpInterface.rx_datagram.
  destruct (deserialize _) as [inp [p|[e|]]] eqn:E; intros [= _ <- _]; try constructor; [by eapply deserialize_sound|constructor].
Qed.

Lemma session_sound {State} (read : list byte -> State -> State * list Packet * bool) send c e s s' out :
  (forall bytes buf buf' ps ok, read bytes buf = (buf', ps, ok) -> Forall sound_packet ps) ->
  Session.step read send c e s = Some (s', out) -> Forall sound_packet out.
Proof.
  intros Hread. destruct e as [[|b bytes]| | |p|]; cbn [Session.step].
  2: { case_bool_decide; [|done]. destruct (read _ _) as [[buf ps] ok] eqn:E. intros [= _ <-]. by eapply Hread. }
  all: repeat case_match; intros; simplify_eq; constructor.
Qed.

Lemma task_sound {State} init (read : list byte -> State -> State * list Packet * bool) send sends c e k k' out :
  (forall bytes buf buf' ps ok, read bytes buf = (buf', ps, ok) -> Forall sound_packet ps) ->
  Task.step init read send sends c e k = Some (k', out) -> Forall sound_packet out.
Proof.
  intros Hread. unfold Task.step.
  destruct (Task.phase k) as [|s| |]; destruct e as [|ok| |e|]; try done;
    try (destruct (Task.channel k) as [|p rest]; [done|]); try (destruct e; try done);
    try (destruct (Session.step _ _ _ _ s) as [[s1 o1]|] eqn:E; [|done]; intros [= _ <-]; by eapply session_sound);
    repeat case_match; intros; simplify_eq; constructor.
Qed.

Lemma kaonic_sound B from_shared c e k k' out : KaonicGrpc.step B from_shared c e k = Some (k', out) -> Forall sound_packet out.
Proof.
  intros Hs. radio_cases Hs; try constructor.
  match goal with H : KaonicGrpc.receive _ _ _ = _ |- _ => unfold KaonicGrpc.receive in H; repeat case_match; simplify_eq end;
    try constructor; [by eapply deserialize_sound|constructor].
Qed.

(** Every message in the channel of the transport has a well-formed packet. *)
Definition handed_sound (m : InterfaceManager.t) : Prop :=
  Forall (fun msg => sound_packet (rx_packet msg)) (InterfaceManager.rx_recv m).

Lemma update_sound i address k out m :
  handed_sound m -> Forall sound_packet out -> handed_sound (InterfaceManager.update i address k out m).
Proof. intros Hm Ho. apply Forall_app_2; [done|]. by apply Forall_map. Qed.

Lemma manager_sound e m m' : InterfaceManager.step TB UB e m = Some m' -> handed_sound m -> handed_sound m'.
Proof.
  intros Hs Hm. destruct e as [k|i|i e|i e|i e|i e|msg| |]; cbn [InterfaceManager.step] in Hs.
  - by injection Hs as <-.
  - destruct (InterfaceManager.ifaces m !! i) as [[a [| | |s]]|]; try done.
    destruct (TcpServer.phase s); try done. by injection Hs as <-.
  - destruct (InterfaceManager.ifaces m !! i) as [[a [k| | |]]|]; try done.
    destruct (Tcp.task_step _ _ _ _) as [[k' out]|] eqn:E; [|done]. injection Hs as <-.
    apply update_sound; [done|]. eapply task_sound; [|exact E]. apply tcp_read_sound.
  - destruct (InterfaceManager.ifaces m !! i) as [[a [|f k| |]]|]; try done.
    destruct (Udp.task_step _ _ _ _ _) as [[k' out]|] eqn:E; [|done]. injection Hs as <-.
    apply update_sound; [done|]. eapply task_sound; [|exact E]. intros bytes []. apply udp_read_sound.
  - destruct (InterfaceManager.ifaces m !! i) as [[a [| |u k|]]|]; try done.
    destruct (KaonicGrpc.step _ _ _ _ _) as [[k' out]|] eqn:E; [|done]. injection Hs as <-.
    apply update_sound; [done|]. by eapply kaonic_sound.
  - destruct (InterfaceManager.ifaces m !! i) as [[a [| | |s]]|]; try done.
    destruct (TcpServer.step _ _ s); [|done]. injection Hs as <-. by apply update_sound.
  - unfold InterfaceManager.send in Hs. destruct (mapM _ _); [|done]. by injection Hs as <-.
  - by injection Hs as <-.
  - by injection Hs as <-.
Qed.

End Handed.

(** * The whole *)

Section Whole.
Context `{F : Features} `{IC : IdentityCrypto} `{HI : HashIter} `{CL : !CryptoLaws} `{IL : !IdentityLaws}.
Context (rtt_bytes : Z -> list byte) (Hrtt : forall z, (length (rtt_bytes z) < 2000)%nat).
Context (TB UB : nat).
Import Network.
Implicit Types n : Network.t.

Record network_ok n : Prop := {
  nt_transport : transport_ok (handler n);
  nt_handed : handed_sound (manager n);
  nt_running : NoDup (running n)
}.

Lemma view_ok n : transport_ok (handler n) -> transport_ok (view n).
Proof. unfold view. intros [H1 H2 H3]. destruct (handler n). by constructor. Qed.

Lemma finish_ok h outs r n : r = Ok (h, outs) -> transport_ok h -> network_ok n ->
  exists n', finish r n = Ok n' /\ network_ok n' /\ handler n' = h /\ manager n' = manager n /\ running n' = running n /\
    posted n' = posted n ++ filter (fun o => to_send o = None) outs.
Proof.
  intros -> Hh [_ Hm Hr]. eexists. split; [reflexivity|]. by destruct n.
Qed.

Lemma finish_inv r n n' : finish r n = Ok n' -> exists h outs, r = Ok (h, outs).
Proof. destruct r as [[h outs]|e]; [|done]. intros _. by exists h, outs. Qed.

(** A request that fits does not panic. *)
Definition modest (r : Request) : Prop :=
  match r with
  | SendToLinks _ _ payload _ _ => (length payload < 2000)%nat
  | SendAnnounce _ _ _ _ => False
  | _ => True
  end.

Lemma answer_step r h h' outs : answer r h = Ok (h', outs) -> transport_step rtt_bytes h h'.
Proof.
  destruct r as [i nm|i d now|p now|d ivs pl c now|rand app d now]; cbn [answer]; intros E.
  - injection E as <- <-. apply tr_add.
  - pose proof (tr_link rtt_bytes h i d now) as Ht. destruct (Transport.link i d now h) as [[h1 o1] l]. cbn in *.
    by injection E as <- <-.
  - pose proof (tr_send rtt_bytes h now (mkTx (TxBroadcast None) p)) as Ht. unfold Transport.send_packet in E.
    destruct (Transport.send now _ h) as [h1 o1]. by injection E as <- <-.
  - by eapply tr_send_over.
  - by eapply tr_announce.
Qed.

Lemma modest_answer r h : transport_ok h -> modest r -> exists h' outs, answer r h = Ok (h', outs).
Proof.
  intros Hh Hr. destruct r as [i nm|i d now|p now|d ivs pl c now|rand app d now]; cbn [answer].
  - by eexists _, _.
  - destruct (Transport.link i d now h) as [[h1 o1] l]. by eexists _, _.
  - destruct (Transport.send_packet now p h). by eexists _, _.
  - unfold Transport.send_to_out_links_with_context, Transport.send_over.
    destruct (link_packets_short (Transport.to_destination d) c ivs pl (hash_iter (out_links h)) Hr) as (ps & -> & _).
    { intros k l Hin. apply elem_of_hash_iter in Hin. apply (tr_out _ Hh _ _ Hin). }
    cbn. destruct (Transport.send_packets now ps h). by eexists _, _.
  - done.
Qed.

(** A turn of a task, when it can be taken, ends well. *)
Lemma loop_turn_ok loop secret ivs now n r : network_ok n -> turn rtt_bytes loop secret ivs now n = Some r ->
  exists n', r = Ok n' /\ network_ok n'.
Proof.
  intros Hn. pose proof (view_ok n (nt_transport n Hn)) as Hv. pose proof Hn as [_ Hm Hr].
  assert (Hdone : forall r h outs n1, r = Ok (h, outs) -> transport_ok h -> network_ok n1 ->
    exists n', finish r n1 = Ok n' /\ network_ok n').
  { intros r0 h outs n1 E Hh H1. destruct (finish_ok h outs r0 n1 E Hh H1) as (n' & E' & Hn' & _). eauto. }
  destruct loop; cbn [turn].
  - destruct (InterfaceManager.rx_recv (manager n)) as [|msg rest] eqn:Hrx; [done|]. intros [= <-].
    unfold handed_sound in Hm. rewrite Hrx in Hm. apply Forall_cons in Hm as [Hp Hm].
    destruct (receive_ok rtt_bytes Hrtt secret ivs now msg (view n) Hv Hp) as (h & outs & E & Hh).
    apply (Hdone _ _ _ _ E Hh). destruct n as [hd [c ifs rx ca] sd po ru cn]. constructor; [apply Hn|exact Hm|exact Hr].
  - intros [= <-]. destruct (handle_check_links_ok now (view n) Hv) as (h & outs & E & Hh). by eapply Hdone.
  - intros <-%(inj Some). eapply Hdone; [done| |done]. eapply transport_step_ok; [done|exact Hv|apply (tr_release rtt_bytes)].
  - intros [= <-]. destruct (handle_keep_links_ok now (view n) Hv) as (h & outs & E & Hh). by eapply Hdone.
  - intros <-%(inj Some). eapply Hdone; [done| |].
    + eapply transport_step_ok; [done|exact Hv|apply (tr_cleanup rtt_bytes)].
    + destruct n as [hd [c ifs rx ca] sd po ru cn]. constructor; [apply Hn|exact Hm|exact Hr].
Qed.

Lemma transmit_ok n n' : transmit n = Some n' -> network_ok n -> network_ok n'.
Proof.
  unfold transmit. destruct (sending n) as [|[a msg] rest]; [done|]. intros H [Ht Hm Hr].
  destruct (list_find _ _) as [[i [a' k]]|]; [destruct (InterfaceManager.stopped k);
    [|destruct (InterfaceManager.channel k); [|done]]|]; injection H as <-; destruct n; constructor; try done.
  by apply update_sound.
Qed.

Lemma step_ok e n n' : step rtt_bytes TB UB e n = Some (Ok n') -> network_ok n -> network_ok n'.
Proof.
  intros Hs Hn. destruct e as [e| |loop secret ivs now|r| |loop]; cbn [step] in Hs.
  - destruct (own_event n e); [|done]. destruct (InterfaceManager.step _ _ _ _) as [m|] eqn:E; [|done].
    injection Hs as <-. destruct Hn as [Ht Hm Hr]. apply manager_sound in E; [|done]. destruct n. by constructor.
  - destruct (transmit n) as [n1|] eqn:E; [|done]. injection Hs as <-. by eapply transmit_ok.
  - destruct (_ && _); [|done]. destruct (loop_turn_ok _ _ _ _ _ _ Hn Hs) as (n1 & [= ->] & H1). done.
  - destruct (bool_decide _); [|done]. injection Hs as Hs. destruct (finish_inv _ _ _ Hs) as (h & outs & E).
    destruct (finish_ok h outs _ n E) as (n1 & E1 & H1 & _); [|done|congruence].
    eapply transport_step_ok; [done| |by eapply answer_step]. apply view_ok, Hn.
  - injection Hs as <-. destruct Hn, n. by constructor.
  - destruct (_ && _); [|done]. injection Hs as <-. destruct Hn as [? ? Hr], n. constructor; try done. cbn in *.
    unfold constant. by apply NoDup_filter.
Qed.

Lemma run_network_ok es : forall n n', run rtt_bytes TB UB es n = Some (Ok n') -> network_ok n -> network_ok n'.
Proof.
  induction es as [|e es IH]; intros n n'; cbn [run]; [by intros [= <-]|].
  destruct (step rtt_bytes TB UB e n) as [[n1|err]|] eqn:E; try done. intros H Hn. eapply IH; [done|]. by eapply step_ok.
Qed.

Lemma new_network_ok bc : network_ok (new bc).
Proof.
  constructor; [apply transport_new_ok|constructor|]. cbn. repeat (constructor; [set_solver|]). constructor.
Qed.

Lemma loops_end n : cancel n = true -> NoDup (running n) ->
  exists n', run rtt_bytes TB UB (map LoopEnds (running n)) n = Some (Ok n') /\ running n' = [].
Proof.
  remember (running n) as loops eqn:Hl. revert n Hl.
  induction loops as [|l loops IH]; intros n Hl Hc Hnd; cbn [map run]; [by exists n|].
  cbn [step]. rewrite Hc, <- Hl, bool_decide_true by (left). cbn [andb].
  apply NoDup_cons in Hnd as [Hin Hnd].
  assert (Hf : filter (fun x => x <> l) (l :: loops) = loops).
  { rewrite filter_cons_False by (intros H; by apply H). clear - Hin. induction loops as [|x loops IH]; [done|].
    apply not_elem_of_cons in Hin as [Hx Hin]. rewrite filter_cons_True by congruence. by rewrite IH. }
  rewrite Hf. apply IH; [by destruct n|by destruct n|done].
Qed.

End Whole.


#[local] Existing Instance toy_features.
#[local] Existing Instance toy_crypto.
#[local] Existing Instance toy_identity.
#[local] Existing Instance toy_crypto_laws.
#[local] Existing Instance toy_identity_laws.
#[local] Existing Instance key_order.

(** A client connects, the application sends, the packet goes out, and one comes
    in over the same connection. *)
Definition working : list Network.Event :=
  [Network.OnIfaces (InterfaceManager.Spawn (InterfaceManager.TcpTask (Task.new false)));
   Network.OnIfaces (InterfaceManager.OnTcp 0 (Task.Connect true));
   Network.Asked (Network.SendPacket sample_packet 1);
   Network.Transmit;
   Network.OnIfaces (InterfaceManager.OnTcp 0 Task.Transmit);
   Network.OnIfaces (InterfaceManager.OnTcp 0 (Task.InSession (Session.Read (frame (wire sample_packet)))))].

#[local] Existing Instance Network.loop_eq_dec.
Definition ready (r : option (result (fault RetError) Network.t)) : bool :=
  match r with
  | Some (Ok n) =>
      bool_decide (Network.sending n = []) && bool_decide (Network.PacketLoop ∈ Network.running n)
      && match InterfaceManager.rx_recv (Network.manager n) with [] => false | _ => true end
  | _ => false
  end.

