(* ===== verification/Wire.v ===== *)
(** Two nodes joined by a TCP connection: the whole stack of [Network], from the
    requests of the application over the transport, the interface manager, the
    channels and the tasks down to the bytes, and up again on the other side.

    The specification is two transport handlers with a queue of packets in each
    direction.  The simulation shows that the stack is an implementation of it: as
    long as the connection stands, what one transport sends is handled by the other,
    in order, once, and up to the unused bytes of the packet buffers. *)

From Stdlib Require Import ZArith Lia.
From Stdlib Require Import Strings.Byte.
From stdpp Require Import base gmap numbers relations list.
From coqutil Require Import Datatypes.RecordSetters.
From S2P Require Import Prelude Crypto Buffer Hdlc Packet Iface Identity Destination Link Transport Node Kaonic Interfaces Network.
Import DoubleBraceUpdate.

(** * The pair of nodes *)

Module Pair.

Inductive Side : Type := Left_ | Right_.

Section Pair.
Context `{F : Features} `{IC : IdentityCrypto} `{HI : HashIter}.
Context (rtt_bytes : Z -> list byte) (TB UB : nat).

Record t : Type := mk { left : Network.t; right : Network.t }.

(** The connection of a node whose only interface is a TCP client. *)
Definition session (n : Network.t) : option (Session.t (list byte)) :=
  match InterfaceManager.ifaces (Network.manager n) with
  | [(_, InterfaceManager.TcpTask k)] => match Task.phase k with Task.Connected s => Some s | _ => None end
  | _ => None
  end.

(** What happens to node [n] while its connection to [m] stands: it reads the bytes
    that [m] has written, in any pieces. *)
Definition stands (m n : Network.t) (e : Network.Event) : bool :=
  match e with
  | Network.OnIfaces (InterfaceManager.OnTcp 0 Task.Transmit) => true
  | Network.OnIfaces (InterfaceManager.OnTcp 0 (Task.InSession (Session.Read bytes))) =>
      match session m, session n with
      | Some s, Some r =>
          negb (bool_decide (bytes = []))
          && bool_decide (concat (Session.reads r) ++ bytes `prefix_of` concat (Session.written s))
      | _, _ => false
      end
  | Network.Transmit | Network.Turn _ _ _ _ | Network.Asked _ => true
  | _ => false
  end.

Definition step (e : Side * Network.Event) (p : t) : option (result (fault RetError) t) :=
  match e with
  | (Left_, e) =>
      if stands (right p) (left p) e then
        r ← Network.step rtt_bytes TB UB e (left p); Some (r ≫= fun n => Ok (mk n (right p)))
      else None
  | (Right_, e) =>
      if stands (left p) (right p) e then
        r ← Network.step rtt_bytes TB UB e (right p); Some (r ≫= fun n => Ok (mk (left p) n))
      else None
  end.

Fixpoint run (es : list (Side * Network.Event)) (p : t) : option (result (fault RetError) t) :=
  match es with
  | [] => Some (Ok p)
  | e :: es => match step e p with
               | Some (Ok p) => run es p
               | Some (Err e) => Some (Err e)
               | None => None
               end
  end.

(** A node that has just connected, with nothing under way. *)
Definition connected (a : AddressHash) (n : Network.t) : Prop :=
  exists k, InterfaceManager.ifaces (Network.manager n) = [(a, InterfaceManager.TcpTask k)] /\
    Task.phase k = Task.Connected (Tcp.session TB) /\ Task.channel k = [] /\
    InterfaceManager.rx_recv (Network.manager n) = [] /\ Network.sending n = [].

End Pair.
End Pair.

(** * The specification: two transports and two queues *)

Module Spec.
Section Spec.
Context `{F : Features} `{IC : IdentityCrypto} `{HI : HashIter}.
Context (rtt_bytes : Z -> list byte) (al ar : AddressHash).

Record t : Type := mk {
  lh : TransportHandler;
  rh : TransportHandler;
  to_right : list Packet;
  to_left : list Packet;
  lposted : list Output;
  rposted : list Output
}.

(** A handler with the one interface [a]. *)
Definition on (a : AddressHash) (h : TransportHandler) : TransportHandler := h {{ ifaces := [mkIface a false] }}.

(** The packets among its outputs for that interface, and the events. *)
Definition for_iface (a : AddressHash) (s : AddressHash * TxMessage) : option Packet :=
  if bool_decide (s.1 = a) then Some (tx_packet s.2) else None.
Definition sent (a : AddressHash) (outs : list Output) : list Packet := omap (for_iface a) (omap Network.to_send outs).
Definition events (outs : list Output) : list Output := filter (fun o => Network.to_send o = None) outs.

(** A step of one transport: a request, a timer, or the next packet of its queue, of
    which only the bytes in use are certain. *)
Inductive node_step (a : AddressHash) : TransportHandler * list Packet -> TransportHandler * list Packet -> list Output -> Prop :=
| ns_ask r h inbox h' outs : Network.answer r (on a h) = Ok (h', outs) -> node_step a (h, inbox) (h', inbox) outs
| ns_receive secret ivs now p q h inbox h' outs : q ≡ p ->
    Transport.receive rtt_bytes secret ivs now (mkRx a q) (on a h) = Ok (h', outs) ->
    node_step a (h, p :: inbox) (h', inbox) outs
| ns_check now h inbox h' outs : Transport.handle_check_links now (on a h) = Ok (h', outs) ->
    node_step a (h, inbox) (h', inbox) outs
| ns_keep now h inbox h' outs : Transport.handle_keep_links now (on a h) = Ok (h', outs) ->
    node_step a (h, inbox) (h', inbox) outs
| ns_release now h inbox : node_step a (h, inbox) (Transport.release_packets now (on a h), inbox) []
| ns_cleanup h inbox : node_step a (h, inbox) (Transport.handle_cleanup (on a h), inbox) [].

Inductive step : t -> t -> Prop :=
| sp_left h r h' q q' q2 lp rp outs : node_step al (h, q) (h', q') outs ->
    step (mk h r q2 q lp rp) (mk h' r (q2 ++ sent al outs) q' (lp ++ events outs) rp)
| sp_right l h h' q q' q2 lp rp outs : node_step ar (h, q) (h', q') outs ->
    step (mk l h q q2 lp rp) (mk l h' q' (q2 ++ sent ar outs) lp (rp ++ events outs)).

End Spec.
End Spec.

(** * The simulation *)

Section Simulation.
Context `{F : Features} `{IC : IdentityCrypto} `{HI : HashIter}.
Context (rtt_bytes : Z -> list byte) (TB UB : nat) (HB : 1 <= TB).
Implicit Types n m : Network.t.

Definition deliverable (p : Packet) : Prop := wire_ok p /\ length (frame (wire p)) <= TB.

(** The one interface of a node is connected. *)
Record conn (a : AddressHash) n (k : Task.t (list byte)) (s : Session.t (list byte)) : Prop := {
  cn_ifaces : InterfaceManager.ifaces (Network.manager n) = [(a, InterfaceManager.TcpTask k)];
  cn_phase : Task.phase k = Task.Connected s;
  cn_session : session_ok TB s
}.

(** The packets between two nodes: those in the channel of the receiving transport,
    those on the wire, the one in the channel of the interface, and those being sent. *)
Definition flow (a b : AddressHash) n m (k : Task.t (list byte)) (s s' : Session.t (list byte)) (q : list Packet) : Prop :=
  concat (Session.reads s') `prefix_of` concat (Session.written s) /\
  exists qs delivered, InterfaceManager.rx_recv (Network.manager m) = map (mkRx b) qs /\ Forall2 equiv qs delivered /\
    q = delivered ++ drop (length (Session.heard s')) (Session.taken s) ++ Task.channel k
        ++ omap (Spec.for_iface a) (Network.sending n).

(** What has been heard is a beginning of what was taken. *)
Lemma heard_taken s s' : session_ok TB s -> session_ok TB s' ->
  concat (Session.reads s') `prefix_of` concat (Session.written s) -> Forall deliverable (Session.taken s) ->
  exists ps more, Session.taken s = ps ++ more /\ Forall2 equiv (Session.heard s') ps.
Proof.
  intros Hs Hs' [rest Hr] Hd.
  destruct (session_delivers TB s s' rest HB Hs Hs' (eq_sym Hr) Hd) as (_ & ps & more & H1 & H2 & _). by exists ps, more.
Qed.

Lemma view_on a n k s : conn a n k s -> Network.view n = Spec.on a (Network.handler n).
Proof.
  intros [Hi Hp _]. unfold Network.view, Spec.on. rewrite Hi. cbn [map]. unfold InterfaceManager.local. cbn. by rewrite Hp.
Qed.

Lemma flow_same a b n m n' m' k s s' q : Network.sending n' = Network.sending n ->
  InterfaceManager.rx_recv (Network.manager m') = InterfaceManager.rx_recv (Network.manager m) ->
  flow a b n m k s s' q -> flow a b n' m' k s s' q.
Proof. intros H1 H2. unfold flow. by rewrite H1, H2. Qed.

(** A send that goes through moves a packet into the channel of the interface. *)
Lemma transmit_flow a b n n' m k s s' q : conn a n k s -> Network.transmit n = Some n' -> flow a b n m k s s' q ->
  exists k', conn a n' k' s /\ flow a b n' m k' s s' q /\ Network.handler n' = Network.handler n /\
    Network.posted n' = Network.posted n /\
    InterfaceManager.rx_recv (Network.manager n') = InterfaceManager.rx_recv (Network.manager n).
Proof.
  intros [Hi Hp Hs] Ht [Hpre (qs & dl & Hrx & Hq & ->)]. unfold Network.transmit in Ht.
  destruct (Network.sending n) as [|[x msg] rest] eqn:Hsend; [done|]. rewrite Hi in Ht.
  destruct n as [h [c ifs rx ca] sd po ru cn]. cbn in Hi, Hsend. subst ifs sd. unfold flow. cbn in Ht.
  destruct (decide (a = x)) as [->|Hne].
  - rewrite decide_True in Ht by done. cbn in Ht. rewrite Hp in Ht.
    destruct (Task.channel k) as [|p r] eqn:Hc; [|done]. injection Ht as <-.
    exists (k {{ Task.channel := [tx_packet msg] }}). split; [|split; [|split_and!; try done; apply app_nil_r]].
    + constructor; cbn; unfold constant; [done|by destruct k|done].
    + split; [done|]. exists qs, dl. split_and!; [done..|]. destruct k. cbn. unfold constant, Spec.for_iface at 1.
      by rewrite bool_decide_true.
  - rewrite decide_False in Ht by done. injection Ht as <-. exists k. split; [by constructor|]. split; [|done].
    split; [done|]. exists qs, dl. split_and!; [done..|]. cbn. unfold constant, Spec.for_iface at 1.
    by rewrite bool_decide_false by (cbn; congruence).
Qed.

(** The transmit task puts the packet of the channel on the wire. *)
Lemma send_flow a b n mg m k s k2 s2 q qi : conn a n k s -> conn b m k2 s2 ->
  InterfaceManager.step TB UB (InterfaceManager.OnTcp 0 Task.Transmit) (Network.manager n) = Some mg ->
  Forall deliverable (Session.taken s) -> flow a b n m k s s2 q -> flow b a m n k2 s2 s qi ->
  exists k' s', conn a (n {{ Network.manager := mg }}) k' s' /\ flow a b (n {{ Network.manager := mg }}) m k' s' s2 q /\
    flow b a m (n {{ Network.manager := mg }}) k2 s2 s' qi /\ Session.taken s `prefix_of` Session.taken s'.
Proof.
  intros [Hi Hp Hs] [_ _ Hs2] Ht Hd [Hpre (qs & dl & Hrx & Hq & ->)] [Hpre2 (qs2 & dl2 & Hrx2 & Hq2 & ->)].
  destruct (heard_taken s s2 Hs Hs2 Hpre Hd) as (ps & more & Htk & Hh). apply Forall2_length in Hh.
  assert (Hle : length (Session.heard s2) <= length (Session.taken s)) by (rewrite Htk, length_app; lia). clear Htk Hh ps more.
  cbn [InterfaceManager.step] in Ht. rewrite Hi in Ht. cbn [lookup list_lookup] in Ht. unfold Tcp.task_step, Task.step in Ht.
  rewrite Hp in Ht. destruct (Task.channel k) as [|p rest] eqn:Hc; [done|].
  destruct (Session.step (Tcp.read TB) (Tcp.send TB) _ (Session.Send p) s) as [[s1 out]|] eqn:E; [|done].
  cbn [mbind option_bind] in Ht. injection Ht as <-.
  destruct (session_step_ok TB _ _ _ _ _ Hs E) as [Hs1 _]. cbn [Session.step] in E. destruct (Session.tx_running s); [|done].
  injection E as <- <-. destruct n as [h [c ifs rx ca] sd po ru cn]. cbn in Hi, Hrx2. subst ifs rx.
  exists (k {{ Task.phase := Task.Connected (s {{ Session.taken := Session.taken s ++ [p];
    Session.written := Session.written s ++ Tcp.send TB p }}); Task.channel := rest }}). eexists. split; [|split; [|split]].
  - constructor; [done|by destruct k|]. exact Hs1.
  - destruct s as [r tx st bf rd hd tk wr]. cbn in *. unfold constant. split; [|exists qs, dl; split_and!; [done..|]].
    + cbn. unfold constant. rewrite concat_app. by apply prefix_app_r.
    + destruct k. cbn in *. unfold constant. subst. rewrite drop_app_le by done.
      by rewrite <- app_assoc.
  - destruct s as [r tx st bf rd hd tk wr]. cbn in *. unfold constant. split; [done|]. exists qs2, dl2. cbn.
    unfold constant. by rewrite app_nil_r.
  - destruct s. cbn. unfold constant. by apply prefix_app_r.
Qed.

(** The receive task hands over the packets whose last byte it has read. *)
Lemma read_flow a b n mg m k s k2 s2 q qi bytes : conn a n k s -> conn b m k2 s2 ->
  InterfaceManager.step TB UB (InterfaceManager.OnTcp 0 (Task.InSession (Session.Read bytes))) (Network.manager n) = Some mg ->
  bytes <> [] -> concat (Session.reads s) ++ bytes `prefix_of` concat (Session.written s2) ->
  Forall deliverable (Session.taken s2) -> flow a b n m k s s2 q -> flow b a m n k2 s2 s qi ->
  exists k' s', conn a (n {{ Network.manager := mg }}) k' s' /\ flow a b (n {{ Network.manager := mg }}) m k' s' s2 q /\
    flow b a m (n {{ Network.manager := mg }}) k2 s2 s' qi /\ Session.taken s `prefix_of` Session.taken s'.
Proof.
  intros [Hi Hp Hs] [_ _ Hs2] Ht Hne Hw Hd [Hpre (qs & dl & Hrx & Hq & ->)] [Hpre2 (qs2 & dl2 & Hrx2 & Hq2 & ->)].
  cbn [InterfaceManager.step] in Ht. rewrite Hi in Ht. cbn [lookup list_lookup] in Ht. unfold Tcp.task_step, Task.step in Ht.
  rewrite Hp in Ht. destruct (Session.step (Tcp.read TB) (Tcp.send TB) _ (Session.Read bytes) s) as [[s1 out]|] eqn:E; [|done].
  cbn [mbind option_bind] in Ht. injection Ht as <-.
  destruct (session_step_ok TB _ _ _ _ _ Hs E) as [Hs1 Hheard].
  assert (Hkeep : Session.reads s1 = Session.reads s ++ [bytes] /\ Session.taken s1 = Session.taken s /\
    Session.written s1 = Session.written s).
  { cbn [Session.step] in E. destruct (bool_decide _); [|done]. destruct bytes as [|x bytes]; [done|].
    destruct (Tcp.read TB _ _) as [[buf ps] ok]. injection E as <- _. by destruct s. }
  destruct Hkeep as (Hreads & Htaken & Hwritten).
  assert (Hpre1 : concat (Session.reads s1) `prefix_of` concat (Session.written s2)).
  { rewrite Hreads, concat_app. cbn [concat]. by rewrite app_nil_r. }
  destruct (heard_taken s2 s1 Hs2 Hs1 Hpre1 Hd) as (ps1 & more & Htk & Hh). rewrite Hheard in Hh.
  apply Forall2_app_inv_l in Hh as (ps & new & Hps & Hnew & ->). pose proof (Forall2_length _ _ _ Hps) as Hl1.
  pose proof (Forall2_length _ _ _ Hnew) as Hl2.
  destruct n as [h [c ifs rx ca] sd po ru cn]. cbn in Hi, Hrx2. subst ifs rx.
  eexists (k {{ Task.phase := Task.Connected s1 }}), s1. split; [|split; [|split]].
  - constructor; [done|by destruct k|done].
  - split; [by rewrite Hwritten|]. exists qs, dl. split_and!; [done..|]. rewrite Htaken. by destruct k.
  - split; [done|]. exists (qs2 ++ out), (dl2 ++ new). cbn. unfold constant. split_and!.
    + by rewrite map_app.
    + by apply Forall2_app.
    + assert (E1 : drop (length (Session.heard s)) (Session.taken s2) = new ++ more)
        by (rewrite Htk, <- app_assoc; by apply drop_app_length').
      assert (E2 : drop (length (Session.heard s1)) (Session.taken s2) = more)
        by (rewrite Htk, Hheard; apply drop_app_length'; rewrite !length_app; lia).
      by rewrite E1, E2, <- !app_assoc.
  - by rewrite Htaken.
Qed.

(** What the handler has done goes on its way. *)
Lemma finish_flow a b n n1 n' m k s s2 h outs q : Network.finish (Ok (h, outs)) n1 = Ok n' ->
  InterfaceManager.ifaces (Network.manager n1) = InterfaceManager.ifaces (Network.manager n) ->
  Network.posted n1 = Network.posted n -> Network.sending n = [] -> conn a n k s -> flow a b n m k s s2 q ->
  conn a n' k s /\ flow a b n' m k s s2 (q ++ Spec.sent a outs) /\ Network.handler n' = h /\
  Network.posted n' = Network.posted n ++ Spec.events outs /\ Network.manager n' = Network.manager n1.
Proof.
  intros Hf Hi1 Hp1 Hsend [Hi Hp Hs] [Hpre (qs & dl & Hrx & Hq & ->)]. injection Hf as <-. rewrite Hsend.
  destruct n1 as [h1 mg sd po ru cn]. cbn in *. split; [constructor; cbn; congruence|]. split; [|by rewrite Hp1].
  split; [done|]. exists qs, dl. split_and!; [done..|]. cbn. unfold constant, Spec.sent. by rewrite app_nil_r, <- !app_assoc.
Qed.

(** One step of a node is nothing, or a step of its transport. *)
Definition simulated (a b : AddressHash) n n' m (s s2 : Session.t (list byte)) (k2 : Task.t (list byte)) (qo qi : list Packet) : Prop :=
  exists k' s' qo' qi', conn a n' k' s' /\ Session.taken s `prefix_of` Session.taken s' /\
    flow a b n' m k' s' s2 qo' /\ flow b a m n' k2 s2 s' qi' /\
    ((qo' = qo /\ qi' = qi /\ Network.handler n' = Network.handler n /\ Network.posted n' = Network.posted n) \/
     exists outs, Spec.node_step rtt_bytes a (Network.handler n, qi) (Network.handler n', qi') outs /\
       qo' = qo ++ Spec.sent a outs /\ Network.posted n' = Network.posted n ++ Spec.events outs).

Lemma handled_flow a b n n1 n' m k s k2 s2 r qo qi qi' : Network.finish r n1 = Ok n' ->
  InterfaceManager.ifaces (Network.manager n1) = InterfaceManager.ifaces (Network.manager n) ->
  Network.posted n1 = Network.posted n -> Network.sending n = [] -> conn a n k s -> flow a b n m k s s2 qo ->
  flow b a m n1 k2 s2 s qi' ->
  (forall h outs, r = Ok (h, outs) -> Spec.node_step rtt_bytes a (Network.handler n, qi) (h, qi') outs) ->
  simulated a b n n' m s s2 k2 qo qi.
Proof.
  intros Hf Hi Hp Hsend Hc Ho Hin Hns. destruct (finish_inv _ _ _ Hf) as (h & outs & ->).
  destruct (finish_flow _ _ _ _ _ _ _ _ _ _ _ _ Hf Hi Hp Hsend Hc Ho) as (Hc' & Ho' & Hh & Hpo & Hm).
  exists k, s, (qo ++ Spec.sent a outs), qi'. split_and!; [done..|eapply flow_same; [done|by rewrite Hm|done]|].
  right. exists outs. rewrite Hh. split_and!; [by apply Hns|done..].
Qed.

Lemma turn_flow a b n n' m k s k2 s2 loop secret ivs now qo qi : conn a n k s -> flow a b n m k s s2 qo ->
  flow b a m n k2 s2 s qi -> Network.sending n = [] ->
  Network.turn rtt_bytes loop secret ivs now n = Some (Ok n') -> simulated a b n n' m s s2 k2 qo qi.
Proof.
  intros Hc Ho Hin Hsend Ht. pose proof (view_on _ _ _ _ Hc) as Hv. destruct loop; cbn [Network.turn] in Ht.
  - destruct Hin as [Hpre (qs & dl & Hrx & Hq & ->)]. rewrite Hrx in Ht. destruct qs as [|q qs]; [done|]. cbn [map] in *.
    apply Forall2_cons_inv_l in Hq as (p & dl' & Hqp & Hq & ->). injection Ht as Ht.
    eapply handled_flow; [exact Ht|by destruct n as [? []]|by destruct n|done..| |].
    + split; [exact Hpre|]. exists qs, dl'. split_and!; [by destruct n as [? []]|done|reflexivity].
    + intros h outs Hr. rewrite Hv in Hr. cbn [app]. by eapply Spec.ns_receive.
  - injection Ht as Ht. eapply handled_flow; [exact Ht|done..|]. intros h outs. rewrite Hv. by eapply Spec.ns_check.
  - apply (inj Some) in Ht. eapply handled_flow; [exact Ht|done..|]. intros h outs [= <- <-]. rewrite Hv.
    apply Spec.ns_release.
  - injection Ht as Ht. eapply handled_flow; [exact Ht|done..|]. intros h outs. rewrite Hv. by eapply Spec.ns_keep.
  - apply (inj Some) in Ht. eapply handled_flow; [exact Ht| |by destruct n|done..| |].
    + destruct Hc as [Hi Hp _]. destruct n as [? [c ifs rx ca] ? ? ? ?]. cbn in *. subst ifs. unfold constant.
      rewrite filter_cons_True; [done|]. cbn. by rewrite Hp.
    + eapply flow_same; [done| |exact Hin]. by destruct n as [? []].
    + intros h outs [= <- <-]. rewrite Hv. apply Spec.ns_cleanup.
Qed.

Lemma node_simulated a b n n' m k s k2 s2 e qo qi : conn a n k s -> conn b m k2 s2 ->
  flow a b n m k s s2 qo -> flow b a m n k2 s2 s qi -> Forall deliverable (Session.taken s) ->
  Forall deliverable (Session.taken s2) -> Pair.stands m n e = true ->
  Network.step rtt_bytes TB UB e n = Some (Ok n') -> simulated a b n n' m s s2 k2 qo qi.
Proof.
  intros Hc Hc2 Ho Hin Hd Hd2 Hst Hs.
  assert (Hquiet : forall mg k' s', conn a (n {{ Network.manager := mg }}) k' s' ->
    flow a b (n {{ Network.manager := mg }}) m k' s' s2 qo -> flow b a m (n {{ Network.manager := mg }}) k2 s2 s' qi ->
    Session.taken s `prefix_of` Session.taken s' -> simulated a b n (n {{ Network.manager := mg }}) m s s2 k2 qo qi).
  { intros mg k' s' H1 H2 H3 H4. exists k', s', qo, qi. split_and!; [done..|]. left. by destruct n. }
  destruct e as [e| |loop secret ivs now|r| |loop]; try done.
  - cbn [Network.step] in Hs. destruct (Network.own_event n e); [|done].
    destruct (InterfaceManager.step TB UB e (Network.manager n)) as [mg|] eqn:E; [|done]. injection Hs as <-.
    destruct e as [ | |i e| | | | | |]; try done. destruct i; [|done]. destruct e as [| | |e|]; try done.
    + destruct (send_flow a b n mg m k s k2 s2 qo qi Hc Hc2 E Hd Ho Hin) as (k' & s' & H1 & H2 & H3 & H4). by eapply Hquiet.
    + destruct e as [bytes| | | |]; try done. cbn [Pair.stands] in Hst. unfold Pair.session in Hst.
      pose proof Hc as [Hi Hp _]. pose proof Hc2 as [Hi2 Hp2 _]. rewrite Hi, Hi2, Hp, Hp2 in Hst.
      apply andb_prop in Hst as [Hb%negb_true_iff%bool_decide_eq_false Hw%bool_decide_eq_true].
      destruct (read_flow a b n mg m k s k2 s2 qo qi bytes Hc Hc2 E Hb Hw Hd2 Ho Hin) as (k' & s' & H1 & H2 & H3 & H4).
      by eapply Hquiet.
  - cbn [Network.step] in Hs. destruct (Network.transmit n) as [n1|] eqn:E; [|done]. injection Hs as <-.
    destruct (transmit_flow a b n n1 m k s s2 qo Hc E Ho) as (k' & H1 & H2 & H3 & H4 & H5).
    exists k', s, qo, qi. split_and!; [done..|by eapply flow_same|]. by left.
  - cbn [Network.step] in Hs. destruct (_ && _) eqn:Hb; [|done]. apply andb_prop in Hb as [Hb%bool_decide_eq_true _].
    by eapply turn_flow.
  - cbn [Network.step] in Hs. case_bool_decide as Hb; [|done]. injection Hs as Hs.
    eapply handled_flow; [exact Hs|done..|]. intros h outs. rewrite (view_on _ _ _ _ Hc). by eapply Spec.ns_ask.
Qed.

(** * Runs *)

(** The state of a pair of nodes and that of the specification. *)
Definition related (al ar : AddressHash) (p : Pair.t) (sp : Spec.t) : Prop :=
  exists kl sl kr sr, conn al (Pair.left p) kl sl /\ conn ar (Pair.right p) kr sr /\
    flow al ar (Pair.left p) (Pair.right p) kl sl sr (Spec.to_right sp) /\
    flow ar al (Pair.right p) (Pair.left p) kr sr sl (Spec.to_left sp) /\
    Network.handler (Pair.left p) = Spec.lh sp /\ Network.handler (Pair.right p) = Spec.rh sp /\
    Network.posted (Pair.left p) = Spec.lposted sp /\ Network.posted (Pair.right p) = Spec.rposted sp.

Definition taken_of n : list Packet := match Pair.session n with Some s => Session.taken s | None => [] end.

Lemma taken_conn a n k s : conn a n k s -> taken_of n = Session.taken s.
Proof. intros [Hi Hp _]. unfold taken_of, Pair.session. by rewrite Hi, Hp. Qed.

Lemma pair_simulated al ar e p p' sp : related al ar p sp ->
  Forall deliverable (taken_of (Pair.left p)) -> Forall deliverable (taken_of (Pair.right p)) ->
  Pair.step rtt_bytes TB UB e p = Some (Ok p') ->
  taken_of (Pair.left p) `prefix_of` taken_of (Pair.left p') /\ taken_of (Pair.right p) `prefix_of` taken_of (Pair.right p') /\
  exists sp', rtc (Spec.step rtt_bytes al ar) sp sp' /\ related al ar p' sp'.
Proof.
  intros (kl & sl & kr & sr & Hl & Hr & Hlr & Hrl & H1 & H2 & H3 & H4) Hdl Hdr Hs.
  rewrite (taken_conn _ _ _ _ Hl) in *. rewrite (taken_conn _ _ _ _ Hr) in *.
  destruct p as [l r], sp as [lh rh qr ql lp rp]. cbn in H1, H2, H3, H4, Hl, Hr, Hlr, Hrl. subst.
  destruct e as [[] e]; cbn [Pair.step Pair.left Pair.right] in Hs; destruct (Pair.stands _ _ e) eqn:Hst; try done;
    destruct (Network.step rtt_bytes TB UB e _) as [[n|err]|] eqn:E; try done; injection Hs as <-; cbn [Pair.left Pair.right].
  - destruct (node_simulated _ _ _ _ _ _ _ _ _ _ _ _ Hl Hr Hlr Hrl Hdl Hdr Hst E) as (k' & s' & qo & qi & Hc & Ht & Ho & Hi & Hcase).
    rewrite (taken_conn _ _ _ _ Hc), (taken_conn _ _ _ _ Hr). split_and!; [done..|].
    destruct Hcase as [(-> & -> & Hh & Hp)|(outs & Hn & -> & Hp)].
    + eexists. split; [apply rtc_refl|]. exists k', s', kr, sr. by split_and!.
    + eexists. split; [by apply rtc_once, Spec.sp_left|]. exists k', s', kr, sr. by split_and!.
  - destruct (node_simulated _ _ _ _ _ _ _ _ _ _ _ _ Hr Hl Hrl Hlr Hdr Hdl Hst E) as (k' & s' & qo & qi & Hc & Ht & Ho & Hi & Hcase).
    rewrite (taken_conn _ _ _ _ Hc), (taken_conn _ _ _ _ Hl). split_and!; [done..|].
    destruct Hcase as [(-> & -> & Hh & Hp)|(outs & Hn & -> & Hp)].
    + eexists. split; [apply rtc_refl|]. exists kl, sl, k', s'. by split_and!.
    + eexists. split; [by apply rtc_once, Spec.sp_right|]. exists kl, sl, k', s'. by split_and!.
Qed.

(** What was taken stays taken, whether it could be delivered or not. *)
Lemma session_taken c e (s s' : Session.t (list byte)) out : Session.step (Tcp.read TB) (Tcp.send TB) c e s = Some (s', out) ->
  Session.taken s `prefix_of` Session.taken s'.
Proof.
  destruct s as [r tx st bf rd hd tk wr]. destruct e as [[|x bytes]| | |q|]; cbn [Session.step].
  2: { case_bool_decide; [|done]. destruct (Tcp.read TB _ _) as [[buf ps] ok]. by intros [= <- _]. }
  all: intros; repeat case_match; simplify_eq; cbn; unfold constant; try done. by apply prefix_app_r.
Qed.

Lemma task_taken a n mg k s e : conn a n k s ->
  InterfaceManager.step TB UB (InterfaceManager.OnTcp 0 e) (Network.manager n) = Some mg -> e <> Task.Disconnected ->
  exists k' s', conn a (n {{ Network.manager := mg }}) k' s' /\ Session.taken s `prefix_of` Session.taken s'.
Proof.
  intros [Hi Hp Hs] Ht He. cbn [InterfaceManager.step] in Ht. rewrite Hi in Ht. cbn [lookup list_lookup] in Ht.
  destruct (Tcp.task_step TB _ e k) as [[k' out]|] eqn:E; [|done]. injection Ht as <-.
  destruct (connected_step TB _ _ _ _ _ _ Hp E) as (_ & _ & [(Ho & Hph & _)|(e' & s' & Hs' & Hp')]).
  - unfold Tcp.task_step, Task.step in E. rewrite Hp in E. destruct e as [|ok| |e|]; try done.
    + destruct (Task.channel k); [done|]. destruct (Session.step _ _ _ _ s) as [[? ?]|]; [|done]. injection E as <- _.
      destruct k. cbn in Hph. unfold constant in Hph. by destruct Hph.
    + destruct e; try done; destruct (Session.step _ _ _ _ s) as [[? ?]|]; try done; injection E as <- _;
        destruct k; cbn in Hph; unfold constant in Hph; by destruct Hph.
  - exists k', s'. split; [|by eapply session_taken]. constructor; [|done|by eapply session_step_ok].
    destruct n as [? [c ifs rx ca] ? ? ? ?]. cbn in *. by subst.
Qed.

Lemma finish_conn a n n1 n' k s r : Network.finish r n1 = Ok n' ->
  InterfaceManager.ifaces (Network.manager n1) = InterfaceManager.ifaces (Network.manager n) -> conn a n k s -> conn a n' k s.
Proof.
  intros Hf Hi [H1 H2 H3]. destruct (finish_inv _ _ _ Hf) as (h & outs & ->). injection Hf as <-. destruct n1. cbn in *.
  constructor; cbn; congruence.
Qed.

Lemma node_taken a n n' m k s e : conn a n k s -> Pair.stands m n e = true ->
  Network.step rtt_bytes TB UB e n = Some (Ok n') ->
  exists k' s', conn a n' k' s' /\ Session.taken s `prefix_of` Session.taken s'.
Proof.
  intros Hc Hst Hs. destruct e as [e| |loop secret ivs now|r| |loop]; try done; cbn [Network.step] in Hs.
  - destruct (Network.own_event n e); [|done]. destruct (InterfaceManager.step TB UB e _) as [mg|] eqn:E; [|done].
    injection Hs as <-. destruct e as [ | |i e| | | | | |]; try done. destruct i; [|done].
    eapply task_taken; [done|exact E|]. by destruct e.
  - destruct (Network.transmit n) as [n1|] eqn:E; [|done]. injection Hs as <-. unfold Network.transmit in E.
    destruct (Network.sending n) as [|[x msg] rest]; [done|]. pose proof Hc as [Hi Hp Hs]. rewrite Hi in E. cbn in E.
    destruct (decide _) in E; cbn in E.
    + rewrite Hp in E. destruct (Task.channel k) eqn:Hch; [|done]. injection E as <-.
      exists (k {{ Task.channel := [tx_packet msg] }}), s. split; [|done].
      destruct n as [? [? ifs ? ?] ? ? ? ?]. cbn in *. simplify_eq. constructor; cbn; [|by destruct k|done].
      unfold Network.is_at in i. cbn in i. by subst x.
    + injection E as <-. exists k, s. split; [|done]. destruct n. by constructor.
  - destruct (_ && _); [|done]. exists k, s. split; [|done]. destruct loop; cbn [Network.turn] in Hs.
    + destruct (InterfaceManager.rx_recv _); [done|]. injection Hs as Hs. eapply (finish_conn _ n); [exact Hs|by destruct n as [? []]|done].
    + injection Hs as Hs. by eapply finish_conn.
    + apply (inj Some) in Hs. by eapply finish_conn.
    + injection Hs as Hs. by eapply finish_conn.
    + apply (inj Some) in Hs. eapply (finish_conn _ n); [exact Hs| |done]. destruct Hc as [Hi Hp _].
      destruct n as [? [c ifs rx ca] ? ? ? ?]. cbn in *. subst ifs. unfold constant.
      rewrite filter_cons_True; [done|]. cbn. by rewrite Hp.
  - case_bool_decide; [|done]. injection Hs as Hs. exists k, s. split; [|done]. by eapply finish_conn.
Qed.

Definition both_taken (p : Pair.t) : list Packet := taken_of (Pair.left p) ++ taken_of (Pair.right p).

Definition joined (al ar : AddressHash) (p : Pair.t) : Prop :=
  (exists k s, conn al (Pair.left p) k s) /\ exists k s, conn ar (Pair.right p) k s.

Lemma pair_taken al ar e p p' : joined al ar p -> Pair.step rtt_bytes TB UB e p = Some (Ok p') ->
  joined al ar p' /\ both_taken p ⊆ both_taken p'.
Proof.
  intros [(kl & sl & Hl) (kr & sr & Hr)] Hs. unfold both_taken. destruct p as [l r]. cbn in Hl, Hr.
  destruct e as [[] e]; cbn [Pair.step Pair.left Pair.right] in Hs; destruct (Pair.stands _ _ e) eqn:Hst; try done;
    destruct (Network.step rtt_bytes TB UB e _) as [[n|err]|] eqn:E; try done; injection Hs as <-; cbn [Pair.left Pair.right].
  - destruct (node_taken _ _ _ _ _ _ _ Hl Hst E) as (k' & s' & Hc & [x Hx]). split; [split; eauto|].
    rewrite (taken_conn _ _ _ _ Hl), (taken_conn _ _ _ _ Hc), Hx. intros q. rewrite !elem_of_app. tauto.
  - destruct (node_taken _ _ _ _ _ _ _ Hr Hst E) as (k' & s' & Hc & [x Hx]). split; [split; eauto|].
    rewrite (taken_conn _ _ _ _ Hr), (taken_conn _ _ _ _ Hc), Hx. intros q. rewrite !elem_of_app. tauto.
Qed.

Lemma run_taken al ar es : forall p p', joined al ar p -> Pair.run rtt_bytes TB UB es p = Some (Ok p') ->
  both_taken p ⊆ both_taken p'.
Proof.
  induction es as [|e es IH]; intros p p' Hj; cbn [Pair.run]; [by intros [= ->]|].
  destruct (Pair.step rtt_bytes TB UB e p) as [[p1|err]|] eqn:E; try done. intros Hr.
  destruct (pair_taken _ _ _ _ _ Hj E) as [Hj1 H1]. etrans; [exact H1|]. by apply IH.
Qed.

Lemma related_joined al ar p sp : related al ar p sp -> joined al ar p.
Proof. intros (kl & sl & kr & sr & Hl & Hr & _). split; eauto. Qed.

Lemma run_simulated al ar es : forall p p' sp, related al ar p sp -> Pair.run rtt_bytes TB UB es p = Some (Ok p') ->
  Forall deliverable (both_taken p') -> exists sp', rtc (Spec.step rtt_bytes al ar) sp sp' /\ related al ar p' sp'.
Proof.
  induction es as [|e es IH]; intros p p' sp Hrel; cbn [Pair.run]; [intros [= ->]; by exists sp|].
  destruct (Pair.step rtt_bytes TB UB e p) as [[p1|err]|] eqn:E; try done. intros Hr Hd.
  assert (Hd0 : Forall deliverable (both_taken p)).
  { rewrite Forall_forall in *. intros q Hq. apply Hd. apply (run_taken al ar (e :: es) p p' (related_joined _ _ _ _ Hrel)); [|done].
    cbn [Pair.run]. by rewrite E. }
  apply Forall_app in Hd0 as [Hdl Hdr].
  destruct (pair_simulated _ _ _ _ _ _ Hrel Hdl Hdr E) as (_ & _ & sp1 & Hstep & Hrel1).
  destruct (IH _ _ _ Hrel1 Hr Hd) as (sp2 & Hsteps & Hrel2). exists sp2. split; [by etrans|done].
Qed.

Lemma connected_related al ar l r : Pair.connected TB al l -> Pair.connected TB ar r ->
  related al ar (Pair.mk l r) (Spec.mk (Network.handler l) (Network.handler r) [] [] (Network.posted l) (Network.posted r)).
Proof.
  intros (kl & Hil & Hpl & Hcl & Hrl & Hsl) (kr & Hir & Hpr & Hcr & Hrr & Hsr).
  exists kl, (Tcp.session TB), kr, (Tcp.session TB). cbn.
  split; [by constructor; [..|apply session_new_ok]|]. split; [by constructor; [..|apply session_new_ok]|].
  split; [|split; [|by split_and!]].
  - split; [done|]. exists [], []. by rewrite Hrr, Hcl, Hsl.
  - split; [done|]. exists [], []. by rewrite Hrl, Hcr, Hsr.
Qed.

End Simulation.

(** Nothing is under way between two nodes. *)
Definition quiet `{IdentityCrypto} (l r : Network.t) : Prop :=
  Network.sending l = [] /\ InterfaceManager.rx_recv (Network.manager r) = [] /\
  (forall k, InterfaceManager.ifaces (Network.manager l) = [k] -> InterfaceManager.channel k.2 = []) /\
  (forall s s', Pair.session l = Some s -> Pair.session r = Some s' ->
     concat (Session.reads s') = concat (Session.written s)).

Lemma quiet_flow `{IdentityCrypto} (TB : nat) (HB : 1 <= TB) a b (n m : Network.t) k s k2 s2 q : conn TB a n k s ->
  conn TB b m k2 s2 -> Forall (deliverable TB) (Session.taken s) -> flow a b n m k s s2 q -> quiet n m -> q = [].
Proof.
  intros [Hi Hp Hs] [Hi2 Hp2 Hs2] Hd [Hpre (qs & dl & Hrx & Hq & ->)] (Hsend & Hrecv & Hch & Hrd).
  rewrite Hrecv in Hrx. destruct qs; [|done]. inversion Hq; subst. rewrite Hsend. specialize (Hch _ Hi). cbn in Hch. rewrite Hch.
  assert (Hrw : concat (Session.reads s2) ++ [] = concat (Session.written s)).
  { rewrite app_nil_r. apply Hrd; unfold Pair.session; [by rewrite Hi, Hp|by rewrite Hi2, Hp2]. }
  destruct (session_delivers TB s s2 [] HB Hs Hs2 Hrw Hd) as (_ & ps & more & Ht & Hh & Hm).
  rewrite (Hm eq_refl), app_nil_r in Ht. apply Forall2_length in Hh. rewrite Ht, drop_ge by lia. done.
Qed.


#[local] Existing Instance toy_features.
#[local] Existing Instance toy_crypto.
#[local] Existing Instance toy_identity.
#[local] Existing Instance key_order.

(** A node that has connected, and one that also offers a destination. *)
Definition node_with (bc : bool) (asked : list Network.Event) : option (result (fault RetError) Network.t) :=
  Network.run sample_rtt 256 256
    ([Network.OnIfaces (InterfaceManager.Spawn (InterfaceManager.TcpTask (Task.new false)));
      Network.OnIfaces (InterfaceManager.OnTcp 0 (Task.Connect true))] ++ asked) (Network.new bc).

Definition the_node (r : option (result (fault RetError) Network.t)) : Network.t :=
  match r with Some (Ok n) => n | _ => Network.new false end.
Definition client_node : Network.t := the_node (node_with false []).
Definition server_node : Network.t := the_node (node_with false [Network.Asked (Network.AddDestination sample_server (arr_zero 32))]).

Definition server_desc : DestinationDesc := in_desc (SingleInput_new sample_server (arr_zero 32)).

(** The bytes one node has written and the other not read. *)
Definition on_wire (n m : Network.t) : list byte :=
  match Pair.session n, Pair.session m with
  | Some s, Some r => drop (length (concat (Session.reads r))) (concat (Session.written s))
  | _, _ => []
  end.

(** The client opens a link; each packet goes over the wire and is handled. *)
Definition carry (from to : Pair.Side) (bytes : list byte) (now : Z) : list (Pair.Side * Network.Event) :=
  [(from, Network.Transmit); (from, Network.OnIfaces (InterfaceManager.OnTcp 0 Task.Transmit));
   (to, Network.OnIfaces (InterfaceManager.OnTcp 0 (Task.InSession (Session.Read bytes))));
   (to, Network.Turn Network.PacketLoop (arr_of 32 (replicate 32 x05)) (fun _ => arr_zero 16) now)].

Definition link_asked : list (Pair.Side * Network.Event) :=
  [(Pair.Left_, Network.Asked (Network.OpenLink (PrivateIdentity.new (arr_zero 32) (toy_secret x01)) server_desc 1))].

Definition after (es : list (Pair.Side * Network.Event)) : Pair.t :=
  match Pair.run sample_rtt 256 256 es (Pair.mk client_node server_node) with
  | Some (Ok p) => p
  | _ => Pair.mk client_node server_node
  end.

(** What is on the wire once a node has sent what it has to send. *)
Definition bytes_sent (from : Pair.Side) (es : list (Pair.Side * Network.Event)) : list byte :=
  let p := after (es ++ take 2 (carry from from [] 0)) in
  match from with
  | Pair.Left_ => on_wire (Pair.left p) (Pair.right p)
  | Pair.Right_ => on_wire (Pair.right p) (Pair.left p)
  end.

Definition request_carried : list (Pair.Side * Network.Event) :=
  link_asked ++ carry Pair.Left_ Pair.Right_ (bytes_sent Pair.Left_ link_asked) 2.
Definition proof_carried : list (Pair.Side * Network.Event) :=
  request_carried ++ carry Pair.Right_ Pair.Left_ (bytes_sent Pair.Right_ request_carried) 3.
Definition rtt_carried : list (Pair.Side * Network.Event) :=
  proof_carried ++ carry Pair.Left_ Pair.Right_ (bytes_sent Pair.Left_ proof_carried) 4.

Definition deliverable_check (TB : nat) (p : Packet) : bool :=
  bool_decide (ifac p = None) && bool_decide (header_type (header p) = Type2 <-> is_Some (transport p)) &&
  Nat.eqb (length (StaticBuffer.buffer (data p))) PACKET_MDU && Nat.leb (StaticBuffer.len (data p)) PACKET_MDU &&
  Nat.leb (length (frame (wire p))) TB.

Lemma deliverable_checked TB p : deliverable_check TB p = true -> deliverable TB p.
Proof.
  unfold deliverable_check. intros H. repeat apply andb_prop in H as [H ?].
  apply bool_decide_eq_true in H. repeat match goal with H : bool_decide _ = true |- _ => apply bool_decide_eq_true in H end.
  split; [|by apply Nat.leb_le]. split; [done|]. split; [done|]. split; [by apply Nat.eqb_eq|by apply Nat.leb_le].
Qed.

(** The client's link to the server and the server's end of it are active, with one key. *)
Definition linked (p : Pair.t) : bool :=
  match out_links (Network.handler (Pair.left p)) !! d_address_hash server_desc with
  | Some la =>
      match in_links (Network.handler (Pair.right p)) !! Link.id la with
      | Some lb => bool_decide (Link.status la = Active) && bool_decide (Link.status lb = Active)
          && bool_decide (Link.derived_key la = Link.derived_key lb)
      | None => false
      end
  | None => false
  end.

Lemma connected_client_node : Pair.connected 256 (RnsNodeRouter.interface_address 1) client_node.
Proof. eexists. split; [reflexivity|]. split_and!; reflexivity. Qed.

Lemma connected_server_node : Pair.connected 256 (RnsNodeRouter.interface_address 1) server_node.
Proof. eexists. split; [reflexivity|]. split_and!; reflexivity. Qed.

