(* ===== verification/Connect.v ===== *)
(** Two nodes joined by a TCP connection establish a link: the schedule of tasks,
    sockets and turns that carries the request and its proof over the wire, for any
    two nodes, and what they have at its end.  [Wire] shows what every schedule
    keeps; here one is shown to exist. *)

From Stdlib Require Import ZArith Lia.
From Stdlib Require Import Strings.Byte.
From stdpp Require Import base gmap numbers relations list.
From coqutil Require Import Datatypes.RecordSetters.
From S2P Require Import Prelude Crypto Buffer Hdlc Packet Iface Identity Destination Link Transport Node Kaonic Interfaces Network Wire.
Import DoubleBraceUpdate.

(** * What a link makes of a packet depends on the bytes in use *)

Section Equivalent.
Context `{F : Features} `{IC : IdentityCrypto}.

#[export] Instance link_id_proper : Proper ((≡) ==> (=)) LinkId_from.
Proof. intros p q (Hh & _ & Hd & _ & Hc & Hs). unfold LinkId_from. by rewrite Hh, Hd, Hc, Hs. Qed.

#[export] Instance validate_proof_proper desc id : Proper ((≡) ==> (=)) (Link.validate_proof_packet desc id).
Proof. intros p q (_ & _ & _ & _ & _ & Hs). unfold Link.validate_proof_packet. by rewrite Hs. Qed.

Lemma handle_proof_equiv p q now (l : Link.t) : q ≡ p -> packet_type (header p) = Proof_ ->
  Link.handle_packet q now l = Link.handle_packet p now l.
Proof.
  intros Hq Hty. unfold Link.handle_packet. rewrite (validate_proof_proper _ _ _ _ Hq).
  destruct Hq as (Hh & _ & Hd & _ & Hc & _). by rewrite Hd, Hh, Hty, Hc.
Qed.

Lemma new_from_request_equiv p q key secret desc now : q ≡ p -> StaticBuffer.wf (data p) -> StaticBuffer.wf (data q) ->
  Link.new_from_request q key secret desc now = Link.new_from_request p key secret desc now.
Proof.
  intros Hq Hp Hwq. unfold Link.new_from_request. rewrite (link_id_proper _ _ Hq), (wf_len_slice _ Hp), (wf_len_slice _ Hwq).
  destruct Hq as (_ & _ & _ & _ & _ & ->). done.
Qed.

End Equivalent.

(** * Carrying a packet *)

Section Carry.
Context `{F : Features} `{IC : IdentityCrypto} `{HI : HashIter}.
Context (rtt_bytes : Z -> list byte) (TB UB : nat) (HB : 1 <= TB).
Implicit Types n m : Network.t.

(** One end of a connection at rest: it can send and hear, and the other end has read
    all it wrote. *)
Record at_rest (a : AddressHash) n (k : Task.t (list byte)) (s s2 : Session.t (list byte)) : Prop := {
  ar_conn : conn TB a n k s;
  ar_channel : Task.channel k = [];
  ar_tx : Session.tx_running s = true;
  ar_rx : Session.rx s = RxRunning;
  ar_read : concat (Session.reads s2) = concat (Session.written s);
  ar_taken : Forall (deliverable TB) (Session.taken s);
  ar_loop : Network.PacketLoop ∈ Network.running n
}.

Definition rest_of n : Network.t -> Prop := fun n' =>
  Network.handler n' = Network.handler n /\ Network.posted n' = Network.posted n /\ Network.running n' = Network.running n.

(** The sending end: into the channel of the interface, and onto the wire. *)
Lemma send_one a n k s s2 msg : at_rest a n k s s2 -> Network.sending n = [(a, msg)] -> deliverable TB (tx_packet msg) ->
  let s' := s {{ Session.taken := Session.taken s ++ [tx_packet msg];
                 Session.written := Session.written s ++ [frame (wire (tx_packet msg))] }} in
  exists n1 n' k',
    Network.step rtt_bytes TB UB Network.Transmit n = Some (Ok n1) /\
    Network.step rtt_bytes TB UB (Network.OnIfaces (InterfaceManager.OnTcp 0 Task.Transmit)) n1 = Some (Ok n') /\
    conn TB a n' k' s' /\ Task.channel k' = [] /\ rest_of n n' /\ Network.sending n' = [] /\
    InterfaceManager.rx_recv (Network.manager n') = InterfaceManager.rx_recv (Network.manager n).
Proof.
  intros [[Hi Hp Hs] Hch Htx Hrx Hrd Htk Hlp] Hsend Hd s'.
  assert (Hstep : forall c, Session.step (Tcp.read TB) (Tcp.send TB) c (Session.Send (tx_packet msg)) s = Some (s', [])).
  { intros c. cbn [Session.step]. rewrite Htx. unfold Tcp.send. rewrite tx_frame by apply Hd. done. }
  destruct n as [h [c ifs rx ca] sd po ru cn]. cbn in Hi, Hsend. subst ifs sd.
  destruct k as [st rn ph ch]. cbn in Hp, Hch. subst ph ch.
  exists (Network.mk h (InterfaceManager.mk c [(a, InterfaceManager.TcpTask (Task.mk st rn (Task.Connected s) [tx_packet msg]))] rx ca)
    [] po ru cn).
  exists (Network.mk h (InterfaceManager.mk c [(a, InterfaceManager.TcpTask (Task.mk st rn (Task.Connected s') []))] rx ca)
    [] po ru cn).
  exists (Task.mk st rn (Task.Connected s') []). split_and!; try done.
  - cbn [Network.step]. unfold Network.transmit. cbn. rewrite decide_True by done. cbn. by rewrite app_nil_r.
  - cbn [Network.step Network.own_event InterfaceManager.step Network.manager InterfaceManager.ifaces].
    cbn [lookup list_lookup]. unfold Tcp.task_step, Task.step. cbn [Task.phase Task.channel]. rewrite Hstep.
    cbn. by rewrite app_nil_r.
  - constructor; [done|done|]. exact (proj1 (session_step_ok TB false _ _ _ _ Hs (Hstep false))).
Qed.

(** The receiving end: a whole frame, and the packet in it. *)
Lemma read_one b m k2 s2 s s' p : conn TB b m k2 s2 -> Session.rx s2 = RxRunning -> session_ok TB s ->
  Forall (deliverable TB) (Session.taken s) -> concat (Session.reads s2) = concat (Session.written s) ->
  session_ok TB s' -> Session.taken s' = Session.taken s ++ [p] -> Session.written s' = Session.written s ++ [frame (wire p)] ->
  deliverable TB p ->
  exists m' k2' s2' q,
    Network.step rtt_bytes TB UB (Network.OnIfaces (InterfaceManager.OnTcp 0 (Task.InSession (Session.Read (frame (wire p)))))) m
      = Some (Ok m') /\
    conn TB b m' k2' s2' /\ Task.channel k2' = Task.channel k2 /\ rest_of m m' /\ Network.sending m' = Network.sending m /\
    InterfaceManager.rx_recv (Network.manager m') = InterfaceManager.rx_recv (Network.manager m) ++ [mkRx b q] /\ q ≡ p /\
    StaticBuffer.wf (data q) /\
    Session.rx s2' = RxRunning /\ Session.tx_running s2' = Session.tx_running s2 /\ Session.taken s2' = Session.taken s2 /\
    Session.written s2' = Session.written s2 /\ Session.reads s2' = Session.reads s2 ++ [frame (wire p)].
Proof.
  intros [Hi Hp Hs2] Hrx Hs Htk Hrd Hs' Htk' Hwr' Hd.
  destruct (session_delivers TB s s2 [] HB Hs Hs2 ltac:(by rewrite app_nil_r) Htk) as (_ & ps & more & Et & Hh & Hm).
  rewrite (Hm eq_refl), app_nil_r in Et. subst ps. clear Hm more.
  destruct (Tcp.read TB (frame (wire p)) (Session.buffer s2)) as [[buf out] ok] eqn:Er.
  set (s2' := s2 {{ Session.rx := if ok : bool then RxRunning else RxPanicked; Session.buffer := buf;
    Session.reads := Session.reads s2 ++ [frame (wire p)]; Session.heard := Session.heard s2 ++ out }}).
  assert (Hstep : forall c, Session.step (Tcp.read TB) (Tcp.send TB) c (Session.Read (frame (wire p))) s2 = Some (s2', out)).
  { intros c. cbn [Session.step]. rewrite Hrx. unfold frame in *. cbn [app] in *. rewrite Er. done. }
  destruct (session_step_ok TB false _ _ _ _ Hs2 (Hstep false)) as [Hs2' Hheard].
  assert (Hfields : Session.rx s2' = (if ok then RxRunning else RxPanicked) /\ Session.reads s2' = Session.reads s2 ++ [frame (wire p)] /\
    Session.taken s2' = Session.taken s2 /\ Session.written s2' = Session.written s2 /\
    Session.tx_running s2' = Session.tx_running s2) by (by destruct s2).
  destruct Hfields as (Frx & Frd & Ftk & Fwr & Ftx).
  destruct (session_delivers TB s' s2' [] HB Hs' Hs2') as (Hok & ps & more & Et & Hh' & Hm).
  { rewrite app_nil_r, Frd, Hwr', !concat_app. by rewrite Hrd. }
  { rewrite Htk'. apply Forall_app. split; [done|]. by apply Forall_singleton. }
  rewrite (Hm eq_refl), app_nil_r, Htk' in Et. subst ps. rewrite Hheard in Hh'.
  assert (Hlen : length (Session.heard s2) = length (Session.taken s)) by (by eapply Forall2_length).
  apply Forall2_app_inv in Hh' as [_ Ho]; [|done]. apply Forall2_cons_inv_r in Ho as (q & rest & Hq & Hnil & Eo).
  inversion Hnil; subst rest; clear Hnil Hm more. destruct ok; [|by rewrite Frx in Hok].
  assert (Hwf : StaticBuffer.wf (data q)).
  { pose proof (tcp_read_sound TB _ _ _ _ _ Er) as Hsound. rewrite Eo in Hsound. by inversion Hsound. }
  destruct m as [h [c ifs rx ca] sd po ru cn]. cbn in Hi. subst ifs. destruct k2 as [st rn ph ch]. cbn in Hp. subst ph.
  exists (Network.mk h (InterfaceManager.mk c [(b, InterfaceManager.TcpTask (Task.mk st rn (Task.Connected s2') ch))]
    (rx ++ [mkRx b q]) ca) sd po ru cn), (Task.mk st rn (Task.Connected s2') ch), s2', q.
  split_and!; try done. cbn [Network.step Network.own_event InterfaceManager.step Network.manager InterfaceManager.ifaces].
  cbn [lookup list_lookup]. unfold Tcp.task_step, Task.step. cbn [Task.phase Task.channel]. rewrite Hstep, Eo. done.
Qed.

(** A pair of nodes, one of them first. *)
Definition put (side : Pair.Side) n m : Pair.t :=
  match side with Pair.Left_ => Pair.mk n m | Pair.Right_ => Pair.mk m n end.
Definition other (side : Pair.Side) : Pair.Side :=
  match side with Pair.Left_ => Pair.Right_ | Pair.Right_ => Pair.Left_ end.

Lemma put_other side n m : put (other side) m n = put side n m.
Proof. by destruct side. Qed.

Lemma run_near side e es n n' m : Pair.stands m n e = true -> Network.step rtt_bytes TB UB e n = Some (Ok n') ->
  Pair.run rtt_bytes TB UB ((side, e) :: es) (put side n m) = Pair.run rtt_bytes TB UB es (put side n' m).
Proof. intros Hst Hs. cbn [Pair.run]. destruct side; cbn [Pair.step put Pair.left Pair.right]; by rewrite Hst, Hs. Qed.

Lemma run_far side e es n m m' : Pair.stands n m e = true -> Network.step rtt_bytes TB UB e m = Some (Ok m') ->
  Pair.run rtt_bytes TB UB ((other side, e) :: es) (put side n m) = Pair.run rtt_bytes TB UB es (put side n m').
Proof. intros Hst Hs. rewrite <- put_other. rewrite (run_near _ _ _ _ m') by done. by rewrite put_other. Qed.

Lemma run_app es es' : forall p p1, Pair.run rtt_bytes TB UB es p = Some (Ok p1) ->
  Pair.run rtt_bytes TB UB (es ++ es') p = Pair.run rtt_bytes TB UB es' p1.
Proof.
  induction es as [|e es IH]; intros p p1; cbn [Pair.run app]; [by intros [= ->]|].
  destruct (Pair.step rtt_bytes TB UB e p) as [[p2|err]|]; try done. apply IH.
Qed.

(** Between the two ends of a connection at rest, what is being sent arrives. *)
Lemma carry_packet side a b n m k s k2 s2 msg : at_rest a n k s s2 -> at_rest b m k2 s2 s ->
  Network.sending n = [(a, msg)] -> deliverable TB (tx_packet msg) ->
  exists es n' m' k' s' k2' s2' q, Pair.run rtt_bytes TB UB es (put side n m) = Some (Ok (put side n' m')) /\
    at_rest a n' k' s' s2' /\ at_rest b m' k2' s2' s' /\ rest_of n n' /\ rest_of m m' /\
    Network.sending n' = [] /\ Network.sending m' = Network.sending m /\
    InterfaceManager.rx_recv (Network.manager n') = InterfaceManager.rx_recv (Network.manager n) /\
    InterfaceManager.rx_recv (Network.manager m') = InterfaceManager.rx_recv (Network.manager m) ++ [mkRx b q] /\
    q ≡ tx_packet msg /\ StaticBuffer.wf (data q).
Proof.
  intros Hn Hm Hsend Hd. pose proof Hn as [[_ _ Hs] _ Htx Hrx Hrd Htk Hlp]. pose proof Hm as [Hc2 Hch2 Htx2 Hrx2 Hrd2 Htk2 Hlp2].
  destruct (send_one _ _ _ _ _ _ Hn Hsend Hd) as (n1 & n' & k' & E1 & E2 & Hc' & Hch' & Hrest & Hs' & Hrc).
  set (s' := s {{ Session.taken := _; Session.written := _ }}) in *.
  assert (Hf : Session.taken s' = Session.taken s ++ [tx_packet msg] /\
    Session.written s' = Session.written s ++ [frame (wire (tx_packet msg))] /\ Session.reads s' = Session.reads s /\
    Session.tx_running s' = Session.tx_running s /\ Session.rx s' = Session.rx s) by (by destruct s).
  destruct Hf as (F1 & F2 & F3 & F4 & F5).
  destruct (read_one b m k2 s2 s s' (tx_packet msg) Hc2 Hrx2 Hs Htk Hrd (cn_session _ _ _ _ _ Hc') F1 F2 Hd)
    as (m' & k2' & s2' & q & E3 & Hc2' & Hk2 & Hrest2 & Hsd2 & Hrc2 & Hq & Hwf & G1 & G2 & G3 & G4 & G5).
  assert (Hst : Pair.stands n' m (Network.OnIfaces (InterfaceManager.OnTcp 0
    (Task.InSession (Session.Read (frame (wire (tx_packet msg))))))) = true).
  { cbn [Pair.stands]. unfold Pair.session. rewrite (cn_ifaces _ _ _ _ _ Hc'), (cn_phase _ _ _ _ _ Hc').
    rewrite (cn_ifaces _ _ _ _ _ Hc2), (cn_phase _ _ _ _ _ Hc2). rewrite bool_decide_false by done. cbn [negb andb].
    apply bool_decide_eq_true. by rewrite F2, concat_app, Hrd; cbn [concat]; rewrite app_nil_r. }
  eexists [(side, Network.Transmit); (side, Network.OnIfaces (InterfaceManager.OnTcp 0 Task.Transmit));
    (other side, Network.OnIfaces (InterfaceManager.OnTcp 0 (Task.InSession (Session.Read (frame (wire (tx_packet msg)))))))],
    n', m', k', s', k2', s2', q.
  split_and!; try done.
  - rewrite (run_near _ _ _ _ n1), (run_near _ _ _ _ n'), (run_far _ _ _ _ _ m') by done. done.
  - destruct Hrest as (R1 & R2 & R3). constructor; [done|done|congruence|congruence| | |by rewrite R3].
    + by rewrite G5, F2, !concat_app, Hrd.
    + rewrite F1. apply Forall_app. split; [done|]. by apply Forall_singleton.
  - destruct Hrest2 as (R1 & R2 & R3). constructor; [done|congruence|congruence|congruence| | |by rewrite R3].
    + by rewrite F3, G4.
    + by rewrite G3.
Qed.

(** The packet task's turn. *)
Lemma turn_one a n k s s2 q secret ivs now h outs : at_rest a n k s s2 -> Network.sending n = [] ->
  InterfaceManager.rx_recv (Network.manager n) = [mkRx a q] ->
  Transport.receive rtt_bytes secret ivs now (mkRx a q) (Spec.on a (Network.handler n)) = Ok (h, outs) ->
  exists n', Network.step rtt_bytes TB UB (Network.Turn Network.PacketLoop secret ivs now) n = Some (Ok n') /\
    at_rest a n' k s s2 /\ Network.handler n' = h /\ Network.sending n' = omap Network.to_send outs /\
    InterfaceManager.rx_recv (Network.manager n') = [].
Proof.
  intros [Hc Hch Htx Hrx Hrd Htk Hlp] Hsend Hrc Hr. pose proof (view_on TB _ _ _ _ Hc) as Hv.
  cbn [Network.step]. rewrite !bool_decide_true by done. cbn [andb Network.turn]. rewrite Hrc, Hv, Hr.
  eexists. split; [reflexivity|]. destruct n as [h0 [c ifs rx ca] sd po ru cn]. cbn in *.
  split; [|by split_and!]. constructor; try done. destruct Hc as [Hi Hp Hs]. by constructor.
Qed.

(** A packet is carried over and handled: [P] is what its handling gives, whatever the
    unused bytes of its buffer. *)
Lemma carry_and_handle side a b n m k s k2 s2 msg secret ivs now (P : TransportHandler -> list Output -> Prop) :
  at_rest a n k s s2 -> at_rest b m k2 s2 s -> Network.sending n = [(a, msg)] -> deliverable TB (tx_packet msg) ->
  Network.sending m = [] -> InterfaceManager.rx_recv (Network.manager m) = [] ->
  (forall q, q ≡ tx_packet msg -> StaticBuffer.wf (data q) -> exists h outs,
     Transport.receive rtt_bytes secret ivs now (mkRx b q) (Spec.on b (Network.handler m)) = Ok (h, outs) /\ P h outs) ->
  exists es n' m' k' s' k2' s2' outs, Pair.run rtt_bytes TB UB es (put side n m) = Some (Ok (put side n' m')) /\
    at_rest a n' k' s' s2' /\ at_rest b m' k2' s2' s' /\ Network.handler n' = Network.handler n /\ Network.sending n' = [] /\
    InterfaceManager.rx_recv (Network.manager n') = InterfaceManager.rx_recv (Network.manager n) /\
    P (Network.handler m') outs /\ Network.sending m' = omap Network.to_send outs.
Proof.
  intros Hn Hm Hsend Hd Hsm Hqm HP.
  destruct (carry_packet side a b n m _ _ _ _ _ Hn Hm Hsend Hd)
    as (es & n' & m1 & k' & s' & k2' & s2' & q & E1 & Hn' & Hm1 & (Hh & _) & (Hhm & _) & Hs' & Hsm1 & Hq' & Hqm1 & Hq & Hwf).
  rewrite Hqm in Hqm1. destruct (HP q Hq Hwf) as (h & outs & Hr & HPh). rewrite <- Hhm in Hr.
  destruct (turn_one b m1 _ _ _ q secret ivs now h outs Hm1 ltac:(congruence) Hqm1 Hr) as (m' & E2 & Hm' & Hhm' & Hsm' & _).
  exists (es ++ [(other side, Network.Turn Network.PacketLoop secret ivs now)]), n', m', k', s', k2', s2', outs.
  split_and!; try done; [|by rewrite Hhm'].
  rewrite (run_app _ _ _ _ E1), (run_far _ _ _ _ _ m') by done. done.
Qed.

End Carry.

(** * The handshake *)

Section Handshake.
Context `{F : Features} `{IC : IdentityCrypto} `{HI : HashIter} `{CL : !CryptoLaws} `{IL : !IdentityLaws}.
Context (rtt_bytes : Z -> list byte) (Hrtt : forall z, (length (rtt_bytes z) < 2000)%nat).

Lemma length_stuffed (bs : list byte) : length (stuffed bs) <= 2 * length bs.
Proof.
  unfold stuffed. induction bs as [|b bs IH]; [done|]. cbn [map concat length]. rewrite length_app.
  unfold stuff at 1. destruct (_ || _); cbn [length]; lia.
Qed.

(** A packet of the first header type that is short enough. *)
Lemma short_deliverable TB p : ifac p = None -> header_type (header p) = Type1 -> transport p = None -> StaticBuffer.wf (data p) ->
  2 * length (StaticBuffer.as_slice (data p)) + 40 <= TB -> deliverable TB p.
Proof.
  intros Hi Hh Ht Hwf Hl. split.
  - split; [done|]. split; [|done]. rewrite Hh, Ht. split; [done|]. by intros [? ?].
  - unfold frame. rewrite !length_app. pose proof (length_stuffed (wire p)) as Hs.
    assert (length (wire p) = length (StaticBuffer.as_slice (data p)) + 19).
    { unfold wire, wire_transport. rewrite Hh. rewrite !length_app, arr_length. cbn [length]. lia. }
    cbn [length]. lia.
Qed.

Lemma on_ok a h : transport_ok h -> transport_ok (Spec.on a h).
Proof. unfold Spec.on. intros [H1 H2 H3]. destruct h. by constructor. Qed.

Lemma prove_wf (l : Link.t) : StaticBuffer.wf (data (Link.prove l).1.2).
Proof.
  unfold Link.prove. set (step := if negb _ then _ else _). destruct step as [l1 events]. cbn [fst snd data].
  destruct (packet_data_fits [arr_list (Link.id l1); arr_list (Identity.public_key (PrivateIdentity.identity (Link.priv_identity l1)));
    arr_list (vk_as_bytes (Identity.verifying_key (PrivateIdentity.identity (Link.priv_identity l1))))]) as [Hwf _].
  { cbn [concat]. rewrite !length_app, !arr_length. unfold PACKET_MDU. cbn [length]. lia. }
  edestruct safe_writes_fit as [Hw _]; [apply reset_wf, Hwf| |exact Hw].
  change (StaticBuffer.as_slice (StaticBuffer.reset _)) with (@nil byte).
  cbn [concat]. rewrite !length_app, !arr_length. unfold PACKET_MDU. cbn [length]. lia.
Qed.

(** One interface: everything goes there, and nothing is passed on to it that came from it. *)
Lemma send_everywhere a p : Transport.iface_send (mkTx (TxBroadcast None) p) [mkIface a false] =
  [ToIface a (mkTx (TxBroadcast None) p)].
Proof. done. Qed.

Lemma send_elsewhere a p : Transport.iface_send (mkTx (TxBroadcast (Some a)) p) [mkIface a false] = [].
Proof.
  unfold Transport.iface_send. rewrite filter_cons_False; [done|]. unfold Transport.should_send. cbn.
  by rewrite bool_decide_true.
Qed.

(** The transport that has the destination answers with the proof, and sends nothing else. *)
Lemma link_request_answered secret ivs now a req h d r0 :
  single_in_destinations h !! destination req = Some d -> packet_type (header req) = LinkRequest ->
  d_address_hash (in_desc d) = destination req -> in_links h !! LinkId_from req = None ->
  Link.new_from_request req (PrivateIdentity.sign_key (in_identity d)) secret (in_desc d) now = Ok r0 ->
  let '(r1, proof, _) := Link.prove r0 in
  exists h1 outs, Transport.receive rtt_bytes secret ivs now (mkRx a req) (Spec.on a h) = Ok (h1, outs) /\
    omap Network.to_send outs = [(a, mkTx (TxBroadcast None) proof)] /\ in_links h1 !! Link.id r1 = Some r1.
Proof.
  intros Hd Hty Haddr Hno Hnew.
  pose proof (receive_link_request rtt_bytes secret ivs now a req (Spec.on a h) d r0
    ltac:(by destruct h) Hty Haddr ltac:(by destruct h) Hnew) as Hr.
  destruct (Link.prove r0) as [[r1 proof] evs] eqn:Ep. destruct Hr as (h1 & outs & Er & _ & Hin & _).
  exists h1, outs. split; [done|]. split; [|done]. revert Er. unfold Transport.receive. cbv zeta. cbn [rx_packet rx_address].
  rewrite Hty. unfold Transport.handle_link_request.
  assert (Hev : forall es rest, omap Network.to_send (map InLinkEvent es ++ rest) = omap Network.to_send rest).
  { intros es rest. induction es; [done|]. by cbn. }
  destruct h as [bc ifs sin sout ol il pc]. cbn in Hd, Hno. unfold Spec.on, Transport.send_packet, Transport.send.
  cbn -[Transport.iface_send omap]. unfold constant. rewrite send_elsewhere.
  destruct bc; cbn -[Transport.iface_send omap]; rewrite Hd; unfold SingleInput_handle_packet;
    rewrite bool_decide_true, Hty by done; cbn [negb]; rewrite Hno, Hnew, Ep; cbn -[Transport.iface_send omap];
    rewrite send_everywhere; intros [= _ <-]; cbn [omap list_omap Network.to_send]; by rewrite Hev.
Qed.

(** ** The three legs *)

Context (TB UB : nat) (HB : 256 <= TB).

Lemma request_deliverable now (l : Link.t) : deliverable TB (Link.request now l).2.
Proof.
  destruct (request_packet now l) as [Hwf Hb]. apply short_deliverable; try done. rewrite Hb. unfold request_bytes.
  rewrite length_app, !arr_length. lia.
Qed.

Lemma proof_deliverable (l : Link.t) : deliverable TB (Link.prove l).1.2.
Proof.
  pose proof (prove_wf l) as Hwf. pose proof (prove_packet l) as Hp.
  assert (Hd : ifac (Link.prove l).1.2 = None /\ transport (Link.prove l).1.2 = None).
  { unfold Link.prove. by destruct (if negb _ then _ else _). }
  destruct Hd as [Hi Ht]. destruct (Link.prove l) as [[l' p] evs]. cbn [fst snd] in *. destruct Hp as (_ & Hh & _ & _ & Hb).
  apply short_deliverable; [done|by rewrite Hh|done..|]. rewrite Hb, length_app, !arr_length. lia.
Qed.

(** A node that has just connected is at rest. *)
Lemma connected_rest a n : Pair.connected TB a n -> Network.PacketLoop ∈ Network.running n ->
  exists k, at_rest TB a n k (Tcp.session TB) (Tcp.session TB) /\ Network.sending n = [] /\
    InterfaceManager.rx_recv (Network.manager n) = [].
Proof.
  intros (k & Hi & Hp & Hc & Hr & Hs) Hl. exists k. split; [|done].
  constructor; try done.
Qed.

(** The application asks for the link: the request is on its way. *)
Lemma ask_link a n k s s2 identity desc now : at_rest TB a n k s s2 -> Network.sending n = [] ->
  transport_ok (Network.handler n) -> out_links (Network.handler n) !! d_address_hash desc = None ->
  let '(l, req) := Link.request now (Link.new identity desc now) in
  exists n', Network.step rtt_bytes TB UB (Network.Asked (Network.OpenLink identity desc now)) n = Some (Ok n') /\
    at_rest TB a n' k s s2 /\ Network.sending n' = [(a, mkTx (TxBroadcast None) req)] /\
    Network.manager n' = Network.manager n /\ transport_ok (Network.handler n') /\
    out_links (Network.handler n') !! d_address_hash desc = Some l.
Proof.
  intros [Hc Hch Htx Hrx Hrd Htk Hlp] Hsend Hok Hno.
  pose proof (link_fresh identity desc now (Spec.on a (Network.handler n))) as Hlink.
  pose proof (tr_link rtt_bytes (Spec.on a (Network.handler n)) identity desc now) as Hstep.
  destruct (Link.request now (Link.new identity desc now)) as [l req].
  destruct Hlink as (h1 & E & Hl & _); [by destruct (Network.handler n)|]. rewrite E in Hstep. cbn [fst] in Hstep.
  cbn [Network.step]. rewrite bool_decide_true by done. cbn [Network.answer]. rewrite (view_on TB _ _ _ _ Hc), E. cbn [fst].
  replace (ifaces (Spec.on a (Network.handler n))) with [mkIface a false] by (by destruct (Network.handler n)).
  rewrite send_everywhere. eexists. split; [reflexivity|].
  pose proof (transport_step_ok rtt_bytes Hrtt _ _ (on_ok a _ Hok) Hstep) as Hok1.
  destruct n as [h0 mg sd po ru cn]. cbn in *. split_and!; try done.
  constructor; try done. destruct Hc as [Hi Hp Hs]. by constructor.
Qed.

End Handshake.


#[local] Existing Instance toy_features.
#[local] Existing Instance toy_crypto.
#[local] Existing Instance toy_identity.
#[local] Existing Instance toy_crypto_laws.
#[local] Existing Instance toy_identity_laws.
#[local] Existing Instance key_order.
#[local] Existing Instance Network.loop_eq_dec.

