(* ===== verification/Tables.v ===== *)
(** Two tables that are in place and not yet called: [transport/path_table.rs],
    which sends a packet on to the next node of its path, and
    [destination/link_map.rs]; and [create_retransmit_packet] of [transport.rs]. *)

From Stdlib Require Import ZArith Lia.
From Stdlib Require Import Strings.Byte.
From stdpp Require Import base gmap numbers list.
From S2P Require Import Prelude Crypto Buffer Packet.

Record PathEntry : Type := mkPathEntry {
  timestamp : Z;
  received_from : AddressHash;
  path_hops : byte;
  iface : AddressHash;
  path_packet_hash : Hash
}.

Definition set_header (h : Header) (t : option AddressHash) (p : Packet) : Packet :=
  mkPacket h (ifac p) (destination p) t (context p) (data p).

Module PathTable.

Definition t : Type := gmap AddressHash PathEntry.

Definition new : t := ∅.

Definition next_hop_iface (d : AddressHash) (table : t) : option AddressHash := iface <$> table !! d.
Definition next_hop (d : AddressHash) (table : t) : option AddressHash := received_from <$> table !! d.

(** The packet to send, and the interface it goes to. *)
Definition handle_packet (original_packet : Packet) (table : t) : Packet * option AddressHash :=
  let h := header original_packet in
  if bool_decide (header_type h = Type2) then (original_packet, None)
  else if bool_decide (packet_type h = Announce) then (original_packet, None)
  else if bool_decide (destination_type h = Plain) || bool_decide (destination_type h = Group) then (original_packet, None)
  else
    match table !! destination original_packet with
    | None => (original_packet, None)
    | Some entry =>
        (set_header (mkHeader (ifac_flag h) Type2 (propagation_type h) (destination_type h) (packet_type h) (hops h))
           (Some (received_from entry)) original_packet, Some (iface entry))
    end.

End PathTable.

(** [hops + 1] on a [u8]. *)
Definition create_retransmit_packet (packet : Packet) : Packet :=
  let h := header packet in
  set_header (mkHeader (ifac_flag h) (header_type h) (propagation_type h) (destination_type h) (packet_type h)
                (byte_of_Z (u8 (hops h) + 1))) (transport packet) packet.

Module LinkMap.

Definition t : Type := gmap AddressHash AddressHash.

Definition new : t := ∅.
Definition resolve (address : AddressHash) (m : t) : option AddressHash := m !! address.
Definition insert (address id : AddressHash) (m : t) : t := <[address := id]> m.
Definition remove (address : AddressHash) (m : t) : t := delete address m.

End LinkMap.

(** * Routing *)

Lemma hash_of_header `{Crypto} h t p :
  destination_type h = destination_type (header p) -> packet_type h = packet_type (header p) ->
  packet_hash (set_header h t p) = packet_hash p.
Proof.
  intros Hd Hp. unfold packet_hash. cbn [header destination context data set_header]. do 3 f_equal.
  destruct h as [i ht pt dt kt hp], (header p) as [i' ht' pt' dt' kt' hp']. cbn in *. subst.
  by destruct i, i', ht, ht', pt, pt', dt', kt'.
Qed.

(** Sending a packet along its path.  A packet that is not yet in transport,
    is no announce and whose destination has a path gets the next node of the
    path as its transport address and goes out on the path's interface; any
    other packet is left alone.  Either way its destination, hop count, context,
    payload and packet hash are what they were, so that a packet heard again on
    the way is recognised; the packet can be written to the wire and read back;
    and a routed packet is not routed a second time. *)
Theorem path_routing `{Crypto} (table : PathTable.t) (p : Packet) (Hp : wire_ok p) :
  let '(q, via) := PathTable.handle_packet p table in
  destination q = destination p /\ hops (header q) = hops (header p) /\ context q = context p /\ data q = data p /\
  packet_hash q = packet_hash p /\ wire_ok q /\
  (exists inp r, deserialize (InputBuffer.new (wire q)) = (inp, Ok r) /\ r ≡ q) /\
  (via = None -> q = p) /\
  (is_Some via -> transport q = PathTable.next_hop (destination p) table /\
     via = PathTable.next_hop_iface (destination p) table /\ length (wire q) = (length (wire p) + 16)%nat /\
     PathTable.handle_packet q table = (q, None)) /\
  (is_Some via <-> header_type (header p) = Type1 /\ packet_type (header p) <> Announce /\
     (destination_type (header p) = Single \/ destination_type (header p) = Link) /\ is_Some (table !! destination p)).
Proof.
  assert (Hread : forall q, wire_ok q -> exists inp r, deserialize (InputBuffer.new (wire q)) = (inp, Ok r) /\ r ≡ q)
    by (intros q Hq; destruct (deserialize_wire q Hq) as (inp & r & Hd & _ & He); eauto).
  unfold PathTable.handle_packet.
  case_bool_decide as Ht. { split_and!; eauto; try done; split; [by intros []|]. intros (? & _). congruence. }
  case_bool_decide as Ha. { split_and!; eauto; try done; split; [by intros []|]. intros (_ & ? & _). congruence. }
  destruct (bool_decide (destination_type (header p) = Plain) || bool_decide (destination_type (header p) = Group)) eqn:Hd.
  { split_and!; eauto; try done. split; [by intros []|]. intros (_ & _ & Hor & _).
    apply orb_true_iff in Hd as [Hd|Hd]; apply bool_decide_eq_true in Hd; destruct Hor; congruence. }
  apply orb_false_iff in Hd as [Hd1%bool_decide_eq_false Hd2%bool_decide_eq_false].
  destruct (table !! destination p) as [entry|] eqn:Hlook.
  2: { split_and!; eauto; try done. split; [by intros []|]. intros (_ & _ & _ & Hs). by destruct Hs. }
  set (q := set_header _ _ p).
  assert (Hq : wire_ok q) by (destruct Hp as (Hi & Htr & Hwf); split; [done|]; split; [by split; [eexists|]|done]).
  assert (H1 : header_type (header p) = Type1) by (by destruct (header_type (header p))).
  split_and!; eauto; try done.
  - by apply hash_of_header.
  - intros _. split_and!; [by unfold PathTable.next_hop; rewrite Hlook|by unfold PathTable.next_hop_iface; rewrite Hlook| |done].
    unfold wire, wire_transport, q. cbn. rewrite H1. cbn. rewrite !length_app, arr_length. cbn. lia.
  - split; [intros _|by eexists]. split_and!; [done..| |done]. destruct (destination_type (header p)); auto; done.
Qed.

Definition routed_packet : Packet :=
  mkPacket (mkHeader Open Type1 Transport Single Data x03) None (arr_zero 16) None CtxNone (StaticBuffer.new PACKET_MDU).

Lemma path_routing_witness :
  transport (PathTable.handle_packet routed_packet
    {[arr_zero 16 := mkPathEntry 0 (arr_of 16 [x07]) x01 (arr_of 16 [x08]) (arr_zero 32)]}).1 = Some (arr_of 16 [x07]).
Proof.
  pose proof (@path_routing toy_crypto {[arr_zero 16 := mkPathEntry 0 (arr_of 16 [x07]) x01 (arr_of 16 [x08]) (arr_zero 32)]}
    routed_packet ltac:(split; [reflexivity|]; split; [by split; [|intros []]|apply static_new_wf])) as H.
  destruct (PathTable.handle_packet _ _) as [q via] eqn:E. destruct H as (_ & _ & _ & _ & _ & _ & _ & _ & H & Hiff).
  cbn [fst]. destruct H as [-> _]; [|reflexivity]. apply Hiff. split_and!; [reflexivity|discriminate|by left|].
  eexists. apply lookup_singleton_eq.
Defined.
