(* ===== verification/Typing.v ===== *)
(** The integers of the state stay in the ranges of their types, whatever the
    files hold.  The codecs of [lxmf-rs/src/rns/storage.rs] narrow what they read
    with [as] and [try_from]; [RnsRouter] computes with wrapping and saturating
    operations.  Here that is a typing judgement on the messages, the items of
    the queue, the failures and the deliveries in flight, kept by every operation
    of the router from a start on arbitrary files; and on the peers, the
    statistics and the stamp costs that are loaded. *)

From Stdlib Require Import ZArith Lia.
From Stdlib Require Import Strings.Byte.
From stdpp Require Import base gmap strings numbers list.
From coqutil Require Import Datatypes.RecordSetters.
From S2P Require Import Prelude Float Msgpack Crypto Packet Identity Destination Stamp Message Rns.
From S2P Require Import Delivery Requests PnDirectory PropStore Peer StorageCodec StorageTables MessageStore Outbound.
Import DoubleBraceUpdate.

Local Open Scope Z_scope.

(** * The judgements *)

Definition message_typed (m : LXMessage.t) : bool :=
  opt_is is_u32 (LXMessage.m_stamp_cost m) && opt_is is_u32 (LXMessage.m_stamp_value m)
  && is_u8 (LXMessage.m_state m) && opt_is is_u8 (LXMessage.m_method m)
  && is_u8 (LXMessage.m_representation m).

Definition item_typed (item : QueuedMessage) : bool :=
  is_u64 (q_id item) && is_u32 (q_attempts item) && is_u64 (q_next_attempt_at_ms item)
  && message_typed (q_message item).

Definition failed_typed (f : FailedDelivery) : bool :=
  is_u64 (fd_id f) && is_u32 (fd_attempts f) && message_typed (fd_message f).

Definition inflight_typed (i : InflightDelivery) : bool :=
  is_u64 (if_id i) && is_u64 (if_sent_at_ms i) && is_u64 (if_timeout_ms i) && message_typed (if_message i).

Definition received_typed (x : Received) : bool :=
  match x with RcvMessage m => message_typed m | _ => true end.

Definition stats_typed (s : NodeStats) : bool :=
  is_u64 (client_propagation_messages_received s) && is_u64 (client_propagation_messages_served s)
  && is_u64 (unpeered_propagation_incoming s) && is_u64 (unpeered_propagation_rx_bytes s).

Definition peer_typed (p : Peer) : bool :=
  is_u64 (last_sync_ms p) && is_u64 (last_attempt_ms p) && is_u64 (next_sync_ms p) && is_u64 (backoff_ms p)
  && is_u32 (failures p) && is_u64 (last_heard_ms p) && is_u64 (rx_bytes p) && is_u64 (tx_bytes p)
  && is_u64 (messages_offered p) && is_u64 (messages_outgoing p) && is_u64 (messages_incoming p)
  && is_u64 (messages_unhandled p) && opt_is is_u32 (peering_key_value p) && is_u8 (sync_strategy p)
  && opt_is is_u32 (peering_cost p) && is_u64 (peering_timebase p) && opt_is is_u64 (propagation_sync_limit p)
  && opt_is is_u32 (propagation_stamp_cost p) && opt_is is_u32 (propagation_stamp_cost_flexibility p).

Record router_typed `{IC : IdentityCrypto} {S : Type} (r : RnsRouter.t S) : Prop := {
  rt_next : is_u64 (RnsRouter.next_id r) = true;
  rt_retry : RnsRouter.retry r = RetryPolicy_default;
  rt_outbound : Forall (fun item => item_typed item = true) (RnsRouter.outbound r);
  rt_failed : Forall (fun f => failed_typed f = true) (RnsRouter.failed r);
  rt_inbound : Forall (fun x => received_typed x = true) (RnsRouter.inbound r);
  rt_inflight : map_Forall (fun id i => if_id i = id /\ inflight_typed i = true) (RnsRouter.inflight r)
}.

(** A judgement about a record follows from those about its fields. *)
Ltac typed := rewrite ?andb_true_iff in *; naive_solver.

Lemma bind_is_Ok {E A B} (m : result E A) (f : A -> result E B) b :
  mbind f m = Ok b -> exists a, m = Ok a /\ f a = Ok b.
Proof. destruct m as [a|e]; [|done]. intros H. by exists a. Qed.

(** * Messages *)

Section Messages.
Context `{F : Features} `{IC : IdentityCrypto} `{M : Msgpack}.
Implicit Types m : LXMessage.t.

Lemma as_u8_range z : is_u8 (as_u8 z) = true.
Proof. unfold_ints. pose proof (Z.mod_pos_bound z (2 ^ 8)). lia. Qed.
Lemma as_u32_range z : is_u32 (as_u32 z) = true.
Proof. unfold_ints. pose proof (Z.mod_pos_bound z (2 ^ 32)). lia. Qed.
Lemma as_u64_range z : is_u64 (as_u64 z) = true.
Proof. unfold_ints. pose proof (Z.mod_pos_bound z (2 ^ 64)). lia. Qed.

Lemma opt_u32_typed v : opt_is is_u32 (value_to_opt_u32 v) = true.
Proof. unfold value_to_opt_u32. destruct (value_as_i64 v); [apply as_u32_range|done]. Qed.
Lemma opt_u8_typed v : opt_is is_u8 (value_to_opt_u8 v) = true.
Proof. unfold value_to_opt_u8. destruct (value_as_i64 v); [apply as_u8_range|done]. Qed.
Lemma opt_u64_typed v : opt_is is_u64 (value_to_opt_u64 v) = true.
Proof.
  unfold value_to_opt_u64. destruct (value_as_i64 v) as [z|]; [|done]. cbn. unfold try_u64.
  by destruct (is_u64 z) eqn:E.
Qed.
Lemma default_typed P (d : Z) o : P d = true -> opt_is P o = true -> P (default d o) = true.
Proof. by destruct o. Qed.

Lemma state_typed s m : is_u8 s = true -> message_typed m = true -> message_typed (set_state s m) = true.
Proof. destruct m. unfold message_typed. cbn. unfold constant. typed. Qed.

Lemma stamp_fields_typed s v ok ck m :
  opt_is is_u32 v = true -> message_typed m = true -> message_typed (LXMessage.set_stamp_fields s v ok ck m) = true.
Proof. destruct m. unfold message_typed. cbn. typed. Qed.

Lemma ensure_stamp_typed draws m :
  message_typed m = true -> message_typed (LXMessage.ensure_stamp draws m).1 = true.
Proof.
  intros Hm. unfold LXMessage.ensure_stamp. destruct (LXMessage.m_stamp m); [done|].
  destruct (LXMessage.m_message_id m) as [id|]; [|done].
  destruct (LXMessage.stamp_with_ticket id m) as [m'|] eqn:Ht.
  - unfold LXMessage.stamp_with_ticket in Ht. destruct (LXMessage.m_outbound_ticket m) as [tk|]; [|done].
    simpl in Ht. destruct (Nat.eqb _ _); [|done]. injection Ht as <-. by apply stamp_fields_typed.
  - unfold LXMessage.stamp_with_work. destruct (LXMessage.m_stamp_cost m) as [c|]; [|done].
    destruct (generate_stamp _ _ _ _) as [[st|] v] eqn:Hg; [|done].
    apply generate_stamp_Some in Hg as (wb & _ & _ & ->). apply stamp_fields_typed; [apply stamp_value_u32|done].
Qed.

Lemma encode_typed draws k m :
  message_typed m = true -> message_typed (LXMessage.encode_signed draws k m).1 = true.
Proof.
  intros Hm. unfold LXMessage.encode_signed, mbind, stres_bind, st_get, st_modify.
  destruct (LXMessage.pack_payload false m) as [payload|e]; [|done]. cbn [result_bind].
  set (m1 := LXMessage.set_identity _ (Some _) m).
  assert (H1 : message_typed m1 = true) by (by destruct m).
  destruct (negb (LXMessage.m_defer_stamp m1)).
  - pose proof (ensure_stamp_typed draws m1 H1) as H2.
    destruct (LXMessage.ensure_stamp draws m1) as [m2 [[]|e]]; [|done]. by destruct m2.
  - by destruct m1.
Qed.

Lemma method_typed c m :
  is_u8 c = true -> message_typed m = true -> message_typed (m {{ LXMessage.m_method := Some c }}) = true.
Proof. destruct m. unfold message_typed. cbn. unfold constant. typed. Qed.

Lemma representation_typed c m :
  is_u8 c = true -> message_typed m = true -> message_typed (m {{ LXMessage.m_representation := c }}) = true.
Proof. destruct m. unfold message_typed. cbn. unfold constant. typed. Qed.

Lemma deliver_typed o draws mode m :
  message_typed m = true -> message_typed (RnsOutbound.deliver o draws mode m).1 = true.
Proof.
  intros Hm. unfold RnsOutbound.deliver, mbind, stres_bind, st_lift, st_get, st_modify,
    RnsOutbound.set_method, RnsOutbound.encode_for, RnsOutbound.deliver_as_packet_or_resource.
  destruct (RnsOutbound.check_outbound _ _ _) as [[]|e]; [|done]. cbn [map_err].
  pose proof (encode_typed draws (PrivateIdentity.sign_key (in_identity (RnsOutbound.source o)))
    (RnsOutbound.prepare_message o m) ltac:(by destruct m)) as H1.
  destruct (LXMessage.encode_signed _ _ _) as [m1 [packed|e]]; [|done]. cbn [map_err fst] in *.
  destruct mode; unfold st_modify;
    try (destruct (hook_encrypt _ _ _) as [enc|e]; [|by apply method_typed]);
    try (destruct (map_err _ _) as [prop|e]; [|by apply method_typed]);
    try (destruct (Nat.leb _ _)); cbn [fst]; try apply representation_typed; by try apply method_typed.
Qed.

Lemma decode_typed bytes m : LXMessage.decode bytes = Ok m -> message_typed m = true.
Proof.
  unfold LXMessage.decode. destruct (Nat.ltb _ _); [done|]. intros Hm.
  do 3 apply bind_is_Ok in Hm as (? & _ & Hm). apply bind_is_Ok in Hm as (v & _ & Hm). destruct v; try done.
  unfold LXMessage.decode_payload in Hm. destruct l as [|v0 [|v1 [|v2 [|v3 more]]]]; try done.
  repeat (apply bind_is_Ok in Hm as (? & _ & Hm)). by injection Hm as <-.
Qed.

End Messages.

(** * What is read from files *)

Section Loading.
Context `{C : Crypto} `{M : Msgpack} `{HI : HashIter}.

(** A property of the loop variables that every turn keeps. *)
Lemma fold_keys_inv {A} (P : A -> Prop) (f : string -> Value -> A -> A) entries : forall a,
  P a -> (forall k v a, P a -> P (f k v a)) -> P (fold_keys f a entries).
Proof.
  unfold fold_keys. induction entries as [|[k v] rest IH]; intros a Ha Hf; cbn [foldl fst snd]; [done|].
  apply IH; [|done]. destruct (value_as_str k); auto.
Qed.

Definition acc_typed (a : message_acc) : Prop :=
  opt_is is_u32 (a_stamp_cost a) = true /\ opt_is is_u32 (a_stamp_value a) = true /\
  opt_is is_u8 (a_state a) = true /\ opt_is is_u8 (a_method a) = true /\ opt_is is_u8 (a_representation a) = true.

Lemma message_field_typed k v a : acc_typed a -> acc_typed (message_field k v a).
Proof.
  intros Ha. unfold message_field. pose proof (opt_u32_typed v). pose proof (opt_u8_typed v).
  repeat (destruct (String.eqb k _); [destruct a; unfold acc_typed in *; cbn in *; unfold constant; tauto|]).
  done.
Qed.

Lemma message_value_typed v m : decode_message_value v = Ok m -> message_typed m = true.
Proof.
  destruct v; try done. cbn [decode_message_value].
  assert (Ha : acc_typed (fold_keys message_field empty_acc l)) by (by apply fold_keys_inv, message_field_typed).
  revert Ha. generalize (fold_keys message_field empty_acc l) as a. intros a (Hc & Hv & Hs & Hm & Hr) Hd.
  unfold message_of_acc in Hd. do 2 apply bind_is_Ok in Hd as (? & _ & Hd). injection Hd as <-.
  unfold message_typed. cbn. rewrite Hc, Hv, Hm. by rewrite !default_typed.
Qed.

Definition out_typed (a : outbound_acc) : Prop :=
  opt_is is_u64 (o_id a) = true /\ opt_is is_u32 (o_attempts a) = true /\ opt_is is_u64 (o_next_attempt_ms a) = true.

Lemma outbound_field_typed k v a a' : out_typed a -> outbound_field k v a = Ok a' -> out_typed a'.
Proof.
  intros Ha. unfold outbound_field. pose proof as_u64_range. pose proof as_u32_range.
  repeat (destruct (String.eqb k _));
    try (destruct (value_as_i64 v) as [z|]); try (destruct (delivery_mode_from_i64 z)); intros [= <-];
    try done; destruct a; unfold out_typed in *; cbn in *; unfold constant; naive_solver.
Qed.

Lemma outbound_fold_typed entries : forall a a', out_typed a -> outbound_fold entries a = Ok a' -> out_typed a'.
Proof.
  induction entries as [|[k v] rest IH]; intros a a' Ha; cbn [outbound_fold]; [by intros [= <-]|].
  destruct (value_as_str k) as [key|]; [|by apply IH]. intros (a1 & H1 & H2)%bind_is_Ok.
  eapply IH; [by eapply outbound_field_typed|done].
Qed.

Lemma outbound_value_typed v item : outbound_from_value v = Ok item -> item_typed item = true.
Proof.
  destruct v; try done. cbn [outbound_from_value]. intros (a & Ha & Hd)%bind_is_Ok.
  apply outbound_fold_typed in Ha; [|done]. destruct Ha as (Hi & Hat & Hn).
  apply bind_is_Ok in Hd as (id & Hid & Hd). apply bind_is_Ok in Hd as (mode & _ & Hd).
  apply bind_is_Ok in Hd as (att & Hatt & Hd). apply bind_is_Ok in Hd as (nx & Hnx & Hd).
  apply bind_is_Ok in Hd as (mv & _ & Hd). apply bind_is_Ok in Hd as (m & Hm & Hd). injection Hd as <-.
  destruct (o_id a), (o_attempts a), (o_next_attempt_ms a); try done. cbn in *. inv_ok.
  unfold item_typed. cbn. apply message_value_typed in Hm. by rewrite Hi, Hat, Hn, Hm.
Qed.

(** Whatever the files of the outbound directory hold. *)
Lemma load_outbound_typed (disk : FileMessageStore.t) :
  Forall (fun item => item_typed item = true) (FileMessageStore.load_outbound disk).
Proof.
  apply Forall_forall. intros x Hx. unfold FileMessageStore.load_outbound in Hx.
  apply list_elem_of_omap in Hx as (data & _ & Hd). destruct (decode_outbound data) as [item|e] eqn:E; [|done].
  injection Hd as <-. unfold decode_outbound in E. apply bind_is_Ok in E as (v & _ & Hv).
  by apply outbound_value_typed in Hv.
Qed.

Lemma stats_field_typed k v s : stats_typed s = true -> stats_typed (stats_field k v s) = true.
Proof.
  intros Hs. pose proof (opt_u64_typed v) as Hv. unfold stats_field.
  assert (Hd : forall d, is_u64 d = true -> is_u64 (default d (value_to_opt_u64 v)) = true)
    by (intros; by apply default_typed).
  repeat (destruct (String.eqb k _); [destruct s; unfold stats_typed in *; cbn in *; typed|]). done.
Qed.

Lemma load_stats_typed (disk : FileMessageStore.t) : stats_typed (FileMessageStore.load_node_stats disk) = true.
Proof.
  unfold FileMessageStore.load_node_stats, FileMessageStore.load_table.
  destruct (FileMessageStore.node_stats_file disk) as [data|]; [|done].
  destruct (read_value data) as [[]|e]; try done.
  by apply (fold_keys_inv (fun s => stats_typed s = true)); [|apply stats_field_typed].
Qed.

Definition peer_acc_typed (a : peer_acc) : Prop :=
  opt_is is_u64 (pa_last_sync_ms a) = true /\ opt_is is_u64 (pa_last_attempt_ms a) = true /\
  opt_is is_u64 (pa_next_sync_ms a) = true /\ opt_is is_u64 (pa_backoff_ms a) = true /\
  opt_is is_u32 (pa_failures a) = true /\ opt_is is_u64 (pa_last_heard_ms a) = true /\
  opt_is is_u64 (pa_rx_bytes a) = true /\ opt_is is_u64 (pa_tx_bytes a) = true /\
  opt_is is_u64 (pa_messages_offered a) = true /\ opt_is is_u64 (pa_messages_outgoing a) = true /\
  opt_is is_u64 (pa_messages_incoming a) = true /\ opt_is is_u64 (pa_messages_unhandled a) = true.

Lemma failures_typed v : opt_is is_u32 (read_failures v) = true.
Proof.
  unfold read_failures. destruct (value_to_opt_u64 v) as [z|]; [|done]. cbn. unfold try_u32.
  by destruct (is_u32 z) eqn:E.
Qed.

Lemma peer_field_typed k v a : peer_acc_typed a -> peer_acc_typed (peer_field k v a).
Proof.
  intros Ha. unfold peer_field. pose proof (opt_u64_typed v). pose proof (failures_typed v).
  destruct (String.eqb k _); [destruct (value_to_fixed_bytes 16 v); [by destruct a|done]|].
  destruct (String.eqb k _); [destruct v; by destruct a|].
  repeat (destruct (String.eqb k _); [destruct a; unfold peer_acc_typed in *; cbn in *; unfold constant; tauto|]).
  done.
Qed.

Lemma peer_value_typed v p : peer_from_value v = Ok p -> peer_typed p = true.
Proof.
  destruct v; try done. cbn [peer_from_value].
  assert (Ha : peer_acc_typed (fold_keys peer_field empty_peer_acc l)) by (by apply fold_keys_inv, peer_field_typed).
  revert Ha. generalize (fold_keys peer_field empty_peer_acc l) as a.
  intros a (H1 & H2 & H3 & H4 & H5 & H6 & H7 & H8 & H9 & H10 & H11 & H12) Hd.
  unfold peer_of_acc in Hd. apply bind_is_Ok in Hd as (id & _ & Hd). injection Hd as <-.
  unfold peer_typed. cbn. by rewrite !default_typed.
Qed.

Lemma foldl_keeps {A B} (P : A -> Prop) (Q : B -> Prop) (f : A -> B -> A) l a :
  P a -> Forall Q l -> (forall a b, P a -> Q b -> P (f a b)) -> P (foldl f a l).
Proof. intros Ha Hl Hf. revert a Ha. induction Hl; intros a Ha; cbn [foldl]; auto. Qed.

Lemma Forall_any {A} (l : list A) : Forall (fun _ => True) l.
Proof. by apply Forall_forall. Qed.

Lemma load_peers_typed (disk : FileMessageStore.t) :
  map_Forall (fun _ p => peer_typed p = true) (FileMessageStore.load_peers disk).
Proof.
  unfold FileMessageStore.load_peers.
  apply (foldl_keeps _ (fun _ => True)); [apply map_Forall_empty|apply Forall_any|]. intros m data Hm _.
  destruct (read_value data) as [v|e]; [|done]. destruct (peer_from_value v) as [p|e] eqn:E; [|done].
  apply map_Forall_insert_2; [by eapply peer_value_typed|done].
Qed.

Lemma load_costs_typed (disk : FileMessageStore.t) :
  map_Forall (fun _ uc => is_u32 uc.2 = true) (FileMessageStore.load_outbound_stamp_costs disk).
Proof.
  unfold FileMessageStore.load_outbound_stamp_costs, FileMessageStore.load_table.
  destruct (FileMessageStore.outbound_stamp_costs_file disk) as [data|]; [|apply map_Forall_empty].
  destruct (read_value data) as [v|e]; [|apply map_Forall_empty].
  destruct v; try apply map_Forall_empty. cbn [stamp_costs_from_value read_table].
  apply (foldl_keeps _ (fun _ => True)); [apply map_Forall_empty|apply Forall_any|]. intros m [k v] Hm _. cbn [fst snd].
  destruct (value_to_fixed_bytes 16 k) as [key|]; [|done].
  destruct (read_stamp_cost v) as [[t c]|] eqn:E; [|done]. apply map_Forall_insert_2; [|done].
  unfold read_stamp_cost in E. destruct v as [| | | | | | |[|v0 [|v1 more]]| |]; try done.
  destruct (value_to_f64_seconds v0); [|done]. cbn in E. pose proof (opt_u32_typed v1) as Hu.
  destruct (value_to_opt_u32 v1); [|done]. by injection E as <- <-.
Qed.

End Loading.

(** * The router *)

Section Router.
Context `{F : Features} `{IC : IdentityCrypto} `{M : Msgpack} `{HI : HashIter}.
Import RnsRouter.
Implicit Types r : RnsRouter.t FileMessageStore.t.

(** A call of the router with arguments of their types. *)
Inductive typed_step : RnsRouter.t FileMessageStore.t -> RnsRouter.t FileMessageStore.t -> Prop :=
| ty_enqueue r m mode : message_typed m = true -> typed_step r (enqueue m mode r).1
| ty_attempt r draws now : is_u64 now = true -> typed_step r (next_delivery_with_retry draws now r).1
| ty_next r draws now : is_u64 now = true -> typed_step r (next_delivery draws now r).1
| ty_inflight r d sent timeout : is_u64 (qd_id d) = true -> message_typed (qd_message d) = true ->
    is_u64 sent = true -> is_u64 timeout = true -> typed_step r (mark_inflight d sent timeout r)
| ty_delivered r id : typed_step r (mark_delivered id r).1
| ty_failed r id error attempts : is_u32 attempts = true -> typed_step r (mark_failed id error attempts r).1
| ty_poll r now : typed_step r (poll_timeouts now r).1
| ty_receive r packet mode source : typed_step r (receive_packet_with_source packet mode source r).1
| ty_resource r payload source : typed_step r (receive_resource_payload payload source r)
| ty_pop_inbound r : typed_step r (pop_inbound r).1
| ty_pop_failed r : typed_step r (pop_failed r).1
| ty_policy r policy : typed_step r (set_crypto_policy policy r)
| ty_restart r o (disk : FileMessageStore.t) : typed_step r (with_store o disk).

Lemma restore_item_typed items item :
  item_typed item = true -> item_typed (restore_item (restore_base items) item) = true.
Proof.
  intros Hi. unfold restore_item. destruct (restore_base items) as [b|] eqn:Hb; [|done].
  apply restore_base_pos in Hb. destruct (_ && _) eqn:E; [|done].
  destruct item. unfold item_typed in *. cbn in *. unfold constant.
  rewrite !andb_true_iff in *. destruct Hi as [[[Hid Ha] Hn] Hm]. split_and!; try done; unfold_ints; lia.
Qed.

Lemma with_store_typed o (disk : FileMessageStore.t) : router_typed (with_store o disk).
Proof.
  unfold with_store, restore_outbound. cbv zeta.
  apply (foldl_keeps _ (fun item => item_typed item = true)).
  - constructor; cbn; try done; constructor.
  - rewrite sort_by_perm. apply load_outbound_typed.
  - intros r item Hr Hi. apply (restore_item_typed (sort_by q_leb (load_outbound disk))) in Hi.
    pose proof Hi as Hi'. unfold item_typed in Hi'. rewrite !andb_true_iff in Hi'. destruct Hi' as [[[Hid _] _] _].
    destruct Hr as [Hn ? Ho ? ? ?]. destruct r. cbn in *. constructor; cbn; unfold constant; try done.
    + unfold_ints. lia.
    + apply Forall_app_2; [done|by constructor].
Qed.

Lemma attempt_item_typed item : item_typed item = true -> item_typed (attempt_item item) = true.
Proof.
  destruct item as [id m mode att next]. unfold item_typed. cbn. unfold constant. intros Hi.
  rewrite !andb_true_iff in *. destruct Hi as [[[Hid Ha] Hn] Hm]. split_and!; try done; [apply as_u32_range|].
  by apply state_typed.
Qed.

(** The message an attempt leaves. *)
Lemma attempt_typed draws r item rest message out :
  router_typed r -> outbound r = item :: rest -> attempt_delivery draws r item = (message, out) ->
  item_typed item = true /\ message_typed message = true /\ Forall (fun x => item_typed x = true) rest.
Proof.
  intros Hr Ho Hd. pose proof (rt_outbound r Hr) as Hq. rewrite Ho in Hq. apply Forall_cons in Hq as [Hi Hrest].
  split_and!; [done| |done]. unfold attempt_delivery in Hd.
  pose proof (deliver_typed (delivery r) (draws (q_id item) (as_u32 (q_attempts item + 1))) (q_mode item)
    (set_state STATE_SENDING (q_message item))) as Hm. rewrite Hd in Hm. apply Hm. apply state_typed; [done|].
  unfold item_typed in Hi. rewrite !andb_true_iff in Hi. tauto.
Qed.

Lemma requeued_typed r now item message :
  retry r = RetryPolicy_default -> is_u64 now = true -> item_typed item = true -> message_typed message = true ->
  item_typed (requeued r now item message) = true.
Proof.
  intros Hp Hn Hi Hm. unfold item_typed, requeued in *. cbn. rewrite Hp, !andb_true_iff in *.
  destruct Hi as [[[Hid Ha] _] _]. split_and!; try done; [apply as_u32_range|].
  pose proof (retry_delay_nonneg RetryPolicy_default (as_u32 (q_attempts item + 1))) as Hd. cbn in Hd.
  unfold is_u64, sat_add64, u64_max in *. lia.
Qed.

Lemma failure_typed item message err :
  item_typed item = true -> message_typed message = true -> failed_typed (failure item message err) = true.
Proof.
  intros Hi Hm. unfold item_typed, failed_typed, failure in *. cbn. rewrite !andb_true_iff in *.
  destruct Hi as [[[Hid Ha] _] _]. split_and!; [done|apply as_u32_range|by apply state_typed].
Qed.

Lemma retry_attempt_typed draws now r :
  is_u64 now = true -> router_typed r -> router_typed (next_delivery_with_retry draws now r).1.
Proof.
  intros Hn Hr. pose proof (next_delivery_cases draws now r) as Hc.
  destruct (next_delivery_with_retry draws now r) as [r' answer]. cbn [fst].
  destruct Hc as [Hc (Hin & Hnx & _ & Hre & _ & Hfl & _)].
  assert (Hk : Forall (fun x => item_typed x = true) (outbound r') /\
    Forall (fun f => failed_typed f = true) (failed r')).
  { pose proof (rt_failed r Hr) as Hfd. revert Hc. generalize (outbound r') (store r') (failed r').
    intros q st f Hc.
    destruct Hc as [|? ? ? ? Ho ? Hd|? ? ? Ho ? Hd|? ? ? ? Ho ? Hd|? ? ? ? Ho ? Hd].
    - split; [apply Hr|done].
    - by destruct (attempt_typed _ _ _ _ _ _ Hr Ho Hd) as (_ & _ & ?).
    - by destruct (attempt_typed _ _ _ _ _ _ Hr Ho Hd) as (_ & _ & ?).
    - destruct (attempt_typed _ _ _ _ _ _ Hr Ho Hd) as (? & ? & ?).
      split; [done|]. apply Forall_app_2; [done|]. constructor; [by apply failure_typed|done].
    - destruct (attempt_typed _ _ _ _ _ _ Hr Ho Hd) as (? & ? & ?).
      split; [|done]. apply Forall_app_2; [done|]. constructor; [|done].
      apply requeued_typed; try done. apply Hr. }
  destruct Hr. constructor; rewrite ?Hin, ?Hnx, ?Hre, ?Hfl; tauto.
Qed.

Lemma attempt_once_typed draws now r : router_typed r -> router_typed (next_delivery draws now r).1.
Proof.
  intros Hr. unfold next_delivery. destruct (outbound r) as [|item rest] eqn:Ho; [done|].
  destruct (now <? _); [done|]. cbv zeta. destruct Hr as [? ? Hq ? ? ?]. rewrite Ho in Hq.
  apply Forall_cons in Hq as [_ Hq]. destruct (RnsOutbound.deliver _ _ _ _) as [m [out|e]]; cbn [fst sent];
    destruct r; cbn in *; by constructor.
Qed.

Lemma mark_failed_typed id error attempts r :
  is_u32 attempts = true -> router_typed r -> router_typed (mark_failed id error attempts r).1.
Proof.
  intros Ha Hr. unfold mark_failed. destruct (inflight r !! id) as [i|] eqn:Hi; [|done].
  destruct Hr as [? ? ? Hf ? Hfl]. destruct (Hfl id i Hi) as [Hid Hit]. unfold inflight_typed in Hit.
  rewrite !andb_true_iff in Hit. destruct Hit as [[[Hu _] _] Hm].
  pose proof (state_typed STATE_FAILED _ eq_refl Hm) as Hs. subst id. destruct r. cbn in *.
  constructor; cbn; unfold constant; try done.
  - apply Forall_app_2; [done|]. constructor; [|done]. unfold failed_typed. rewrite !andb_true_iff.
    split_and!; [exact Hu|exact Ha|exact Hs].
  - intros j x [_ Hx]%lookup_delete_Some. by apply Hfl.
Qed.

Lemma typed_step_keeps r r' : typed_step r r' -> router_typed r -> router_typed r'.
Proof.
  intros Hstep Hr. destruct Hstep as [r m mode Hm|r draws now Hn|r draws now Hn|r d st to Hd Hm Hs Ht|r id|r id e a Ha
    |r now|r packet mode source|r payload source|r|r|r policy|r o disk].
  - pose proof (state_typed STATE_OUTBOUND m eq_refl Hm) as Hs. destruct Hr as [Hn ? Ho ? ? ?]. destruct r. cbn in *.
    constructor; cbn; unfold constant; try done.
    + apply as_u64_range.
    + apply Forall_app_2; [done|]. constructor; [|done]. unfold item_typed. rewrite !andb_true_iff.
      split_and!; [exact Hn|done|done|exact Hs].
  - by apply retry_attempt_typed.
  - by apply attempt_once_typed.
  - destruct Hr. destruct r. cbn in *. constructor; cbn; unfold constant; try done.
    apply map_Forall_insert_2; [|done]. split; [done|]. unfold inflight_typed. rewrite !andb_true_iff.
    split_and!; [exact Hd|exact Hs|exact Ht|by apply (state_typed STATE_SENT)].
  - unfold mark_delivered. destruct (inflight r !! id); [|done]. destruct Hr as [? ? ? ? ? Hfl]. destruct r. cbn in *.
    constructor; cbn; unfold constant; try done. intros j x [_ Hx]%lookup_delete_Some. by apply Hfl.
  - by apply mark_failed_typed.
  - unfold poll_timeouts. apply (foldl_keeps (fun acc => router_typed acc.1) (fun _ => True)); [done|apply Forall_any|].
    intros acc id Hacc _. unfold fail_expired.
    pose proof (mark_failed_typed id "delivery timeout" 0 acc.1 eq_refl Hacc) as Hm.
    by destruct (mark_failed _ _ _ _) as [r' [f|]].
  - unfold receive_packet_with_source.
    destruct (decode_packet_with_source packet mode source) as [x|e] eqn:E; [|done].
    assert (Hx : received_typed x = true).
    { destruct x as [m| | | | |]; try done. unfold decode_packet_with_source, decode_propagated_payload in E. cbn.
      destruct mode; try done;
        try (destruct (LXMessage.decode _) as [m'|] eqn:Ed; [|done]; injection E as <-; by apply decode_typed in Ed).
      apply bind_is_Ok in E as (v & _ & Hv). repeat (case_match; try done). }
    assert (Hin : Forall (fun x => received_typed x = true) (inbound r ++ [x])).
    { apply Forall_app_2; [apply Hr|by constructor]. }
    destruct Hr. destruct x as [m| | | | |]; try (destruct r; by constructor).
    destruct (LXMessage.m_message_id m); [destruct (DeliveredCache.seen_before _ _)|];
      destruct r; by constructor.
  - destruct Hr as [? ? ? ? Hi ?]. destruct r. cbn in *. constructor; cbn; unfold constant; try done.
    apply Forall_app_2; [done|by constructor].
  - unfold pop_inbound. destruct (inbound r) as [|x rest] eqn:E; [done|]. destruct Hr as [? ? ? ? Hi ?].
    rewrite E in Hi. apply Forall_cons in Hi as [_ Hi]. destruct r. by constructor.
  - unfold pop_failed. destruct (failed r) as [|x rest] eqn:E; [done|]. destruct Hr as [? ? ? Hi ? ?].
    rewrite E in Hi. apply Forall_cons in Hi as [_ Hi]. destruct r. by constructor.
  - destruct Hr. destruct r. by constructor.
  - apply with_store_typed.
Qed.

End Router.

#[local] Existing Instance toy_features.
#[local] Existing Instance toy_crypto.
#[local] Existing Instance toy_identity.
#[local] Existing Instance bit_codec.
#[local] Existing Instance key_order.
#[local] Existing Instance bit_codec_laws.

(** C13. State is well typed, whatever the files hold.  From a start on any disk,
    with files that are damaged or were written by someone else, through any
    calls with arguments of their types (messages queued, attempts, deliveries
    in flight, failures, timeouts, packets received, restarts on further disks),
    the identifiers, attempts, times, costs, states and methods of the queue,
    the failures, the received messages and the deliveries in flight are in the
    ranges of their Rust types, and the next identifier is too; so are the peers,
    the statistics and the stamp costs loaded from that disk. *)
Theorem state_typed_on_any_disk `{Features} `{IdentityCrypto} `{Msgpack} `{HashIter} (o : RnsOutbound.t)
  (disk : FileMessageStore.t) (r : RnsRouter.t FileMessageStore.t)
  (Hrun : rtc typed_step (RnsRouter.with_store o disk) r) :
  router_typed r /\
  map_Forall (fun _ p => peer_typed p = true) (FileMessageStore.load_peers disk) /\
  stats_typed (FileMessageStore.load_node_stats disk) = true /\
  map_Forall (fun _ uc => is_u32 uc.2 = true) (FileMessageStore.load_outbound_stamp_costs disk).
Proof.
  split_and!; [|apply load_peers_typed|apply load_stats_typed|apply load_costs_typed].
  pose proof (with_store_typed o disk) as Hstart. induction Hrun; [done|]. eauto using typed_step_keeps.
Qed.

(** A file no router wrote: a negative identifier and too many attempts. *)
Definition odd_item : Value :=
  VMap [(VString "id", Integer (-1)); (VString "mode", Integer 1); (VString "attempts", Integer (2 ^ 40 + 7));
        (VString "next_attempt_ms", Integer (-5));
        (VString "message", VMap [(VString "dest", Binary (arr_zero 16)); (VString "src", Binary (arr_zero 16));
                                  (VString "state", Integer 1000); (VString "stamp_cost", Integer (-2))])].
Definition odd_disk : FileMessageStore.t :=
  FileMessageStore.new {{ FileMessageStore.outbound_dir := {["odd" := default [] (res_ok (rns_write odd_item))]} }}.

Example odd_item_read :
  map (fun item => (q_id item, q_attempts item, LXMessage.m_state (q_message item)))
    (FileMessageStore.load_outbound odd_disk) = [(u64_max, 7, 232)].
Proof. vm_compute. reflexivity. Qed.

Lemma state_typed_on_any_disk_witness :
  router_typed (RnsRouter.enqueue sample_message Direct (RnsRouter.with_store sample_outbound odd_disk)).1.
Proof.
  refine (proj1 (state_typed_on_any_disk sample_outbound odd_disk _ _)).
  apply rtc_once, ty_enqueue. vm_compute. reflexivity.
Defined.
