(* ===== verification/Api.v ===== *)
(** The rest of the public surface of the LXMF crate: requests, responses and
    directory packets addressed by identity ([RnsNodeRouter] of
    [lxmf-rs/src/rns/transport.rs]), the constructors of [RnsRouter], and the
    constructor and setters of [LxmfRouter] ([lxmf-rs/src/rns/router.rs]) that a
    program embedding the crate calls; and the exchange of two directories of
    propagation nodes over packets. *)

From Stdlib Require Import ZArith Lia.
From Stdlib Require Import Strings.Byte.
From stdpp Require Import base gmap strings numbers list.
From coqutil Require Import Datatypes.RecordSetters.
From S2P Require Import Prelude Float Msgpack Crypto Buffer Packet Identity Destination Stamp Message Rns.
From S2P Require Import Delivery Requests PnDirectory PropStore Peer StorageCodec StorageTables MessageStore.
From S2P Require Import Outbound Tickets Runtime Messaging Links Router Resource ReqTracker Transport Node.
Import DoubleBraceUpdate.

Local Open Scope Z_scope.

(** * Sending to an identity *)

Module NodeApi.
Section Operations.
Context `{F : Features} `{IC : IdentityCrypto} `{M : Msgpack} `{R : Rmp} `{HI : HashIter}.
Import RnsNodeRouter.

Definition pn_name : Hash := DestinationName.new (bytes_of_string "lxmf") (bytes_of_string "pn").
Definition req_name : Hash := DestinationName.new (bytes_of_string "lxmf") (bytes_of_string "req").

Definition address_hash_to_array (hash : AddressHash) : result RnsError (arr 16) :=
  let bytes := arr_list hash in
  if negb (Nat.eqb (length bytes) DESTINATION_LENGTH) then Err RnsInvalidDestinationHash
  else Ok (arr_of 16 bytes).

Definition build_pn_dir_request_packet (destination : Identity.t) (req : PnDirRequest) : result RnsError Packet :=
  payload ← encode_pn_dir_request req;
  packet_from_payload_with_context (SingleOutput_new destination pn_name) payload Single Request.

Definition build_pn_dir_response_packet (destination : Identity.t) (resp : PnDirResponse) : result RnsError Packet :=
  payload ← encode_pn_dir_response resp;
  packet_from_payload_with_context (SingleOutput_new destination pn_name) payload Single Response.

(** [self.transport.send_packet(packet).await] after a packet was built. *)
Definition send_built (packet : result RnsError Packet) (now : Z) (n : t) : effect t :=
  match packet with
  | Ok packet => let '(h, outs) := Transport.send_packet now packet (transport n) in
                 Ok (n {{ transport := h }}, outs)
  | Err e => Err (Fails e)
  end.

Definition send_pn_dir_request (destination : Identity.t) (req : PnDirRequest) (now : Z) (n : t) : effect t :=
  send_built (build_pn_dir_request_packet destination req) now n.

Definition send_pn_dir_response (destination : Identity.t) (resp : PnDirResponse) (now : Z) (n : t) : effect t :=
  send_built (build_pn_dir_response_packet destination resp) now n.

Definition build_request_packet (destination : Identity.t) (req : RnsRequest) :
    result RnsError (RnsRequest * Packet) :=
  payload ← encode_request_bytes req;
  let dest := SingleOutput_new destination req_name in
  destination_hash ← address_hash_to_array (d_address_hash (out_desc dest));
  packet ← packet_from_payload_with_context dest payload Single Request;
  Ok (req {{ req_request_id := request_id_for_destination destination_hash payload }}, packet).

Definition build_response_packet (destination : Identity.t) (resp : RnsResponse) : result RnsError Packet :=
  payload ← encode_response_bytes resp;
  packet_from_payload_with_context (SingleOutput_new destination req_name) payload Single Response.

Definition send_request (destination : Identity.t) (req : RnsRequest) (ivs : nat -> AddressHash -> arr 16)
    (now : Z) (n : t) : RnsRequest * effect t :=
  match encode_request_bytes req with
  | Err e => (req, Err (Fails e))
  | Ok payload =>
      if Nat.leb (length payload) PACKET_MDU then
        match build_request_packet destination req with
        | Ok (req, packet) => let '(h, outs) := Transport.send_packet now packet (transport n) in
                              (req, Ok (n {{ transport := h }}, outs))
        | Err e => (req, Err (Fails e))
        end
      else
        let dest := SingleOutput_new destination req_name in
        let req := ensure_request_id req payload in
        (req, send_resource_frames (d_address_hash (out_desc dest)) payload (Some (req_request_id req)) false true
                ivs now n)
  end.

Definition send_response (destination : Identity.t) (resp : RnsResponse) (ivs : nat -> AddressHash -> arr 16)
    (now : Z) (n : t) : effect t :=
  match encode_response_bytes resp with
  | Err e => Err (Fails e)
  | Ok payload =>
      if Nat.leb (length payload) PACKET_MDU then send_built (build_response_packet destination resp) now n
      else
        let dest := SingleOutput_new destination req_name in
        send_resource_frames (d_address_hash (out_desc dest)) payload (Some (resp_request_id resp)) true false
          ivs now n
  end.

End Operations.
End NodeApi.

(** * Constructors and setters *)

Module RouterApi.
Section Operations.
Context `{F : Features} `{IC : IdentityCrypto} `{M : Msgpack} `{D : F64Display} `{P : F64Parse} `{HI : HashIter}.

(** [RnsRouter::new], [RnsRouter::with_retry] and [RnsRouter::with_pn_directory]. *)
Definition rns_new (delivery : RnsOutbound.t) : RnsRouter.t InMemoryStore.t :=
  RnsRouter.empty delivery RetryPolicy_default InMemoryStore.new.
Definition rns_with_retry (delivery : RnsOutbound.t) (retry : RetryPolicy) : RnsRouter.t InMemoryStore.t :=
  RnsRouter.empty delivery retry InMemoryStore.new.
Definition rns_with_pn_directory (delivery : RnsOutbound.t) (directory : PnDirectory) : RnsRouter.t InMemoryStore.t :=
  (rns_new delivery) {{ RnsRouter.pn_dir := Some directory }}.

Context {S : Type} `{MS : MessageStore S}.
Abbreviation node := (Router.t S).

Definition receive_packet (packet : Packet) (mode : DeliveryMode) : stres (RnsRouter.t S) RnsError unit :=
  RnsRouter.receive_packet_with_source packet mode None.

(** [LxmfRuntime::set_config] *)
Definition set_config (config : RuntimeConfig) (r : LxmfRuntime.t S) : LxmfRuntime.t S :=
  r {{ LxmfRuntime.config := config }}.

(** [LxmfRouter::new]; the channel of the stamp thread, which it leaves to be
    made later, starts empty either way. *)
Definition new (router : RnsRouter.t S) (system_now_ms : Z) : node :=
  let local := Router.local_identity_hash router in
  Router.mk S _ _
    (LxmfRouter.mk S _ _ (LxmfRuntime.new router) ∅ ∅ ∅ TicketStore.default_ [] true ∅ ∅ None [] [] false)
    Downloads.new PeerTable.new ∅ ∅ false PnDir.new
    PropagationStore.new None ∅ (mkStats 0 0 0 0) [] ∅ [] [] [] {[local]} false system_now_ms
    (f64_of_Z 1000) (f64_of_Z 256) (f64_mul (f64_of_Z 256) (f64_of_Z 40)) 26 None None false
    (Some (mkPeeringValidation local DEFAULT_PEERING_COST))
    (Some (mkPropagationValidation DEFAULT_PROPAGATION_STAMP_COST DEFAULT_PROPAGATION_STAMP_FLEX))
    false [] ∅ None true [].

(** [root] is the disk at the new root. *)
Definition set_persistence_root (root : option FileMessageStore.t) : node -> node :=
  Router.with_messaging (fun m => m {{ LxmfRouter.persistence := root }}).

Definition with_downloads (f : Downloads.t -> Downloads.t) (x : node) : node :=
  x {{ Router.downloads := f (Router.downloads x) }}.

Definition set_propagation_transfer_state (state : Z) : node -> node :=
  with_downloads (fun d => d {{ Downloads.propagation_transfer_state := state }}).
Definition set_propagation_transfer_last_result (result : option Z) : node -> node :=
  with_downloads (fun d => d {{ Downloads.propagation_transfer_last_result := result }}).
Definition set_propagation_transfer_progress (progress : f64) : node -> node :=
  with_downloads (fun d => d {{ Downloads.propagation_transfer_progress := progress }}).
Definition set_wants_download_on_path_available_from (from : option (arr 16)) : node -> node :=
  with_downloads (fun d => d {{ Downloads.wants_download_on_path_available_from := from }}).
Definition set_wants_download_on_path_available_to (to : option (arr 16)) : node -> node :=
  with_downloads (fun d => d {{ Downloads.wants_download_on_path_available_to := to }}).
Definition set_wants_download_on_path_available_timeout (timeout : option Z) : node -> node :=
  with_downloads (fun d => d {{ Downloads.wants_download_on_path_available_timeout := timeout }}).
Definition set_propagation_transfer_max_messages (max : option Z) : node -> node :=
  with_downloads (fun d => d {{ Downloads.propagation_transfer_max_messages := max }}).
Definition set_propagation_transfer_last_duplicates (count : option Z) : node -> node :=
  with_downloads (fun d => d {{ Downloads.propagation_transfer_last_duplicates := count }}).

Definition add_direct_link (link_id : arr 16) (now_ms : Z) : node -> node :=
  with_downloads (Downloads.with_tracker (LinkTracker.add_direct_link link_id now_ms)).
Definition add_propagation_link (link_id : arr 16) (now_ms : Z) : node -> node :=
  with_downloads (Downloads.with_tracker (LinkTracker.add_propagation_link link_id now_ms)).
Definition set_outbound_propagation_link (link_id : arr 16) (now_ms : Z) : node -> node :=
  with_downloads (Downloads.with_tracker (LinkTracker.set_outbound_propagation_link link_id now_ms)).
Definition mark_outbound_propagation_link_closed : node -> node :=
  with_downloads (Downloads.with_tracker LinkTracker.mark_outbound_propagation_link_closed).
Definition update_link_activity (link_id : arr 16) (now_ms : Z) : node -> node :=
  with_downloads (Downloads.with_tracker (LinkTracker.update_link_activity link_id now_ms)).
Definition add_validated_peer_link (link_id : arr 16) : node -> node :=
  with_downloads (Downloads.with_tracker (LinkTracker.add_validated_peer_link link_id)).

Definition restore_ticket_store (snapshot : TicketStoreSnapshot) : node -> node :=
  Router.with_messaging (fun m => m {{ LxmfRouter.ticket_store := TicketStore.restore snapshot }}).

Definition next_peer_ready (now_ms : Z) (x : node) : option (arr 16) :=
  PeerTable.next_ready now_ms (Router.peers x).

End Operations.
End RouterApi.

(** * Sending by identity is sending to the address of [lxmf.req] *)

Section Equivalence.
Context `{F : Features} `{IC : IdentityCrypto} `{M : Msgpack} `{R : Rmp} `{HI : HashIter}.
Import RnsNodeRouter.

Definition req_address (destination : Identity.t) : arr 16 :=
  d_address_hash (out_desc (SingleOutput_new destination NodeApi.req_name)).

Lemma address_hash_to_array_ok (h : AddressHash) : NodeApi.address_hash_to_array h = Ok h.
Proof. unfold NodeApi.address_hash_to_array. by rewrite arr_length, Nat.eqb_refl, arr_of_arr. Qed.

Lemma build_request_packet_eq destination req :
  NodeApi.build_request_packet destination req = build_request_packet_for_hash (req_address destination) req.
Proof.
  unfold NodeApi.build_request_packet, build_request_packet_for_hash.
  destruct (encode_request_bytes req); [|done]. cbn [mbind result_bind]. by rewrite address_hash_to_array_ok.
Qed.

(** So what is shown of the forms by address holds of the forms by identity. *)
Lemma send_by_identity destination req resp ivs now (n : t) :
  NodeApi.send_request destination req ivs now n = send_request_to_hash (req_address destination) req ivs now n /\
  NodeApi.send_response destination resp ivs now n = send_response_to_hash (req_address destination) resp ivs now n.
Proof.
  split.
  - unfold NodeApi.send_request, send_request_to_hash. destruct (encode_request_bytes req); [|done].
    by rewrite build_request_packet_eq.
  - reflexivity.
Qed.

Context {S : Type} `{MS : MessageStore S} `{D : F64Display} `{P : F64Parse}.

Lemma new_is_default (router : RnsRouter.t S) now :
  RouterApi.new router now = Router.with_config router RuntimeConfig_default now.
Proof. reflexivity. Qed.

Lemma oversized_refused (h : arr 16) payload ty ctx :
  (PACKET_MDU < length payload)%nat ->
  packet_from_payload_hash_with_context h payload ty ctx = Err (rns_of_ret OutOfMemory).
Proof.
  intros Hlong. unfold packet_from_payload_hash_with_context.
  pose proof (static_write_cases payload (StaticBuffer.new PACKET_MDU) (static_new_wf _)) as Hw.
  change (StaticBuffer.as_slice (StaticBuffer.new PACKET_MDU)) with (@nil byte) in Hw.
  simpl length in Hw. rewrite Nat.add_0_l, (proj2 (Nat.leb_gt _ _)) in Hw by done.
  destruct Hw as (b & ->). done.
Qed.

(** A directory packet that fits is read as what was written. *)
Lemma pn_packet_read (h : arr 16) bs ctx (x : PnDirPacket) :
  (length bs <= PACKET_MDU)%nat ->
  match ctx with
  | Request => PnRequest <$> decode_pn_dir_request bs
  | Response => PnResponse <$> decode_pn_dir_response bs
  | _ => Err (RnsMsgpack "unsupported pn dir packet context")
  end = Ok x ->
  exists p, packet_from_payload_hash_with_context h bs Single ctx = Ok p /\ destination p = h /\
    forall q, q ≡ p -> decode_pn_dir_packet q = Ok x.
Proof.
  intros Hfit Hx. destruct (packet_of_payload h bs Single ctx Hfit) as (p & Hp & _ & Hd & Hc & Ha & _).
  exists p. split_and!; [done|done|]. intros q (_ & _ & _ & _ & Hqc & Hqa). unfold decode_pn_dir_packet.
  by rewrite Hqc, Hc, Hqa, Ha.
Qed.

End Equivalence.

Definition pn_address `{IdentityCrypto} (destination : Identity.t) : arr 16 :=
  d_address_hash (out_desc (SingleOutput_new destination NodeApi.pn_name)).


#[local] Existing Instance toy_features.
#[local] Existing Instance toy_crypto.
#[local] Existing Instance toy_identity.
#[local] Existing Instance bit_codec.
#[local] Existing Instance key_order.
#[local] Existing Instance bit_codec_laws.

Definition small_announce : list byte :=
  default [] (res_ok (write_value (VArray [Nil; Integer 1700000000; Boolean true; Integer 256; Integer 10240;
    VArray [Integer 16; Integer 3; Integer 18]; VMap []]))).
Definition known_directory : PnDirectory := (PnDir.upsert_announce (arr_zero 16) small_announce 5 PnDir.new).1.
Definition known_response : PnDirResponse := RespList (map entry_to_wire (PnDir.list known_directory)).
Definition known_bytes : list byte := default [] (res_ok (encode_pn_dir_response known_response)).
Definition list_bytes : list byte := default [] (res_ok (encode_pn_dir_request ReqList)).

